(** * libmp4tag: box parser, item codec and two-strategy writer

    A shallow embedding of the C sources of libmp4tag
    (file_io.c, buffer.c, string_util.c, mp4_atoms.c, mp4_parser.c,
    mp4_tags.c, mp4tag.c) together with the properties of its
    specification that were checked against it.

    Conventions of the embedding.
    - A byte is a [byte] of the standard library; a buffer, a file and a
      C string (the bytes before its terminator) are [list byte].
    - [int64_t] values are integers of [Z]; sums and differences of
      [int64_t] are exact (C leaves signed overflow undefined).  Every
      conversion to an unsigned type is written out with [u8], [u16],
      [u32], and the reinterpretation of 64 raw bits as [int64_t] with
      [to_int64].
    - Error codes are the C integers of mp4tag_error.h.
    - A function that takes a [file_handle_t *] is a state transformer on
      [file_handle]; a [while] loop is [while_loop] applied to its body,
      with a number of iterations computed from the handle and proved
      sufficient ([None] stands for an exhausted bound).
    - The operating system is part of the handle: the bytes of the file
      behind the descriptor, and the list [fd_faults] of the answers it
      will give to the next system calls ([true]: the call fails).
    - [malloc], [calloc] and [realloc] succeed. *)

From Stdlib Require Import Strings.String.
From Stdlib Require Import ZArith List Lia Bool.
From Stdlib Require Import Strings.Byte.
Import Datatypes List.
Import ListNotations.
Local Open Scope Z_scope.

Set Implicit Arguments.

(* ------------------------------------------------------------------ *)
(** * Machine integers and bytes                                        *)
(* ------------------------------------------------------------------ *)

Definition u8  (z : Z) : Z := z mod 256.
Definition u16 (z : Z) : Z := z mod 65536.
Definition u32 (z : Z) : Z := z mod 4294967296.
Definition u64 (z : Z) : Z := z mod 18446744073709551616.

(** The value of 64 raw bits read as an [int64_t]. *)
Definition to_int64 (z : Z) : Z :=
  let w := u64 z in
  if w <? 9223372036854775808 then w else w - 18446744073709551616.

Definition b2z (b : byte) : Z := Z.of_N (Byte.to_N b).

(** [(uint8_t) z] as a byte. *)
Definition z2b (z : Z) : byte :=
  match Byte.of_N (Z.to_N (u8 z)) with
  | Some b => b
  | None => x00
  end.

(** A C string literal. *)
Definition cs (s : String.string) : list byte := String.list_byte_of_string s.
Arguments cs s%_string_scope.

Definition len {A} (l : list A) : Z := Z.of_nat (length l).

(** [count] elements of [l] from index [off] on (fewer at the end). *)
Definition slice {A} (l : list A) (off count : Z) : list A :=
  firstn (Z.to_nat count) (skipn (Z.to_nat off) l).

(** Big-endian value of a byte sequence:
    [(b0 << 8*(n-1)) | ... | b(n-1)]. *)
Definition be_value (bs : list byte) : Z :=
  fold_left (fun acc b => Z.lor (Z.shiftl acc 8) (b2z b)) bs 0.

Definition be16_bytes (v : Z) : list byte :=
  [z2b (Z.shiftr v 8); z2b v].

Definition be32_bytes (v : Z) : list byte :=
  [z2b (Z.shiftr v 24); z2b (Z.shiftr v 16); z2b (Z.shiftr v 8); z2b v].

(* ------------------------------------------------------------------ *)
(** * Error codes (mp4tag_error.h)                                      *)
(* ------------------------------------------------------------------ *)

Definition MP4TAG_OK : Z := 0.
Definition MP4TAG_ERR_INVALID_ARG : Z := -1.
Definition MP4TAG_ERR_NO_MEMORY : Z := -2.
Definition MP4TAG_ERR_IO : Z := -3.
Definition MP4TAG_ERR_NOT_OPEN : Z := -4.
Definition MP4TAG_ERR_ALREADY_OPEN : Z := -5.
Definition MP4TAG_ERR_READ_ONLY : Z := -6.
Definition MP4TAG_ERR_NOT_MP4 : Z := -10.
Definition MP4TAG_ERR_BAD_BOX : Z := -11.
Definition MP4TAG_ERR_CORRUPT : Z := -12.
Definition MP4TAG_ERR_TRUNCATED : Z := -13.
Definition MP4TAG_ERR_UNSUPPORTED : Z := -14.
Definition MP4TAG_ERR_NO_TAGS : Z := -20.
Definition MP4TAG_ERR_TAG_NOT_FOUND : Z := -21.
Definition MP4TAG_ERR_TAG_TOO_LARGE : Z := -22.
Definition MP4TAG_ERR_NO_SPACE : Z := -30.
Definition MP4TAG_ERR_WRITE_FAILED : Z := -31.
Definition MP4TAG_ERR_SEEK_FAILED : Z := -32.
Definition MP4TAG_ERR_RENAME_FAILED : Z := -33.

(* ------------------------------------------------------------------ *)
(** * Programs over a state, loops                                      *)
(* ------------------------------------------------------------------ *)

Section Prog.
Context {St : Type}.

(** A computation on a state [St]; [None] is an exhausted loop bound. *)
Definition prog (A : Type) : Type := St -> option (A * St).

Definition ret {A} (a : A) : prog A := fun st => Some (a, st).

Definition bind {A B} (c : prog A) (k : A -> prog B) : prog B :=
  fun st => match c st with
            | Some (a, st') => k a st'
            | None => None
            end.

Definition get : prog St := fun st => Some (st, st).
Definition put (st : St) : prog unit := fun _ => Some (tt, st).

(** [while (1) { body }]: the body answers [inl s] to go round again
    with the loop variables [s], and [inr r] to leave the loop
    ([break], [return], or a false loop condition). *)
Fixpoint while_loop {S R} (fuel : nat) (body : S -> prog (S + R)) (s : S)
  : prog R :=
  match fuel with
  | O => fun _ => None
  | Datatypes.S fuel' =>
      bind (body s) (fun x =>
        match x with
        | inl s' => while_loop fuel' body s'
        | inr r => ret r
        end)
  end.

(** Total correctness: [c] started in [st] returns, and its result and
    final state satisfy [Q]. *)
Definition runs {A} (c : prog A) (st : St) (Q : A -> St -> Prop) : Prop :=
  exists a st', c st = Some (a, st') /\ Q a st'.
End Prog.

Arguments prog : clear implicits.

Declare Scope prog_scope.
Delimit Scope prog_scope with prog.
Notation "x <- c ;; k" := (bind c (fun x => k))
  (at level 61, c at next level, right associativity) : prog_scope.
Notation "' p <- c ;; k" := (bind c (fun x => let 'p := x in k))
  (at level 61, p pattern, c at next level, right associativity) : prog_scope.
Notation "c ;; k" := (bind c (fun _ => k))
  (at level 61, right associativity) : prog_scope.
Local Open Scope prog_scope.

(* ------------------------------------------------------------------ *)
(** * Buffered file I/O (file_io.c)                                     *)
(* ------------------------------------------------------------------ *)

Definition READ_BUF_SIZE : Z := 8192.

(** [struct file_handle], with the file behind [fd] and the behaviour of
    the operating system on it.  [buf] is the valid part of the read
    buffer, so [buf_len] is its length. *)
Record file_handle : Type := mk_file_handle {
  fd_data   : list byte;
  fd_faults : list bool;
  writable  : bool;
  file_size_field : Z;
  pos       : Z;
  buf       : list byte;
  buf_start : Z
}.

Definition buf_len (fh : file_handle) : Z := len (buf fh).

Definition set_pos (fh : file_handle) (p : Z) : file_handle :=
  mk_file_handle (fd_data fh) (fd_faults fh) (writable fh)
                 (file_size_field fh) p (buf fh) (buf_start fh).

Definition set_buf (fh : file_handle) (start : Z) (b : list byte)
  : file_handle :=
  mk_file_handle (fd_data fh) (fd_faults fh) (writable fh)
                 (file_size_field fh) (pos fh) b start.

Definition set_faults (fh : file_handle) (f : list bool) : file_handle :=
  mk_file_handle (fd_data fh) f (writable fh)
                 (file_size_field fh) (pos fh) (buf fh) (buf_start fh).

Definition set_data (fh : file_handle) (d : list byte) : file_handle :=
  mk_file_handle d (fd_faults fh) (writable fh)
                 (file_size_field fh) (pos fh) (buf fh) (buf_start fh).

Definition set_file_size (fh : file_handle) (n : Z) : file_handle :=
  mk_file_handle (fd_data fh) (fd_faults fh) (writable fh)
                 n (pos fh) (buf fh) (buf_start fh).

(** ** System calls *)

(** The next answer of the operating system. *)
Definition os_fault : prog file_handle bool :=
  fun fh => match fd_faults fh with
            | [] => Some (false, fh)
            | f :: rest => Some (f, set_faults fh rest)
            end.

(** [lseek(fd, off, SEEK_SET) >= 0]: a negative offset is refused. *)
Definition sys_lseek (off : Z) : prog file_handle bool :=
  f <- os_fault ;;
  ret (negb f && (0 <=? off)).

(** [read(fd, buf, count)] at offset [off]: [None] for [-1], else the
    bytes read (none at or after the end of the file). *)
Definition sys_read (off count : Z) : prog file_handle (option (list byte)) :=
  f <- os_fault ;;
  fh <- get ;;
  ret (if f then None else Some (slice (fd_data fh) off count)).

(** The file after [bytes] are written at offset [off]; a gap after the
    old end of the file reads as zeros. *)
Definition overwrite (data : list byte) (off : Z) (bytes : list byte)
  : list byte :=
  firstn (Z.to_nat off) (data ++ repeat x00 (Z.to_nat off - length data))
  ++ bytes
  ++ skipn (Z.to_nat off + length bytes) data.

(** [write(fd, src, n)] at offset [off]: [false] for [-1], else all the
    bytes are written. *)
Definition sys_write (off : Z) (bytes : list byte) : prog file_handle bool :=
  f <- os_fault ;;
  fh <- get ;;
  if f then ret false
  else put (set_data fh (overwrite (fd_data fh) off bytes)) ;; ret true.

(** [fsync(fd) == 0]. *)
Definition sys_fsync : prog file_handle bool :=
  f <- os_fault ;;
  ret (negb f).

(** ** file_io.c *)

(** The handle [file_open_common] returns for a file with bytes [data]. *)
Definition file_open_common (data : list byte) (faults : list bool)
    (w : bool) : file_handle :=
  mk_file_handle data faults w (len data) 0 [] 0.

Definition file_size (fh : file_handle) : Z := file_size_field fh.

Definition file_seek (offset : Z) : prog file_handle Z :=
  fh <- get ;;
  put (set_pos fh offset) ;;
  ret 0.

Definition file_tell (fh : file_handle) : Z := pos fh.

(** The test of file_read: the position is inside the read buffer. *)
Definition in_read_buffer (fh : file_handle) : bool :=
  (0 <? buf_len fh) && (buf_start fh <=? pos fh)
  && (pos fh <? buf_start fh + buf_len fh).

(** One round of the loop of [file_read]; the loop variables are the
    bytes copied to [dst] so far and [remaining]. *)
Definition file_read_body (s : list byte * Z)
  : prog file_handle (list byte * Z + Z * list byte) :=
  let '(dst, remaining) := s in
  if 0 <? remaining then
    fh <- get ;;
    if in_read_buffer fh then
      let offset := pos fh - buf_start fh in
      let avail := buf_len fh - offset in
      let to_copy := if remaining <? avail then remaining else avail in
      put (set_pos fh (pos fh + to_copy)) ;;
      ret (inl (dst ++ slice (buf fh) offset to_copy, remaining - to_copy))
    else
      seeked <- sys_lseek (pos fh) ;;
      if negb seeked then ret (inr (MP4TAG_ERR_SEEK_FAILED, dst))
      else
        n <- sys_read (pos fh) READ_BUF_SIZE ;;
        match n with
        | None => ret (inr (MP4TAG_ERR_IO, dst))
        | Some bytes =>
            if len bytes =? 0 then ret (inr (MP4TAG_ERR_TRUNCATED, dst))
            else
              fh' <- get ;;
              put (set_buf fh' (pos fh') bytes) ;;
              ret (inl (dst, remaining))
        end
  else ret (inr (0, dst)).

(** [file_read(fh, buf, size)]: the return code and the bytes stored in
    [buf].  Every round either copies a byte or refills the buffer for
    the next round to copy from, hence the bound. *)
Definition file_read (size : Z) : prog file_handle (Z * list byte) :=
  while_loop (S (S (Z.to_nat (2 * size)))) file_read_body ([], size).

(** [file_read_partial]: the count returned ([-1] on error) and the
    bytes read. *)
Definition file_read_partial (size : Z) : prog file_handle (Z * list byte) :=
  fh <- get ;;
  seeked <- sys_lseek (pos fh) ;;
  if negb seeked then ret (-1, [])
  else
    n <- sys_read (pos fh) size ;;
    match n with
    | None => ret (-1, [])
    | Some bytes =>
        fh' <- get ;;
        put (set_buf (set_pos fh' (pos fh' + len bytes)) (buf_start fh') []) ;;
        ret (len bytes, bytes)
    end.

(** [file_write(fh, buf, size)]. *)
Definition file_write (bytes : list byte) : prog file_handle Z :=
  fh <- get ;;
  if negb (writable fh) then ret MP4TAG_ERR_READ_ONLY
  else
    seeked <- sys_lseek (pos fh) ;;
    if negb seeked then ret MP4TAG_ERR_SEEK_FAILED
    else
      ok <- (if 0 <? len bytes then sys_write (pos fh) bytes else ret true) ;;
      if negb ok then ret MP4TAG_ERR_WRITE_FAILED
      else
        fh1 <- get ;;
        let fh2 := set_buf (set_pos fh1 (pos fh1 + len bytes))
                           (buf_start fh1) [] in
        put (if file_size_field fh2 <? pos fh2
             then set_file_size fh2 (pos fh2) else fh2) ;;
        ret 0.

Definition file_sync : prog file_handle Z :=
  ok <- sys_fsync ;;
  ret (if ok then 0 else MP4TAG_ERR_IO).

Definition file_is_writable (fh : file_handle) : bool := writable fh.

(* ------------------------------------------------------------------ *)
(** * Strings (string_util.c) and buffers (buffer.c)                    *)
(* ------------------------------------------------------------------ *)

(** The C string stored in a character array: its bytes before the
    first NUL. *)
Fixpoint c_str (l : list byte) : list byte :=
  match l with
  | [] => []
  | b :: rest => if Byte.eqb b x00 then [] else b :: c_str rest
  end.

Definition strlen (s : list byte) : Z := len s.

(** [if (c >= 'a' && c <= 'z') c -= 32]. *)
Definition upcase (c : Z) : Z :=
  if (97 <=? c) && (c <=? 122) then c - 32 else c.

(** [str_casecmp] on two non-NULL strings; at the end of a string the
    terminator, 0, is compared. *)
Fixpoint str_casecmp_loop (a b : list byte) : Z :=
  match a, b with
  | ca :: a', cb :: b' =>
      if upcase (b2z ca) =? upcase (b2z cb) then str_casecmp_loop a' b'
      else upcase (b2z ca) - upcase (b2z cb)
  | [], [] => 0
  | [], cb :: _ => 0 - b2z cb
  | ca :: _, [] => b2z ca - 0
  end.

Definition str_casecmp (a b : option (list byte)) : Z :=
  match a, b with
  | Some a, Some b => str_casecmp_loop a b
  | None, None => 0
  | _, _ => 1
  end.

(** [str_copy(dst, dst_size, src)] with a non-NULL [dst]: the return
    code and the string left in [dst] (nothing is stored when
    [dst_size] is 0). *)
Definition str_copy (dst_size : Z) (src : option (list byte))
  : Z * option (list byte) :=
  if dst_size =? 0 then (-1, None)
  else match src with
       | None => (0, Some [])
       | Some s =>
           if dst_size <=? strlen s
           then (-1, Some (firstn (Z.to_nat (dst_size - 1)) s))
           else (0, Some s)
       end.

(** A [dyn_buffer_t] is the list of its [size] used bytes. *)
Definition buffer_append (buf data : list byte) : list byte := buf ++ data.
Definition buffer_append_byte (buf : list byte) (b : Z) : list byte :=
  buffer_append buf [z2b b].
Definition buffer_append_zeros (buf : list byte) (count : Z) : list byte :=
  buf ++ repeat x00 (Z.to_nat count).
Definition buffer_append_be32 (buf : list byte) (val : Z) : list byte :=
  buffer_append buf (be32_bytes val).

(* ------------------------------------------------------------------ *)
(** * Box primitives (mp4_atoms.h, mp4_atoms.c)                         *)
(* ------------------------------------------------------------------ *)

Record mp4_box_t : Type := mk_box {
  box_type    : Z;
  box_offset  : Z;
  box_size    : Z;
  data_offset : Z;
  data_size   : Z;
  header_size : Z
}.

Definition MP4_FOURCC (a b c d : Z) : Z :=
  Z.lor (Z.lor (Z.lor (Z.shiftl (u8 a) 24) (Z.shiftl (u8 b) 16))
               (Z.shiftl (u8 c) 8)) (u8 d).

(** The FourCC of a four-character literal. *)
Definition fourcc_of (s : String.string) : Z :=
  match cs s with
  | [a; b; c; d] => MP4_FOURCC (b2z a) (b2z b) (b2z c) (b2z d)
  | _ => 0
  end.
Arguments fourcc_of s%_string_scope.

Definition MP4_BOX_FTYP := Eval cbv in fourcc_of "ftyp".
Definition MP4_BOX_MOOV := Eval cbv in fourcc_of "moov".
Definition MP4_BOX_MDAT := Eval cbv in fourcc_of "mdat".
Definition MP4_BOX_FREE := Eval cbv in fourcc_of "free".
Definition MP4_BOX_SKIP := Eval cbv in fourcc_of "skip".
Definition MP4_BOX_UDTA := Eval cbv in fourcc_of "udta".
Definition MP4_BOX_META := Eval cbv in fourcc_of "meta".
Definition MP4_BOX_ILST := Eval cbv in fourcc_of "ilst".
Definition MP4_BOX_HDLR := Eval cbv in fourcc_of "hdlr".
Definition MP4_BOX_DATA := Eval cbv in fourcc_of "data".

Definition MP4_TAG_NAM  := Eval cbv in MP4_FOURCC 169 110 97 109.
Definition MP4_TAG_ART  := Eval cbv in MP4_FOURCC 169 65 82 84.
Definition MP4_TAG_ALB  := Eval cbv in MP4_FOURCC 169 97 108 98.
Definition MP4_TAG_AART := Eval cbv in fourcc_of "aART".
Definition MP4_TAG_DAY  := Eval cbv in MP4_FOURCC 169 100 97 121.
Definition MP4_TAG_TRKN := Eval cbv in fourcc_of "trkn".
Definition MP4_TAG_DISK := Eval cbv in fourcc_of "disk".
Definition MP4_TAG_GEN  := Eval cbv in MP4_FOURCC 169 103 101 110.
Definition MP4_TAG_GNRE := Eval cbv in fourcc_of "gnre".
Definition MP4_TAG_WRT  := Eval cbv in MP4_FOURCC 169 119 114 116.
Definition MP4_TAG_CMT  := Eval cbv in MP4_FOURCC 169 99 109 116.
Definition MP4_TAG_TOO  := Eval cbv in MP4_FOURCC 169 116 111 111.
Definition MP4_TAG_CPRT := Eval cbv in fourcc_of "cprt".
Definition MP4_TAG_TMPO := Eval cbv in fourcc_of "tmpo".
Definition MP4_TAG_LYR  := Eval cbv in MP4_FOURCC 169 108 121 114.
Definition MP4_TAG_GRP  := Eval cbv in MP4_FOURCC 169 103 114 112.
Definition MP4_TAG_DESC := Eval cbv in fourcc_of "desc".
Definition MP4_TAG_COVR := Eval cbv in fourcc_of "covr".
Definition MP4_TAG_CPIL := Eval cbv in fourcc_of "cpil".
Definition MP4_TAG_PGAP := Eval cbv in fourcc_of "pgap".
Definition MP4_TAG_SONM := Eval cbv in fourcc_of "sonm".
Definition MP4_TAG_SOAR := Eval cbv in fourcc_of "soar".
Definition MP4_TAG_SOAL := Eval cbv in fourcc_of "soal".
Definition MP4_TAG_SOAA := Eval cbv in fourcc_of "soaa".
Definition MP4_TAG_SOCO := Eval cbv in fourcc_of "soco".

Definition MP4_DATA_IMPLICIT : Z := 0.
Definition MP4_DATA_UTF8 : Z := 1.
Definition MP4_DATA_UTF16 : Z := 2.
Definition MP4_DATA_JPEG : Z := 13.
Definition MP4_DATA_PNG : Z := 14.
Definition MP4_DATA_INTEGER : Z := 21.

(** The box a failed [mp4_read_box_header] leaves behind is not read by
    any caller; it is given as [no_box] with the offset stored so far. *)
Definition no_box (offset : Z) : mp4_box_t := mk_box 0 offset 0 0 0 0.

Definition mp4_read_box_header : prog file_handle (Z * mp4_box_t) :=
  fh <- get ;;
  let offset := file_tell fh in
  if offset <? 0 then ret (MP4TAG_ERR_IO, no_box offset)
  else
    '(rc, hdr) <- file_read 8 ;;
    if negb (rc =? 0) then ret (rc, no_box offset)
    else
      let raw_size := be_value (firstn 4 hdr) in
      let type := be_value (skipn 4 hdr) in
      if raw_size =? 1 then
        (* Extended 64-bit size *)
        '(rc, ext) <- file_read 8 ;;
        if negb (rc =? 0) then ret (rc, no_box offset)
        else
          let size := to_int64 (be_value ext) in
          ret (MP4TAG_OK, mk_box type offset size (offset + 16) (size - 16) 16)
      else if raw_size =? 0 then
        (* Box extends to end of file *)
        fh' <- get ;;
        let fs := file_size fh' in
        if fs <? 0 then ret (MP4TAG_ERR_IO, no_box offset)
        else
          let size := fs - offset in
          ret (MP4TAG_OK, mk_box type offset size (offset + 8) (size - 8) 8)
      else
        let size := raw_size in
        ret (MP4TAG_OK, mk_box type offset size (offset + 8) (size - 8) 8).

(** [mp4_fourcc_to_str]: the string in [out]. *)
Definition mp4_fourcc_to_str (fourcc : Z) : list byte :=
  c_str [z2b (Z.land (Z.shiftr fourcc 24) 255);
         z2b (Z.land (Z.shiftr fourcc 16) 255);
         z2b (Z.land (Z.shiftr fourcc 8) 255);
         z2b (Z.land fourcc 255)].

Definition mp4_str_to_fourcc (s : option (list byte)) : Z :=
  match s with
  | None => 0
  | Some s =>
      let a := nth 0 (map b2z s) 0 in
      let b := nth 1 (map b2z s) 0 in
      let c := nth 2 (map b2z s) 0 in
      let d := nth 3 (map b2z s) 0 in
      Z.lor (Z.lor (Z.lor (Z.shiftl a 24) (Z.shiftl b 16)) (Z.shiftl c 8)) d
  end.

Definition mp4_write_box_header (buf : list byte) (type size : Z)
  : list byte :=
  buffer_append_be32 (buffer_append_be32 buf size) type.

(** [mp4_write_free_box]: the return code and the buffer. *)
Definition mp4_write_free_box (buf : list byte) (total_size : Z)
  : Z * list byte :=
  if total_size <? 8 then (-1, buf)
  else (0, buffer_append_zeros
             (mp4_write_box_header buf MP4_BOX_FREE total_size)
             (total_size - 8)).

(* ------------------------------------------------------------------ *)
(** * The C library: [snprintf] and [sscanf] with [%u]                  *)
(* ------------------------------------------------------------------ *)

(** Decimal digits of [v], most significant first, in front of [acc]. *)
Fixpoint utoa_loop (fuel : nat) (v : Z) (acc : list byte) : list byte :=
  let acc' := z2b (48 + v mod 10) :: acc in
  match fuel with
  | O => acc'
  | S fuel' => if v / 10 =? 0 then acc' else utoa_loop fuel' (v / 10) acc'
  end.

(** The text [%u], [%llu] print for an unsigned [v]; a number has no
    more decimal digits than binary ones. *)
Definition utoa (v : Z) : list byte :=
  utoa_loop (Z.to_nat (Z.log2 v)) v [].

(** [snprintf(str, size, ...)] stores at most [size - 1] characters of
    the formatted text. *)
Definition snprintf (size : Z) (text : list byte) : list byte :=
  firstn (Z.to_nat (size - 1)) text.

Definition isspace (b : byte) : bool :=
  (b2z b =? 32) || ((9 <=? b2z b) && (b2z b <=? 13)).

Definition isdigit (b : byte) : bool :=
  (48 <=? b2z b) && (b2z b <=? 57).

Fixpoint skip_space (s : list byte) : list byte :=
  match s with
  | b :: rest => if isspace b then skip_space rest else s
  | [] => []
  end.

Fixpoint scan_digits (acc : Z) (s : list byte) : Z * list byte :=
  match s with
  | b :: rest =>
      if isdigit b then scan_digits (acc * 10 + (b2z b - 48)) rest
      else (acc, s)
  | [] => (acc, [])
  end.

Inductive conversion : Type :=
| Converted (v : Z) (rest : list byte)
| Input_failure
| Matching_failure.

(** One [%u] directive: white space is skipped, then an optional sign
    and a non-empty digit sequence are read; the value is stored in an
    [unsigned]. *)
Definition scan_u (s : list byte) : conversion :=
  match skip_space s with
  | [] => Input_failure
  | b :: rest =>
      let '(neg, s') :=
        if b2z b =? 45 then (true, rest)
        else if b2z b =? 43 then (false, rest)
        else (false, b :: rest) in
      match s' with
      | d :: _ =>
          if isdigit d then
            let '(v, rest') := scan_digits 0 s' in
            Converted (u32 (if neg then - v else v)) rest'
          else Matching_failure
      | [] => Matching_failure
      end
  end.

(** [sscanf(s, "%u", &a)]: the value returned and [a] afterwards. *)
Definition sscanf_u (s : list byte) (a : Z) : Z * Z :=
  match scan_u s with
  | Converted v _ => (1, v)
  | Input_failure => (-1, a)
  | Matching_failure => (0, a)
  end.

(** [sscanf(s, "%u/%u", &a, &b)]: the value returned, [a] and [b]. *)
Definition sscanf_u_slash_u (s : list byte) (a b : Z) : Z * Z * Z :=
  match scan_u s with
  | Converted v rest =>
      match rest with
      | c :: rest' =>
          if b2z c =? 47 then
            match scan_u rest' with
            | Converted w _ => (2, v, w)
            | _ => (1, v, b)
            end
          else (1, v, b)
      | [] => (1, v, b)
      end
  | Input_failure => (-1, a, b)
  | Matching_failure => (0, a, b)
  end.

(* ------------------------------------------------------------------ *)
(** * Tag model (mp4tag_types.h)                                        *)
(* ------------------------------------------------------------------ *)

Definition MP4TAG_TARGET_COLLECTION : Z := 70.
Definition MP4TAG_TARGET_EDITION : Z := 60.
Definition MP4TAG_TARGET_ALBUM : Z := 50.
Definition MP4TAG_TARGET_PART : Z := 40.
Definition MP4TAG_TARGET_TRACK : Z := 30.
Definition MP4TAG_TARGET_SUBTRACK : Z := 20.
Definition MP4TAG_TARGET_SHOT : Z := 10.

(** A [mp4tag_simple_tag_t] node; the list linked by [next] is a [list]
    of nodes, a NULL pointer is [None], and [binary_size] is the length
    of [binary]. *)
#[warnings="-register-all"]
Inductive mp4tag_simple_tag_t : Type := mk_simple_tag {
  st_name       : option (list byte);
  st_value      : option (list byte);
  st_binary     : option (list byte);
  st_language   : option (list byte);
  st_is_default : Z;
  st_nested     : list mp4tag_simple_tag_t
}.

Definition binary_size (st : mp4tag_simple_tag_t) : Z :=
  match st_binary st with
  | Some b => len b
  | None => 0
  end.

Record mp4tag_tag_t : Type := mk_tag {
  target_type     : Z;
  target_type_str : option (list byte);
  track_uids      : list Z;
  edition_uids    : list Z;
  chapter_uids    : list Z;
  attachment_uids : list Z;
  simple_tags     : list mp4tag_simple_tag_t
}.

Record mp4tag_collection_t : Type := mk_collection {
  tags  : list mp4tag_tag_t;
  count : Z
}.

(** What [calloc(1, sizeof(...))] returns. *)
Definition calloc_simple_tag : mp4tag_simple_tag_t :=
  mk_simple_tag None None None None 0 [].
Definition calloc_tag : mp4tag_tag_t := mk_tag 0 None [] [] [] [] [].
Definition calloc_collection : mp4tag_collection_t := mk_collection [] 0.

Definition set_simple_tags (t : mp4tag_tag_t)
    (l : list mp4tag_simple_tag_t) : mp4tag_tag_t :=
  mk_tag (target_type t) (target_type_str t) (track_uids t)
         (edition_uids t) (chapter_uids t) (attachment_uids t) l.

(* ------------------------------------------------------------------ *)
(** * Name <-> FourCC table (mp4_tags.c)                                *)
(* ------------------------------------------------------------------ *)

Definition g_tag_map : list (list byte * Z) :=
  [ (cs "TITLE",             MP4_TAG_NAM);
    (cs "ARTIST",            MP4_TAG_ART);
    (cs "ALBUM",             MP4_TAG_ALB);
    (cs "ALBUM_ARTIST",      MP4_TAG_AART);
    (cs "DATE_RELEASED",     MP4_TAG_DAY);
    (cs "TRACK_NUMBER",      MP4_TAG_TRKN);
    (cs "DISC_NUMBER",       MP4_TAG_DISK);
    (cs "GENRE",             MP4_TAG_GEN);
    (cs "COMPOSER",          MP4_TAG_WRT);
    (cs "COMMENT",           MP4_TAG_CMT);
    (cs "ENCODER",           MP4_TAG_TOO);
    (cs "COPYRIGHT",         MP4_TAG_CPRT);
    (cs "BPM",               MP4_TAG_TMPO);
    (cs "LYRICS",            MP4_TAG_LYR);
    (cs "GROUPING",          MP4_TAG_GRP);
    (cs "DESCRIPTION",       MP4_TAG_DESC);
    (cs "COVER_ART",         MP4_TAG_COVR);
    (cs "COMPILATION",       MP4_TAG_CPIL);
    (cs "GAPLESS",           MP4_TAG_PGAP);
    (cs "SORT_NAME",         MP4_TAG_SONM);
    (cs "SORT_ARTIST",       MP4_TAG_SOAR);
    (cs "SORT_ALBUM",        MP4_TAG_SOAL);
    (cs "SORT_ALBUM_ARTIST", MP4_TAG_SOAA);
    (cs "SORT_COMPOSER",     MP4_TAG_SOCO) ].

Definition mp4_tag_name_to_fourcc (name : option (list byte)) : Z :=
  match name with
  | None => 0
  | Some n =>
      match find (fun m => str_casecmp_loop n (fst m) =? 0) g_tag_map with
      | Some m => snd m
      | None =>
          (* If exactly 4 chars, treat as raw FourCC *)
          if strlen n =? 4 then mp4_str_to_fourcc name else 0
      end
  end.

Definition mp4_tag_fourcc_to_name (fourcc : Z) : option (list byte) :=
  match find (fun m => snd m =? fourcc) g_tag_map with
  | Some m => Some (fst m)
  | None => None
  end.

(* ------------------------------------------------------------------ *)
(** * Parsing: ilst -> collection (mp4_tags.c)                          *)
(* ------------------------------------------------------------------ *)

(** How far the handle can still be read: the end of the file, or of
    the read buffer if that lies beyond it. *)
Definition reach (fh : file_handle) : Z :=
  Z.max (len (fd_data fh)) (buf_start fh + buf_len fh).

(** Bound on the rounds of a loop that walks boxes: every round but the
    last reads a header of 8 bytes at a position that is not negative
    and moves on by the size of the box, at least 8. *)
Definition walk_fuel (fh : file_handle) : nat :=
  S (S (Z.to_nat (reach fh))).

Definition is_int_atom (type : Z) : bool :=
  (type =? MP4_TAG_TRKN) || (type =? MP4_TAG_DISK) ||
  (type =? MP4_TAG_TMPO) || (type =? MP4_TAG_CPIL) ||
  (type =? MP4_TAG_PGAP).

Definition byte_at (l : list byte) (i : nat) : Z := b2z (nth i l x00).

(** [ival = (ival << 8) | int_buf[i]] over the buffer, in [uint64_t]. *)
Definition be_u64 (int_buf : list byte) : Z :=
  fold_left (fun ival b => Z.lor (u64 (Z.shiftl ival 8)) (b2z b)) int_buf 0.

(** The text of a well-known integer atom whose [value_size] payload
    bytes are in [int_buf]. *)
Definition int_atom_value (type : Z) (int_buf : list byte) (value_size : Z)
  : list byte :=
  if ((type =? MP4_TAG_TRKN) || (type =? MP4_TAG_DISK))
     && (6 <=? value_size) then
    let num := u16 (Z.lor (Z.shiftl (byte_at int_buf 2) 8)
                          (byte_at int_buf 3)) in
    let total := u16 (Z.lor (Z.shiftl (byte_at int_buf 4) 8)
                            (byte_at int_buf 5)) in
    if 0 <? total
    then snprintf 32 (utoa num ++ cs "/" ++ utoa total)
    else snprintf 32 (utoa num)
  else if (type =? MP4_TAG_TMPO) && (value_size =? 2) then
    let bpm := u16 (Z.lor (Z.shiftl (byte_at int_buf 0) 8)
                          (byte_at int_buf 1)) in
    snprintf 16 (utoa bpm)
  else if value_size =? 1 then
    snprintf 4 (utoa (byte_at int_buf 0))
  else
    snprintf 32 (utoa (be_u64 int_buf)).

Definition set_value (st : mp4tag_simple_tag_t) (v : option (list byte))
  : mp4tag_simple_tag_t :=
  mk_simple_tag (st_name st) v (st_binary st) (st_language st)
                (st_is_default st) (st_nested st).

Definition set_binary (st : mp4tag_simple_tag_t) (b : option (list byte))
  : mp4tag_simple_tag_t :=
  mk_simple_tag (st_name st) (st_value st) b (st_language st)
                (st_is_default st) (st_nested st).

Definition set_is_default (st : mp4tag_simple_tag_t) (d : Z)
  : mp4tag_simple_tag_t :=
  mk_simple_tag (st_name st) (st_value st) (st_binary st) (st_language st)
                d (st_nested st).

(** The part of [parse_ilst_item] that runs once a ['data'] child with
    at least 8 payload bytes is found: the code returned and [*out]. *)
Definition parse_data_box (item_type : Z) (child : mp4_box_t)
  : prog file_handle (Z * option mp4tag_simple_tag_t) :=
  (* Read type indicator (4 bytes) + locale (4 bytes) *)
  '(rc, hdr) <- file_read 8 ;;
  if negb (rc =? 0) then ret (rc, None)
  else
    let data_type := be_value (firstn 4 hdr) in
    let value_size := data_size child - 8 in
    (* Map the item FourCC to a name *)
    let name :=
      match mp4_tag_fourcc_to_name item_type with
      | Some name => name
      | None => mp4_fourcc_to_str item_type
      end in
    let st := mk_simple_tag (Some name) None None None 0 [] in
    let done (st : mp4tag_simple_tag_t) :=
      ret (MP4TAG_OK, Some (set_is_default st 1)) in
    if is_int_atom item_type && (0 <? value_size) && (value_size <=? 8) then
      '(rc, int_buf) <- file_read value_size ;;
      if negb (rc =? 0) then ret (rc, None)
      else done (set_value st
                   (Some (int_atom_value item_type int_buf value_size)))
    else if (data_type =? MP4_DATA_UTF8) || (data_type =? MP4_DATA_IMPLICIT)
    then
      (* Text data *)
      if 0 <? value_size then
        '(rc, text) <- file_read value_size ;;
        if negb (rc =? 0) then ret (rc, None)
        else done (set_value st (Some (c_str text)))
      else done st
    else if data_type =? MP4_DATA_INTEGER then
      (* Generic integer data *)
      if (0 <? value_size) && (value_size <=? 8) then
        '(rc, int_buf) <- file_read value_size ;;
        if negb (rc =? 0) then ret (rc, None)
        else done (set_value st (Some (snprintf 32 (utoa (be_u64 int_buf)))))
      else done st
    else if (data_type =? MP4_DATA_JPEG) || (data_type =? MP4_DATA_PNG) then
      (* Binary image data *)
      if 0 <? value_size then
        '(rc, binary) <- file_read value_size ;;
        if negb (rc =? 0) then ret (rc, None)
        else done (set_binary st (Some binary))
      else done st
    else
      (* Other binary data *)
      if 0 <? value_size then
        '(rc, binary) <- file_read value_size ;;
        if negb (rc =? 0) then ret (rc, None)
        else done (set_binary st (Some binary))
      else done st.

(** One round of the loop of [parse_ilst_item] on the variable [pos];
    leaving the loop by [break] or by its condition returns
    [MP4TAG_ERR_TAG_NOT_FOUND]. *)
Definition parse_ilst_item_body (item_box : mp4_box_t) (pos : Z)
  : prog file_handle (Z + Z * option mp4tag_simple_tag_t) :=
  let end_ := box_offset item_box + box_size item_box in
  if pos + 8 <=? end_ then
    rc <- file_seek pos ;;
    if negb (rc =? 0) then ret (inr (rc, None))
    else
      '(rc, child) <- mp4_read_box_header ;;
      if negb (rc =? 0) then ret (inr (rc, None))
      else if box_size child <? 8 then
        ret (inr (MP4TAG_ERR_TAG_NOT_FOUND, None))
      else if (box_type child =? MP4_BOX_DATA) && (8 <=? data_size child)
      then
        r <- parse_data_box (box_type item_box) child ;;
        ret (inr r)
      else ret (inl (box_offset child + box_size child))
  else ret (inr (MP4TAG_ERR_TAG_NOT_FOUND, None)).

Definition parse_ilst_item (item_box : mp4_box_t)
  : prog file_handle (Z * option mp4tag_simple_tag_t) :=
  fh <- get ;;
  while_loop (walk_fuel fh) (parse_ilst_item_body item_box)
             (data_offset item_box).

(** [mp4_file_info_t] (mp4_parser.h). *)
Record mp4_file_info_t : Type := mk_info {
  valid : bool;
  ftyp_offset : Z;
  moov_offset : Z;
  moov_size : Z;
  has_udta : bool;
  udta_offset : Z;
  udta_size : Z;
  has_meta : bool;
  meta_offset : Z;
  meta_size : Z;
  meta_has_hdlr : bool;
  has_ilst : bool;
  ilst_offset : Z;
  ilst_size : Z;
  has_free_after_ilst : bool;
  free_after_ilst_offset : Z;
  free_after_ilst_size : Z;
  mdat_offset : Z;
  mdat_size : Z
}.

(** One round of the loop of [mp4_tags_parse_ilst]; the loop variables
    are [pos] and the list [tag->simple_tags]. *)
Definition parse_ilst_body (end_ : Z)
    (s : Z * list mp4tag_simple_tag_t)
  : prog file_handle
      (Z * list mp4tag_simple_tag_t + list mp4tag_simple_tag_t) :=
  let '(pos, sts) := s in
  if pos + 8 <=? end_ then
    rc <- file_seek pos ;;
    if negb (rc =? 0) then ret (inr sts)
    else
      '(rc, item) <- mp4_read_box_header ;;
      if negb (rc =? 0) then ret (inr sts)
      else if box_size item <? 8 then ret (inr sts)
      else
        '(rc, st) <- parse_ilst_item item ;;
        let sts' :=
          match st with
          | Some st => if rc =? MP4TAG_OK then sts ++ [st] else sts
          | None => sts
          end in
        ret (inl (box_offset item + box_size item, sts'))
  else ret (inr sts).

Definition mp4_tags_parse_ilst (info : mp4_file_info_t)
  : prog file_handle (Z * option mp4tag_collection_t) :=
  if negb (has_ilst info) then ret (MP4TAG_ERR_NO_TAGS, None)
  else
    let tag := mk_tag MP4TAG_TARGET_ALBUM None [] [] [] [] [] in
    (* Iterate ilst children *)
    let pos := ilst_offset info + 8 in
    let end_ := ilst_offset info + ilst_size info in
    fh <- get ;;
    sts <- while_loop (walk_fuel fh) (parse_ilst_body end_) (pos, []) ;;
    ret (MP4TAG_OK, Some (mk_collection [set_simple_tags tag sts] 1)).

(* ------------------------------------------------------------------ *)
(** * Serialization: collection -> ilst bytes (mp4_tags.c)              *)
(* ------------------------------------------------------------------ *)

(** The 8-byte packed pair written for [trkn] and [disk]. *)
Definition pair_payload (value : option (list byte)) : list byte :=
  let '(num, total) :=
    match value with
    | Some v =>
        let '(n, num, total) := sscanf_u_slash_u v 0 0 in
        if n <? 1 then (snd (sscanf_u v num), total) else (num, total)
    | None => (0, 0)
    end in
  [x00; x00; z2b (Z.shiftr num 8); z2b num;
   z2b (Z.shiftr total 8); z2b total; x00; x00].

(** [sscanf(st->value, "%u", &x)] into an [x] initialised to 0. *)
Definition scan_value (value : option (list byte)) : Z :=
  match value with
  | Some v => snd (sscanf_u v 0)
  | None => 0
  end.

(** The data type and the content [serialize_tag_item] chooses for a
    tag of the given FourCC; [None] when the tag is skipped. *)
Definition item_content (fourcc : Z) (st : mp4tag_simple_tag_t)
  : option (Z * list byte) :=
  if (fourcc =? MP4_TAG_TRKN) || (fourcc =? MP4_TAG_DISK) then
    (* Integer pair: num/total -> 8-byte packed format *)
    Some (MP4_DATA_IMPLICIT, pair_payload (st_value st))
  else if fourcc =? MP4_TAG_TMPO then
    (* BPM: 2-byte integer *)
    let bpm := scan_value (st_value st) in
    Some (MP4_DATA_INTEGER, [z2b (Z.shiftr bpm 8); z2b bpm])
  else if (fourcc =? MP4_TAG_CPIL) || (fourcc =? MP4_TAG_PGAP) then
    (* Boolean: 1 byte *)
    let val :=
      match st_value st with
      | Some _ => if scan_value (st_value st) =? 0 then 0 else 1
      | None => 0
      end in
    Some (MP4_DATA_INTEGER, buffer_append_byte [] val)
  else if fourcc =? MP4_TAG_COVR then
    (* Cover art: binary *)
    match st_binary st with
    | Some binary =>
        if 0 <? len binary then
          (* Detect JPEG vs PNG *)
          if (4 <=? len binary) && (byte_at binary 0 =? 137)
             && (byte_at binary 1 =? 80)
          then Some (MP4_DATA_PNG, binary)
          else Some (MP4_DATA_JPEG, binary)
        else None
    | None => None
    end
  else if fourcc =? MP4_TAG_GNRE then
    (* Genre number: 2-byte integer *)
    let genre := scan_value (st_value st) in
    Some (MP4_DATA_IMPLICIT, [z2b (Z.shiftr genre 8); z2b genre])
  else
    (* UTF-8 text *)
    Some (MP4_DATA_UTF8,
          match st_value st with Some v => v | None => [] end).

(** [serialize_tag_item]: the buffer afterwards (it returns 0 always). *)
Definition serialize_tag_item (st : mp4tag_simple_tag_t) (buf : list byte)
  : list byte :=
  let fourcc0 := mp4_tag_name_to_fourcc (st_name st) in
  let fourcc :=
    if fourcc0 =? 0 then
      (* Use as raw FourCC if exactly 4 chars, otherwise skip *)
      match st_name st with
      | Some n => if strlen n =? 4 then Some (mp4_str_to_fourcc (st_name st))
                  else None
      | None => None
      end
    else Some fourcc0 in
  match fourcc with
  | None => buf
  | Some fourcc =>
      match item_content fourcc st with
      | None => buf
      | Some (data_type, data_content) =>
          (* data box: header(8) + type_indicator(4) + locale(4) + content *)
          let data_box_size := u32 (8 + 4 + 4 + u32 (len data_content)) in
          (* item box: header(8) + data_box *)
          let item_box_size := u32 (8 + data_box_size) in
          let buf := mp4_write_box_header buf fourcc item_box_size in
          let buf := mp4_write_box_header buf MP4_BOX_DATA data_box_size in
          let buf := buffer_append_be32 buf data_type in
          let buf := buffer_append_be32 buf 0 in
          buffer_append buf data_content
      end
  end.

(** [mp4_tags_serialize_ilst] on a non-NULL collection. *)
Definition mp4_tags_serialize_ilst (coll : mp4tag_collection_t)
    (buf : list byte) : Z * list byte :=
  (MP4TAG_OK,
   fold_left
     (fun buf tag =>
        fold_left
          (fun buf st =>
             match st_name st with
             | None => buf
             | Some _ => serialize_tag_item st buf
             end)
          (simple_tags tag) buf)
     (tags coll) buf).

Definition hdlr_data : list byte :=
  [x00; x00; x00; x00;          (* version + flags *)
   x00; x00; x00; x00;          (* pre-defined *)
   x6d; x64; x69; x72;          (* handler_type = 'mdir' *)
   x61; x70; x70; x6c;          (* reserved (Apple uses 'appl' here) *)
   x00; x00; x00; x00;          (* reserved *)
   x00; x00; x00; x00;          (* reserved *)
   x00].                        (* name (empty C string) *)

(** [mp4_tags_build_udta] on a non-NULL collection. *)
Definition mp4_tags_build_udta (coll : mp4tag_collection_t)
    (buf : list byte) : Z * list byte :=
  let '(rc, ilst_content) := mp4_tags_serialize_ilst coll [] in
  if negb (rc =? 0) then (rc, buf)
  else
    let ilst_size := u32 (8 + u32 (len ilst_content)) in
    let hdlr_size := u32 (8 + u32 (len hdlr_data)) in
    let meta_content_size := u32 (4 + hdlr_size + ilst_size) in
    let meta_size := u32 (8 + meta_content_size) in
    let udta_size := u32 (8 + meta_size) in
    let buf := mp4_write_box_header buf MP4_BOX_UDTA udta_size in
    let buf := mp4_write_box_header buf MP4_BOX_META meta_size in
    let buf := buffer_append_be32 buf 0 in
    let buf := mp4_write_box_header buf MP4_BOX_HDLR hdlr_size in
    let buf := buffer_append buf hdlr_data in
    let buf := mp4_write_box_header buf MP4_BOX_ILST ilst_size in
    let buf := buffer_append buf ilst_content in
    (MP4TAG_OK, buf).

(* ------------------------------------------------------------------ *)
(** * Box-tree parser (mp4_parser.c)                                    *)
(* ------------------------------------------------------------------ *)

(** The major brands of the [switch] of [mp4_validate_ftyp]. *)
Definition major_brands : list Z :=
  [ fourcc_of "isom"; fourcc_of "iso2"; fourcc_of "iso5"; fourcc_of "iso6";
    fourcc_of "mp41"; fourcc_of "mp42"; fourcc_of "M4A "; fourcc_of "M4B ";
    fourcc_of "M4P "; fourcc_of "M4V "; fourcc_of "M4VH"; fourcc_of "avc1";
    fourcc_of "f4v "; fourcc_of "qt  "; fourcc_of "MSNV"; fourcc_of "dash";
    fourcc_of "3gp4"; fourcc_of "3gp5"; fourcc_of "3gp6"; fourcc_of "3g2a" ].

(** The compatible brands of its second [switch]. *)
Definition compatible_brands : list Z :=
  [ fourcc_of "isom"; fourcc_of "mp41"; fourcc_of "mp42"; fourcc_of "M4A ";
    fourcc_of "M4B "; fourcc_of "M4V "; fourcc_of "avc1" ].

(** [switch (x) { case c1: ... case cn: }] reaches its cases. *)
Definition switch_case (x : Z) (cases : list Z) : bool :=
  existsb (Z.eqb x) cases.

(** One round of the loop over the compatible brands, on the variable
    [compat_offset]; [break] and the end of the list leave the loop for
    the final [return MP4TAG_ERR_NOT_MP4]. *)
Definition compat_body (compat_end compat_offset : Z)
  : prog file_handle (Z + Z) :=
  if compat_offset + 4 <=? compat_end then
    '(rc, cb) <- file_read 4 ;;
    if negb (rc =? 0) then ret (inr MP4TAG_ERR_NOT_MP4)
    else
      let compat := be_value cb in
      if switch_case compat compatible_brands then ret (inr MP4TAG_OK)
      else ret (inl (compat_offset + 4))
  else ret (inr MP4TAG_ERR_NOT_MP4).

(** Bound on the rounds of a loop that reads from the handle in every
    round. *)
Definition read_fuel (fh : file_handle) : nat :=
  S (Z.to_nat (reach fh - pos fh)).

Definition mp4_validate_ftyp : prog file_handle Z :=
  rc <- file_seek 0 ;;
  if negb (rc =? 0) then ret MP4TAG_ERR_SEEK_FAILED
  else
    '(rc, box) <- mp4_read_box_header ;;
    if negb (rc =? 0) then ret MP4TAG_ERR_NOT_MP4
    else if negb (box_type box =? MP4_BOX_FTYP) then ret MP4TAG_ERR_NOT_MP4
    (* Read major brand (4 bytes) *)
    else if data_size box <? 4 then ret MP4TAG_ERR_NOT_MP4
    else
      '(rc, brand) <- file_read 4 ;;
      if negb (rc =? 0) then ret MP4TAG_ERR_NOT_MP4
      else
        let major := be_value brand in
        if switch_case major major_brands then ret MP4TAG_OK
        else if 12 <=? data_size box then
          (* Skip major brand (4) + minor version (4) *)
          let compat_offset := data_offset box + 8 in
          let compat_end := data_offset box + data_size box in
          rc <- file_seek compat_offset ;;
          if negb (rc =? 0) then ret MP4TAG_ERR_NOT_MP4
          else
            fh <- get ;;
            while_loop (read_fuel fh) (compat_body compat_end) compat_offset
        else ret MP4TAG_ERR_NOT_MP4.

(** One round of the loop of [find_child_box] on the variable [pos]:
    the code returned and [*found], which is left as it was (written
    [no_box 0] here) unless the code is [MP4TAG_OK]. *)
Definition find_child_box_body (end_ target_type pos : Z)
  : prog file_handle (Z + Z * mp4_box_t) :=
  if pos + 8 <=? end_ then
    rc <- file_seek pos ;;
    if negb (rc =? 0) then ret (inr (rc, no_box 0))
    else
      '(rc, child) <- mp4_read_box_header ;;
      if negb (rc =? 0) then ret (inr (rc, no_box 0))
      else if box_size child <? 8 then
        ret (inr (MP4TAG_ERR_CORRUPT, no_box 0))
      else if box_type child =? target_type then
        ret (inr (MP4TAG_OK, child))
      else ret (inl (box_offset child + box_size child))
  else ret (inr (MP4TAG_ERR_TAG_NOT_FOUND, no_box 0)).

Definition find_child_box (parent_data_offset parent_data_size : Z)
    (target_type : Z) : prog file_handle (Z * mp4_box_t) :=
  let pos := parent_data_offset in
  let end_ := parent_data_offset + parent_data_size in
  fh <- get ;;
  while_loop (walk_fuel fh) (find_child_box_body end_ target_type) pos.

(** [find_free_after]: the code returned, [*free_offset] and
    [*free_size] when they are stored. *)
Definition find_free_after (after_offset container_end : Z)
  : prog file_handle (Z * option (Z * Z)) :=
  if container_end <? after_offset + 8 then
    ret (MP4TAG_ERR_TAG_NOT_FOUND, None)
  else
    rc <- file_seek after_offset ;;
    if negb (rc =? 0) then ret (rc, None)
    else
      '(rc, box) <- mp4_read_box_header ;;
      if negb (rc =? 0) then ret (rc, None)
      else if (box_type box =? MP4_BOX_FREE) || (box_type box =? MP4_BOX_SKIP)
      then ret (MP4TAG_OK, Some (box_offset box, box_size box))
      else ret (MP4TAG_ERR_TAG_NOT_FOUND, None).

(** [memset] of [*info] to zero, and the three offsets set to -1. *)
Definition info_init : mp4_file_info_t :=
  mk_info false (-1) (-1) 0 false 0 0 false 0 0 false false 0 0 false 0 0
          (-1) 0.

Definition set_ftyp (i : mp4_file_info_t) (off : Z) : mp4_file_info_t :=
  mk_info (valid i) off (moov_offset i) (moov_size i)
    (has_udta i) (udta_offset i) (udta_size i)
    (has_meta i) (meta_offset i) (meta_size i) (meta_has_hdlr i)
    (has_ilst i) (ilst_offset i) (ilst_size i)
    (has_free_after_ilst i) (free_after_ilst_offset i)
    (free_after_ilst_size i) (mdat_offset i) (mdat_size i).

Definition set_moov (i : mp4_file_info_t) (off size : Z) : mp4_file_info_t :=
  mk_info (valid i) (ftyp_offset i) off size
    (has_udta i) (udta_offset i) (udta_size i)
    (has_meta i) (meta_offset i) (meta_size i) (meta_has_hdlr i)
    (has_ilst i) (ilst_offset i) (ilst_size i)
    (has_free_after_ilst i) (free_after_ilst_offset i)
    (free_after_ilst_size i) (mdat_offset i) (mdat_size i).

Definition set_mdat (i : mp4_file_info_t) (off size : Z) : mp4_file_info_t :=
  mk_info (valid i) (ftyp_offset i) (moov_offset i) (moov_size i)
    (has_udta i) (udta_offset i) (udta_size i)
    (has_meta i) (meta_offset i) (meta_size i) (meta_has_hdlr i)
    (has_ilst i) (ilst_offset i) (ilst_size i)
    (has_free_after_ilst i) (free_after_ilst_offset i)
    (free_after_ilst_size i) off size.

Definition set_udta (i : mp4_file_info_t) (off size : Z) : mp4_file_info_t :=
  mk_info (valid i) (ftyp_offset i) (moov_offset i) (moov_size i)
    true off size
    (has_meta i) (meta_offset i) (meta_size i) (meta_has_hdlr i)
    (has_ilst i) (ilst_offset i) (ilst_size i)
    (has_free_after_ilst i) (free_after_ilst_offset i)
    (free_after_ilst_size i) (mdat_offset i) (mdat_size i).

Definition set_meta (i : mp4_file_info_t) (off size : Z) : mp4_file_info_t :=
  mk_info (valid i) (ftyp_offset i) (moov_offset i) (moov_size i)
    (has_udta i) (udta_offset i) (udta_size i)
    true off size (meta_has_hdlr i)
    (has_ilst i) (ilst_offset i) (ilst_size i)
    (has_free_after_ilst i) (free_after_ilst_offset i)
    (free_after_ilst_size i) (mdat_offset i) (mdat_size i).

Definition set_hdlr (i : mp4_file_info_t) (b : bool) : mp4_file_info_t :=
  mk_info (valid i) (ftyp_offset i) (moov_offset i) (moov_size i)
    (has_udta i) (udta_offset i) (udta_size i)
    (has_meta i) (meta_offset i) (meta_size i) b
    (has_ilst i) (ilst_offset i) (ilst_size i)
    (has_free_after_ilst i) (free_after_ilst_offset i)
    (free_after_ilst_size i) (mdat_offset i) (mdat_size i).

Definition set_ilst (i : mp4_file_info_t) (off size : Z) : mp4_file_info_t :=
  mk_info (valid i) (ftyp_offset i) (moov_offset i) (moov_size i)
    (has_udta i) (udta_offset i) (udta_size i)
    (has_meta i) (meta_offset i) (meta_size i) (meta_has_hdlr i)
    true off size
    (has_free_after_ilst i) (free_after_ilst_offset i)
    (free_after_ilst_size i) (mdat_offset i) (mdat_size i).

(** [find_free_after] stores through the two pointers only when it
    finds a box; [has_free_after_ilst] is set from its return code. *)
Definition set_free (i : mp4_file_info_t) (rc : Z) (found : option (Z * Z))
  : mp4_file_info_t :=
  mk_info (valid i) (ftyp_offset i) (moov_offset i) (moov_size i)
    (has_udta i) (udta_offset i) (udta_size i)
    (has_meta i) (meta_offset i) (meta_size i) (meta_has_hdlr i)
    (has_ilst i) (ilst_offset i) (ilst_size i)
    (rc =? MP4TAG_OK)
    (match found with Some f => fst f | None => free_after_ilst_offset i end)
    (match found with Some f => snd f | None => free_after_ilst_size i end)
    (mdat_offset i) (mdat_size i).

Definition set_valid (i : mp4_file_info_t) : mp4_file_info_t :=
  mk_info true (ftyp_offset i) (moov_offset i) (moov_size i)
    (has_udta i) (udta_offset i) (udta_size i)
    (has_meta i) (meta_offset i) (meta_size i) (meta_has_hdlr i)
    (has_ilst i) (ilst_offset i) (ilst_size i)
    (has_free_after_ilst i) (free_after_ilst_offset i)
    (free_after_ilst_size i) (mdat_offset i) (mdat_size i).

(** What a loop hands to the code after it. *)
Inductive loop_exit (A : Type) : Type :=
| Break (a : A)       (* [break], or the loop condition is false *)
| Return (rc : Z) (a : A).    (* [return rc] from inside the loop *)
Arguments Break {A} a.
Arguments Return {A} rc a.

(** One round of the top-level scan of [mp4_parse_structure]; the loop
    variables are [pos] and [*info]. *)
Definition top_level_body (fsize : Z) (s : Z * mp4_file_info_t)
  : prog file_handle (Z * mp4_file_info_t + loop_exit mp4_file_info_t) :=
  let '(pos, info) := s in
  if pos + 8 <=? fsize then
    rc <- file_seek pos ;;
    if negb (rc =? 0) then ret (inr (Return rc info))
    else
      '(rc, box) <- mp4_read_box_header ;;
      if negb (rc =? 0) then ret (inr (Break info))
      else if box_size box <? 8 then ret (inr (Break info))
      else
        let info :=
          if box_type box =? MP4_BOX_FTYP then set_ftyp info (box_offset box)
          else if box_type box =? MP4_BOX_MOOV
          then set_moov info (box_offset box) (box_size box)
          else if box_type box =? MP4_BOX_MDAT
          then set_mdat info (box_offset box) (box_size box)
          else info in
        ret (inl (box_offset box + box_size box, info))
  else ret (inr (Break info)).

(** The descent from [moov] to [ilst] and the free box after it. *)
Definition parse_moov (info : mp4_file_info_t)
  : prog file_handle (Z * mp4_file_info_t) :=
  rc <- file_seek (moov_offset info) ;;
  if negb (rc =? 0) then ret (rc, info)
  else
    '(rc, moov) <- mp4_read_box_header ;;
    if negb (rc =? 0) then ret (rc, info)
    else
      '(rc, udta) <- find_child_box (data_offset moov) (data_size moov)
                                    MP4_BOX_UDTA ;;
      if rc =? MP4TAG_OK then
        let info := set_udta info (box_offset udta) (box_size udta) in
        (* Parse udta to find meta *)
        '(rc, meta) <- find_child_box (data_offset udta) (data_size udta)
                                      MP4_BOX_META ;;
        if rc =? MP4TAG_OK then
          let info := set_meta info (box_offset meta) (box_size meta) in
          let meta_content_offset := data_offset meta + 4 in
          let meta_content_size :=
            if data_size meta - 4 <? 0 then 0 else data_size meta - 4 in
          (* Check for hdlr *)
          '(rc, hdlr) <- find_child_box meta_content_offset
                                        meta_content_size MP4_BOX_HDLR ;;
          let info := set_hdlr info (rc =? MP4TAG_OK) in
          (* Find ilst *)
          '(rc, ilst) <- find_child_box meta_content_offset
                                        meta_content_size MP4_BOX_ILST ;;
          if rc =? MP4TAG_OK then
            let info := set_ilst info (box_offset ilst) (box_size ilst) in
            (* Look for free space after ilst *)
            let after_ilst := box_offset ilst + box_size ilst in
            let meta_end := box_offset meta + box_size meta in
            '(rc, free) <- find_free_after after_ilst meta_end ;;
            ret (MP4TAG_OK, set_valid (set_free info rc free))
          else ret (MP4TAG_OK, set_valid info)
        else ret (MP4TAG_OK, set_valid info)
      else ret (MP4TAG_OK, set_valid info).

(** [mp4_parse_structure]: the code returned and [*info]. *)
Definition mp4_parse_structure : prog file_handle (Z * mp4_file_info_t) :=
  let info := info_init in
  fh <- get ;;
  let fsize := file_size fh in
  if fsize <? 8 then ret (MP4TAG_ERR_TRUNCATED, info)
  else
    (* Scan top-level boxes *)
    e <- while_loop (walk_fuel fh) (top_level_body fsize) (0, info) ;;
    match e with
    | Return rc info => ret (rc, info)
    | Break info =>
        if moov_offset info <? 0 then ret (MP4TAG_ERR_NOT_MP4, info)
        else parse_moov info
    end.

(* ------------------------------------------------------------------ *)
(** * The library entry points (mp4tag.c)                               *)
(* ------------------------------------------------------------------ *)

(** [struct mp4tag_context] (the allocator, which the functions below
    do not use, is left out). *)
Record mp4tag_context_t : Type := mk_ctx {
  ctx_fh       : option file_handle;
  ctx_path     : option (list byte);
  ctx_writable : bool;
  ctx_info     : mp4_file_info_t;
  cached_tags  : option mp4tag_collection_t
}.

Definition set_fh (ctx : mp4tag_context_t) (fh : option file_handle)
  : mp4tag_context_t :=
  mk_ctx fh (ctx_path ctx) (ctx_writable ctx) (ctx_info ctx)
         (cached_tags ctx).

Definition set_info (ctx : mp4tag_context_t) (i : mp4_file_info_t)
  : mp4tag_context_t :=
  mk_ctx (ctx_fh ctx) (ctx_path ctx) (ctx_writable ctx) i (cached_tags ctx).

Definition set_cached (ctx : mp4tag_context_t)
    (c : option mp4tag_collection_t) : mp4tag_context_t :=
  mk_ctx (ctx_fh ctx) (ctx_path ctx) (ctx_writable ctx) (ctx_info ctx) c.

(** A call [f(ctx->fh, ...)]: [c] runs on the handle of the context;
    [null] is what [f] returns for a NULL handle. *)
Definition on_fh {A} (c : prog file_handle A) (null : A)
  : prog mp4tag_context_t A :=
  fun ctx =>
    match ctx_fh ctx with
    | Some fh =>
        match c fh with
        | Some (a, fh') => Some (a, set_fh ctx (Some fh'))
        | None => None
        end
    | None => Some (null, ctx)
    end.

Definition invalidate_cache : prog mp4tag_context_t unit :=
  ctx <- get ;;
  put (set_cached ctx None).

(** [mp4tag_read_tags] with non-NULL arguments: the code returned and
    [*tags] when it is stored. *)
Definition mp4tag_read_tags
  : prog mp4tag_context_t (Z * option mp4tag_collection_t) :=
  ctx <- get ;;
  match ctx_fh ctx with
  | None => ret (MP4TAG_ERR_NOT_OPEN, None)
  | Some _ =>
      match cached_tags ctx with
      | Some coll => ret (MP4TAG_OK, Some coll)
      | None =>
          if negb (has_ilst (ctx_info ctx)) then ret (MP4TAG_ERR_NO_TAGS, None)
          else
            '(rc, coll) <- on_fh (mp4_tags_parse_ilst (ctx_info ctx))
                                 (MP4TAG_ERR_INVALID_ARG, None) ;;
            if negb (rc =? MP4TAG_OK) then ret (rc, None)
            else
              ctx' <- get ;;
              put (set_cached ctx' coll) ;;
              ret (MP4TAG_OK, coll)
      end
  end.

(** The test of the loop of [mp4tag_read_tag_string]. *)
Definition tag_matches (name : option (list byte))
    (st : mp4tag_simple_tag_t) : bool :=
  match st_name st, st_value st with
  | Some _, Some _ => str_casecmp (st_name st) name =? 0
  | _, _ => false
  end.

(** [mp4tag_read_tag_string(ctx, name, value, size)] with non-NULL [ctx]
    and [value]: the code returned and the string left in [value]. *)
Definition mp4tag_read_tag_string (name : option (list byte)) (size : Z)
  : prog mp4tag_context_t (Z * option (list byte)) :=
  match name with
  | None => ret (MP4TAG_ERR_INVALID_ARG, None)
  | Some _ =>
      if size =? 0 then ret (MP4TAG_ERR_INVALID_ARG, None)
      else
        '(rc, coll) <- mp4tag_read_tags ;;
        if negb (rc =? MP4TAG_OK) then ret (rc, None)
        else
          (* [coll] is not NULL here: see [read_tags_collection] *)
          let all := match coll with
                     | Some coll => flat_map simple_tags (tags coll)
                     | None => []
                     end in
          match find (tag_matches name) all with
          | Some st =>
              let '(r, out) := str_copy size (st_value st) in
              ret (if r =? 0 then MP4TAG_OK
                   else MP4TAG_ERR_TAG_TOO_LARGE, out)
          | None => ret (MP4TAG_ERR_TAG_NOT_FOUND, None)
          end
  end.

(** One round of the loop of [write_zeros] on the variable [count]. *)
Definition write_zeros_body (count : Z) : prog file_handle (Z + Z) :=
  if 0 <? count then
    let chunk := if count <? 4096 then count else 4096 in
    rc <- file_write (repeat x00 (Z.to_nat chunk)) ;;
    if negb (rc =? 0) then ret (inr MP4TAG_ERR_WRITE_FAILED)
    else ret (inl (count - chunk))
  else ret (inr MP4TAG_OK).

Definition write_zeros (count : Z) : prog file_handle Z :=
  while_loop (S (Z.to_nat count)) write_zeros_body count.

(** [available] of [try_inplace]: the existing ilst and any trailing
    free box. *)
Definition available (info : mp4_file_info_t) : Z :=
  if has_free_after_ilst info
  then ilst_size info + free_after_ilst_size info
  else ilst_size info.

(** The writes of [try_inplace], from the seek to the padding. *)
Definition inplace_writes (info : mp4_file_info_t) (ilst_content : list byte)
    (new_ilst_size : Z) : prog file_handle Z :=
  (* Write new ilst at the existing ilst offset *)
  rc <- file_seek (ilst_offset info) ;;
  if negb (rc =? 0) then ret MP4TAG_ERR_SEEK_FAILED
  else
    (* ilst header *)
    let ilst_box := mp4_write_box_header [] MP4_BOX_ILST new_ilst_size in
    rc <- file_write ilst_box ;;
    if negb (rc =? 0) then ret rc
    else
      (* ilst content *)
      rc <- file_write ilst_content ;;
      if negb (rc =? 0) then ret rc
      else
        (* Fill remaining space with a free box *)
        let remaining := available info - new_ilst_size in
        if 8 <=? remaining then
          let free_box := snd (mp4_write_free_box [] (u32 remaining)) in
          rc <- file_write free_box ;;
          ret rc
        else if 0 <? remaining then
          (* Too small for a free box, just zero-fill *)
          rc <- write_zeros (u32 remaining) ;;
          ret rc
        else ret 0.

(** [mp4_parse_structure(ctx->fh, &ctx->info)], its result dropped. *)
Definition reparse : prog mp4tag_context_t unit :=
  r <- on_fh (r <- mp4_parse_structure ;; ret (Some (snd r))) None ;;
  ctx <- get ;;
  match r with
  | Some info => put (set_info ctx info)
  | None => ret tt
  end.

(** Strategy 1: in-place replacement. *)
Definition try_inplace (ilst_content : list byte)
  : prog mp4tag_context_t Z :=
  ctx <- get ;;
  let info := ctx_info ctx in
  if negb (has_ilst info) then ret MP4TAG_ERR_NO_SPACE
  else
    (* New ilst box size *)
    let new_ilst_size := u32 (8 + u32 (len ilst_content)) in
    if available info <? new_ilst_size then ret MP4TAG_ERR_NO_SPACE
    else
      rc <- on_fh (inplace_writes info ilst_content new_ilst_size)
                  MP4TAG_ERR_SEEK_FAILED ;;
      if negb (rc =? 0) then ret rc
      else
        on_fh file_sync MP4TAG_ERR_INVALID_ARG ;;
        (* Re-parse to update info *)
        reparse ;;
        ret MP4TAG_OK.

(** ** Strategy 2: rewrite the file *)

(** The answers of the operating system to the calls of [rewrite_file]
    that are not made on an open descriptor, and the behaviour of the
    descriptors it opens. *)
Record os_env : Type := mk_env {
  fopen_fails    : bool;        (* [fopen(tmp_path, "wb")] returns NULL *)
  open_tmp_fails : bool;        (* [file_open_rw(tmp_path)] returns NULL *)
  tmp_faults     : list bool;   (* the faults of the scratch descriptor *)
  rename_fails   : bool;        (* [rename] does not return 0 *)
  reopen_fails   : bool;        (* reopening [ctx->path] returns NULL *)
  reopen_faults  : list bool    (* the faults of the reopened descriptor *)
}.

(** The two open files of [rewrite_file]: [ctx->fh] and [tmp]. *)
Definition two_files : Type := (file_handle * file_handle)%type.

Definition on_src {A} (c : prog file_handle A) : prog two_files A :=
  fun st => match c (fst st) with
            | Some (a, src) => Some (a, (src, snd st))
            | None => None
            end.

Definition on_tmp {A} (c : prog file_handle A) : prog two_files A :=
  fun st => match c (snd st) with
            | Some (a, tmp) => Some (a, (fst st, tmp))
            | None => None
            end.

(** One round of the copy loop on the variable [bytes_left];
    [Return rc] stands for [result = rc; goto cleanup]. *)
Definition copy_body (bytes_left : Z)
  : prog two_files (Z + loop_exit unit) :=
  if 0 <? bytes_left then
    let to_read := if bytes_left <? 65536 then bytes_left else 65536 in
    '(n, copy_buf) <- on_src (file_read_partial to_read) ;;
    if n <=? 0 then ret (inr (Break tt))
    else
      rc <- on_tmp (file_write copy_buf) ;;
      if negb (rc =? 0) then ret (inr (Return rc tt))
      else ret (inl (bytes_left - n))
  else ret (inr (Break tt)).

(** Copy [size] bytes of the source from [offset] on. *)
Definition copy_box (offset size : Z) : prog two_files (loop_exit unit) :=
  rc <- on_src (file_seek offset) ;;
  if negb (rc =? 0) then ret (Return rc tt)
  else
    st <- get ;;
    while_loop (read_fuel (fst st)) copy_body size.

(** First pass over the children of moov; the loop variables are
    [moov_child_pos] and [non_udta_size]. *)
Definition measure_body (moov_end : Z) (s : Z * Z)
  : prog file_handle (Z * Z + Z) :=
  let '(moov_child_pos, non_udta_size) := s in
  if moov_child_pos + 8 <=? moov_end then
    rc <- file_seek moov_child_pos ;;
    if negb (rc =? 0) then ret (inr non_udta_size)
    else
      '(rc, child) <- mp4_read_box_header ;;
      if negb (rc =? 0) || (box_size child <? 8) then ret (inr non_udta_size)
      else
        let non_udta_size :=
          if negb (box_type child =? MP4_BOX_UDTA)
          then non_udta_size + box_size child else non_udta_size in
        ret (inl (box_offset child + box_size child, non_udta_size))
  else ret (inr non_udta_size).

(** Second pass: copy the children that are not udta; the loop variable
    is [moov_child_pos]. *)
Definition copy_children_body (moov_end moov_child_pos : Z)
  : prog two_files (Z + loop_exit unit) :=
  if moov_child_pos + 8 <=? moov_end then
    rc <- on_src (file_seek moov_child_pos) ;;
    if negb (rc =? 0) then ret (inr (Break tt))
    else
      '(rc, child) <- on_src mp4_read_box_header ;;
      if negb (rc =? 0) || (box_size child <? 8) then ret (inr (Break tt))
      else
        e <- (if negb (box_type child =? MP4_BOX_UDTA)
              then copy_box (box_offset child) (box_size child)
              else ret (Break tt)) ;;
        match e with
        | Return rc _ => ret (inr (Return rc tt))
        | Break _ => ret (inl (box_offset child + box_size child))
        end
  else ret (inr (Break tt)).

(** Rebuild moov: its header, its children but udta, the new udta. *)
Definition rebuild_moov (box : mp4_box_t) (udta_buf : list byte)
  : prog two_files (loop_exit unit) :=
  let moov_end := box_offset box + box_size box in
  src <- on_src get ;;
  non_udta_size <- on_src (while_loop (walk_fuel src) (measure_body moov_end)
                                      (data_offset box, 0)) ;;
  let new_moov_size :=
    u32 (u32 (8 + u32 non_udta_size) + u32 (len udta_buf)) in
  (* Write moov header *)
  let moov_hdr := mp4_write_box_header [] MP4_BOX_MOOV new_moov_size in
  rc <- on_tmp (file_write moov_hdr) ;;
  if negb (rc =? 0) then ret (Return rc tt)
  else
    (* Copy non-udta children *)
    src <- on_src get ;;
    e <- while_loop (walk_fuel src) (copy_children_body moov_end)
                    (data_offset box) ;;
    match e with
    | Return rc _ => ret (Return rc tt)
    | Break _ =>
        (* Write new udta *)
        rc <- on_tmp (file_write udta_buf) ;;
        if negb (rc =? 0) then ret (Return rc tt) else ret (Break tt)
    end.

(** One round of the loop over the top-level boxes, on [pos]. *)
Definition rewrite_body (src_size : Z) (udta_buf : list byte) (pos : Z)
  : prog two_files (Z + loop_exit unit) :=
  if pos <? src_size then
    rc <- on_src (file_seek pos) ;;
    if negb (rc =? 0) then ret (inr (Return MP4TAG_ERR_SEEK_FAILED tt))
    else
      '(rc, box) <- on_src mp4_read_box_header ;;
      if negb (rc =? 0) then ret (inr (Break tt))
      else if box_size box <? 8 then ret (inr (Break tt))
      else
        e <- (if box_type box =? MP4_BOX_MOOV
              then rebuild_moov box udta_buf
              else (* Copy box as-is *)
                   copy_box (box_offset box) (box_size box)) ;;
        match e with
        | Return rc _ => ret (inr (Return rc tt))
        | Break _ => ret (inl (box_offset box + box_size box))
        end
  else ret (inr (Break tt)).

(** [ctx->writable ? file_open_rw(ctx->path) : file_open_read(ctx->path)]
    on a file with bytes [data]. *)
Definition reopen (env : os_env) (ctx : mp4tag_context_t)
    (data : list byte) : option file_handle :=
  if reopen_fails env then None
  else Some (file_open_common data (reopen_faults env) (ctx_writable ctx)).

Definition rewrite_file (env : os_env) (udta_buf : list byte)
  : prog mp4tag_context_t Z :=
  ctx <- get ;;
  match ctx_path ctx, ctx_fh ctx with
  | None, _ => ret MP4TAG_ERR_INVALID_ARG
  | Some _, None =>
      (* not reached: the callers have checked [ctx->fh] *)
      ret MP4TAG_ERR_INVALID_ARG
  | Some _, Some src =>
      (* Create temp file *)
      if fopen_fails env then ret MP4TAG_ERR_IO
      else if open_tmp_fails env then ret MP4TAG_ERR_IO
      else
        let tmp := file_open_common [] (tmp_faults env) true in
        let src_size := file_size src in
        fun ctx =>
          match while_loop (walk_fuel src) (rewrite_body src_size udta_buf) 0
                           (src, tmp) with
          | None => None
          | Some (Return result _, (src, tmp)) =>
              (* cleanup: the scratch file is closed and unlinked *)
              Some (result, set_fh ctx (Some src))
          | Some (Break _, (src, tmp)) =>
              match file_sync tmp with
              | None => None
              | Some (rc, tmp) =>
                  if negb (rc =? 0)
                  then Some (MP4TAG_ERR_IO, set_fh ctx (Some src))
                  else
                    (* both files are closed *)
                    if rename_fails env then
                      Some (MP4TAG_ERR_RENAME_FAILED,
                            set_fh ctx (reopen env ctx (fd_data src)))
                    else
                      (* Reopen the file *)
                      match reopen env ctx (fd_data tmp) with
                      | None => Some (MP4TAG_ERR_IO, set_fh ctx None)
                      | Some fh =>
                          (* Re-parse structure *)
                          (reparse ;; ret MP4TAG_OK) (set_fh ctx (Some fh))
                      end
              end
          end
  end.

(** ** Tag writing: main entry point *)

(** [mp4tag_write_tags(ctx, tags)] with non-NULL arguments. *)
Definition mp4tag_write_tags (env : os_env) (tags : mp4tag_collection_t)
  : prog mp4tag_context_t Z :=
  ctx <- get ;;
  match ctx_fh ctx with
  | None => ret MP4TAG_ERR_NOT_OPEN
  | Some _ =>
      if negb (ctx_writable ctx) then ret MP4TAG_ERR_READ_ONLY
      else
        invalidate_cache ;;
        (* Serialize ilst content *)
        let '(rc, ilst_content) := mp4_tags_serialize_ilst tags [] in
        if negb (rc =? MP4TAG_OK) then ret rc
        else
          let strategy2 : prog mp4tag_context_t Z :=
            (* Strategy 2: rewrite the file *)
            let '(rc, udta_buf) := mp4_tags_build_udta tags [] in
            if negb (rc =? MP4TAG_OK) then ret rc
            else rewrite_file env udta_buf in
          (* Strategy 1: try in-place if ilst already exists *)
          if has_ilst (ctx_info ctx) then
            rc <- try_inplace ilst_content ;;
            if rc =? MP4TAG_OK then ret MP4TAG_OK else strategy2
          else strategy2
  end.

(* ------------------------------------------------------------------ *)
(** * Sample files                                                      *)
(* ------------------------------------------------------------------ *)

(** A box with a standard header around [payload]. *)
Definition box_bytes (type : Z) (payload : list byte) : list byte :=
  be32_bytes (8 + len payload) ++ be32_bytes type ++ payload.

(** An ilst item: a ['data'] box with the indicator, a zero locale and
    the value, inside a box of the atom type. *)
Definition item_bytes (atom data_type : Z) (value : list byte) : list byte :=
  box_bytes atom
    (box_bytes MP4_BOX_DATA (be32_bytes data_type ++ be32_bytes 0 ++ value)).

(** [ftyp] with major brand [brand], minor version 0x200 and the
    compatible brands [compat]. *)
Definition ftyp_bytes (brand : Z) (compat : list Z) : list byte :=
  box_bytes MP4_BOX_FTYP
    (be32_bytes brand ++ be32_bytes 512 ++ flat_map be32_bytes compat).

(** [moov { mvhd; udta { meta { hdlr; ilst { items }; tail } } }]. *)
Definition moov_bytes (items tail : list byte) : list byte :=
  box_bytes MP4_BOX_MOOV
    (box_bytes (fourcc_of "mvhd") (repeat x00 100)
     ++ box_bytes MP4_BOX_UDTA
          (box_bytes MP4_BOX_META
             (be32_bytes 0
              ++ box_bytes MP4_BOX_HDLR hdlr_data
              ++ box_bytes MP4_BOX_ILST items
              ++ tail))).

Definition mdat_bytes : list byte :=
  box_bytes MP4_BOX_MDAT (cs "payload!").

(** A file that is opened, without faults of the operating system. *)
Definition open_file (data : list byte) (w : bool) : file_handle :=
  file_open_common data [] w.

(** What [mp4tag_open] / [mp4tag_open_rw] leave in a fresh context:
    the code returned and the context. *)
Definition mp4tag_open_common (data : list byte) (faults : list bool)
    (path : list byte) (w : bool) : option (Z * mp4tag_context_t) :=
  let closed := mk_ctx None None false info_init None in
  let fh := file_open_common data faults w in
  match mp4_validate_ftyp fh with
  | None => None
  | Some (rc, fh) =>
      if negb (rc =? MP4TAG_OK) then Some (rc, closed)
      else
        match mp4_parse_structure fh with
        | None => None
        | Some ((rc, info), fh) =>
            if negb (rc =? MP4TAG_OK) then Some (rc, closed)
            else Some (MP4TAG_OK, mk_ctx (Some fh) (Some path) w info None)
        end
  end.

(** The sample of the tests: TITLE and ARTIST, with [pad] bytes of
    free space after ilst. *)
Definition sample_items : list byte :=
  item_bytes MP4_TAG_NAM MP4_DATA_UTF8 (cs "Test Title")
  ++ item_bytes MP4_TAG_ART MP4_DATA_UTF8 (cs "Test Artist").

Definition sample_file (pad : Z) : list byte :=
  ftyp_bytes (fourcc_of "isom") [fourcc_of "isom"]
  ++ moov_bytes sample_items
       (if pad <? 8 then []
        else box_bytes MP4_BOX_FREE (repeat x00 (Z.to_nat (pad - 8))))
  ++ mdat_bytes.

(** What the loop of [mp4_tags_parse_ilst] does with the item at
    [pos]: seek, read its header, parse it. *)
Definition parse_item_at (pos : Z)
  : prog file_handle (Z * option mp4tag_simple_tag_t) :=
  file_seek pos ;;
  '(rc, item) <- mp4_read_box_header ;;
  if negb (rc =? 0) then ret (rc, None) else parse_ilst_item item.

(** The value decoded from a file that holds one ilst item. *)
Definition decoded_value (item : list byte) : option (list byte) :=
  match parse_item_at 0 (open_file item false) with
  | Some ((_, Some st), _) => st_value st
  | _ => None
  end.

(** The text ["N/T"]. *)
Definition pair_text (n t : Z) : list byte := utoa n ++ cs "/" ++ utoa t.

(** The 8-byte payload [00 00 NN NN TT TT 00 00]. *)
Definition packed_pair (n t : Z) : list byte :=
  [x00; x00] ++ be16_bytes n ++ be16_bytes t ++ [x00; x00].


(** An item as [serialize_tag_item] emits it: [item_bytes] with the
    two sizes computed in [uint32_t]. *)
Definition emitted_item (atom data_type : Z) (value : list byte)
  : list byte :=
  be32_bytes (u32 (8 + u32 (8 + 4 + 4 + u32 (len value))))
  ++ be32_bytes atom
  ++ be32_bytes (u32 (8 + 4 + 4 + u32 (len value)))
  ++ be32_bytes MP4_BOX_DATA
  ++ be32_bytes data_type ++ be32_bytes 0 ++ value.

(** A cover-art tag with the given binary value. *)
Definition cover_art (binary : option (list byte)) : mp4tag_simple_tag_t :=
  mk_simple_tag (Some (cs "COVER_ART")) None binary None 0 [].

(** An ilst whose first item has no ['data'] child, whose second item
    is a title, and whose third item is cut short by the end of the
    file. *)
Definition damaged_ilst : list byte :=
  box_bytes MP4_BOX_ILST
    (box_bytes MP4_TAG_ART (box_bytes MP4_BOX_FREE (cs "no data"))
     ++ item_bytes MP4_TAG_NAM MP4_DATA_UTF8 (cs "Kept")
     ++ [x00; x00; x00]).

(** The FileMap of a file that is just an ilst box of [size] bytes. *)
Definition ilst_only_info (size : Z) : mp4_file_info_t :=
  set_ilst info_init 0 size.

(** A file whose ilst holds a title and a JPEG cover. *)
Definition cover_file : list byte :=
  ftyp_bytes (fourcc_of "M4A ") []
  ++ moov_bytes
       (item_bytes MP4_TAG_NAM MP4_DATA_UTF8 (cs "Test Title")
        ++ item_bytes MP4_TAG_COVR MP4_DATA_JPEG [xff; xd8; xff; xe0; x00])
       []
  ++ mdat_bytes.

(** Every simple tag of a collection, in the order of the two nested
    loops of [mp4tag_read_tag_string]. *)
Definition all_simple_tags (coll : mp4tag_collection_t)
  : list mp4tag_simple_tag_t :=
  flat_map simple_tags (tags coll).

(** The context [mp4tag_open] leaves for [cover_file]. *)
Definition cover_ctx : mp4tag_context_t :=
  Eval vm_compute in
    match mp4tag_open_common cover_file [] (cs "cover.m4a") false with
    | Some (_, ctx) => ctx
    | None => mk_ctx None None false info_init None
    end.

(* ------------------------------------------------------------------ *)
(** * Vocabulary of the properties                                     *)
(* ------------------------------------------------------------------ *)

(** [fh'] comes from [fh] by seeks and reads. *)
Definition frame (fh fh' : file_handle) : Prop :=
  fd_data fh' = fd_data fh /\ writable fh' = writable fh /\
  file_size_field fh' = file_size_field fh /\ reach fh' <= reach fh.

(** The codes [file_read] returns. *)
Definition read_rc (rc : Z) : Prop :=
  rc = 0 \/ rc = MP4TAG_ERR_SEEK_FAILED \/ rc = MP4TAG_ERR_IO \/
  rc = MP4TAG_ERR_TRUNCATED.

Definition file_read_inv (fh0 : file_handle) (n : Z)
    (s : list byte * Z) (fh : file_handle) : Prop :=
  frame fh0 fh /\ 0 <= snd s <= n /\ pos fh = pos fh0 + (n - snd s) /\
  len (fst s) = n - snd s /\
  (snd s < n -> pos fh <= buf_start fh + buf_len fh).

Definition file_read_measure (s : list byte * Z) (fh : file_handle) : nat :=
  (Z.to_nat (2 * snd s) + (if in_read_buffer fh then 0 else 1))%nat.

(** What holds of a box [mp4_read_box_header] has filled in, read at
    position [p] with the handle left as [fh']. *)
Definition box_read_at (p : Z) (fh' : file_handle) (box : mp4_box_t) : Prop :=
  box_offset box = p /\ 0 <= p /\ p + 8 <= reach fh' /\
  (header_size box = 8 \/ header_size box = 16) /\
  data_offset box = box_offset box + header_size box /\
  data_size box = box_size box - header_size box.

Definition walk_measure (p : Z) (fh : file_handle) : nat :=
  if p <? 0 then 0%nat else S (Z.to_nat (reach fh - p)).

(** [box] was read by [mp4_read_box_header] at its offset in the file
    of [fh]. *)
Definition located (fh : file_handle) (box : mp4_box_t) : Prop :=
  exists fh1 fh2,
    frame fh fh1 /\
    mp4_read_box_header (set_pos fh1 (box_offset box))
    = Some ((MP4TAG_OK, box), fh2).

(** No flag of the udta chain is set. *)
Definition flags_clear (i : mp4_file_info_t) : Prop :=
  has_udta i = false /\ has_meta i = false /\ has_ilst i = false /\
  has_free_after_ilst i = false.

Definition exit_info (e : loop_exit mp4_file_info_t) : mp4_file_info_t :=
  match e with Break i => i | Return _ i => i end.

(** The fields [off], [size] hold the offset and size of a box of type
    [type] read from the file of [fh]. *)
Definition filled_from (fh : file_handle) (type off size : Z) : Prop :=
  exists box, located fh box /\ box_type box = type /\
              off = box_offset box /\ size = box_size box.

(** The invariant of the FileMap. *)
Definition info_located (fh : file_handle) (i : mp4_file_info_t) : Prop :=
  (has_ilst i = true -> has_meta i = true /\ has_udta i = true) /\
  (has_meta i = true -> has_udta i = true) /\
  (has_udta i = true ->
   filled_from fh MP4_BOX_UDTA (udta_offset i) (udta_size i)) /\
  (has_meta i = true ->
   filled_from fh MP4_BOX_META (meta_offset i) (meta_size i)) /\
  (has_ilst i = true ->
   filled_from fh MP4_BOX_ILST (ilst_offset i) (ilst_size i)) /\
  (has_free_after_ilst i = true ->
   has_ilst i = true /\
   free_after_ilst_offset i = ilst_offset i + ilst_size i /\
   (filled_from fh MP4_BOX_FREE (free_after_ilst_offset i)
                (free_after_ilst_size i) \/
    filled_from fh MP4_BOX_SKIP (free_after_ilst_offset i)
                (free_after_ilst_size i))).

Definition digit_step (a : Z) (b : byte) : Z := a * 10 + (b2z b - 48).

(** The codes [file_write] returns. *)
Definition write_rc (rc : Z) : Prop :=
  rc = 0 \/ rc = MP4TAG_ERR_READ_ONLY \/ rc = MP4TAG_ERR_SEEK_FAILED \/
  rc = MP4TAG_ERR_WRITE_FAILED.

(** The bytes [try_inplace] puts over the old ilst and the free box
    after it: the new ilst, then a free box if 8 bytes or more remain of
    the [avail] bytes, else zeros. *)
Definition ilst_image (avail : Z) (ilst_content : list byte) : list byte :=
  let remaining := avail - (8 + len ilst_content) in
  box_bytes MP4_BOX_ILST ilst_content
  ++ (if 8 <=? remaining
      then be32_bytes remaining ++ be32_bytes MP4_BOX_FREE
           ++ repeat x00 (Z.to_nat (remaining - 8))
      else repeat x00 (Z.to_nat remaining)).


(** A collection with a title only. *)
Definition title_only (title : list byte) : mp4tag_collection_t :=
  mk_collection
    [mk_tag MP4TAG_TARGET_ALBUM None [] [] [] []
       [mk_simple_tag (Some (cs "TITLE")) (Some title) None None 0 []]] 1.

(** What a loop of [rewrite_file] hands on: a [Return rc] carries a
    code that is not NoSpace. *)
Definition exit_ok (e : loop_exit unit) : Prop :=
  match e with
  | Break _ => True
  | Return rc _ => rc <> MP4TAG_ERR_NO_SPACE
  end.

(** The context [mp4tag_open_rw] leaves for the sample file without
    free space after ilst. *)
Definition tight_ctx : mp4tag_context_t :=
  Eval vm_compute in
    match mp4tag_open_common (sample_file 0) [] (cs "tight.m4a") true with
    | Some (_, ctx) => ctx
    | None => mk_ctx None None false info_init None
    end.

(** An operating system that never fails. *)
Definition quiet_env : os_env := mk_env false false [] false false [].

Definition long_title : list byte :=
  cs "A title that is longer than both of the old tags were together".

(** The read buffer holds what the file holds at [buf_start], and the
    operating system reports no failure. *)
Definition coherent (fh : file_handle) : Prop :=
  fd_faults fh = [] /\
  (buf fh = [] \/
   (0 <= buf_start fh /\ buf_start fh + buf_len fh <= len (fd_data fh) /\
    buf fh = slice (fd_data fh) (buf_start fh) (buf_len fh))).

(** The loop of [file_read] on a coherent handle: what has been copied
    is what the file holds from the first position on. *)
Definition read_exact_inv (fh0 : file_handle) (n : Z)
    (s : list byte * Z) (fh : file_handle) : Prop :=
  coherent fh /\ fd_data fh = fd_data fh0 /\
  file_size_field fh = file_size_field fh0 /\
  0 <= snd s <= n /\ pos fh = pos fh0 + (n - snd s) /\
  fst s = slice (fd_data fh0) (pos fh0) (n - snd s) /\
  (snd s < n -> pos fh <= len (fd_data fh0)).

Definition read_exact_post (fh0 : file_handle) (n : Z)
    (r : Z * list byte) (fh' : file_handle) : Prop :=
  coherent fh' /\ fd_data fh' = fd_data fh0 /\
  file_size_field fh' = file_size_field fh0 /\
  ((fst r = 0 /\ snd r = slice (fd_data fh0) (pos fh0) n /\
    pos fh' = pos fh0 + n /\ (0 < n -> pos fh0 + n <= len (fd_data fh0)))
   \/ (fst r = MP4TAG_ERR_TRUNCATED /\ len (fd_data fh0) < pos fh0 + n)).

(** The bytes of the file from the position of [fh] on. *)
Definition bytes_left (fh : file_handle) : Z := len (fd_data fh) - pos fh.

(** The 32-bit size field of the header at the position of [fh]. *)
Definition raw_size_at (fh : file_handle) : Z :=
  be_value (firstn 4 (slice (fd_data fh) (pos fh) 8)).

(** The size of the header at the position of [fh]: 16 bytes when the
    size field is 1 (extended header), 8 bytes otherwise. *)
Definition header_need (fh : file_handle) : Z :=
  if raw_size_at fh =? 1 then 16 else 8.

(** The total size the header at the position of [fh] resolves to. *)
Definition resolved_size (fh : file_handle) : Z :=
  if raw_size_at fh =? 1
  then to_int64 (be_value (slice (fd_data fh) (pos fh + 8) 8))
  else if raw_size_at fh =? 0 then file_size fh - pos fh
  else raw_size_at fh.

(** The box [mp4_read_box_header] fills in at the position of [fh]. *)
Definition box_at (fh : file_handle) : mp4_box_t :=
  mk_box (be_value (skipn 4 (slice (fd_data fh) (pos fh) 8)))
         (pos fh) (resolved_size fh) (pos fh + header_need fh)
         (resolved_size fh - header_need fh) (header_need fh).


(** The major brands the specification lists for [mp4_validate_ftyp];
    the comment in the function lists [NDAS] among them too. *)
Definition listed_major_brands : list Z :=
  [ fourcc_of "isom"; fourcc_of "iso2"; fourcc_of "iso5"; fourcc_of "iso6";
    fourcc_of "mp41"; fourcc_of "mp42"; fourcc_of "M4A "; fourcc_of "M4B ";
    fourcc_of "M4P "; fourcc_of "M4V "; fourcc_of "M4VH"; fourcc_of "avc1";
    fourcc_of "f4v "; fourcc_of "qt  "; fourcc_of "MSNV"; fourcc_of "NDAS";
    fourcc_of "dash"; fourcc_of "3gp4"; fourcc_of "3gp5"; fourcc_of "3gp6";
    fourcc_of "3g2a" ].

(** A file whose first box is [ftyp] with major brand [brand], which is
    also its only compatible brand. *)
Definition brand_file (brand : Z) : list byte :=
  ftyp_bytes brand [brand] ++ mdat_bytes.

(** The code [mp4_validate_ftyp] returns for a file just opened. *)
Definition validate (data : list byte) : option Z :=
  option_map fst (mp4_validate_ftyp (open_file data false)).

(** A C string holds no NUL byte before its terminator. *)
Definition c_string (s : list byte) : Prop := ~ In x00 s.

(** A string with the ASCII letters [a]..[z] turned to upper case, as
    [str_casecmp] compares it. *)
Definition fold_case (s : list byte) : list Z :=
  map (fun b => upcase (b2z b)) s.

(** A context that holds the collection [coll] in its cache. *)
Definition cached_ctx (coll : mp4tag_collection_t) : mp4tag_context_t :=
  mk_ctx (Some (open_file [] false)) (Some (cs "a.m4a")) false info_init
         (Some coll).

(** A simple tag with a name and a textual value. *)
Definition text_tag (name value : list byte) : mp4tag_simple_tag_t :=
  mk_simple_tag (Some name) (Some value) None None 0 [].

(** One tag of target type ALBUM that holds the given simple tags. *)
Definition album_of (sts : list mp4tag_simple_tag_t) : mp4tag_collection_t :=
  mk_collection [mk_tag MP4TAG_TARGET_ALBUM None [] [] [] [] sts] 1.

(** The handle of a file with bytes [data], just opened and moved to
    [offset]. *)
Definition open_at (data : list byte) (offset : Z) : file_handle :=
  set_pos (open_file data false) offset.

(** The test of the second [switch] of [mp4_validate_ftyp] on a list
    of compatible brands. *)
Definition any_compatible (compat : list Z) : bool :=
  existsb (fun c => switch_case c compatible_brands) compat.

(** What the inner loop of [mp4_tags_serialize_ilst] appends for one
    simple tag: nothing for a tag without a name. *)
Definition serialized_item (st : mp4tag_simple_tag_t) : list byte :=
  match st_name st with
  | None => []
  | Some _ => serialize_tag_item st []
  end.

(** The simple tag [parse_ilst_item] builds for an item of type [f]
    whose ['data'] box holds the type indicator [dt] and the payload
    [content]: the branches of the function, on the bytes it would
    read. *)
Definition decoded_tag (f dt : Z) (content : list byte)
  : mp4tag_simple_tag_t :=
  let name :=
    match mp4_tag_fourcc_to_name f with
    | Some name => name
    | None => mp4_fourcc_to_str f
    end in
  let st := mk_simple_tag (Some name) None None None 0 [] in
  let value_size := len content in
  set_is_default
    (if is_int_atom f && (0 <? value_size) && (value_size <=? 8) then
       set_value st (Some (int_atom_value f content value_size))
     else if (dt =? MP4_DATA_UTF8) || (dt =? MP4_DATA_IMPLICIT) then
       if 0 <? value_size then set_value st (Some (c_str content)) else st
     else if dt =? MP4_DATA_INTEGER then
       if (0 <? value_size) && (value_size <=? 8)
       then set_value st (Some (snprintf 32 (utoa (be_u64 content))))
       else st
     else
       if 0 <? value_size then set_binary st (Some content) else st)
    1.

(** The name [parse_ilst_item] gives to an item of type [f]. *)
Definition item_name (f : Z) : list byte :=
  match mp4_tag_fourcc_to_name f with
  | Some name => name
  | None => mp4_fourcc_to_str f
  end.

(* ------------------------------------------------------------------ *)
(** * Setting and removing one tag (mp4tag.c)                           *)
(* ------------------------------------------------------------------ *)

(** [clone_simple_tag]: the strings and a non-empty binary value are
    copied; [nested] and [next] stay NULL. *)
Definition clone_simple_tag (src : mp4tag_simple_tag_t)
  : mp4tag_simple_tag_t :=
  mk_simple_tag (st_name src) (st_value src)
    (match st_binary src with
     | Some b => if 0 <? len b then Some b else None
     | None => None
     end)
    (st_language src) (st_is_default src) [].

(** [st->name && str_casecmp(st->name, name) == 0]: the tag is the one
    that is replaced. *)
Definition replaced (name : list byte) (st : mp4tag_simple_tag_t) : bool :=
  match st_name st with
  | Some _ => str_casecmp (st_name st) (Some name) =? 0
  | None => false
  end.

(** The collection [mp4tag_set_tag_string] builds and hands to
    [mp4tag_write_tags]: one ALBUM tag with a copy of every existing
    simple tag but the ones replaced, appended one by one at the tail,
    and then the new tag unless [value] is NULL. *)
Definition set_tag_work (existing : option mp4tag_collection_t)
    (name : list byte) (value : option (list byte)) : mp4tag_collection_t :=
  let wtag := mk_tag MP4TAG_TARGET_ALBUM None [] [] [] [] [] in
  (* Copy existing tags, skipping the one we're replacing *)
  let copied :=
    match existing with
    | Some existing =>
        fold_left
          (fun sts tag =>
             fold_left
               (fun sts st =>
                  if replaced name st then sts
                  else sts ++ [clone_simple_tag st])
               (simple_tags tag) sts)
          (tags existing) []
    | None => []
    end in
  (* Add the new/updated tag *)
  let sts :=
    match value with
    | Some v => copied ++ [mk_simple_tag (Some name) (Some v) None None 0 []]
    | None => copied
    end in
  mk_collection [set_simple_tags wtag sts] 1.

(** [mp4tag_set_tag_string(ctx, name, value)] with a non-NULL [ctx]. *)
Definition mp4tag_set_tag_string (env : os_env) (name : option (list byte))
    (value : option (list byte)) : prog mp4tag_context_t Z :=
  match name with
  | None => ret MP4TAG_ERR_INVALID_ARG
  | Some name =>
      ctx <- get ;;
      match ctx_fh ctx with
      | None => ret MP4TAG_ERR_NOT_OPEN
      | Some _ =>
          if negb (ctx_writable ctx) then ret MP4TAG_ERR_READ_ONLY
          else
            '(_, existing) <- mp4tag_read_tags ;;
            mp4tag_write_tags env (set_tag_work existing name value)
      end
  end.

Definition mp4tag_remove_tag (env : os_env) (name : option (list byte))
  : prog mp4tag_context_t Z :=
  mp4tag_set_tag_string env name None.

(** The value [mp4tag_read_tag_string] would find for [name] in a
    collection: the value of the first simple tag that passes the test
    of its loop. *)
Definition lookup (coll : mp4tag_collection_t) (name : list byte)
  : option (list byte) :=
  match find (tag_matches (Some name)) (all_simple_tags coll) with
  | Some st => st_value st
  | None => None
  end.

(** Every simple tag of the collection has a name that is a C string. *)
Definition named_by_strings (coll : mp4tag_collection_t) : Prop :=
  forall st n, In st (all_simple_tags coll) -> st_name st = Some n ->
               c_string n.

(** [fh'] is on the same file as [fh], with its buffer in agreement. *)
Definition same_file (fh fh' : file_handle) : Prop :=
  coherent fh' /\ fd_data fh' = fd_data fh /\
  file_size_field fh' = file_size_field fh.

(** An ilst item given by its FourCC, its type indicator and its
    payload. *)
Definition item_of (it : Z * Z * list byte) : list byte :=
  item_bytes (fst (fst it)) (snd (fst it)) (snd it).

(** The tag [parse_ilst_item] builds for it. *)
Definition decoded_item (it : Z * Z * list byte) : mp4tag_simple_tag_t :=
  decoded_tag (fst (fst it)) (snd (fst it)) (snd it).

(** The FourCC and the indicator fit in 32 bits, and so does the size
    of the item. *)
Definition item_fits (it : Z * Z * list byte) : Prop :=
  0 <= fst (fst it) < 4294967296 /\ 0 <= snd (fst it) < 4294967296 /\
  24 + len (snd it) < 4294967296.

(** The FileMap of a file whose ilst box lies at [offset] and has
    [size] bytes. *)
Definition ilst_at (offset size : Z) : mp4_file_info_t :=
  set_ilst info_init offset size.

(** A tag name whose FourCC [serialize_tag_item] stores as UTF-8 text:
    it is known, and is not one of the integer atoms, [covr] or
    [gnre]. *)
Definition stored_as_text (name : list byte) : Prop :=
  let f := mp4_tag_name_to_fourcc (Some name) in
  f <> 0 /\ is_int_atom f = false /\ f <> MP4_TAG_COVR /\ f <> MP4_TAG_GNRE.

(** The tag read back for a text tag that was written. *)
Definition read_back (nv : list byte * list byte) : mp4tag_simple_tag_t :=
  mk_simple_tag (Some (item_name (mp4_tag_name_to_fourcc (Some (fst nv)))))
                (Some (snd nv)) None None 1 [].

(** A box given by its type and its payload, and a sequence of boxes
    that lie one after the other. *)
Definition box_of (b : Z * list byte) : list byte :=
  box_bytes (fst b) (snd b).

Definition boxes (bs : list (Z * list byte)) : list byte :=
  concat (map box_of bs).

(** The type and the size of the box fit in the 32 bits of their
    fields. *)
Definition box_fits (b : Z * list byte) : Prop :=
  0 <= fst b < 4294967296 /\ 8 + len (snd b) < 4294967296.

(** What [mp4_read_box_header] stores for the box [b] that lies at
    [off]. *)
Definition header_at (off : Z) (b : Z * list byte) : mp4_box_t :=
  mk_box (fst b) off (8 + len (snd b)) (off + 8) (8 + len (snd b) - 8) 8.

(** None of the boxes has the type [target]. *)
Definition without (target : Z) (bs : list (Z * list byte)) : Prop :=
  Forall (fun b => fst b <> target) bs.

(** [*info] after the top-level scan of [mp4_parse_structure] has met
    the box [b] at [off], and after it has met the boxes [bs] that lie
    one after the other from [off] on. *)
Definition scan_box (off : Z) (info : mp4_file_info_t) (b : Z * list byte)
  : mp4_file_info_t :=
  if fst b =? MP4_BOX_FTYP then set_ftyp info off
  else if fst b =? MP4_BOX_MOOV then set_moov info off (8 + len (snd b))
  else if fst b =? MP4_BOX_MDAT then set_mdat info off (8 + len (snd b))
  else info.

Fixpoint scan_boxes (off : Z) (info : mp4_file_info_t)
    (bs : list (Z * list byte)) : mp4_file_info_t :=
  match bs with
  | [] => info
  | b :: bs' => scan_boxes (off + (8 + len (snd b))) (scan_box off info b) bs'
  end.

(** The parts of a file that carries its metadata in
    [moov/udta/meta/ilst]:
    [before  moov { m_before  udta { u_before
       meta { version_flags  me_before  ilst { items }  tail }  u_rest }
       m_rest }  after]. *)
Record tagged_file : Type := mk_tagged_file {
  tf_before    : list (Z * list byte);  (* top-level boxes before moov *)
  tf_m_before  : list (Z * list byte);  (* children of moov before udta *)
  tf_u_before  : list (Z * list byte);  (* children of udta before meta *)
  tf_version   : list byte;             (* version and flags of meta *)
  tf_me_before : list (Z * list byte);  (* children of meta before ilst *)
  tf_items     : list byte;             (* the content of ilst *)
  tf_tail      : list (Z * list byte);  (* children of meta after ilst *)
  tf_u_rest    : list byte;             (* the rest of udta *)
  tf_m_rest    : list byte;             (* the rest of moov *)
  tf_after     : list (Z * list byte)   (* top-level boxes after moov *)
}.

Definition meta_payload (t : tagged_file) : list byte :=
  tf_version t ++ boxes (tf_me_before t)
  ++ box_bytes MP4_BOX_ILST (tf_items t) ++ boxes (tf_tail t).

Definition udta_payload (t : tagged_file) : list byte :=
  boxes (tf_u_before t) ++ box_bytes MP4_BOX_META (meta_payload t)
  ++ tf_u_rest t.

Definition moov_payload (t : tagged_file) : list byte :=
  boxes (tf_m_before t) ++ box_bytes MP4_BOX_UDTA (udta_payload t)
  ++ tf_m_rest t.

Definition file_of (t : tagged_file) : list byte :=
  boxes (tf_before t) ++ box_bytes MP4_BOX_MOOV (moov_payload t)
  ++ boxes (tf_after t).

(** The offsets of the boxes on the way to ilst. *)
Definition moov_position (t : tagged_file) : Z := len (boxes (tf_before t)).
Definition udta_position (t : tagged_file) : Z :=
  moov_position t + 8 + len (boxes (tf_m_before t)).
Definition meta_position (t : tagged_file) : Z :=
  udta_position t + 8 + len (boxes (tf_u_before t)).
Definition ilst_position (t : tagged_file) : Z :=
  meta_position t + 8 + 4 + len (boxes (tf_me_before t)).

(** Every box fits the 32 bits of its fields, and [moov], [udta],
    [meta] and [ilst] are the first of their type where they are
    looked for ([moov] the last at top level). *)
Definition well_formed (t : tagged_file) : Prop :=
  Forall box_fits (tf_before t) /\ Forall box_fits (tf_after t) /\
  Forall box_fits (tf_m_before t) /\ Forall box_fits (tf_u_before t) /\
  Forall box_fits (tf_me_before t) /\ Forall box_fits (tf_tail t) /\
  len (tf_version t) = 4 /\
  8 + len (moov_payload t) < 4294967296 /\
  without MP4_BOX_MOOV (tf_after t) /\
  without MP4_BOX_UDTA (tf_m_before t) /\
  without MP4_BOX_META (tf_u_before t) /\
  without MP4_BOX_ILST (tf_me_before t).

(** The free or skip box right after ilst, if there is one: its size. *)
Definition free_after (t : tagged_file) : option Z :=
  match tf_tail t with
  | b :: _ => if (fst b =? MP4_BOX_FREE) || (fst b =? MP4_BOX_SKIP)
              then Some (8 + len (snd b)) else None
  | [] => None
  end.

(** A tagged file: ftyp, then moov with a free box, udta with meta,
    hdlr, ilst and a free box of ten bytes, then mdat. *)
Definition sample_tagged : tagged_file :=
  mk_tagged_file
    [(MP4_BOX_FTYP, be32_bytes (fourcc_of "M4A ") ++ be32_bytes 0)]
    [(MP4_BOX_FREE, [x00])]
    []
    [x00; x00; x00; x00]
    [(MP4_BOX_HDLR, hdlr_data)]
    sample_items
    [(MP4_BOX_FREE, [x00; x00])]
    []
    []
    [(MP4_BOX_MDAT, [x01; x02; x03])].

(** The scratch file of [rewrite_file] after the bytes [out] have been
    written to it: writable, without faults of the operating system,
    and positioned at its end. *)
Definition appended (tmp : file_handle) (out : list byte) : Prop :=
  fd_faults tmp = [] /\ writable tmp = true /\
  fd_data tmp = out /\ pos tmp = len out.

(** The children of moov that [rewrite_file] copies: all but udta. *)
Definition kept (children : list (Z * list byte)) : list (Z * list byte) :=
  filter (fun b => negb (fst b =? MP4_BOX_UDTA)) children.

(** The file [rewrite_file] builds from a file with the top-level boxes
    [before], a moov box with [children], and the boxes [after]. *)
Definition rewritten (before children after : list (Z * list byte))
    (udta_buf : list byte) : list byte :=
  boxes before
  ++ box_bytes MP4_BOX_MOOV (boxes (kept children) ++ udta_buf)
  ++ boxes after.

(** The file [rewrite_file] builds, as a tagged file: the udta that
    [mp4_tags_build_udta] makes around [content] is the last child of
    moov. *)
Definition rebuilt (before children after : list (Z * list byte))
    (content : list byte) : tagged_file :=
  mk_tagged_file before (kept children) [] (be32_bytes 0)
    [(MP4_BOX_HDLR, hdlr_data)] content [] [] [] after.

(** The free box right after ilst counts as space of ilst; the other
    children of meta after ilst do not. *)
Definition tail_kept (t : tagged_file) : list (Z * list byte) :=
  match free_after t with
  | Some _ => tl (tf_tail t)
  | None => tf_tail t
  end.

(** [available] of [try_inplace] for a tagged file. *)
Definition room (t : tagged_file) : Z :=
  8 + len (tf_items t)
  + match free_after t with Some size => size | None => 0 end.

(** The tagged file after [try_inplace] has put [content] in the place
    of ilst and of the free box after it, with a free box for what
    remains. *)
Definition replaced_items (t : tagged_file) (content : list byte)
  : tagged_file :=
  let remaining := room t - (8 + len content) in
  mk_tagged_file (tf_before t) (tf_m_before t) (tf_u_before t)
    (tf_version t) (tf_me_before t) content
    ((if 8 <=? remaining
      then [(MP4_BOX_FREE, repeat x00 (Z.to_nat (remaining - 8)))]
      else []) ++ tail_kept t)
    (tf_u_rest t) (tf_m_rest t) (tf_after t).

(* ================================================================== *)
(** * Properties                                                        *)
(* ================================================================== *)

(** ** Bytes and lists *)

Lemma b2z_range (b : byte) : 0 <= b2z b < 256.
Proof.
  unfold b2z. pose proof (Byte.to_N_bounded b). lia.
Qed.

Lemma b2z_z2b (z : Z) : b2z (z2b z) = u8 z.
Proof.
  unfold z2b, b2z, u8.
  pose proof (Z.mod_pos_bound z 256 ltac:(lia)) as Hm.
  destruct (Byte.of_N (Z.to_N (z mod 256))) as [b|] eqn:E.
  - apply Byte.to_of_N in E. rewrite E. lia.
  - apply Byte.of_N_None_iff in E. lia.
Qed.

Lemma z2b_b2z (b : byte) : z2b (b2z b) = b.
Proof.
  unfold z2b, u8. pose proof (b2z_range b) as Hb.
  rewrite Z.mod_small by lia. unfold b2z. rewrite N2Z.id.
  now rewrite Byte.of_to_N.
Qed.

Lemma len_nonneg {A} (l : list A) : 0 <= len l.
Proof. unfold len. lia. Qed.

Lemma len_app {A} (l1 l2 : list A) : len (l1 ++ l2) = len l1 + len l2.
Proof. unfold len. rewrite length_app. lia. Qed.

Lemma len_nil {A} : len (@nil A) = 0.
Proof. reflexivity. Qed.

Lemma len_slice_le {A} (l : list A) (off count : Z) :
  len (slice l off count) <= len l.
Proof.
  unfold len, slice. rewrite length_firstn, length_skipn. lia.
Qed.

Lemma len_slice {A} (l : list A) (off count : Z) :
  0 <= off -> 0 <= count -> off + count <= len l ->
  len (slice l off count) = count.
Proof.
  unfold len, slice. intros. rewrite length_firstn, length_skipn. lia.
Qed.

(** ** Rules for programs *)

Section Rules.
Context {St : Type}.
Implicit Types st : St.

Lemma runs_ret {A} (a : A) st (Q : A -> St -> Prop) :
  Q a st -> runs (ret a) st Q.
Proof. intros H. exists a, st. split; [reflexivity | exact H]. Qed.

Lemma runs_bind {A B} (c : prog St A) (k : A -> prog St B) st
      (Q : B -> St -> Prop) :
  runs c st (fun a st' => runs (k a) st' Q) -> runs (bind c k) st Q.
Proof.
  intros (a & st' & Hc & b & st'' & Hk & HQ).
  exists b, st''. unfold bind. rewrite Hc. split; assumption.
Qed.

Lemma runs_weaken {A} (c : prog St A) st (P Q : A -> St -> Prop) :
  runs c st P -> (forall a st', P a st' -> Q a st') -> runs c st Q.
Proof.
  intros (a & st' & Hc & HP) H. exists a, st'. split; auto.
Qed.

Lemma runs_and {A} (c : prog St A) st (P Q : A -> St -> Prop) :
  runs c st P -> runs c st Q -> runs c st (fun a st' => P a st' /\ Q a st').
Proof.
  intros (a & st' & Hc & HP) (a2 & st2 & Hc2 & HQ).
  rewrite Hc in Hc2. injection Hc2 as <- <-.
  exists a, st'. auto.
Qed.

Lemma runs_result {A} (c : prog St A) st (Q : A -> St -> Prop) a st' :
  runs c st Q -> c st = Some (a, st') -> Q a st'.
Proof.
  intros (a2 & st2 & Hc & HQ) E. rewrite Hc in E.
  injection E as <- <-. exact HQ.
Qed.

Lemma runs_eq {A} (c : prog St A) st (Q : A -> St -> Prop) :
  runs c st Q -> runs c st (fun a st' => c st = Some (a, st') /\ Q a st').
Proof.
  intros (a & st' & Hc & HQ). exists a, st'. auto.
Qed.

Lemma runs_get st (Q : St -> St -> Prop) : Q st st -> runs get st Q.
Proof. intros H. exists st, st. split; [reflexivity | exact H]. Qed.

Lemma runs_put st st1 (Q : unit -> St -> Prop) :
  Q tt st1 -> runs (put st1) st Q.
Proof. intros H. exists tt, st1. split; [reflexivity | exact H]. Qed.

(** A loop with invariant [I] whose rounds decrease [m] returns when
    it is given more than [m] rounds. *)
Lemma runs_while {S R} (body : S -> prog St (S + R))
      (I : S -> St -> Prop) (m : S -> St -> nat) (Q : R -> St -> Prop) :
  (forall s st, I s st ->
     runs (body s) st (fun x st' =>
       match x with
       | inl s' => I s' st' /\ (m s' st' < m s st)%nat
       | inr r => Q r st'
       end)) ->
  forall fuel s st, I s st -> (m s st < fuel)%nat ->
    runs (while_loop fuel body s) st Q.
Proof.
  intros Hbody. induction fuel as [|fuel IH]; intros s st HI Hm.
  - lia.
  - cbn [while_loop]. apply runs_bind.
    eapply runs_weaken; [apply Hbody; exact HI|].
    intros [s'|r] st' H; cbn beta iota.
    + destruct H as [HI' Hlt]. apply IH; [exact HI' | lia].
    + apply runs_ret. exact H.
Qed.
End Rules.

(** Symbolic execution of one step of a [runs] goal. *)
Ltac run_step :=
  lazymatch goal with
  | |- runs (bind _ _) _ _ => apply runs_bind
  | |- runs (ret _) _ _ => apply runs_ret
  | |- runs get _ _ => apply runs_get
  | |- runs (put _) _ _ => apply runs_put
  | |- runs (let '(_, _) := ?p in _) _ _ => destruct p
  | |- runs (if ?b then _ else _) _ _ => destruct b eqn:?
  end.

(** ** Reading does not change the file *)

Lemma frame_refl fh : frame fh fh.
Proof. unfold frame. repeat split; lia. Qed.

Lemma frame_trans fh1 fh2 fh3 : frame fh1 fh2 -> frame fh2 fh3 -> frame fh1 fh3.
Proof.
  unfold frame. intros (a & b & c & d) (a' & b' & c' & d').
  repeat split; try congruence; lia.
Qed.

Lemma reach_ge_len fh : len (fd_data fh) <= reach fh.
Proof. unfold reach. lia. Qed.

Lemma reach_nonneg fh : 0 <= reach fh.
Proof. pose proof (reach_ge_len fh). pose proof (len_nonneg (fd_data fh)). lia. Qed.

Lemma runs_os_fault fh (Q : bool -> file_handle -> Prop) :
  (forall f l, Q f (set_faults fh l)) -> runs os_fault fh Q.
Proof.
  intros H. unfold runs, os_fault. destruct (fd_faults fh) as [|f l] eqn:E.
  - exists false, fh. split; [reflexivity|].
    specialize (H false (fd_faults fh)). destruct fh; exact H.
  - exists f, (set_faults fh l). split; [reflexivity | apply H].
Qed.

Lemma frame_set_faults fh l : frame fh (set_faults fh l).
Proof. unfold frame, reach, buf_len. cbn. repeat split; lia. Qed.

Lemma frame_set_pos fh p : frame fh (set_pos fh p).
Proof. unfold frame, reach, buf_len. cbn. repeat split; lia. Qed.

Lemma runs_file_seek fh offset :
  runs (file_seek offset) fh
       (fun rc fh' => rc = 0 /\ fh' = set_pos fh offset).
Proof. unfold file_seek. repeat run_step. auto. Qed.

(** ** [file_read] *)

Lemma in_read_buffer_spec fh :
  in_read_buffer fh = true ->
  0 < buf_len fh /\ buf_start fh <= pos fh < buf_start fh + buf_len fh.
Proof. unfold in_read_buffer. lia. Qed.

Lemma file_read_body_spec fh0 n s fh :
  file_read_inv fh0 n s fh ->
  runs (file_read_body s) fh (fun x fh' =>
    match x with
    | inl s' => file_read_inv fh0 n s' fh' /\
                (file_read_measure s' fh' < file_read_measure s fh)%nat
    | inr r => frame fh0 fh' /\ read_rc (fst r) /\
               (fst r = 0 -> len (snd r) = n /\ pos fh' = pos fh0 + n /\
                             (0 < n -> pos fh0 + n <= reach fh'))
    end).
Proof.
  destruct s as [dst remaining].
  intros (Hfr & Hrem & Hpos & Hlen & Hbuf). cbn [fst snd] in *.
  unfold file_read_body. destruct (0 <? remaining) eqn:Hr.
  - apply runs_bind, runs_get.
    destruct (in_read_buffer fh) eqn:Hin.
    + pose proof (in_read_buffer_spec _ Hin) as Hin'.
      apply runs_bind, runs_put, runs_ret.
      set (to_copy := if remaining <? buf_len fh - (pos fh - buf_start fh)
                      then remaining
                      else buf_len fh - (pos fh - buf_start fh)).
      assert (Hc : 1 <= to_copy <= remaining /\
                   to_copy <= buf_len fh - (pos fh - buf_start fh)).
      { subst to_copy.
        destruct (remaining <? buf_len fh - (pos fh - buf_start fh)) eqn:E;
          lia. }
      split.
      * unfold file_read_inv. cbn [fst snd].
        split; [eapply frame_trans; [exact Hfr | apply frame_set_pos]|].
        split; [lia|]. split; [cbn; lia|].
        split.
        -- rewrite len_app, len_slice; unfold buf_len in *; lia.
        -- intros _. cbn. unfold buf_len in *. cbn. lia.
      * unfold file_read_measure. cbn [fst snd].
        rewrite Hin.
        destruct (in_read_buffer (set_pos fh (pos fh + to_copy))); lia.
    + unfold sys_lseek. apply runs_bind. apply runs_bind.
      apply runs_os_fault. intros f l. apply runs_ret.
      destruct (negb (negb f && (0 <=? pos fh))) eqn:Hseek.
      * apply runs_ret. cbn [fst snd].
        split; [eapply frame_trans; [exact Hfr | apply frame_set_faults]|].
        split; [unfold read_rc; auto|]. discriminate.
      * unfold sys_read. apply runs_bind. apply runs_bind.
        apply runs_os_fault. intros f2 l2. apply runs_bind, runs_get.
        apply runs_ret.
        assert (Hframe2 : frame fh0 (set_faults (set_faults fh l) l2)).
        { eapply frame_trans; [exact Hfr|].
          eapply frame_trans; apply frame_set_faults. }
        destruct f2.
        -- apply runs_ret. cbn [fst snd].
           split; [exact Hframe2|].
           split; [unfold read_rc; auto|]. discriminate.
        -- cbn [fd_data set_faults].
           set (bytes := slice (fd_data fh) (pos fh) READ_BUF_SIZE).
           destruct (len bytes =? 0) eqn:Hn.
           ++ apply runs_ret. cbn [fst snd].
              split; [exact Hframe2|].
              split; [unfold read_rc; auto|]. discriminate.
           ++ apply runs_bind, runs_get. apply runs_bind, runs_put.
              apply runs_ret.
              assert (Hp : 0 <= pos fh) by lia.
              assert (Hb : pos fh + len bytes <= len (fd_data fh)).
              { subst bytes. unfold len, slice in *.
                rewrite length_firstn, length_skipn in *.
                apply Z.eqb_neq in Hn. lia. }
              clearbody bytes.
              split.
              ** unfold file_read_inv. cbn [fst snd].
                 split.
                 { destruct Hframe2 as (a & b & c & d).
                   unfold frame, reach, buf_len in *. cbn in *.
                   repeat split; try assumption. lia. }
                 split; [lia|]. split; [cbn; lia|]. split; [lia|].
                 intros _. cbn. unfold buf_len. cbn.
                 pose proof (len_nonneg bytes). lia.
              ** unfold file_read_measure. cbn [fst snd].
                 replace (in_read_buffer
                            (set_buf (set_faults (set_faults fh l) l2)
                               (pos (set_faults (set_faults fh l) l2)) bytes))
                   with true.
                 { rewrite Hin. lia. }
                 symmetry. unfold in_read_buffer, buf_len. cbn.
                 pose proof (len_nonneg bytes).
                 apply andb_true_iff; split; [apply andb_true_iff; split|];
                   lia.
  - apply runs_ret. cbn [fst snd].
    split; [exact Hfr|]. split; [unfold read_rc; auto|].
    intros _. assert (remaining = 0) by lia. subst remaining.
    split; [lia|]. split; [lia|]. intros Hn.
    pose proof (reach_ge_len fh) as Hreach. unfold reach in *. lia.
Qed.

(** [file_read] returns; it leaves the file as it is; when it returns
    0 it has stored [size] bytes and moved the position by [size]. *)
Lemma runs_file_read fh n :
  runs (file_read n) fh (fun r fh' =>
    frame fh fh' /\ read_rc (fst r) /\
    (fst r = 0 -> 0 <= n -> len (snd r) = n /\ pos fh' = pos fh + n /\
                  (0 < n -> pos fh + n <= reach fh'))).
Proof.
  unfold file_read. destruct (Z.ltb_spec n 0) as [Hneg|Hn].
  - (* a negative size: the loop is not entered *)
    cbn [while_loop]. apply runs_bind. unfold file_read_body.
    replace (0 <? n) with false by lia.
    apply runs_ret, runs_ret. cbn [fst snd].
    split; [apply frame_refl|]. split; [unfold read_rc; auto|]. lia.
  - eapply runs_weaken.
    + apply (runs_while file_read_body (file_read_inv fh n)
               file_read_measure
               (fun r fh' => frame fh fh' /\ read_rc (fst r) /\
                  (fst r = 0 -> len (snd r) = n /\ pos fh' = pos fh + n /\
                                (0 < n -> pos fh + n <= reach fh')))).
      * intros s st HI. apply file_read_body_spec. exact HI.
      * unfold file_read_inv. cbn [fst snd].
        split; [apply frame_refl|]. split; [lia|]. split; [lia|].
        split; [rewrite len_nil; lia | lia].
      * unfold file_read_measure. cbn [fst snd].
        destruct (in_read_buffer fh); lia.
    + cbn beta. intros r fh' (H1 & H2 & H3). auto.
Qed.

(** ** [mp4_read_box_header] *)

Lemma runs_read_box_header fh :
  runs mp4_read_box_header fh (fun r fh' =>
    frame fh fh' /\ read_rc (fst r) /\
    (fst r = 0 -> box_read_at (pos fh) fh' (snd r))).
Proof.
  unfold mp4_read_box_header, file_tell.
  apply runs_bind, runs_get.
  destruct (pos fh <? 0) eqn:Hp.
  { apply runs_ret. cbn. split; [apply frame_refl|].
    split; [unfold read_rc; auto | discriminate]. }
  apply runs_bind. eapply runs_weaken; [apply runs_file_read|].
  intros [rc hdr] fh1 (Hf1 & Hrc1 & Hok1). cbn [fst snd] in *.
  destruct (negb (rc =? 0)) eqn:Hrc.
  { apply runs_ret. cbn. split; [exact Hf1|]. split; [exact Hrc1|].
    unfold MP4TAG_ERR_IO. lia. }
  assert (rc = 0) by lia. subst rc.
  destruct Hok1 as (Hlen & Hpos1 & Hreach1); [reflexivity | lia |].
  specialize (Hreach1 ltac:(lia)).
  destruct (be_value (firstn 4 hdr) =? 1) eqn:Hext.
  - apply runs_bind. eapply runs_weaken; [apply runs_file_read|].
    intros [rc ext] fh2 (Hf2 & Hrc2 & Hok2). cbn [fst snd] in *.
    destruct (negb (rc =? 0)) eqn:Hrc'.
    + apply runs_ret. cbn. split; [eapply frame_trans; eassumption|].
      split; [exact Hrc2 | lia].
    + apply runs_ret. cbn [fst snd].
      split; [eapply frame_trans; eassumption|].
      split; [unfold read_rc; auto|]. intros _.
      assert (rc = 0) by lia. subst rc.
      destruct Hok2 as (_ & Hpos2 & Hreach2); [reflexivity | lia |].
      specialize (Hreach2 ltac:(lia)).
      unfold box_read_at. cbn. repeat split; try lia; auto.
  - destruct (be_value (firstn 4 hdr) =? 0) eqn:Hzero.
    + apply runs_bind, runs_get. unfold file_size.
      destruct (file_size_field fh1 <? 0) eqn:Hfs.
      * apply runs_ret. cbn. split; [exact Hf1|].
        split; [unfold read_rc; auto | discriminate].
      * apply runs_ret. cbn [fst snd]. split; [exact Hf1|].
        split; [unfold read_rc; auto|]. intros _.
        unfold box_read_at. cbn. repeat split; try lia; auto.
    + apply runs_ret. cbn [fst snd]. split; [exact Hf1|].
      split; [unfold read_rc; auto|]. intros _.
      unfold box_read_at. cbn. repeat split; try lia; auto.
Qed.

(** ** Loops that walk boxes *)

Lemma walk_measure_fuel fh0 fh p :
  frame fh0 fh -> (walk_measure p fh < walk_fuel fh0)%nat.
Proof.
  intros (_ & _ & _ & Hr). unfold walk_measure, walk_fuel.
  pose proof (reach_nonneg fh). destruct (p <? 0) eqn:E; lia.
Qed.

(** A round that has read a header at [p] and moves on by [size]. *)
Lemma walk_measure_step fh fh1 fh' p size :
  frame fh fh1 -> frame fh1 fh' -> 0 <= p -> p + 8 <= reach fh1 ->
  8 <= size ->
  (walk_measure (p + size) fh' < walk_measure p fh)%nat.
Proof.
  intros (_ & _ & _ & H1) (_ & _ & _ & H2) Hp Hr Hs.
  unfold walk_measure.
  replace (p <? 0) with false by lia.
  replace (p + size <? 0) with false by lia. lia.
Qed.

Ltac split_and :=
  repeat match goal with |- _ /\ _ => split end.

Ltac run_seek :=
  apply runs_bind; eapply runs_weaken; [apply runs_file_seek|];
  intros ? ? (-> & ->); cbn [Z.eqb negb].

Ltac run_header rc child fh' Heq Hf Hrc Hbox :=
  apply runs_bind; eapply runs_weaken;
  [apply runs_eq, runs_read_box_header|];
  intros [rc child] fh' (Heq & Hf & Hrc & Hbox);
  cbn [fst snd] in Hf, Hrc, Hbox; cbn [pos set_pos] in Hbox.

Ltac run_read rc bytes fh' Hf Hrc Hok :=
  apply runs_bind; eapply runs_weaken; [apply runs_file_read|];
  intros [rc bytes] fh' (Hf & Hrc & Hok); cbn [fst snd] in Hf, Hrc, Hok.

Ltac frame_tac :=
  repeat first
    [ assumption
    | apply frame_refl
    | apply frame_set_pos
    | apply frame_set_faults
    | eapply frame_trans; [eassumption|]
    | eapply frame_trans; [apply frame_set_pos|] ].

(** ** The parser returns and only reads *)

Lemma located_frame fh fh' box :
  frame fh fh' -> located fh' box -> located fh box.
Proof.
  intros Hf (fh1 & fh2 & Hf1 & E). exists fh1, fh2.
  split; [eapply frame_trans; eassumption | exact E].
Qed.

Lemma runs_find_child_box fh off size target :
  runs (find_child_box off size target) fh (fun r fh' =>
    frame fh fh' /\
    (fst r = MP4TAG_OK ->
     box_type (snd r) = target /\ 8 <= box_size (snd r) /\
     located fh (snd r))).
Proof.
  unfold find_child_box. apply runs_bind, runs_get.
  eapply (runs_while _ (fun (p : Z) fh' => frame fh fh') walk_measure).
  - intros p st Hfr. unfold find_child_box_body.
    destruct (p + 8 <=? off + size) eqn:Hcond.
    + run_seek. run_header rc child fh1 Heq Hf Hrc Hbox.
      destruct (negb (rc =? 0)) eqn:E.
      { apply runs_ret. cbn. split; [frame_tac | unfold MP4TAG_OK; lia]. }
      assert (rc = 0) by lia. subst rc. specialize (Hbox eq_refl).
      destruct (box_size child <? 8) eqn:Hsz.
      { apply runs_ret. cbn. split; [frame_tac | discriminate]. }
      destruct (box_type child =? target) eqn:Hty.
      * apply runs_ret. cbn [fst snd]. split; [frame_tac|].
        intros _. split; [lia|]. split; [lia|].
        exists st, fh1. split; [exact Hfr|].
        destruct Hbox as (-> & _). exact Heq.
      * apply runs_ret. split; [frame_tac|].
        destruct Hbox as (Ho & Hp & Hr & _). rewrite Ho.
        eapply walk_measure_step with (fh1 := fh1); try frame_tac; lia.
    + apply runs_ret. cbn. split; [frame_tac | discriminate].
  - apply frame_refl.
  - apply walk_measure_fuel, frame_refl.
Qed.

Lemma runs_find_free_after fh after_offset container_end :
  runs (find_free_after after_offset container_end) fh (fun r fh' =>
    frame fh fh' /\
    (fst r = MP4TAG_OK ->
     exists box, snd r = Some (box_offset box, box_size box) /\
                 located fh box /\ box_offset box = after_offset /\
                 (box_type box = MP4_BOX_FREE \/ box_type box = MP4_BOX_SKIP))).
Proof.
  unfold find_free_after.
  destruct (container_end <? after_offset + 8).
  { apply runs_ret. cbn. split; [frame_tac | discriminate]. }
  run_seek. run_header rc box fh1 Heq Hf Hrc Hbox.
  destruct (negb (rc =? 0)) eqn:E.
  { apply runs_ret. cbn. split; [frame_tac | unfold MP4TAG_OK; lia]. }
  assert (rc = 0) by lia. subst rc. specialize (Hbox eq_refl).
  destruct ((box_type box =? MP4_BOX_FREE) || (box_type box =? MP4_BOX_SKIP))
    eqn:Hty.
  - apply runs_ret. cbn [fst snd]. split; [frame_tac|].
    intros _. exists box. split; [reflexivity|].
    split; [|split; [apply Hbox | lia]].
    exists fh, fh1. split; [apply frame_refl|].
    destruct Hbox as (-> & _). exact Heq.
  - apply runs_ret. cbn. split; [frame_tac | discriminate].
Qed.

Lemma runs_top_level fh0 fh fsize info :
  frame fh0 fh -> flags_clear info ->
  runs (while_loop (walk_fuel fh0) (top_level_body fsize) (0, info)) fh
       (fun e fh' => frame fh0 fh' /\ flags_clear (exit_info e) /\
                     forall rc i, e <> Return rc i).
Proof.
  intros Hfr0 Hcl0.
  eapply (runs_while _
            (fun (s : Z * mp4_file_info_t) fh' =>
               frame fh0 fh' /\ flags_clear (snd s))
            (fun s fh' => walk_measure (fst s) fh')).
  - intros [p i] st [Hfr Hcl]. cbn [fst snd] in *. unfold top_level_body.
    destruct (p + 8 <=? fsize) eqn:Hcond.
    + run_seek. run_header rc box fh1 Heq Hf Hrc Hbox.
      destruct (negb (rc =? 0)) eqn:E.
      { apply runs_ret. split_and; [frame_tac | exact Hcl | discriminate]. }
      assert (rc = 0) by lia. subst rc. specialize (Hbox eq_refl).
      destruct (box_size box <? 8) eqn:Hsz.
      { apply runs_ret. split_and; [frame_tac | exact Hcl | discriminate]. }
      apply runs_ret. split; [split; [frame_tac|]|].
      * cbn [snd].
        destruct (box_type box =? MP4_BOX_FTYP);
          [|destruct (box_type box =? MP4_BOX_MOOV);
            [|destruct (box_type box =? MP4_BOX_MDAT)]];
          exact Hcl.
      * cbn [fst].
        destruct Hbox as (Ho & Hp & Hr & _). rewrite Ho.
        eapply walk_measure_step with (fh1 := fh1); try frame_tac; lia.
    + apply runs_ret. split_and; [frame_tac | exact Hcl | discriminate].
  - split; assumption.
  - apply walk_measure_fuel. exact Hfr0.
Qed.

Ltac run_find rc box fh' Hf Hok :=
  apply runs_bind; eapply runs_weaken; [apply runs_find_child_box|];
  intros [rc box] fh' (Hf & Hok); cbn [fst snd] in Hf, Hok.

Lemma filled_from_found fh0 fh box type :
  frame fh0 fh ->
  box_type box = type /\ 8 <= box_size box /\ located fh box ->
  filled_from fh0 type (box_offset box) (box_size box).
Proof.
  intros Hf (Ht & _ & Hl). exists box.
  split; [eapply located_frame; eassumption | auto].
Qed.

Lemma runs_parse_moov fh info :
  flags_clear info ->
  runs (parse_moov info) fh (fun r fh' =>
    frame fh fh' /\ (fst r = MP4TAG_OK -> info_located fh (snd r))).
Proof.
  intros (Hu & Hm & Hi & Hfree). unfold parse_moov.
  run_seek. run_header rc moov fh1 Heq Hf1 Hrc Hbox.
  destruct (negb (rc =? 0)) eqn:E.
  { apply runs_ret. cbn. split; [frame_tac | unfold MP4TAG_OK; lia]. }
  assert (Hfr1 : frame fh fh1) by frame_tac.
  run_find rcu udta fh2 Hf2 Hudta.
  assert (Hfr2 : frame fh fh2) by frame_tac.
  destruct (rcu =? MP4TAG_OK) eqn:Eu.
  2:{ apply runs_ret. cbn [fst snd]. split; [exact Hfr2|]. intros _.
      unfold info_located. cbn. rewrite Hu, Hm, Hi, Hfree.
      split_and; discriminate. }
  specialize (Hudta ltac:(lia)).
  pose proof (filled_from_found Hfr1 Hudta) as Fu.
  run_find rcm meta fh3 Hf3 Hmeta.
  assert (Hfr3 : frame fh fh3) by frame_tac.
  destruct (rcm =? MP4TAG_OK) eqn:Em.
  2:{ apply runs_ret. cbn [fst snd]. split; [exact Hfr3|]. intros _.
      unfold info_located. cbn. rewrite Hm, Hi, Hfree.
      split_and; intros; try discriminate; auto. }
  specialize (Hmeta ltac:(lia)).
  pose proof (filled_from_found Hfr2 Hmeta) as Fm.
  run_find rch hdlr fh4 Hf4 Hhdlr.
  assert (Hfr4 : frame fh fh4) by frame_tac.
  run_find rci ilst fh5 Hf5 Hilst.
  assert (Hfr5 : frame fh fh5) by frame_tac.
  destruct (rci =? MP4TAG_OK) eqn:Ei.
  2:{ apply runs_ret. cbn [fst snd]. split; [exact Hfr5|]. intros _.
      unfold info_located. cbn. rewrite Hi, Hfree.
      split_and; intros; try discriminate; auto. }
  specialize (Hilst ltac:(lia)).
  pose proof (filled_from_found Hfr4 Hilst) as Fi.
  apply runs_bind. eapply runs_weaken; [apply runs_find_free_after|].
  intros [rcf free] fh6 (Hf6 & Hfree6). cbn [fst snd] in *.
  apply runs_ret. cbn [fst snd]. split; [frame_tac|]. intros _.
  unfold info_located. cbn.
  split_and; intros; try discriminate; auto.
  match goal with H : (rcf =? _) = true |- _ => apply Z.eqb_eq in H;
    destruct (Hfree6 H) as (box & -> & Hloc & Hoff & Hty) end. cbn.
  split; [reflexivity|]. split; [exact Hoff|].
  assert (Hloc' : located fh box) by (eapply located_frame; eassumption).
  destruct Hty as [Hty|Hty]; [left|right]; exists box; auto.
Qed.

Lemma flags_clear_init : flags_clear info_init.
Proof. unfold flags_clear. cbn. auto. Qed.

(** [mp4_parse_structure] returns; it only reads; a FileMap it returns
    with [MP4TAG_OK] satisfies the invariant. *)
Lemma runs_parse_structure fh :
  runs mp4_parse_structure fh (fun r fh' =>
    frame fh fh' /\ (fst r = MP4TAG_OK -> info_located fh (snd r))).
Proof.
  unfold mp4_parse_structure. apply runs_bind, runs_get.
  destruct (file_size fh <? 8).
  { apply runs_ret. cbn. split; [frame_tac | discriminate]. }
  apply runs_bind.
  eapply runs_weaken;
    [apply runs_top_level; [apply frame_refl | apply flags_clear_init]|].
  intros [i | rc i] fh1 (Hf & Hcl & Hret); cbn [exit_info] in Hcl.
  - destruct (moov_offset i <? 0).
    { apply runs_ret. cbn. split; [frame_tac | discriminate]. }
    eapply runs_weaken; [apply runs_parse_moov; exact Hcl|].
    intros r fh2 (Hf2 & Hok). split; [frame_tac|].
    intros Hr. destruct (Hok Hr) as (H1 & H2 & H3 & H4 & H5 & H6).
    unfold info_located, filled_from in *.
    split_and; auto.
    + intros H. destruct (H3 H) as (b & Hl & Hb). exists b.
      split; [eapply located_frame; eassumption | exact Hb].
    + intros H. destruct (H4 H) as (b & Hl & Hb). exists b.
      split; [eapply located_frame; eassumption | exact Hb].
    + intros H. destruct (H5 H) as (b & Hl & Hb). exists b.
      split; [eapply located_frame; eassumption | exact Hb].
    + intros H. destruct (H6 H) as (Ha & Hb & Hc). split_and; auto.
      destruct Hc as [(b & Hl & Hc)|(b & Hl & Hc)]; [left|right];
        exists b; (split; [eapply located_frame; eassumption | exact Hc]).
  - (* [file_seek] does not fail *)
    destruct (Hret rc i eq_refl).
Qed.

(** ** The item parser returns and only reads *)

Lemma runs_parse_data_box fh item_type child :
  runs (parse_data_box item_type child) fh (fun r fh' =>
    frame fh fh' /\ (snd r <> None -> fst r = MP4TAG_OK)).
Proof.
  unfold parse_data_box.
  run_read rc hdr fh1 Hf1 Hrc1 Hok1.
  destruct (negb (rc =? 0)).
  { apply runs_ret. cbn. split; [frame_tac | congruence]. }
  assert (Hdone : forall st fh2, frame fh fh2 ->
            runs (ret (MP4TAG_OK, Some (set_is_default st 1))) fh2
              (fun r fh' => frame fh fh' /\ (snd r <> None -> fst r = MP4TAG_OK))).
  { intros st fh2 Hf. apply runs_ret. cbn. auto. }
  assert (Hread : forall n (k : list byte -> mp4tag_simple_tag_t),
            runs ('(rc, bytes) <- file_read n ;;
                  if negb (rc =? 0) then ret (rc, None)
                  else ret (MP4TAG_OK, Some (set_is_default (k bytes) 1)))
              fh1
              (fun r fh' => frame fh fh' /\ (snd r <> None -> fst r = MP4TAG_OK))).
  { intros n k. run_read rc2 bytes fh2 Hf2 Hrc2 Hok2.
    destruct (negb (rc2 =? 0)).
    - apply runs_ret. cbn. split; [frame_tac | congruence].
    - apply Hdone. frame_tac. }
  destruct (is_int_atom item_type && (0 <? data_size child - 8)
            && (data_size child - 8 <=? 8)).
  { apply (Hread _ (fun b => set_value _ (Some (int_atom_value _ b _)))). }
  destruct ((be_value (firstn 4 hdr) =? MP4_DATA_UTF8)
            || (be_value (firstn 4 hdr) =? MP4_DATA_IMPLICIT)).
  { destruct (0 <? data_size child - 8).
    - apply (Hread _ (fun b => set_value _ (Some (c_str b)))).
    - apply Hdone. frame_tac. }
  destruct (be_value (firstn 4 hdr) =? MP4_DATA_INTEGER).
  { destruct ((0 <? data_size child - 8) && (data_size child - 8 <=? 8)).
    - apply (Hread _ (fun b => set_value _
                                 (Some (snprintf 32 (utoa (be_u64 b)))))).
    - apply Hdone. frame_tac. }
  destruct ((be_value (firstn 4 hdr) =? MP4_DATA_JPEG)
            || (be_value (firstn 4 hdr) =? MP4_DATA_PNG)).
  { destruct (0 <? data_size child - 8).
    - apply (Hread _ (fun b => set_binary _ (Some b))).
    - apply Hdone. frame_tac. }
  destruct (0 <? data_size child - 8).
  - apply (Hread _ (fun b => set_binary _ (Some b))).
  - apply Hdone. frame_tac.
Qed.

Lemma runs_parse_ilst_item fh item_box :
  runs (parse_ilst_item item_box) fh (fun r fh' =>
    frame fh fh' /\ (snd r <> None -> fst r = MP4TAG_OK)).
Proof.
  unfold parse_ilst_item. apply runs_bind, runs_get.
  eapply (runs_while _ (fun (p : Z) fh' => frame fh fh') walk_measure).
  - intros p st Hfr. unfold parse_ilst_item_body.
    destruct (p + 8 <=? box_offset item_box + box_size item_box).
    + run_seek. run_header rc child fh1 Heq Hf Hrc Hbox.
      destruct (negb (rc =? 0)) eqn:E.
      { apply runs_ret. cbn. split; [frame_tac | congruence]. }
      assert (rc = 0) by lia. subst rc. specialize (Hbox eq_refl).
      destruct (box_size child <? 8) eqn:Hsz.
      { apply runs_ret. cbn. split; [frame_tac | congruence]. }
      destruct ((box_type child =? MP4_BOX_DATA) && (8 <=? data_size child)).
      * apply runs_bind.
        eapply runs_weaken; [apply runs_parse_data_box|].
        intros r fh2 (Hf2 & Hr). apply runs_ret.
        split; [frame_tac | exact Hr].
      * apply runs_ret. split; [frame_tac|].
        destruct Hbox as (Ho & Hp & Hr & _). rewrite Ho.
        eapply walk_measure_step with (fh1 := fh1); try frame_tac; lia.
    + apply runs_ret. cbn. split; [frame_tac | congruence].
  - apply frame_refl.
  - apply walk_measure_fuel, frame_refl.
Qed.

Lemma runs_parse_ilst_loop fh0 fh end_ p :
  frame fh0 fh ->
  runs (while_loop (walk_fuel fh0) (parse_ilst_body end_) (p, [])) fh
       (fun _ fh' => frame fh0 fh').
Proof.
  intros Hfr0.
  eapply (runs_while _
            (fun (s : Z * list mp4tag_simple_tag_t) fh' => frame fh0 fh')
            (fun s fh' => walk_measure (fst s) fh')).
  - intros [q sts] st Hfr. unfold parse_ilst_body.
    destruct (q + 8 <=? end_).
    + run_seek. run_header rc item fh1 Heq Hf Hrc Hbox.
      destruct (negb (rc =? 0)) eqn:E.
      { apply runs_ret. frame_tac. }
      assert (rc = 0) by lia. subst rc. specialize (Hbox eq_refl).
      destruct (box_size item <? 8) eqn:Hsz.
      { apply runs_ret. frame_tac. }
      apply runs_bind.
      eapply runs_weaken; [apply runs_parse_ilst_item|].
      intros [rc st'] fh2 (Hf2 & _). apply runs_ret.
      split; [frame_tac|]. cbn [fst].
      destruct Hbox as (Ho & Hp & Hr & _). rewrite Ho.
      eapply walk_measure_step with (fh1 := fh1); try frame_tac; lia.
    + apply runs_ret. frame_tac.
  - exact Hfr0.
  - apply walk_measure_fuel. exact Hfr0.
Qed.

(** [mp4_tags_parse_ilst] returns and only reads; with [has_ilst] set
    it returns [MP4TAG_OK] and a collection of one ALBUM tag. *)
Lemma runs_parse_ilst fh info :
  runs (mp4_tags_parse_ilst info) fh (fun r fh' =>
    frame fh fh' /\
    if has_ilst info then
      exists sts,
        r = (MP4TAG_OK,
             Some (mk_collection
                     [mk_tag MP4TAG_TARGET_ALBUM None [] [] [] [] sts] 1))
    else r = (MP4TAG_ERR_NO_TAGS, None)).
Proof.
  unfold mp4_tags_parse_ilst. destruct (has_ilst info); cbn [negb].
  - apply runs_bind, runs_get. apply runs_bind.
    eapply runs_weaken; [apply runs_parse_ilst_loop, frame_refl|].
    intros sts fh' Hf. apply runs_ret. split; [exact Hf|].
    exists sts. reflexivity.
  - apply runs_ret. split; [apply frame_refl | reflexivity].
Qed.

(** ** Decimal text: [%u] printed and scanned *)

Lemma isdigit_digit (d : Z) : 0 <= d < 10 -> isdigit (z2b (48 + d)) = true.
Proof.
  intros Hd. unfold isdigit. rewrite b2z_z2b. unfold u8.
  rewrite Z.mod_small by lia. lia.
Qed.

Lemma digit_value (d : Z) : 0 <= d < 10 -> b2z (z2b (48 + d)) - 48 = d.
Proof.
  intros Hd. rewrite b2z_z2b. unfold u8. rewrite Z.mod_small by lia. lia.
Qed.

Lemma scan_digits_app (ds rest : list byte) (a : Z) :
  Forall (fun b => isdigit b = true) ds ->
  scan_digits a (ds ++ rest) = scan_digits (fold_left digit_step ds a) rest.
Proof.
  intros H. revert a. induction H as [|b ds Hb _ IH]; intros a; cbn.
  - reflexivity.
  - rewrite Hb. apply IH.
Qed.

(** The digits [utoa_loop] writes in front of [acc]. *)
Lemma utoa_loop_digits (fuel : nat) :
  forall v acc, 0 <= v < 2 ^ (Z.of_nat fuel + 1) ->
  exists ds,
    utoa_loop fuel v acc = ds ++ acc /\
    Forall (fun b => isdigit b = true) ds /\ ds <> [] /\
    (forall a, fold_left digit_step ds a = a * 10 ^ len ds + v) /\
    (forall k, 1 <= k -> v < 10 ^ k -> len ds <= k).
Proof.
  induction fuel as [|fuel IH]; intros v acc Hv.
  - assert (Hd : 0 <= v < 2) by (cbn in Hv; lia).
    exists [z2b (48 + v mod 10)]. cbn [utoa_loop].
    rewrite Z.mod_small by lia.
    split_and; [reflexivity| |discriminate| |].
    + constructor; [apply isdigit_digit; lia | constructor].
    + intros a. cbn [fold_left]. unfold digit_step.
      rewrite digit_value by lia. change (len [z2b (48 + v)]) with 1. lia.
    + intros k Hk _. change (len [z2b (48 + v)]) with 1. lia.
  - cbn [utoa_loop].
    pose proof (Z.mod_pos_bound v 10 ltac:(lia)) as Hm.
    pose proof (Z.div_mod v 10 ltac:(lia)) as Hdm.
    destruct (v / 10 =? 0) eqn:Hq.
    + exists [z2b (48 + v mod 10)].
      split_and; [reflexivity| |discriminate| |].
      * constructor; [apply isdigit_digit; lia | constructor].
      * intros a. cbn [fold_left]. unfold digit_step.
        rewrite digit_value by lia.
        change (len [z2b (48 + v mod 10)]) with 1. lia.
      * intros k Hk _. change (len [z2b (48 + v mod 10)]) with 1. lia.
    + assert (Hq' : 0 < v / 10) by (pose proof (Z.div_pos v 10); lia).
      destruct (IH (v / 10) (z2b (48 + v mod 10) :: acc))
        as (ds & Heq & Hall & Hne & Hval & Hlen).
      { split; [lia|].
        replace (Z.of_nat (S fuel) + 1) with (Z.succ (Z.of_nat fuel + 1))
          in Hv by lia.
        rewrite Z.pow_succ_r in Hv by lia. lia. }
      exists (ds ++ [z2b (48 + v mod 10)]).
      split_and.
      * rewrite Heq, <- app_assoc. reflexivity.
      * apply Forall_app. split; [exact Hall|].
        constructor; [apply isdigit_digit; lia | constructor].
      * destruct ds; discriminate.
      * intros a. rewrite fold_left_app, Hval. cbn [fold_left].
        unfold digit_step.
        rewrite digit_value by lia. rewrite len_app.
        change (len [z2b (48 + v mod 10)]) with 1.
        rewrite Z.pow_add_r by (pose proof (len_nonneg ds); lia).
        lia.
      * intros k Hk Hvk. rewrite len_app.
        change (len [z2b (48 + v mod 10)]) with 1.
        assert (2 <= k).
        { destruct (Z.eq_dec k 1); [subst k; cbn in Hvk; lia | lia]. }
        assert (len ds <= k - 1); [|lia].
        apply Hlen; [lia|].
        replace k with (Z.succ (k - 1)) in Hvk by lia.
        rewrite Z.pow_succ_r in Hvk by lia. lia.
Qed.

Lemma utoa_digits (v : Z) :
  0 <= v ->
  exists ds,
    utoa v = ds /\ Forall (fun b => isdigit b = true) ds /\ ds <> [] /\
    fold_left digit_step ds 0 = v /\
    (forall k, 1 <= k -> v < 10 ^ k -> len ds <= k).
Proof.
  intros Hv. unfold utoa.
  destruct (@utoa_loop_digits (Z.to_nat (Z.log2 v)) v [])
    as (ds & Heq & Hall & Hne & Hval & Hlen).
  { split; [lia|]. pose proof (Z.log2_nonneg v).
    rewrite Z2Nat.id by lia.
    destruct (Z.eq_dec v 0) as [->|]; [cbn; lia|].
    apply Z.log2_spec. lia. }
  exists ds. rewrite app_nil_r in Heq.
  split_and; auto.
Qed.

(** Scanning what [%u] printed, in front of something that is not a
    digit, gives the number back. *)
Lemma scan_u_utoa (v : Z) (rest : list byte) :
  0 <= v < 4294967296 ->
  match rest with b :: _ => isdigit b = false | [] => True end ->
  scan_u (utoa v ++ rest) = Converted v rest.
Proof.
  intros Hv Hrest.
  destruct (@utoa_digits v ltac:(lia)) as (ds & -> & Hall & Hne & Hval & _).
  destruct ds as [|d ds]; [congruence|].
  pose proof (Forall_inv Hall) as Hd. cbn beta in Hd.
  assert (Hdr : 48 <= b2z d <= 57) by (unfold isdigit in Hd; lia).
  unfold scan_u. cbn [app skip_space].
  replace (isspace d) with false by (unfold isspace; lia).
  replace (b2z d =? 45) with false by lia.
  replace (b2z d =? 43) with false by lia.
  rewrite Hd.
  change (d :: ds ++ rest) with ((d :: ds) ++ rest).
  rewrite scan_digits_app by exact Hall. rewrite Hval.
  assert (Hs : scan_digits v rest = (v, rest)).
  { destruct rest as [|b rest]; [reflexivity|]. cbn. now rewrite Hrest. }
  rewrite Hs. unfold u32. now rewrite Z.mod_small by lia.
Qed.

Lemma len_utoa (v k : Z) : 0 <= v < 10 ^ k -> 1 <= k -> len (utoa v) <= k.
Proof.
  intros Hv Hk.
  destruct (@utoa_digits v ltac:(lia)) as (ds & -> & _ & _ & _ & Hlen).
  apply Hlen; lia.
Qed.

Lemma snprintf_fits (size : Z) (text : list byte) :
  len text < size -> snprintf size text = text.
Proof.
  intros H. unfold snprintf. apply firstn_all2. unfold len in H. lia.
Qed.

(** ** Integer pairs *)

Lemma land_shiftl_low (x y : Z) : 0 <= y < 256 -> Z.land (Z.shiftl x 8) y = 0.
Proof.
  intros Hy. apply Z.bits_inj'. intros n Hn.
  rewrite Z.land_spec, Z.bits_0.
  destruct (Z.ltb_spec n 8) as [Hlt|Hge].
  - rewrite Z.shiftl_spec_low by lia. reflexivity.
  - destruct (Z.eq_dec y 0) as [->|Hy0].
    + rewrite Z.bits_0. apply andb_false_r.
    + rewrite (Z.bits_above_log2 y n); [apply andb_false_r | lia |].
      assert (Z.log2 y < 8) by (apply Z.log2_lt_pow2; lia). lia.
Qed.

Lemma lor_shiftl_add (x y : Z) :
  0 <= y < 256 -> Z.lor (Z.shiftl x 8) y = x * 256 + y.
Proof.
  intros Hy. rewrite <- Z.lxor_lor by (apply land_shiftl_low; exact Hy).
  rewrite <- Z.add_nocarry_lxor by (apply land_shiftl_low; exact Hy).
  rewrite Z.shiftl_mul_pow2 by lia. reflexivity.
Qed.

(** The two bytes of [be16_bytes] give the number back. *)
Lemma be16_value (n : Z) :
  0 <= n < 65536 ->
  u16 (Z.lor (Z.shiftl (b2z (z2b (Z.shiftr n 8))) 8) (b2z (z2b n))) = n.
Proof.
  intros Hn. rewrite !b2z_z2b. unfold u8, u16.
  rewrite Z.shiftr_div_pow2 by lia. change (2 ^ 8) with 256.
  pose proof (Z.mod_pos_bound n 256 ltac:(lia)).
  pose proof (Z.div_mod n 256 ltac:(lia)).
  assert (0 <= n / 256 < 256).
  { split; [apply Z.div_pos; lia | apply Z.div_lt_upper_bound; lia]. }
  rewrite (Z.mod_small (n / 256)) by lia.
  rewrite lor_shiftl_add by lia.
  rewrite Z.mod_small by lia. lia.
Qed.

Lemma decode_pair_item (atom : Z) (b2 b3 b4 b5 : byte) :
  atom = MP4_TAG_TRKN \/ atom = MP4_TAG_DISK ->
  decoded_value
    (item_bytes atom MP4_DATA_IMPLICIT [x00; x00; b2; b3; b4; b5; x00; x00])
  = Some (int_atom_value atom [x00; x00; b2; b3; b4; b5; x00; x00] 8).
Proof.
  intros [-> | ->]; lazy -[int_atom_value]; reflexivity.
Qed.

Lemma sscanf_pair_text (n t : Z) :
  0 <= n < 65536 -> 0 <= t < 65536 ->
  sscanf_u_slash_u (pair_text n t) 0 0 = (2, n, t).
Proof.
  intros Hn Ht. unfold sscanf_u_slash_u, pair_text.
  change (cs "/") with [x2f].
  rewrite scan_u_utoa by (try reflexivity; lia).
  cbn [app]. change (b2z x2f =? 47) with true. cbn iota.
  rewrite <- (app_nil_r (utoa t)).
  rewrite scan_u_utoa by (try exact I; lia). reflexivity.
Qed.

Lemma pair_payload_text (n t : Z) :
  0 <= n < 65536 -> 0 <= t < 65536 ->
  pair_payload (Some (pair_text n t)) = packed_pair n t.
Proof.
  intros Hn Ht. unfold pair_payload. rewrite sscanf_pair_text by assumption.
  reflexivity.
Qed.

Lemma int_atom_value_pair (atom n t : Z) :
  atom = MP4_TAG_TRKN \/ atom = MP4_TAG_DISK ->
  0 <= n < 65536 -> 0 <= t < 65536 ->
  int_atom_value atom (packed_pair n t) 8
  = if 0 <? t then pair_text n t else utoa n.
Proof.
  intros Ha Hn Ht. unfold int_atom_value.
  replace ((atom =? MP4_TAG_TRKN) || (atom =? MP4_TAG_DISK)) with true
    by (destruct Ha; subst; reflexivity).
  cbn [andb Z.leb Z.compare Pos.compare Pos.compare_cont].
  unfold packed_pair, be16_bytes, byte_at. cbn [app nth].
  rewrite !be16_value by assumption.
  assert (Hd : 65536 < 10 ^ 5) by reflexivity.
  pose proof (@len_utoa n 5 ltac:(lia) ltac:(lia)).
  pose proof (@len_utoa t 5 ltac:(lia) ltac:(lia)).
  destruct (0 <? t).
  - apply snprintf_fits. unfold pair_text. rewrite !len_app.
    change (len (cs "/")) with 1. lia.
  - apply snprintf_fits. lia.
Qed.

(** C4. For a track or disc number whose numerator N and total T fit
    in 16 bits, the encoder turns a tag whose value is the text "N/T"
    into an item with the packed payload 00 00 NN NN TT TT 00 00, and
    the decoder reads that item back as "N/T" when T > 0 and as "N"
    when T = 0. *)
Theorem pair_encode_decode (name : list byte) (n t : Z) :
  mp4_tag_name_to_fourcc (Some name) = MP4_TAG_TRKN \/
  mp4_tag_name_to_fourcc (Some name) = MP4_TAG_DISK ->
  0 <= n < 65536 -> 0 <= t < 65536 ->
  let st := mk_simple_tag (Some name) (Some (pair_text n t)) None None 0 [] in
  serialize_tag_item st []
  = item_bytes (mp4_tag_name_to_fourcc (Some name)) MP4_DATA_IMPLICIT
               (packed_pair n t) /\
  int_atom_value (mp4_tag_name_to_fourcc (Some name)) (packed_pair n t) 8
  = (if 0 <? t then pair_text n t else utoa n) /\
  decoded_value (serialize_tag_item st [])
  = Some (if 0 <? t then pair_text n t else utoa n).
Proof.
  intros Ha Hn Ht st.
  assert (Hser : serialize_tag_item st []
                 = item_bytes (mp4_tag_name_to_fourcc (Some name))
                              MP4_DATA_IMPLICIT (packed_pair n t)).
  { unfold serialize_tag_item, st. cbn [st_name st_value st_binary].
    set (atom := mp4_tag_name_to_fourcc (Some name)) in *.
    assert (Hnz : (atom =? 0) = false) by (destruct Ha as [-> | ->]; reflexivity).
    rewrite Hnz. unfold item_content.
    replace ((atom =? MP4_TAG_TRKN) || (atom =? MP4_TAG_DISK)) with true
      by (destruct Ha as [-> | ->]; reflexivity).
    cbn [st_value]. rewrite pair_payload_text by assumption.
    reflexivity. }
  split; [exact Hser|].
  split; [apply int_atom_value_pair; assumption|].
  rewrite Hser. unfold packed_pair at 1, be16_bytes. cbn [app].
  rewrite decode_pair_item by exact Ha.
  f_equal. apply int_atom_value_pair; assumption.
Qed.

Lemma pair_encode_decode_witness :
  let st := mk_simple_tag (Some (cs "TRACK_NUMBER")) (Some (cs "3/12"))
                          None None 0 [] in
  serialize_tag_item st []
  = item_bytes MP4_TAG_TRKN MP4_DATA_IMPLICIT
               [x00; x00; x00; x03; x00; x0c; x00; x00] /\
  decoded_value (serialize_tag_item st []) = Some (cs "3/12").
Proof.
  destruct (@pair_encode_decode (cs "TRACK_NUMBER") 3 12) as (H1 & _ & H2).
  - left. reflexivity.
  - lia.
  - lia.
  - split; [exact H1 | exact H2].
Defined.

(** ** One-byte payloads *)

Lemma int_atom_value_byte (atom : Z) (b : byte) :
  int_atom_value atom [b] 1 = utoa (b2z b).
Proof.
  unfold int_atom_value. cbn [Z.leb Z.compare Z.eqb Pos.eqb].
  rewrite !andb_false_r. unfold byte_at. cbn [nth].
  apply snprintf_fits. pose proof (b2z_range b).
  assert (len (utoa (b2z b)) <= 3); [|lia].
  apply len_utoa; [|lia]. change (10 ^ 3) with 1000. lia.
Qed.

Lemma decode_byte_item (atom : Z) (d0 d1 d2 d3 b : byte) :
  is_int_atom atom = true ->
  decoded_value
    (box_bytes atom
       (box_bytes MP4_BOX_DATA ([d0; d1; d2; d3] ++ be32_bytes 0 ++ [b])))
  = Some (int_atom_value atom [b] 1).
Proof.
  unfold is_int_atom. intros H.
  repeat match type of H with
         | (_ || _) = true => apply orb_true_iff in H; destruct H as [H|H]
         end;
    apply Z.eqb_eq in H; subst atom;
    lazy -[int_atom_value]; reflexivity.
Qed.

(** C8 (as amended). For an integer-valued atom (trkn, disk, tmpo, cpil,
    pgap) whose data payload is exactly one byte, whatever the type
    indicator, decoding yields the decimal text of that byte: "0" for
    the byte 0, "1" for the byte 1, and "2" to "255" for the others. *)
Theorem one_byte_payload_decodes_as_decimal
    (atom : Z) (d0 d1 d2 d3 b : byte) :
  is_int_atom atom = true ->
  decoded_value
    (box_bytes atom
       (box_bytes MP4_BOX_DATA ([d0; d1; d2; d3] ++ be32_bytes 0 ++ [b])))
  = Some (utoa (b2z b)) /\
  (b = x00 -> utoa (b2z b) = cs "0") /\
  (b = x01 -> utoa (b2z b) = cs "1") /\
  (b <> x00 -> b <> x01 -> utoa (b2z b) <> cs "0" /\ utoa (b2z b) <> cs "1").
Proof.
  intros Ha. rewrite decode_byte_item by exact Ha.
  rewrite int_atom_value_byte.
  split; [reflexivity|]. split; [intros ->; reflexivity|].
  split; [intros ->; reflexivity|].
  intros H0 H1. destruct b; try congruence; split; vm_compute; discriminate.
Qed.

Lemma one_byte_payload_decodes_as_decimal_witness :
  decoded_value (item_bytes MP4_TAG_CPIL MP4_DATA_INTEGER [x01])
  = Some (cs "1").
Proof.
  exact (proj1 (@one_byte_payload_decodes_as_decimal
                  MP4_TAG_CPIL x00 x00 x00 x15 x01 eq_refl)).
Defined.

(** C8 as stated fails: a cpil item whose one payload byte is 2 decodes
    as "2", which is neither "0" nor "1". *)
Lemma one_byte_payload_not_boolean :
  decoded_value (item_bytes MP4_TAG_CPIL MP4_DATA_INTEGER [x02])
  = Some (cs "2") /\
  cs "2" <> cs "0" /\ cs "2" <> cs "1".
Proof.
  split; [vm_compute; reflexivity|]. split; discriminate.
Qed.

(** ** Cover art *)

Lemma emitted_item_short (atom data_type : Z) (value : list byte) :
  len value < 4294967272 ->
  emitted_item atom data_type value = item_bytes atom data_type value.
Proof.
  intros H. pose proof (len_nonneg value).
  unfold emitted_item, item_bytes, box_bytes, u32.
  rewrite !len_app.
  change (len (be32_bytes data_type)) with 4.
  change (len (be32_bytes 0)) with 4.
  change (len (be32_bytes MP4_BOX_DATA)) with 4.
  change (len (be32_bytes (8 + (4 + (4 + len value))))) with 4.
  rewrite (Z.mod_small (len value)) by lia.
  rewrite (Z.mod_small (8 + 4 + 4 + len value)) by lia.
  rewrite (Z.mod_small (8 + (8 + 4 + 4 + len value))) by lia.
  replace (8 + (4 + (4 + len value))) with (8 + 4 + 4 + len value) by lia.
  replace (8 + (4 + (4 + (4 + (4 + len value)))))
    with (8 + (8 + 4 + 4 + len value)) by lia.
  reflexivity.
Qed.

(** C7 (as amended). For a COVER_ART (covr) tag with non-empty binary
    data the encoder emits one item whose indicator is PNG (14) when the
    binary has at least four bytes and starts with 0x89 0x50, and JPEG
    (13) otherwise; a covr tag without binary data, or with empty binary
    data, is skipped: nothing is emitted. *)
Theorem cover_art_indicator (st : mp4tag_simple_tag_t) (buf : list byte) :
  mp4_tag_name_to_fourcc (st_name st) = MP4_TAG_COVR ->
  serialize_tag_item st buf =
  match st_binary st with
  | Some (b0 :: rest) =>
      let png := (4 <=? len (b0 :: rest)) && (b2z b0 =? 137)
                 && (byte_at rest 0 =? 80) in
      buf ++ emitted_item MP4_TAG_COVR
               (if png then MP4_DATA_PNG else MP4_DATA_JPEG) (b0 :: rest)
  | Some [] => buf
  | None => buf
  end.
Proof.
  intros Hc. unfold serialize_tag_item. rewrite Hc.
  change (MP4_TAG_COVR =? 0) with false. cbn iota.
  unfold item_content.
  change ((MP4_TAG_COVR =? MP4_TAG_TRKN) || (MP4_TAG_COVR =? MP4_TAG_DISK))
    with false.
  change (MP4_TAG_COVR =? MP4_TAG_TMPO) with false.
  change ((MP4_TAG_COVR =? MP4_TAG_CPIL) || (MP4_TAG_COVR =? MP4_TAG_PGAP))
    with false.
  change (MP4_TAG_COVR =? MP4_TAG_COVR) with true. cbn iota.
  destruct (st_binary st) as [[|b0 rest]|]; [reflexivity| |reflexivity].
  assert (Hpos : (0 <? len (b0 :: rest)) = true)
    by (apply Z.ltb_lt; unfold len; cbn [length]; lia).
  rewrite Hpos.
  change (byte_at (b0 :: rest) 0) with (b2z b0).
  change (byte_at (b0 :: rest) 1) with (byte_at rest 0).
  cbv zeta.
  destruct ((4 <=? len (b0 :: rest)) && (b2z b0 =? 137)
            && (byte_at rest 0 =? 80));
    unfold emitted_item, mp4_write_box_header, buffer_append_be32,
      buffer_append; rewrite <- !app_assoc; reflexivity.
Qed.

Lemma cover_art_indicator_witness :
  serialize_tag_item (cover_art (Some [x89; x50; x4e; x47; x0d])) []
  = item_bytes MP4_TAG_COVR MP4_DATA_PNG [x89; x50; x4e; x47; x0d] /\
  serialize_tag_item (cover_art (Some [xff; xd8; xff; xe0])) []
  = item_bytes MP4_TAG_COVR MP4_DATA_JPEG [xff; xd8; xff; xe0] /\
  serialize_tag_item (cover_art (Some [])) [] = [].
Proof.
  split; [|split].
  - exact (@cover_art_indicator
             (cover_art (Some [x89; x50; x4e; x47; x0d])) [] eq_refl).
  - exact (@cover_art_indicator
             (cover_art (Some [xff; xd8; xff; xe0])) [] eq_refl).
  - exact (@cover_art_indicator (cover_art (Some [])) [] eq_refl).
Defined.

(** C7 as stated fails: a binary of two bytes that starts with
    0x89 0x50 is labelled JPEG (13), not PNG (14). *)
Lemma cover_art_two_bytes_labelled_jpeg :
  serialize_tag_item (cover_art (Some [x89; x50])) []
  = item_bytes MP4_TAG_COVR MP4_DATA_JPEG [x89; x50] /\
  serialize_tag_item (cover_art (Some [x89; x50])) []
  <> item_bytes MP4_TAG_COVR MP4_DATA_PNG [x89; x50].
Proof.
  split; [vm_compute; reflexivity | vm_compute; discriminate].
Qed.

(** ** The FileMap *)



(** ** Parsing ilst *)



(** On the damaged ilst the item without data is skipped, the title is
    kept, and the cut item ends the walk. *)
Lemma parse_damaged_ilst :
  exists fh',
    mp4_tags_parse_ilst (ilst_only_info (len damaged_ilst))
                        (open_file damaged_ilst false)
    = Some ((MP4TAG_OK,
             Some (mk_collection
                     [mk_tag MP4TAG_TARGET_ALBUM None [] [] [] []
                        [mk_simple_tag (Some (cs "TITLE")) (Some (cs "Kept"))
                                       None None 1 []]] 1)),
            fh').
Proof.
  eexists. vm_compute. reflexivity.
Qed.

(** ** Reading one tag *)

Lemma runs_on_fh {A} (c : prog file_handle A) (null : A) ctx fh
      (Q : A -> mp4tag_context_t -> Prop) :
  ctx_fh ctx = Some fh ->
  runs c fh (fun a fh' => Q a (set_fh ctx (Some fh'))) ->
  runs (on_fh c null) ctx Q.
Proof.
  intros Hfh (a & fh' & Hc & HQ). exists a, (set_fh ctx (Some fh')).
  unfold on_fh. rewrite Hfh, Hc. auto.
Qed.

Lemma runs_on_fh_null {A} (c : prog file_handle A) (null : A) ctx
      (Q : A -> mp4tag_context_t -> Prop) :
  ctx_fh ctx = None -> Q null ctx -> runs (on_fh c null) ctx Q.
Proof.
  intros Hfh HQ. exists null, ctx. unfold on_fh. rewrite Hfh. auto.
Qed.

(** [mp4tag_read_tags] returns; when it returns [MP4TAG_OK] it hands out
    a collection. *)
Lemma read_tags_collection ctx :
  runs mp4tag_read_tags ctx (fun r ctx' =>
    fst r = MP4TAG_OK -> exists coll, snd r = Some coll).
Proof.
  unfold mp4tag_read_tags. apply runs_bind, runs_get.
  destruct (ctx_fh ctx) as [fh|] eqn:Hfh.
  2:{ apply runs_ret. cbn. discriminate. }
  destruct (cached_tags ctx) as [coll|].
  { apply runs_ret. cbn. eauto. }
  destruct (has_ilst (ctx_info ctx)) eqn:Hi; cbn [negb].
  2:{ apply runs_ret. cbn. discriminate. }
  apply runs_bind. eapply runs_on_fh; [exact Hfh|].
  eapply runs_weaken; [apply runs_parse_ilst|].
  intros r fh' (_ & H). rewrite Hi in H. destruct H as (sts & ->).
  cbn [Z.eqb negb MP4TAG_OK].
  apply runs_bind, runs_get. apply runs_bind, runs_put. apply runs_ret.
  cbn. eauto.
Qed.

Lemma find_none_all {A} (f : A -> bool) (l : list A) :
  (forall x, In x l -> f x = false) -> find f l = None.
Proof.
  induction l as [|x l IH]; intros H; cbn.
  - reflexivity.
  - rewrite (H x (or_introl eq_refl)). apply IH.
    intros y Hy. apply H. right. exact Hy.
Qed.

(** C10. read_tag_string returns, and it only matches SimpleTags with a
    non-NULL textual value: a tag without one never passes the test of
    its loop, so when every tag of the collection that carries the
    requested name (compared without case) has no textual value, as a
    tag parsed from binary data has, the call returns TagNotFound, not
    the binary payload and not TagTooLarge; and an item whose indicator
    is not UTF-8, IMPLICIT or INTEGER, and that is not one of the
    integer atoms, is parsed into a tag without a textual value. *)
Theorem read_tag_string_skips_binary
    (ctx : mp4tag_context_t) (name : list byte) (size : Z) :
  size <> 0 ->
  (exists r ctx',
     mp4tag_read_tag_string (Some name) size ctx = Some (r, ctx') /\
     forall coll,
       mp4tag_read_tags ctx = Some ((MP4TAG_OK, Some coll), ctx') ->
       (forall st, In st (all_simple_tags coll) ->
                   str_casecmp (st_name st) (Some name) = 0 ->
                   st_value st = None) ->
       r = (MP4TAG_ERR_TAG_NOT_FOUND, None)) /\
  (forall st, st_value st = None -> tag_matches (Some name) st = false) /\
  (forall item_type child fh hdr fh1 rc st fh2,
     file_read 8 fh = Some ((0, hdr), fh1) ->
     is_int_atom item_type = false ->
     be_value (firstn 4 hdr) <> MP4_DATA_UTF8 ->
     be_value (firstn 4 hdr) <> MP4_DATA_IMPLICIT ->
     be_value (firstn 4 hdr) <> MP4_DATA_INTEGER ->
     parse_data_box item_type child fh = Some ((rc, Some st), fh2) ->
     st_value st = None).
Proof.
  intros Hsize. split; [|split].
  - unfold mp4tag_read_tag_string.
    replace (size =? 0) with false by lia.
    destruct (read_tags_collection ctx) as ([rc coll] & ctx' & E & Hc).
    unfold bind at 1. rewrite E. cbn [fst snd] in Hc.
    destruct (negb (rc =? MP4TAG_OK)) eqn:Hrc.
    + eexists. eexists. split; [reflexivity|].
      intros coll' E'. injection E' as -> _. discriminate.
    + destruct (Hc ltac:(lia)) as (c & ->).
      destruct (find (tag_matches (Some name)) (flat_map simple_tags (tags c)))
        as [st|] eqn:Hfind.
      * destruct (str_copy size (st_value st)) as [r out] eqn:Hcopy.
        eexists. eexists. split; [reflexivity|].
        intros coll' E' Hall. injection E' as _ <-.
        apply find_some in Hfind. destruct Hfind as [Hin Hm].
        unfold tag_matches in Hm.
        destruct (st_name st) eqn:Hn; [|discriminate].
        destruct (st_value st) eqn:Hv; [|discriminate].
        assert (Hnone : st_value st = None).
        { apply Hall; [exact Hin | rewrite Hn; lia]. }
        congruence.
      * eexists. eexists. split; [reflexivity|]. reflexivity.
  - intros st Hv. unfold tag_matches. rewrite Hv.
    destruct (st_name st); reflexivity.
  - intros item_type child fh hdr fh1 rc st fh2 Hrd Hint H1 H2 H3 Hp.
    unfold parse_data_box in Hp. unfold bind at 1 in Hp. rewrite Hrd in Hp.
    cbn [Z.eqb negb] in Hp. rewrite Hint in Hp. cbn [andb] in Hp.
    replace (be_value (firstn 4 hdr) =? MP4_DATA_UTF8) with false in Hp by lia.
    replace (be_value (firstn 4 hdr) =? MP4_DATA_IMPLICIT) with false in Hp
      by lia.
    replace (be_value (firstn 4 hdr) =? MP4_DATA_INTEGER) with false in Hp
      by lia.
    cbn [orb] in Hp.
    assert (Hbin : forall n fh0 v,
              ('(rc, binary) <- file_read n ;;
               if negb (rc =? 0) then ret (rc, None)
               else ret (MP4TAG_OK,
                         Some (set_is_default
                                 (set_binary
                                    (mk_simple_tag (Some v) None None None 0 [])
                                    (Some binary)) 1))) fh0
              = Some ((rc, Some st), fh2) -> st_value st = None).
    { intros n fh0 v Hb. unfold bind in Hb.
      destruct (file_read n fh0) as [[[rc' bin] fh']|]; [|discriminate].
      destruct (negb (rc' =? 0)); unfold ret in Hb;
        [discriminate Hb | injection Hb as _ <- _; reflexivity]. }
    destruct ((be_value (firstn 4 hdr) =? MP4_DATA_JPEG)
              || (be_value (firstn 4 hdr) =? MP4_DATA_PNG));
      destruct (0 <? data_size child - 8);
      try (eapply Hbin; exact Hp);
      unfold ret in Hp; injection Hp as _ <- _; reflexivity.
Qed.

Lemma read_tag_string_skips_binary_witness :
  mp4tag_open_common cover_file [] (cs "cover.m4a") false
  = Some (MP4TAG_OK, cover_ctx) /\
  exists ctx',
    mp4tag_read_tag_string (Some (cs "cover_art")) 64 cover_ctx
    = Some ((MP4TAG_ERR_TAG_NOT_FOUND, None), ctx') /\
    mp4tag_read_tag_string (Some (cs "title")) 64 cover_ctx
    = Some ((MP4TAG_OK, Some (cs "Test Title")), ctx') /\
    mp4tag_read_tag_string (Some (cs "title")) 4 cover_ctx
    = Some ((MP4TAG_ERR_TAG_TOO_LARGE, Some (cs "Tes")), ctx').
Proof.
  split; [vm_compute; reflexivity|].
  destruct (@read_tag_string_skips_binary cover_ctx (cs "cover_art") 64
              ltac:(lia)) as ((r & ctx' & Hr & Hnf) & _ & _).
  exists ctx'.
  assert (Et : exists c,
             mp4tag_read_tags cover_ctx = Some ((MP4TAG_OK, Some c), ctx') /\
             forall st, In st (all_simple_tags c) ->
               str_casecmp (st_name st) (Some (cs "cover_art")) = 0 ->
               st_value st = None).
  { pose proof Hr as Hr'. vm_compute in Hr'. injection Hr' as _ <-.
    eexists. split; [vm_compute; reflexivity|].
    intros st [<-|[<-|[]]]; vm_compute; [discriminate | reflexivity]. }
  destruct Et as (c & Et & Hall).
  rewrite (Hnf c Et Hall) in Hr. split; [exact Hr|].
  vm_compute in Hr. injection Hr as <-.
  split; vm_compute; reflexivity.
Defined.

(** ** Writing *)

Lemma write_rc_not_no_space rc : write_rc rc -> rc <> MP4TAG_ERR_NO_SPACE.
Proof.
  unfold write_rc, MP4TAG_ERR_NO_SPACE, MP4TAG_ERR_READ_ONLY,
    MP4TAG_ERR_SEEK_FAILED, MP4TAG_ERR_WRITE_FAILED. lia.
Qed.

(** [file_write] returns; when it returns 0 the bytes are in the file at
    the position the handle had, and the position has moved past them. *)
Lemma runs_file_write fh bytes :
  runs (file_write bytes) fh (fun rc fh' =>
    write_rc rc /\ writable fh' = writable fh /\
    (rc = 0 ->
     writable fh = true /\ 0 <= pos fh /\ pos fh' = pos fh + len bytes /\
     fd_data fh' = if 0 <? len bytes
                   then overwrite (fd_data fh) (pos fh) bytes
                   else fd_data fh)).
Proof.
  unfold file_write. apply runs_bind, runs_get.
  destruct (writable fh) eqn:Hw; cbn [negb].
  2:{ apply runs_ret. split; [unfold write_rc; auto|]. split; [auto|].
      discriminate. }
  unfold sys_lseek. apply runs_bind, runs_bind.
  apply runs_os_fault. intros f l. apply runs_ret.
  destruct (negb (negb f && (0 <=? pos fh))) eqn:Hseek.
  { apply runs_ret. split; [unfold write_rc; auto|]. split; [auto|].
    discriminate. }
  assert (Hp : 0 <= pos fh) by (destruct f; cbn in Hseek; lia).
  apply runs_bind.
  destruct (0 <? len bytes) eqn:Hlen.
  - unfold sys_write. apply runs_bind. apply runs_os_fault. intros f2 l2.
    apply runs_bind, runs_get. destruct f2.
    + apply runs_ret. cbn [negb]. apply runs_ret.
      split; [unfold write_rc; auto|]. split; [auto|]. discriminate.
    + apply runs_bind, runs_put. apply runs_ret. cbn [negb].
      apply runs_bind, runs_get. apply runs_bind, runs_put. apply runs_ret.
      cbv beta. split; [unfold write_rc; auto|].
      split; [destruct (file_size_field _ <? pos _); cbn; auto|]. intros _.
      split; [reflexivity|]. split; [exact Hp|].
      split; destruct (file_size_field _ <? pos _); cbn; reflexivity.
  - apply runs_ret. cbn [negb].
    apply runs_bind, runs_get. apply runs_bind, runs_put. apply runs_ret.
    cbv beta. split; [unfold write_rc; auto|].
    split; [destruct (file_size_field _ <? pos _); cbn; auto|]. intros _.
    split; [reflexivity|]. split; [exact Hp|].
    split; destruct (file_size_field _ <? pos _); cbn; reflexivity.
Qed.

Lemma runs_file_sync fh :
  runs file_sync fh (fun rc fh' =>
    frame fh fh' /\ pos fh' = pos fh /\ (rc = 0 \/ rc = MP4TAG_ERR_IO)).
Proof.
  unfold file_sync, sys_fsync. apply runs_bind, runs_bind.
  apply runs_os_fault. intros f l. apply runs_ret, runs_ret.
  split; [apply frame_set_faults|]. split; [reflexivity|].
  destruct f; cbn; auto.
Qed.

Lemma runs_write_zeros fh count :
  runs (write_zeros count) fh (fun rc fh' =>
    (rc = MP4TAG_OK \/ rc = MP4TAG_ERR_WRITE_FAILED) /\
    writable fh' = writable fh).
Proof.
  unfold write_zeros.
  eapply (runs_while _ (fun (c : Z) fh' => writable fh' = writable fh)
            (fun c _ => Z.to_nat c)).
  - intros c st Hw. unfold write_zeros_body.
    destruct (0 <? c) eqn:Hc.
    + apply runs_bind. eapply runs_weaken; [apply runs_file_write|].
      intros rc fh' (_ & Hw' & _).
      destruct (negb (rc =? 0)).
      * apply runs_ret. split; [auto | congruence].
      * apply runs_ret. split; [congruence|].
        destruct (c <? 4096) eqn:E; lia.
    + apply runs_ret. auto.
  - reflexivity.
  - lia.
Qed.

(** ** Overwriting a region of a file *)

Lemma firstn_padded (d : list byte) (p : nat) :
  length (firstn p (d ++ repeat x00 (p - length d))) = p.
Proof.
  rewrite length_firstn, length_app, repeat_length. lia.
Qed.

Lemma len_overwrite (d : list byte) (off : Z) (b : list byte) :
  0 <= off ->
  len (overwrite d off b) = Z.max (len d) (off + len b).
Proof.
  intros Hoff. unfold overwrite, len.
  rewrite !length_app, firstn_padded, length_skipn. lia.
Qed.

(** Two writes one after the other are one write of both. *)
Lemma overwrite_app (d : list byte) (off : Z) (a b : list byte) :
  0 <= off ->
  overwrite (overwrite d off a) (off + len a) b = overwrite d off (a ++ b).
Proof.
  intros Hoff. unfold overwrite, len.
  replace (Z.to_nat (off + Z.of_nat (length a)))
    with (Z.to_nat off + length a)%nat by lia.
  set (p := Z.to_nat off).
  set (pre := firstn p (d ++ repeat x00 (p - length d))).
  assert (Hpre : length pre = p) by apply firstn_padded.
  assert (Hlen : length (pre ++ a ++ skipn (p + length a) d)
                 = (p + length a + (length d - (p + length a)))%nat).
  { rewrite !length_app, length_skipn. lia. }
  replace (p + length a - length (pre ++ a ++ skipn (p + length a) d))%nat
    with 0%nat by lia.
  cbn [repeat]. rewrite app_nil_r.
  rewrite (app_assoc pre a).
  rewrite firstn_app.
  replace (p + length a - length (pre ++ a))%nat with 0%nat
    by (rewrite length_app; lia).
  rewrite firstn_all2 by (rewrite length_app; lia).
  cbn [firstn]. rewrite app_nil_r.
  rewrite skipn_app.
  rewrite (skipn_all2 (pre ++ a)) by (rewrite length_app; lia).
  replace (p + length a + length b - length (pre ++ a))%nat
    with (length b) by (rewrite length_app; lia).
  rewrite skipn_skipn. cbn [app].
  rewrite length_app.
  replace (length b + (p + length a))%nat
    with (p + (length a + length b))%nat by lia.
  rewrite <- !app_assoc. reflexivity.
Qed.

(** The same when the second write may be empty, in which case
    [file_write] does not call [write]. *)
Lemma overwrite_then (d : list byte) (off : Z) (a b : list byte) :
  0 <= off ->
  (if 0 <? len b then overwrite (overwrite d off a) (off + len a) b
   else overwrite d off a)
  = overwrite d off (a ++ b).
Proof.
  intros Hoff. destruct (0 <? len b) eqn:E.
  - apply overwrite_app. exact Hoff.
  - destruct b; [now rewrite app_nil_r|].
    apply Z.ltb_ge in E. unfold len in E. cbn [length] in E. lia.
Qed.


(** ** Strategy 1 *)

Lemma len_be32_bytes v : len (be32_bytes v) = 4.
Proof. reflexivity. Qed.

Lemma len_repeat {A} (x : A) (n : Z) : 0 <= n -> len (repeat x (Z.to_nat n)) = n.
Proof. intros H. unfold len. rewrite repeat_length. lia. Qed.

Lemma len_ilst_image (avail : Z) (c : list byte) :
  8 + len c <= avail -> len (ilst_image avail c) = avail.
Proof.
  intros H. unfold ilst_image, box_bytes. cbv zeta.
  destruct (8 <=? avail - (8 + len c)) eqn:E;
    rewrite !len_app, !len_be32_bytes, ?len_repeat by lia; lia.
Qed.

Lemma runs_write_zeros_small fh count :
  0 < count < 4096 ->
  runs (write_zeros count) fh (fun rc fh' =>
    writable fh' = writable fh /\
    (rc = 0 ->
     0 <= pos fh /\ pos fh' = pos fh + count /\
     fd_data fh' = overwrite (fd_data fh) (pos fh)
                             (repeat x00 (Z.to_nat count)))).
Proof.
  intros Hc. unfold write_zeros.
  destruct (Z.to_nat count) as [|k] eqn:Hk; [lia|].
  cbn [while_loop]. apply runs_bind. unfold write_zeros_body at 1.
  replace (0 <? count) with true by lia.
  replace (count <? 4096) with true by lia.
  apply runs_bind. eapply runs_weaken; [apply runs_file_write|].
  intros rc fh' (_ & Hw & Hok).
  destruct (negb (rc =? 0)) eqn:Hrc.
  - apply runs_ret, runs_ret. split; [exact Hw|]. discriminate.
  - apply runs_ret. replace (count - count) with 0 by lia.
    apply runs_bind. unfold write_zeros_body. cbn [Z.ltb Z.compare].
    apply runs_ret, runs_ret. split; [exact Hw|]. intros _.
    destruct (Hok ltac:(lia)) as (_ & Hp & Hpos & Hd).
    rewrite Hk in *.
    assert (Hl : len (repeat x00 (S k)) = count)
      by (unfold len; rewrite repeat_length; lia).
    rewrite Hl in *. replace (0 <? count) with true in Hd by lia.
    auto.
Qed.

(** The writes of [try_inplace] return; when they return 0 the region
    that starts at the old ilst holds the new ilst and the padding. *)
Lemma runs_inplace_writes info content fh :
  8 + len content <= available info -> available info < 4294967296 ->
  runs (inplace_writes info content (8 + len content)) fh (fun rc fh' =>
    writable fh' = writable fh /\
    (rc = 0 ->
     0 <= ilst_offset info /\
     fd_data fh' = overwrite (fd_data fh) (ilst_offset info)
                             (ilst_image (available info) content))).
Proof.
  intros Hfit Hmax. pose proof (len_nonneg content) as Hc.
  unfold inplace_writes. run_seek.
  apply runs_bind. eapply runs_weaken; [apply runs_file_write|].
  intros rc1 fh1 (_ & Hw1 & Hok1). cbn [pos set_pos fd_data writable] in *.
  destruct (negb (rc1 =? 0)) eqn:E1.
  { apply runs_ret. split; [exact Hw1 | lia]. }
  destruct (Hok1 ltac:(lia)) as (_ & Hp & Hpos1 & Hd1). clear Hok1.
  change (len (mp4_write_box_header [] MP4_BOX_ILST (8 + len content)))
    with 8 in *.
  cbn [Z.ltb Z.compare] in Hd1.
  apply runs_bind. eapply runs_weaken; [apply runs_file_write|].
  intros rc2 fh2 (_ & Hw2 & Hok2).
  destruct (negb (rc2 =? 0)) eqn:E2.
  { apply runs_ret. split; [congruence | lia]. }
  destruct (Hok2 ltac:(lia)) as (_ & _ & Hpos2 & Hd2). clear Hok2.
  rewrite Hd1, Hpos1 in Hd2.
  change 8 with (len (mp4_write_box_header [] MP4_BOX_ILST (8 + len content)))
    in Hd2 at 2.
  rewrite overwrite_then in Hd2 by exact Hp.
  set (ilst := mp4_write_box_header [] MP4_BOX_ILST (8 + len content)
               ++ content) in *.
  assert (Hilst : ilst = box_bytes MP4_BOX_ILST content) by reflexivity.
  assert (Hli : len ilst = 8 + len content)
    by (subst ilst; rewrite len_app; reflexivity).
  assert (Hpos2' : pos fh2 = ilst_offset info + len ilst) by lia.
  unfold ilst_image. cbv zeta. rewrite <- Hilst.
  destruct (8 <=? available info - (8 + len content)) eqn:Hrem.
  - unfold mp4_write_free_box, u32.
    rewrite Z.mod_small by lia.
    replace (available info - (8 + len content) <? 8) with false by lia.
    cbn [snd].
    apply runs_bind. eapply runs_weaken; [apply runs_file_write|].
    intros rc3 fh3 (_ & Hw3 & Hok3). apply runs_ret.
    split; [congruence|]. intros Hrc3.
    destruct (Hok3 Hrc3) as (_ & _ & _ & Hd3).
    split; [exact Hp|]. rewrite Hd3, Hd2, Hpos2'.
    rewrite overwrite_then by exact Hp. reflexivity.
  - destruct (0 <? available info - (8 + len content)) eqn:Hrem0.
    + unfold u32. rewrite Z.mod_small by lia.
      apply runs_bind.
      eapply runs_weaken; [apply runs_write_zeros_small; lia|].
      intros rc3 fh3 (Hw3 & Hok3). apply runs_ret.
      split; [congruence|]. intros Hrc3.
      destruct (Hok3 Hrc3) as (_ & _ & Hd3).
      split; [exact Hp|]. rewrite Hd3, Hd2, Hpos2'.
      apply overwrite_app. exact Hp.
    + apply runs_ret. split; [congruence|]. intros _.
      split; [exact Hp|]. rewrite Hd2.
      replace (available info - (8 + len content)) with 0 by lia.
      cbn [Z.to_nat repeat]. rewrite app_nil_r. reflexivity.
Qed.

(** [reparse] returns; it leaves the file as it is. *)
Lemma runs_reparse ctx :
  runs reparse ctx (fun _ ctx' =>
    ctx_path ctx' = ctx_path ctx /\ ctx_writable ctx' = ctx_writable ctx /\
    match ctx_fh ctx with
    | Some fh => exists fh', ctx_fh ctx' = Some fh' /\ frame fh fh'
    | None => ctx_fh ctx' = None
    end).
Proof.
  unfold reparse. apply runs_bind.
  destruct (ctx_fh ctx) as [fh|] eqn:Hfh.
  - eapply runs_on_fh; [exact Hfh|]. apply runs_bind.
    eapply runs_weaken; [apply runs_parse_structure|].
    intros r fh' (Hf & _). apply runs_ret.
    apply runs_bind, runs_get. apply runs_put. cbn. eauto.
  - apply runs_on_fh_null; [exact Hfh|].
    apply runs_bind, runs_get. apply runs_ret. rewrite Hfh. auto.
Qed.




(** ** The write path returns, never with NoSpace to the caller *)

Lemma runs_on_src {A} (c : prog file_handle A) (st : two_files)
      (Q : A -> two_files -> Prop) :
  runs c (fst st) (fun a src => Q a (src, snd st)) -> runs (on_src c) st Q.
Proof.
  intros (a & src & Hc & HQ). exists a, (src, snd st).
  unfold on_src. rewrite Hc. auto.
Qed.

Lemma runs_on_tmp {A} (c : prog file_handle A) (st : two_files)
      (Q : A -> two_files -> Prop) :
  runs c (snd st) (fun a tmp => Q a (fst st, tmp)) -> runs (on_tmp c) st Q.
Proof.
  intros (a & tmp & Hc & HQ). exists a, (fst st, tmp).
  unfold on_tmp. rewrite Hc. auto.
Qed.

Lemma runs_file_read_partial fh size :
  runs (file_read_partial size) fh (fun r fh' =>
    frame fh fh' /\
    (0 < fst r -> 0 <= pos fh /\ pos fh' = pos fh + fst r /\
                  pos fh' <= reach fh')).
Proof.
  unfold file_read_partial. apply runs_bind, runs_get.
  unfold sys_lseek. apply runs_bind, runs_bind.
  apply runs_os_fault. intros f l. apply runs_ret.
  destruct (negb (negb f && (0 <=? pos fh))) eqn:Hseek.
  { apply runs_ret. cbn. split; [apply frame_set_faults | lia]. }
  assert (Hp : 0 <= pos fh) by (destruct f; cbn in Hseek; lia).
  unfold sys_read. apply runs_bind, runs_bind.
  apply runs_os_fault. intros f2 l2. apply runs_bind, runs_get.
  apply runs_ret. destruct f2.
  { apply runs_ret. cbn. split; [|lia].
    eapply frame_trans; apply frame_set_faults. }
  apply runs_bind, runs_get. apply runs_bind, runs_put. apply runs_ret.
  cbn [fst snd fd_data set_faults pos set_pos set_buf].
  set (bytes := slice (fd_data fh) (pos fh) size).
  assert (Hb : pos fh + len bytes <= len (fd_data fh) \/ len bytes = 0).
  { subst bytes. unfold len, slice.
    rewrite length_firstn, length_skipn. lia. }
  clearbody bytes.
  split.
  - unfold frame, reach, buf_len, len. cbn.
    repeat split; try reflexivity. lia.
  - intros Hn. split; [exact Hp|]. split; [reflexivity|].
    unfold reach, buf_len. cbn. lia.
Qed.

(** The copy loop returns and only reads the source. *)
Lemma runs_copy_loop (src0 : file_handle) (st : two_files) (size : Z) :
  frame src0 (fst st) ->
  runs (while_loop (read_fuel (fst st)) copy_body size) st (fun e st' =>
    frame src0 (fst st') /\ exit_ok e).
Proof.
  intros Hfr0.
  eapply (runs_while _
            (fun (_ : Z) (st' : two_files) => frame src0 (fst st'))
            (fun _ st' => Z.to_nat (reach (fst st') - pos (fst st')))).
  - intros left [src tmp] Hfr. cbn [fst] in Hfr. unfold copy_body.
    destruct (0 <? left).
    2:{ apply runs_ret. cbn. auto. }
    apply runs_bind, runs_on_src.
    eapply runs_weaken; [apply runs_file_read_partial|].
    cbn [fst snd]. intros [n buf] src1 (Hf1 & Hn). cbn [fst snd] in *.
    destruct (n <=? 0) eqn:En.
    { apply runs_ret. cbn. split; [frame_tac | exact I]. }
    destruct (Hn ltac:(lia)) as (Hp & Hpos & Hle).
    apply runs_bind, runs_on_tmp.
    eapply runs_weaken; [apply runs_file_write|].
    cbn [fst snd]. intros rc tmp1 (Hrc & _).
    destruct (negb (rc =? 0)).
    + apply runs_ret. cbn. split; [frame_tac|].
      apply write_rc_not_no_space, Hrc.
    + apply runs_ret. cbn [fst]. split; [frame_tac|].
      destruct Hf1 as (_ & _ & _ & Hr). lia.
  - exact Hfr0.
  - unfold read_fuel. lia.
Qed.

Lemma runs_copy_box (src0 : file_handle) (st : two_files) (offset size : Z) :
  frame src0 (fst st) ->
  runs (copy_box offset size) st (fun e st' =>
    frame src0 (fst st') /\ exit_ok e).
Proof.
  intros Hfr. unfold copy_box. apply runs_bind, runs_on_src.
  eapply runs_weaken; [apply runs_file_seek|].
  intros rc src1 (-> & ->). cbn [Z.eqb negb].
  apply runs_bind, runs_get.
  apply runs_copy_loop. cbn [fst]. frame_tac.
Qed.

Lemma runs_measure_loop (src0 src : file_handle) (moov_end p : Z) :
  frame src0 src ->
  runs (while_loop (walk_fuel src0) (measure_body moov_end) (p, 0)) src
       (fun _ src' => frame src0 src').
Proof.
  intros Hfr0.
  eapply (runs_while _ (fun (s : Z * Z) fh' => frame src0 fh')
            (fun s fh' => walk_measure (fst s) fh')).
  - intros [q n] st Hfr. unfold measure_body.
    destruct (q + 8 <=? moov_end).
    + run_seek. run_header rc child fh1 Heq Hf Hrc Hbox.
      destruct (negb (rc =? 0)) eqn:E; cbn [orb].
      { apply runs_ret. frame_tac. }
      assert (rc = 0) by lia. subst rc. specialize (Hbox eq_refl).
      destruct (box_size child <? 8) eqn:Hsz.
      { apply runs_ret. frame_tac. }
      apply runs_ret. split; [frame_tac|]. cbn [fst].
      destruct Hbox as (Ho & Hp & Hr & _). rewrite Ho.
      eapply walk_measure_step with (fh1 := fh1); try frame_tac; lia.
    + apply runs_ret. frame_tac.
  - exact Hfr0.
  - apply walk_measure_fuel. exact Hfr0.
Qed.

Ltac run_src_seek :=
  apply runs_bind, runs_on_src; eapply runs_weaken; [apply runs_file_seek|];
  cbn [fst snd]; intros ? ? (-> & ->); cbn [Z.eqb negb].

Ltac run_src_header rc child fh' Hf Hrc Hbox :=
  apply runs_bind, runs_on_src; eapply runs_weaken;
  [apply runs_read_box_header|];
  cbn [fst snd]; intros [rc child] fh' (Hf & Hrc & Hbox);
  cbn [fst snd] in Hf, Hrc, Hbox; cbn [pos set_pos] in Hbox.

Lemma runs_copy_children_loop (src0 : file_handle) (st : two_files)
      (moov_end p : Z) :
  frame src0 (fst st) ->
  runs (while_loop (walk_fuel src0) (copy_children_body moov_end) p) st
       (fun e st' => frame src0 (fst st') /\ exit_ok e).
Proof.
  intros Hfr0.
  eapply (runs_while _
            (fun (_ : Z) (st' : two_files) => frame src0 (fst st'))
            (fun q st' => walk_measure q (fst st'))).
  - intros q [src tmp] Hfr. cbn [fst] in Hfr. unfold copy_children_body.
    destruct (q + 8 <=? moov_end).
    2:{ apply runs_ret. cbn. auto. }
    run_src_seek. run_src_header rc child src1 Hf Hrc Hbox.
    destruct (negb (rc =? 0)) eqn:E; cbn [orb].
    { apply runs_ret. cbn. split; [frame_tac | exact I]. }
    assert (rc = 0) by lia. subst rc. specialize (Hbox eq_refl).
    destruct (box_size child <? 8) eqn:Hsz.
    { apply runs_ret. cbn. split; [frame_tac | exact I]. }
    assert (Hfr1 : frame src0 src1) by frame_tac.
    apply runs_bind.
    assert (Hcopy :
      runs (if negb (box_type child =? MP4_BOX_UDTA)
            then copy_box (box_offset child) (box_size child)
            else ret (Break tt)) (src1, tmp)
        (fun e st' => (frame src0 (fst st') /\ frame src1 (fst st')) /\
                      exit_ok e)).
    { destruct (negb (box_type child =? MP4_BOX_UDTA)).
      - eapply runs_weaken.
        + apply runs_and;
            [apply (@runs_copy_box src0) | apply (@runs_copy_box src1)];
            cbn [fst]; frame_tac.
        + cbn beta. intros e st' ((H1 & H2) & (H3 & _)). auto.
      - apply runs_ret. cbn. split; [split; frame_tac | exact I]. }
    eapply runs_weaken; [exact Hcopy|].
    intros e [src2 tmp2] ((Hf2 & Hf12) & He). cbn [fst] in *.
    destruct e as [[]|rc []].
    + apply runs_ret. cbn [fst]. split; [exact Hf2|].
      destruct Hbox as (Ho & Hp & Hr & _). rewrite Ho.
      eapply walk_measure_step with (fh1 := src1); try frame_tac; lia.
    + apply runs_ret. cbn. split; [exact Hf2 | exact He].
  - exact Hfr0.
  - apply walk_measure_fuel. exact Hfr0.
Qed.

Lemma runs_tmp_write (src0 : file_handle) (st : two_files) (bytes : list byte)
      (k : Z -> prog two_files (loop_exit unit)) :
  frame src0 (fst st) ->
  (forall rc st', frame src0 (fst st') -> write_rc rc ->
     runs (k rc) st' (fun e st'' => frame src0 (fst st'') /\ exit_ok e)) ->
  runs (rc <- on_tmp (file_write bytes) ;; k rc) st
       (fun e st' => frame src0 (fst st') /\ exit_ok e).
Proof.
  intros Hfr Hk. apply runs_bind, runs_on_tmp.
  eapply runs_weaken; [apply runs_file_write|].
  intros rc tmp (Hrc & _). apply Hk; [exact Hfr | exact Hrc].
Qed.

Lemma runs_rebuild_moov (src0 : file_handle) (st : two_files)
      (box : mp4_box_t) (udta_buf : list byte) :
  frame src0 (fst st) ->
  runs (rebuild_moov box udta_buf) st (fun e st' =>
    frame src0 (fst st') /\ exit_ok e).
Proof.
  intros Hfr. destruct st as [src tmp]. cbn [fst] in Hfr.
  unfold rebuild_moov.
  apply runs_bind, runs_on_src, runs_get. cbn [fst snd].
  apply runs_bind, runs_on_src. cbn [fst snd].
  eapply runs_weaken; [apply (@runs_measure_loop src src), frame_refl|].
  intros n src1 Hf1.
  apply runs_tmp_write; [cbn [fst]; frame_tac|].
  intros rc [src2 tmp2] Hf2 Hrc. cbn [fst] in Hf2.
  destruct (negb (rc =? 0)).
  { apply runs_ret. cbn. split; [exact Hf2|].
    apply write_rc_not_no_space, Hrc. }
  apply runs_bind, runs_on_src, runs_get. cbn [fst snd].
  apply runs_bind.
  eapply runs_weaken;
    [apply (@runs_copy_children_loop src2 (src2, tmp2)), frame_refl|].
  intros e [src3 tmp3] (Hf3 & He). cbn [fst] in Hf3.
  destruct e as [[]|rc' []].
  - apply runs_tmp_write; [cbn [fst]; frame_tac|].
    intros rc2 [src4 tmp4] Hf4 Hrc2.
    destruct (negb (rc2 =? 0)).
    + apply runs_ret. split; [exact Hf4|].
      apply write_rc_not_no_space, Hrc2.
    + apply runs_ret. split; [exact Hf4 | exact I].
  - apply runs_ret. cbn. split; [frame_tac | exact He].
Qed.

Lemma runs_rewrite_loop (src0 : file_handle) (st : two_files)
      (src_size : Z) (udta_buf : list byte) :
  frame src0 (fst st) ->
  runs (while_loop (walk_fuel src0) (rewrite_body src_size udta_buf) 0) st
       (fun e st' => frame src0 (fst st') /\ exit_ok e).
Proof.
  intros Hfr0.
  eapply (runs_while _
            (fun (_ : Z) (st' : two_files) => frame src0 (fst st'))
            (fun q st' => walk_measure q (fst st'))).
  - intros q [src tmp] Hfr. cbn [fst] in Hfr. unfold rewrite_body.
    destruct (q <? src_size).
    2:{ apply runs_ret. cbn. auto. }
    run_src_seek. run_src_header rc box src1 Hf Hrc Hbox.
    destruct (negb (rc =? 0)) eqn:E.
    { apply runs_ret. cbn. split; [frame_tac | exact I]. }
    assert (rc = 0) by lia. subst rc. specialize (Hbox eq_refl).
    destruct (box_size box <? 8) eqn:Hsz.
    { apply runs_ret. cbn. split; [frame_tac | exact I]. }
    assert (Hfr1 : frame src0 src1) by frame_tac.
    apply runs_bind.
    assert (Hcopy :
      runs (if box_type box =? MP4_BOX_MOOV
            then rebuild_moov box udta_buf
            else copy_box (box_offset box) (box_size box)) (src1, tmp)
        (fun e st' => frame src1 (fst st') /\ exit_ok e)).
    { destruct (box_type box =? MP4_BOX_MOOV).
      - apply runs_rebuild_moov. apply frame_refl.
      - apply runs_copy_box. apply frame_refl. }
    eapply runs_weaken; [exact Hcopy|].
    intros e [src2 tmp2] (Hf2 & He). cbn [fst] in *.
    destruct e as [[]|rc []].
    + apply runs_ret. cbn [fst]. split; [frame_tac|].
      destruct Hbox as (Ho & Hp & Hr & _). rewrite Ho.
      eapply walk_measure_step with (fh1 := src1); try frame_tac; lia.
    + apply runs_ret. cbn. split; [frame_tac | exact He].
  - exact Hfr0.
  - apply walk_measure_fuel. exact Hfr0.
Qed.

(** [rewrite_file] returns, and not with NoSpace. *)
Lemma runs_rewrite_file env udta_buf ctx :
  runs (rewrite_file env udta_buf) ctx (fun rc _ =>
    rc <> MP4TAG_ERR_NO_SPACE).
Proof.
  unfold rewrite_file. apply runs_bind, runs_get.
  destruct (ctx_path ctx) as [path|]; [|apply runs_ret; discriminate].
  destruct (ctx_fh ctx) as [src|]; [|apply runs_ret; discriminate].
  destruct (fopen_fails env); [apply runs_ret; discriminate|].
  destruct (open_tmp_fails env); [apply runs_ret; discriminate|].
  set (tmp := file_open_common [] (tmp_faults env) true).
  destruct (@runs_rewrite_loop src (src, tmp) (file_size src) udta_buf
              (frame_refl src)) as (e & [src' tmp'] & Hloop & _ & He).
  unfold runs. rewrite Hloop.
  destruct e as [[]|rc []].
  - destruct (runs_file_sync tmp') as (rcs & tmp'' & Hs & _).
    rewrite Hs.
    destruct (negb (rcs =? 0)); [eexists; eexists; split;
                                 [reflexivity | discriminate]|].
    destruct (rename_fails env); [eexists; eexists; split;
                                  [reflexivity | discriminate]|].
    destruct (reopen env ctx (fd_data tmp'')) as [fh|];
      [|eexists; eexists; split; [reflexivity | discriminate]].
    destruct (runs_reparse (set_fh ctx (Some fh))) as ([] & ctx' & Hr & _).
    unfold bind. rewrite Hr. eexists. eexists.
    split; [reflexivity | discriminate].
  - eexists. eexists. split; [reflexivity | exact He].
Qed.

Lemma runs_inplace_writes_total info content n fh :
  runs (inplace_writes info content n) fh (fun rc _ => True).
Proof.
  unfold inplace_writes. run_seek.
  apply runs_bind. eapply runs_weaken; [apply runs_file_write|].
  intros rc1 fh1 _. destruct (negb (rc1 =? 0)); [apply runs_ret; exact I|].
  apply runs_bind. eapply runs_weaken; [apply runs_file_write|].
  intros rc2 fh2 _. destruct (negb (rc2 =? 0)); [apply runs_ret; exact I|].
  destruct (8 <=? available info - n).
  - apply runs_bind. eapply runs_weaken; [apply runs_file_write|].
    intros rc3 fh3 _. apply runs_ret. exact I.
  - destruct (0 <? available info - n).
    + apply runs_bind. eapply runs_weaken; [apply runs_write_zeros|].
      intros rc3 fh3 _. apply runs_ret. exact I.
    + apply runs_ret. exact I.
Qed.

Lemma runs_on_fh_total {A} (c : prog file_handle A) (null : A) ctx :
  (forall fh, runs c fh (fun _ _ => True)) ->
  runs (on_fh c null) ctx (fun _ _ => True).
Proof.
  intros H. destruct (ctx_fh ctx) as [fh|] eqn:Hfh.
  - eapply runs_on_fh; [exact Hfh|].
    eapply runs_weaken; [apply H|]. auto.
  - apply runs_on_fh_null; auto.
Qed.

(** [try_inplace] returns. *)
Lemma runs_try_inplace ctx content :
  runs (try_inplace content) ctx (fun _ _ => True).
Proof.
  unfold try_inplace. apply runs_bind, runs_get.
  destruct (negb (has_ilst (ctx_info ctx))); [apply runs_ret; exact I|].
  destruct (available (ctx_info ctx) <? u32 (8 + u32 (len content)));
    [apply runs_ret; exact I|].
  apply runs_bind.
  eapply runs_weaken;
    [apply runs_on_fh_total; intros fh; apply runs_inplace_writes_total|].
  intros rc ctx1 _. destruct (negb (rc =? 0)); [apply runs_ret; exact I|].
  apply runs_bind.
  eapply runs_weaken; [apply runs_on_fh_total|].
  { intros fh. eapply runs_weaken; [apply runs_file_sync|]. auto. }
  intros rcs ctx2 _. apply runs_bind.
  eapply runs_weaken; [apply runs_reparse|].
  intros [] ctx3 _. apply runs_ret. exact I.
Qed.

(** C1. For every context and every collection, mp4tag_write_tags
    returns, and never with NoSpace: when the in-place strategy is tried
    (the file is open and writable, and has an ilst) and answers NoSpace
    or any other failure, what the caller gets is what the rewrite path
    answers, success or an error that is not NoSpace. *)
Theorem write_tags_never_no_space
    (env : os_env) (tags : mp4tag_collection_t) (ctx : mp4tag_context_t) :
  exists rc ctx',
    mp4tag_write_tags env tags ctx = Some (rc, ctx') /\
    rc <> MP4TAG_ERR_NO_SPACE /\
    forall fh rc1 ctx1,
      ctx_fh ctx = Some fh -> ctx_writable ctx = true ->
      has_ilst (ctx_info ctx) = true ->
      try_inplace (snd (mp4_tags_serialize_ilst tags []))
                  (set_cached ctx None) = Some (rc1, ctx1) ->
      rc1 <> MP4TAG_OK ->
      rewrite_file env (snd (mp4_tags_build_udta tags [])) ctx1
      = Some (rc, ctx').
Proof.
  set (content := snd (mp4_tags_serialize_ilst tags [])).
  set (udta := snd (mp4_tags_build_udta tags [])).
  assert (Hs : mp4_tags_serialize_ilst tags [] = (MP4TAG_OK, content))
    by reflexivity.
  assert (Hu : mp4_tags_build_udta tags [] = (MP4TAG_OK, udta))
    by reflexivity.
  unfold mp4tag_write_tags. rewrite Hs, Hu.
  unfold bind at 1, get at 1.
  destruct (ctx_fh ctx) as [fh|] eqn:Hfh.
  2:{ eexists. eexists. split; [reflexivity|].
      split; [discriminate|]. discriminate. }
  destruct (ctx_writable ctx) eqn:Hw; cbn [negb].
  2:{ eexists. eexists. split; [reflexivity|].
      split; [discriminate|]. discriminate. }
  unfold bind at 1, invalidate_cache, bind at 1, get at 1, put.
  change (negb (MP4TAG_OK =? MP4TAG_OK)) with false. cbv iota.
  destruct (has_ilst (ctx_info ctx)) eqn:Hi.
  - destruct (runs_try_inplace (set_cached ctx None) content)
      as (rc1 & ctx1 & Ht & _).
    unfold bind. rewrite Ht.
    destruct (rc1 =? MP4TAG_OK) eqn:Hrc1.
    + eexists. eexists. split; [reflexivity|].
      split; [discriminate|].
      intros fh0 rc2 ctx2 _ _ _ E Hne. injection E as <- <-. lia.
    + destruct (runs_rewrite_file env udta ctx1) as (rc & ctx' & Hr & Hne).
      exists rc, ctx'. split; [exact Hr|]. split; [exact Hne|].
      intros fh0 rc2 ctx2 _ _ _ E _. injection E as <- <-. exact Hr.
  - destruct (runs_rewrite_file env udta (set_cached ctx None))
      as (rc & ctx' & Hr & Hne).
    exists rc, ctx'. split; [exact Hr|]. split; [exact Hne|].
    intros fh0 rc2 ctx2 _ _ Habs. discriminate.
Qed.

Lemma write_tags_never_no_space_witness :
  exists ctx1 ctx',
    try_inplace (snd (mp4_tags_serialize_ilst (title_only long_title) []))
                (set_cached tight_ctx None)
    = Some (MP4TAG_ERR_NO_SPACE, ctx1) /\
    rewrite_file quiet_env (snd (mp4_tags_build_udta (title_only long_title) []))
                 ctx1
    = Some (MP4TAG_OK, ctx') /\
    mp4tag_write_tags quiet_env (title_only long_title) tight_ctx
    = Some (MP4TAG_OK, ctx').
Proof.
  destruct (@write_tags_never_no_space quiet_env (title_only long_title)
              tight_ctx) as (rc & ctx' & Hw & _ & Hesc).
  destruct (try_inplace (snd (mp4_tags_serialize_ilst
                                (title_only long_title) []))
                        (set_cached tight_ctx None))
    as [[rc1 ctx1]|] eqn:Ht; [|vm_compute in Ht; discriminate].
  assert (Hrc1 : rc1 = MP4TAG_ERR_NO_SPACE)
    by (vm_compute in Ht; injection Ht as <- _; reflexivity).
  subst rc1.
  assert (Hrc : rc = MP4TAG_OK)
    by (vm_compute in Hw; injection Hw as <- _; reflexivity).
  subst rc.
  exists ctx1, ctx'. split; [reflexivity|]. split; [|exact Hw].
  destruct (ctx_fh tight_ctx) as [fh|] eqn:Hfh; [|discriminate].
  apply (Hesc fh MP4TAG_ERR_NO_SPACE ctx1 eq_refl eq_refl eq_refl eq_refl).
  discriminate.
Defined.

(** ** Reading through the buffer is reading the file *)

Lemma coherent_open data w : coherent (open_file data w).
Proof. split; [reflexivity | left; reflexivity]. Qed.

Lemma runs_os_fault_quiet fh (Q : bool -> file_handle -> Prop) :
  fd_faults fh = [] -> Q false fh -> runs os_fault fh Q.
Proof.
  intros H HQ. exists false, fh. unfold os_fault. rewrite H. auto.
Qed.

Lemma slice_slice {A} (l : list A) (a n b m : Z) :
  0 <= a -> 0 <= b -> 0 <= m -> b + m <= n ->
  slice (slice l a n) b m = slice l (a + b) m.
Proof.
  intros Ha Hb Hm Hn. unfold slice.
  rewrite skipn_firstn_comm, firstn_firstn, skipn_skipn.
  replace (Nat.min (Z.to_nat m) (Z.to_nat n - Z.to_nat b))
    with (Z.to_nat m) by lia.
  replace (Z.to_nat b + Z.to_nat a)%nat with (Z.to_nat (a + b)) by lia.
  reflexivity.
Qed.

Lemma slice_app {A} (l : list A) (a n m : Z) :
  0 <= a -> 0 <= n -> 0 <= m ->
  slice l a n ++ slice l (a + n) m = slice l a (n + m).
Proof.
  intros Ha Hn Hm. unfold slice.
  replace (Z.to_nat (a + n)) with (Z.to_nat n + Z.to_nat a)%nat by lia.
  rewrite <- skipn_skipn.
  replace (Z.to_nat (n + m)) with (Z.to_nat n + Z.to_nat m)%nat by lia.
  generalize (skipn (Z.to_nat a) l) as r.
  generalize (Z.to_nat m) as j. generalize (Z.to_nat n) as i.
  clear. induction i as [|i IH]; intros j r.
  - reflexivity.
  - destruct r as [|x r]; cbn.
    + now rewrite firstn_nil.
    + f_equal. apply IH.
Qed.

Lemma slice_len_self {A} (l : list A) (a n : Z) :
  slice l a (len (slice l a n)) = slice l a n.
Proof.
  unfold slice, len. rewrite Nat2Z.id.
  generalize (skipn (Z.to_nat a) l) as r. generalize (Z.to_nat n) as i.
  clear. induction i as [|i IH]; intros r.
  - reflexivity.
  - destruct r as [|x r]; cbn; [reflexivity|]. f_equal. apply IH.
Qed.

Lemma len_slice_zero {A} (l : list A) (a n : Z) :
  0 <= a -> 0 < n -> len (slice l a n) = 0 -> len l <= a.
Proof.
  unfold len, slice. rewrite length_firstn, length_skipn. lia.
Qed.

Lemma len_slice_in {A} (l : list A) (a n : Z) :
  0 <= a -> a + len (slice l a n) <= Z.max a (len l).
Proof.
  unfold len, slice. rewrite length_firstn, length_skipn. lia.
Qed.

Lemma file_read_body_exact fh0 n s fh :
  0 <= pos fh0 ->
  read_exact_inv fh0 n s fh ->
  runs (file_read_body s) fh (fun x fh' =>
    match x with
    | inl s' => read_exact_inv fh0 n s' fh'
    | inr r => read_exact_post fh0 n r fh'
    end).
Proof.
  destruct s as [dst remaining].
  intros Hp0 (Hco & Hdata & Hfs & Hrem & Hpos & Hdst & Hin_file).
  cbn [fst snd] in *.
  unfold file_read_body. destruct (0 <? remaining) eqn:Hr.
  - apply runs_bind, runs_get.
    destruct (in_read_buffer fh) eqn:Hin.
    + pose proof (in_read_buffer_spec _ Hin) as Hin'.
      apply runs_bind, runs_put, runs_ret.
      set (to_copy := if remaining <? buf_len fh - (pos fh - buf_start fh)
                      then remaining
                      else buf_len fh - (pos fh - buf_start fh)).
      assert (Hc : 1 <= to_copy <= remaining /\
                   to_copy <= buf_len fh - (pos fh - buf_start fh)).
      { subst to_copy.
        destruct (remaining <? buf_len fh - (pos fh - buf_start fh)) eqn:E;
          lia. }
      clearbody to_copy.
      destruct Hco as (Hq & [Hempty | (Hb0 & Hb1 & Hbuf)]).
      { unfold buf_len in Hin'. rewrite Hempty in Hin'. cbn in Hin'. lia. }
      unfold read_exact_inv. cbn [fst snd].
      split; [split; [exact Hq | right; auto]|].
      split; [exact Hdata|]. split; [exact Hfs|].
      split; [lia|]. split; [cbn; lia|].
      split.
      * rewrite Hdst, Hbuf, Hdata.
        rewrite slice_slice by lia.
        replace (buf_start fh + (pos fh - buf_start fh))
          with (pos fh0 + (n - remaining)) by lia.
        rewrite slice_app by lia. f_equal. lia.
      * intros _. cbn. rewrite <- Hdata. lia.
    + destruct Hco as (Hq & Hbuf).
      unfold sys_lseek. apply runs_bind. apply runs_bind.
      apply runs_os_fault_quiet; [exact Hq|]. apply runs_ret.
      replace (negb (negb false && (0 <=? pos fh))) with false
        by (cbn; lia).
      unfold sys_read. apply runs_bind. apply runs_bind.
      apply runs_os_fault_quiet; [exact Hq|]. apply runs_bind, runs_get.
      apply runs_ret.
      set (bytes := slice (fd_data fh) (pos fh) READ_BUF_SIZE).
      destruct (len bytes =? 0) eqn:Hn.
      * apply runs_ret. unfold read_exact_post. cbn [fst snd].
        split; [split; assumption|]. split; [exact Hdata|].
        split; [exact Hfs|]. right. split; [reflexivity|].
        apply Z.eqb_eq in Hn. subst bytes.
        apply len_slice_zero in Hn; [|lia | reflexivity].
        rewrite <- Hdata. lia.
      * apply runs_bind, runs_get. apply runs_bind, runs_put.
        apply runs_ret.
        apply Z.eqb_neq in Hn.
        assert (Hb : pos fh + len bytes <= len (fd_data fh)).
        { pose proof (@len_slice_in _ (fd_data fh) (pos fh) READ_BUF_SIZE
                        ltac:(lia)) as Hle.
          fold bytes in Hle.
          destruct (Z.le_gt_cases (len (fd_data fh)) (pos fh)) as [Hge|Hlt];
            [|lia].
          exfalso. apply Hn. subst bytes. unfold len, slice.
          rewrite length_firstn, length_skipn. unfold len in Hge. lia. }
        unfold read_exact_inv. cbn [fst snd].
        split.
        { split; [exact Hq|]. right. unfold buf_len.
          cbn [buf buf_start set_buf fd_data pos].
          split; [lia|]. split; [exact Hb|].
          subst bytes. symmetry. apply slice_len_self. }
        split; [exact Hdata|]. split; [exact Hfs|].
        split; [lia|]. split; [cbn; lia|].
        split; [exact Hdst|]. cbn. exact Hin_file.
  - apply runs_ret. unfold read_exact_post. cbn [fst snd].
    split; [exact Hco|]. split; [exact Hdata|]. split; [exact Hfs|].
    left. assert (remaining = 0) by lia. subst remaining.
    split; [reflexivity|]. split; [rewrite Hdst; f_equal; lia|].
    split; [lia|]. intros Hn. lia.
Qed.

(** [file_read] on a coherent handle: it returns 0 with the bytes of
    the file when they are all there, and [MP4TAG_ERR_TRUNCATED] when
    the file ends before. *)
Lemma runs_file_read_exact fh n :
  coherent fh -> 0 <= pos fh -> 0 <= n ->
  runs (file_read n) fh (read_exact_post fh n).
Proof.
  intros Hco Hp Hn. unfold file_read.
  apply (runs_while file_read_body
           (fun s fh' => read_exact_inv fh n s fh' /\ file_read_inv fh n s fh')
           file_read_measure (read_exact_post fh n)).
  - intros s st (HE & HI).
    eapply runs_weaken.
    + apply runs_and; [apply (file_read_body_exact Hp HE) |
                       apply (file_read_body_spec HI)].
    + cbn beta. intros [s' | r] st' (H1 & H2).
      * destruct H2 as (H2 & H3). auto.
      * exact H1.
  - split.
    + unfold read_exact_inv. cbn [fst snd].
      split; [exact Hco|]. split; [reflexivity|]. split; [reflexivity|].
      split; [lia|]. split; [lia|].
      split; [replace (n - n) with 0 by lia; reflexivity | lia].
    + unfold file_read_inv. cbn [fst snd].
      split; [apply frame_refl|]. split; [lia|]. split; [lia|].
      split; [rewrite len_nil; lia | lia].
  - unfold file_read_measure. cbn [fst snd].
    destruct (in_read_buffer fh); lia.
Qed.

(** ** What [mp4_read_box_header] answers *)





(** ** Brand validation *)

(** C5.  [mp4_validate_ftyp] refuses a file whose major brand is
    [NDAS], a brand the list names (and the comment above the
    [switch] too), while it accepts the file for each of the twenty
    other brands of the list. *)
Theorem validate_ftyp_rejects_ndas :
  In (fourcc_of "NDAS") listed_major_brands /\
  validate (brand_file (fourcc_of "NDAS")) = Some MP4TAG_ERR_NOT_MP4 /\
  (forall b, In b listed_major_brands -> b <> fourcc_of "NDAS" ->
             validate (brand_file b) = Some MP4TAG_OK) /\
  (forall b, In b listed_major_brands ->
             switch_case b major_brands = negb (b =? fourcc_of "NDAS")).
Proof.
  split; [vm_compute; tauto|].
  split; [vm_compute; reflexivity|].
  assert (H : Forall (fun b =>
                (b <> fourcc_of "NDAS" ->
                 validate (brand_file b) = Some MP4TAG_OK) /\
                switch_case b major_brands = negb (b =? fourcc_of "NDAS"))
              listed_major_brands).
  { unfold listed_major_brands.
    repeat (apply Forall_cons;
            [split; [intros Hb; try (exfalso; apply Hb; reflexivity);
                     vm_compute; reflexivity
                    | vm_compute; reflexivity]|]).
    apply Forall_nil. }
  rewrite Forall_forall in H.
  split; intros b Hin; [intros Hb|]; apply (H b Hin); assumption.
Qed.

(** ** Strings *)

Lemma b2z_zero (b : byte) : b2z b = 0 -> b = x00.
Proof.
  intros H. rewrite <- (z2b_b2z b), H. reflexivity.
Qed.

Lemma upcase_zero (c : Z) : 0 <= c -> upcase c = 0 -> c = 0.
Proof.
  unfold upcase. intros Hc.
  destruct ((97 <=? c) && (c <=? 122)) eqn:E; lia.
Qed.

Lemma c_string_cons (b : byte) (s : list byte) :
  c_string (b :: s) -> b <> x00 /\ c_string s.
Proof.
  unfold c_string. cbn. intros H. split; intros E; apply H; auto.
Qed.

Lemma str_casecmp_loop_zero (a b : list byte) :
  c_string a -> c_string b ->
  (str_casecmp_loop a b = 0 <-> fold_case a = fold_case b).
Proof.
  unfold fold_case.
  revert b. induction a as [|ca a IH]; intros [|cb b] Ha Hb; cbn.
  - tauto.
  - apply c_string_cons in Hb as (Hcb & _).
    split; [|discriminate]. intros H. exfalso. apply Hcb, b2z_zero. lia.
  - apply c_string_cons in Ha as (Hca & _).
    split; [|discriminate]. intros H. exfalso. apply Hca, b2z_zero. lia.
  - apply c_string_cons in Ha as (_ & Ha).
    apply c_string_cons in Hb as (_ & Hb).
    destruct (upcase (b2z ca) =? upcase (b2z cb)) eqn:E.
    + apply Z.eqb_eq in E. rewrite (IH b Ha Hb), E.
      split; [intros ->; reflexivity | intros H; injection H; auto].
    + apply Z.eqb_neq in E. split; [lia|].
      intros H. injection H as H _. contradiction.
Qed.

(** [str_casecmp] answers 0 exactly for two strings that are equal up
    to the case of their ASCII letters. *)
Theorem str_casecmp_zero_iff (a b : list byte) :
  c_string a -> c_string b ->
  (str_casecmp (Some a) (Some b) = 0 <-> fold_case a = fold_case b).
Proof. apply str_casecmp_loop_zero. Qed.

Lemma str_casecmp_zero_iff_witness :
  str_casecmp (Some (cs "Title")) (Some (cs "TITLE")) = 0 /\
  str_casecmp (Some (cs "Title")) (Some (cs "Titles")) <> 0.
Proof.
  split.
  - apply (str_casecmp_zero_iff (a := cs "Title") (b := cs "TITLE"));
      [vm_compute; intuition discriminate
      | vm_compute; intuition discriminate | reflexivity].
  - intros H.
    apply (str_casecmp_zero_iff (a := cs "Title") (b := cs "Titles")) in H;
      [discriminate H | vm_compute; intuition discriminate
       | vm_compute; intuition discriminate].
Defined.

(** [str_casecmp] is antisymmetric: exchanging its arguments negates
    its answer, for two strings as for two NULL pointers. *)
Theorem str_casecmp_antisym (a b : list byte) :
  str_casecmp (Some b) (Some a) = - str_casecmp (Some a) (Some b) /\
  str_casecmp None None = 0.
Proof.
  split; [|reflexivity]. cbn. revert b.
  induction a as [|ca a IH]; intros [|cb b]; cbn; try lia.
  rewrite (Z.eqb_sym (upcase (b2z cb))).
  destruct (upcase (b2z ca) =? upcase (b2z cb)); [apply IH | lia].
Qed.

(** ** Looking up one tag *)

Lemma find_first {A} (f : A -> bool) (pre post : list A) (x : A) :
  (forall y, In y pre -> f y = false) -> f x = true ->
  find f (pre ++ x :: post) = Some x.
Proof.
  intros Hpre Hx. induction pre as [|y pre IH]; cbn.
  - now rewrite Hx.
  - rewrite (Hpre y) by (left; reflexivity).
    apply IH. intros z Hz. apply Hpre. right. exact Hz.
Qed.

(** [mp4tag_read_tag_string] answers with the first simple tag, in the
    order of the collection, that has a value and whose name is the
    requested one up to case.  The value is copied whole, with
    [MP4TAG_OK], when it is shorter than the buffer; otherwise its
    first [size - 1] bytes are stored and the answer is
    [MP4TAG_ERR_TAG_TOO_LARGE].  The string stored is always shorter
    than the buffer, and the context is left as it was. *)
Theorem read_tag_string_first_match
    (ctx : mp4tag_context_t) (fh : file_handle) (coll : mp4tag_collection_t)
    (name : list byte) (size : Z)
    (pre post : list mp4tag_simple_tag_t) (st : mp4tag_simple_tag_t)
    (v : list byte) :
  ctx_fh ctx = Some fh -> cached_tags ctx = Some coll -> 0 < size ->
  all_simple_tags coll = pre ++ st :: post ->
  (forall x, In x pre -> tag_matches (Some name) x = false) ->
  tag_matches (Some name) st = true -> st_value st = Some v ->
  let out := firstn (Z.to_nat (size - 1)) v in
  mp4tag_read_tag_string (Some name) size ctx
  = Some ((if len v <? size then MP4TAG_OK else MP4TAG_ERR_TAG_TOO_LARGE,
           Some out), ctx) /\
  len out < size /\ (len v < size -> out = v).
Proof.
  intros Hfh Hc Hsize Hall Hpre Hst Hv out.
  split; [|split].
  - unfold mp4tag_read_tag_string.
    replace (size =? 0) with false by lia.
    unfold bind at 1. unfold mp4tag_read_tags, bind at 1, get.
    rewrite Hfh, Hc. cbn [ret negb Z.eqb MP4TAG_OK].
    unfold all_simple_tags in Hall. rewrite Hall.
    rewrite (@find_first _ (tag_matches (Some name)) pre post st Hpre Hst). rewrite Hv.
    unfold str_copy, strlen. replace (size =? 0) with false by lia.
    subst out.
    destruct (Z.ltb_spec (len v) size) as [Hlt|Hge].
    + replace (size <=? len v) with false by lia. cbn.
      rewrite firstn_all2; [reflexivity | unfold len in Hlt; lia].
    + replace (size <=? len v) with true by lia. reflexivity.
  - subst out. unfold len. rewrite length_firstn. lia.
  - intros Hlt. subst out. apply firstn_all2. unfold len in Hlt. lia.
Qed.

Lemma read_tag_string_first_match_witness :
  mp4tag_read_tag_string (Some (cs "artist")) 5
    (cached_ctx (album_of [text_tag (cs "TITLE") (cs "One");
                           text_tag (cs "Artist") (cs "Somebody");
                           text_tag (cs "ARTIST") (cs "Else")]))
  = Some ((MP4TAG_ERR_TAG_TOO_LARGE, Some (cs "Some")),
          cached_ctx (album_of [text_tag (cs "TITLE") (cs "One");
                                text_tag (cs "Artist") (cs "Somebody");
                                text_tag (cs "ARTIST") (cs "Else")])).
Proof.
  refine (proj1 (@read_tag_string_first_match
            (cached_ctx (album_of [text_tag (cs "TITLE") (cs "One");
                                   text_tag (cs "Artist") (cs "Somebody");
                                   text_tag (cs "ARTIST") (cs "Else")]))
            (open_file [] false)
            (album_of [text_tag (cs "TITLE") (cs "One");
                       text_tag (cs "Artist") (cs "Somebody");
                       text_tag (cs "ARTIST") (cs "Else")])
            (cs "artist") 5 [text_tag (cs "TITLE") (cs "One")]
            [text_tag (cs "ARTIST") (cs "Else")]
            (text_tag (cs "Artist") (cs "Somebody")) (cs "Somebody")
            eq_refl eq_refl _ eq_refl _ eq_refl eq_refl)).
  - lia.
  - intros x [<- | []]. reflexivity.
Defined.

(** ** Box headers written and read back *)

Lemma be32_value (v : Z) : be_value (be32_bytes v) = u32 v.
Proof.
  unfold be_value, be32_bytes. cbn [fold_left].
  rewrite !b2z_z2b. unfold u8, u32.
  rewrite !Z.shiftr_div_pow2 by lia.
  change (2 ^ 24) with (256 * (256 * 256)).
  change (2 ^ 16) with (256 * 256). change (2 ^ 8) with 256.
  rewrite <- !Z.div_div by lia.
  set (q1 := v / 256). set (q2 := q1 / 256). set (q3 := q2 / 256).
  pose proof (Z.mod_pos_bound v 256 ltac:(lia)) as H0.
  pose proof (Z.mod_pos_bound q1 256 ltac:(lia)) as H1.
  pose proof (Z.mod_pos_bound q2 256 ltac:(lia)) as H2.
  pose proof (Z.mod_pos_bound q3 256 ltac:(lia)) as H3.
  change (Z.shiftl 0 8) with 0. rewrite Z.lor_0_l.
  rewrite !lor_shiftl_add by lia.
  pose proof (Z.div_mod v 256 ltac:(lia)) as E0. fold q1 in E0.
  pose proof (Z.div_mod q1 256 ltac:(lia)) as E1. fold q2 in E1.
  pose proof (Z.div_mod q2 256 ltac:(lia)) as E2. fold q3 in E2.
  pose proof (Z.div_mod q3 256 ltac:(lia)) as E3.
  apply Z.mod_unique with (q := q3 / 256); lia.
Qed.

Lemma be32_value_small (v : Z) :
  0 <= v < 4294967296 -> be_value (be32_bytes v) = v.
Proof.
  intros Hv. rewrite be32_value. unfold u32. apply Z.mod_small. lia.
Qed.

Lemma slice_middle {A} (pre x rest : list A) :
  slice (pre ++ x ++ rest) (len pre) (len x) = x.
Proof.
  unfold slice, len. rewrite !Nat2Z.id.
  rewrite skipn_app, skipn_all, Nat.sub_diag. cbn [skipn app].
  rewrite firstn_app, firstn_all, Nat.sub_diag. cbn [firstn].
  apply app_nil_r.
Qed.

Lemma coherent_open_at data off : coherent (open_at data off).
Proof. split; [reflexivity | left; reflexivity]. Qed.

(** [mp4_read_box_header] on a coherent handle: the answer, and the
    handle it leaves. *)
Lemma runs_read_box_header_full fh :
  coherent fh -> 0 <= pos fh -> 0 <= file_size fh ->
  runs mp4_read_box_header fh (fun r fh' =>
    coherent fh' /\ fd_data fh' = fd_data fh /\
    file_size_field fh' = file_size_field fh /\
    (bytes_left fh < header_need fh -> fst r = MP4TAG_ERR_TRUNCATED) /\
    (header_need fh <= bytes_left fh ->
     fst r = MP4TAG_OK /\ snd r = box_at fh /\
     pos fh' = pos fh + header_need fh)).
Proof.
  intros Hco Hp Hfs.
  unfold mp4_read_box_header, file_tell.
  apply runs_bind, runs_get.
  replace (pos fh <? 0) with false by lia.
  apply runs_bind. eapply runs_weaken;
    [apply (runs_file_read_exact Hco Hp); lia|].
  intros [rc hdr] fh1 (Hco1 & Hd1 & Hs1 & Hr1). cbn [fst snd] in Hr1.
  assert (Hneed : 8 <= header_need fh)
    by (unfold header_need; destruct (raw_size_at fh =? 1); lia).
  destruct Hr1 as [(-> & -> & Hp1 & Hin1) | (-> & Hshort)].
  2:{ apply runs_ret. cbn [fst snd negb Z.eqb MP4TAG_ERR_TRUNCATED].
      unfold bytes_left. split_and; auto; try reflexivity; lia. }
  specialize (Hin1 ltac:(lia)).
  change (negb (0 =? 0)) with false. cbv beta iota.
  fold (raw_size_at fh).
  unfold box_at, resolved_size, header_need, bytes_left.
  destruct (raw_size_at fh =? 1) eqn:Hext.
  - apply runs_bind. eapply runs_weaken;
      [apply (runs_file_read_exact Hco1); lia|].
    intros [rc ext] fh2 (Hco2 & Hd2 & Hs2 & Hr2). cbn [fst snd] in Hr2.
    rewrite Hd1, Hp1 in Hr2.
    assert (Hd : fd_data fh2 = fd_data fh) by congruence.
    assert (Hs : file_size_field fh2 = file_size_field fh) by congruence.
    destruct Hr2 as [(-> & -> & Hp2 & Hin2) | (-> & Hshort)].
    + specialize (Hin2 ltac:(lia)).
      apply runs_ret. cbn [fst snd]. split_and; auto; try lia;
        try (intros _; split_and; try reflexivity; lia).
    + apply runs_ret. cbn [fst snd]. split_and; auto; try reflexivity; lia.
  - destruct (raw_size_at fh =? 0) eqn:Hzero.
    + apply runs_bind, runs_get. unfold file_size in *. rewrite Hs1.
      replace (file_size_field fh <? 0) with false by lia.
      apply runs_ret. cbn [fst snd]. split_and; auto; try lia;
        try (intros _; split_and; try reflexivity; lia).
    + apply runs_ret. cbn [fst snd]. split_and; auto; try lia;
        try (intros _; split_and; try reflexivity; lia).
Qed.

(** A standard header read at [len pre] in a file that holds the eight
    bytes [be32 size ++ be32 type] there. *)
Lemma read_standard_header (pre rest : list byte) (type size : Z)
      (fh : file_handle) :
  0 <= type < 4294967296 -> 2 <= size < 4294967296 ->
  coherent fh -> 0 <= file_size fh ->
  fd_data fh = pre ++ (be32_bytes size ++ be32_bytes type) ++ rest ->
  pos fh = len pre ->
  exists fh',
    mp4_read_box_header fh
    = Some ((MP4TAG_OK,
             mk_box type (len pre) size (len pre + 8) (size - 8) 8), fh') /\
    coherent fh' /\ fd_data fh' = fd_data fh /\
    file_size_field fh' = file_size_field fh /\ pos fh' = len pre + 8.
Proof.
  intros Ht Hs Hco Hfs Hdata Hpos.
  assert (Hslice : slice (fd_data fh) (pos fh) 8
                   = be32_bytes size ++ be32_bytes type).
  { rewrite Hdata, Hpos.
    exact (slice_middle pre (be32_bytes size ++ be32_bytes type) rest). }
  assert (Hraw : raw_size_at fh = size).
  { unfold raw_size_at. rewrite Hslice.
    change (firstn 4 (be32_bytes size ++ be32_bytes type))
      with (be32_bytes size).
    apply be32_value_small. lia. }
  assert (Hneed : header_need fh = 8).
  { unfold header_need. rewrite Hraw. replace (size =? 1) with false by lia.
    reflexivity. }
  assert (Hres : resolved_size fh = size).
  { unfold resolved_size. rewrite Hraw.
    replace (size =? 1) with false by lia.
    replace (size =? 0) with false by lia. reflexivity. }
  assert (Hlen : len (fd_data fh) = len pre + 8 + len rest).
  { rewrite Hdata, !len_app, !len_be32_bytes. lia. }
  pose proof (len_nonneg pre). pose proof (len_nonneg rest).
  assert (Hp : 0 <= pos fh) by lia.
  assert (Hn : header_need fh <= bytes_left fh).
  { rewrite Hneed. unfold bytes_left. lia. }
  destruct (runs_eq (runs_read_box_header_full Hco Hp Hfs))
    as ([rc box] & fh' & _ & Heq & Hco' & Hd' & Hs' & _ & Hok).
  destruct (Hok Hn) as (E1 & E2 & Hp'). cbn [fst snd] in E1, E2. subst rc box.
  exists fh'. split_and; auto; [|lia].
  rewrite Heq. unfold box_at. rewrite Hslice, Hres, Hneed, Hpos.
  change (skipn 4 (be32_bytes size ++ be32_bytes type))
    with (be32_bytes type).
  rewrite be32_value_small by lia. reflexivity.
Qed.

(** The header [mp4_write_box_header] appends to a buffer is the header
    [mp4_read_box_header] reads at the place where it was appended:
    the same type and size, 8 bytes of header. *)
Theorem box_header_round_trip (buf rest : list byte) (type size : Z) :
  0 <= type < 4294967296 -> 2 <= size < 4294967296 ->
  exists fh',
    (file_seek (len buf) ;; mp4_read_box_header)
      (open_file (mp4_write_box_header buf type size ++ rest) false)
    = Some ((MP4TAG_OK,
             mk_box type (len buf) size (len buf + 8) (size - 8) 8), fh') /\
    mp4_write_box_header buf type size
    = buf ++ be32_bytes size ++ be32_bytes type.
Proof.
  intros Ht Hs.
  assert (Hw : mp4_write_box_header buf type size
               = buf ++ be32_bytes size ++ be32_bytes type).
  { unfold mp4_write_box_header, buffer_append_be32, buffer_append.
    now rewrite <- app_assoc. }
  destruct (@read_standard_header buf rest type size
              (open_at (mp4_write_box_header buf type size ++ rest) (len buf))
              Ht Hs (coherent_open_at _ _))
    as (fh' & Heq & _); [apply len_nonneg | | reflexivity |].
  { cbn [fd_data open_at set_pos open_file file_open_common].
    rewrite Hw, <- !app_assoc. reflexivity. }
  exists fh'. split; [exact Heq | exact Hw].
Qed.

Lemma box_header_round_trip_witness :
  exists fh',
    (file_seek 3 ;; mp4_read_box_header)
      (open_file (mp4_write_box_header [x01; x02; x03] MP4_BOX_ILST 4096
                  ++ [x00])
                 false)
    = Some ((MP4TAG_OK, mk_box MP4_BOX_ILST 3 4096 11 4088 8), fh').
Proof.
  destruct (@box_header_round_trip [x01; x02; x03] [x00] MP4_BOX_ILST 4096)
    as (fh' & H & _); [vm_compute; intuition discriminate | lia |].
  exists fh'. exact H.
Defined.

(** [mp4_write_free_box] refuses a size below 8 and leaves the buffer
    as it is; for a size [n] from 8 on it appends exactly [n] bytes,
    which [mp4_read_box_header] reads as a [free] box of size [n]. *)
Theorem free_box_written (buf rest : list byte) (n : Z) :
  8 <= n < 4294967296 ->
  (exists b fh',
     mp4_write_free_box buf n = (0, buf ++ b) /\ len b = n /\
     (file_seek (len buf) ;; mp4_read_box_header)
       (open_file (buf ++ b ++ rest) false)
     = Some ((MP4TAG_OK,
              mk_box MP4_BOX_FREE (len buf) n (len buf + 8) (n - 8) 8), fh')) /\
  (forall m, m < 8 -> mp4_write_free_box buf m = (-1, buf)).
Proof.
  intros Hn. split.
  - exists ((be32_bytes n ++ be32_bytes MP4_BOX_FREE)
            ++ repeat x00 (Z.to_nat (n - 8))).
    destruct (@read_standard_header buf
                (repeat x00 (Z.to_nat (n - 8)) ++ rest) MP4_BOX_FREE n
                (open_at (buf ++ (be32_bytes n ++ be32_bytes MP4_BOX_FREE)
                          ++ repeat x00 (Z.to_nat (n - 8)) ++ rest) (len buf)))
      as (fh' & Heq & _);
      [vm_compute; intuition discriminate | lia | apply coherent_open_at
       | apply len_nonneg | reflexivity | reflexivity |].
    exists fh'. split; [|split].
    + unfold mp4_write_free_box. replace (n <? 8) with false by lia.
      unfold buffer_append_zeros, mp4_write_box_header, buffer_append_be32,
        buffer_append.
      now rewrite <- !app_assoc.
    + rewrite !len_app, !len_be32_bytes, len_repeat by lia. lia.
    + rewrite <- Heq. rewrite <- !app_assoc. reflexivity.
  - intros m Hm. unfold mp4_write_free_box.
    replace (m <? 8) with true by lia. reflexivity.
Qed.

Lemma free_box_written_witness :
  (exists b fh',
     mp4_write_free_box [x01] 8 = (0, [x01] ++ b) /\ len b = 8 /\
     (file_seek 1 ;; mp4_read_box_header) (open_file ([x01] ++ b ++ []) false)
     = Some ((MP4TAG_OK, mk_box MP4_BOX_FREE 1 8 9 0 8), fh')) /\
  mp4_write_free_box [x01] 7 = (-1, [x01]).
Proof.
  destruct (@free_box_written [x01] [] 8) as (Hbig & Hsmall); [lia|].
  split; [exact Hbig | apply Hsmall; lia].
Defined.

(** ** FourCC codes and tag names *)

Lemma fourcc_value (a b c d : Z) :
  0 <= a < 256 -> 0 <= b < 256 -> 0 <= c < 256 -> 0 <= d < 256 ->
  Z.lor (Z.lor (Z.lor (Z.shiftl a 24) (Z.shiftl b 16)) (Z.shiftl c 8)) d
  = ((a * 256 + b) * 256 + c) * 256 + d.
Proof.
  intros Ha Hb Hc Hd.
  rewrite <- !lor_shiftl_add by lia.
  rewrite !Z.shiftl_lor, !Z.shiftl_shiftl by lia.
  reflexivity.
Qed.

Lemma land_255 (x : Z) : Z.land x 255 = x mod 256.
Proof. exact (Z.land_ones x 8 ltac:(lia)). Qed.

Lemma c_str_id (s : list byte) : c_string s -> c_str s = s.
Proof.
  induction s as [|b s IH]; [reflexivity|].
  intros H. apply c_string_cons in H as (Hb & Hs). cbn.
  destruct (Byte.eqb b x00) eqn:E.
  - apply Byte.byte_dec_bl in E. contradiction.
  - now rewrite IH.
Qed.

Lemma fold_case_length (a b : list byte) :
  fold_case a = fold_case b -> length a = length b.
Proof.
  unfold fold_case. intros H.
  rewrite <- (length_map (fun x => upcase (b2z x)) a), H.
  apply length_map.
Qed.

(** The table holds no name of four characters. *)
Lemma table_no_four (n : list byte) :
  c_string n -> strlen n = 4 ->
  find (fun m => str_casecmp_loop n (fst m) =? 0) g_tag_map = None.
Proof.
  intros Hc Hl. apply find_none_all. intros m Hin.
  apply Z.eqb_neq. intros H0.
  assert (Hm : c_string (fst m) /\ length (fst m) <> 4%nat).
  { revert Hin. clear. unfold g_tag_map.
    repeat (intros [<- | Hin];
            [split; [vm_compute; intuition discriminate | cbn; lia]
            | revert Hin]).
    intros []. }
  destruct Hm as (Hcm & Hlm).
  apply (str_casecmp_loop_zero Hc Hcm) in H0.
  apply fold_case_length in H0. unfold strlen, len in Hl. lia.
Qed.

(** A name of four characters is taken as a raw FourCC, and the FourCC
    gives the four characters back: [mp4_fourcc_to_str] undoes
    [mp4_str_to_fourcc] and [mp4_tag_name_to_fourcc] on it. *)
Theorem raw_fourcc_round_trip (s : list byte) :
  c_string s -> strlen s = 4 ->
  mp4_tag_name_to_fourcc (Some s) = mp4_str_to_fourcc (Some s) /\
  mp4_fourcc_to_str (mp4_str_to_fourcc (Some s)) = s /\
  16777216 <= mp4_str_to_fourcc (Some s) < 4294967296.
Proof.
  intros Hc Hl.
  split.
  { unfold mp4_tag_name_to_fourcc. rewrite (table_no_four Hc Hl).
    now rewrite Hl. }
  destruct s as [|ca [|cb [|cc [|cd [|ce s]]]]];
    try (unfold strlen, len in Hl; cbn in Hl; lia).
  pose proof (b2z_range ca) as Ha. pose proof (b2z_range cb) as Hb.
  pose proof (b2z_range cc) as Hcc. pose proof (b2z_range cd) as Hd.
  assert (Ha0 : b2z ca <> 0).
  { intros E. apply b2z_zero in E. apply Hc. left. now symmetry. }
  unfold mp4_str_to_fourcc. cbn [map nth].
  rewrite fourcc_value by assumption.
  split; [|lia].
  unfold mp4_fourcc_to_str. rewrite !land_255.
  rewrite !Z.shiftr_div_pow2 by lia.
  change (2 ^ 24) with 16777216. change (2 ^ 16) with 65536.
  change (2 ^ 8) with 256.
  set (V := ((b2z ca * 256 + b2z cb) * 256 + b2z cc) * 256 + b2z cd).
  assert (E1 : V / 16777216 = b2z ca)
    by (symmetry; apply Z.div_unique with
          (r := (b2z cb * 256 + b2z cc) * 256 + b2z cd); subst V; lia).
  assert (E2 : V / 65536 = b2z ca * 256 + b2z cb)
    by (symmetry; apply Z.div_unique with (r := b2z cc * 256 + b2z cd);
        subst V; lia).
  assert (E3 : V / 256 = (b2z ca * 256 + b2z cb) * 256 + b2z cc)
    by (symmetry; apply Z.div_unique with (r := b2z cd); subst V; lia).
  rewrite E1, E2, E3.
  assert (M1 : b2z ca mod 256 = b2z ca) by (apply Z.mod_small; lia).
  assert (M2 : (b2z ca * 256 + b2z cb) mod 256 = b2z cb)
    by (symmetry; apply Z.mod_unique with (q := b2z ca); lia).
  assert (M3 : ((b2z ca * 256 + b2z cb) * 256 + b2z cc) mod 256 = b2z cc)
    by (symmetry; apply Z.mod_unique with (q := b2z ca * 256 + b2z cb); lia).
  assert (M4 : V mod 256 = b2z cd)
    by (symmetry; apply Z.mod_unique with
          (q := (b2z ca * 256 + b2z cb) * 256 + b2z cc); subst V; lia).
  rewrite M1, M2, M3, M4, !z2b_b2z.
  apply c_str_id. exact Hc.
Qed.

Lemma raw_fourcc_round_trip_witness :
  mp4_fourcc_to_str (mp4_tag_name_to_fourcc (Some (cs "apID"))) = cs "apID".
Proof.
  destruct (@raw_fourcc_round_trip (cs "apID")) as (E & R & _);
    [vm_compute; intuition discriminate | reflexivity |].
  rewrite E. exact R.
Defined.

Lemma find_ext_in {A} (f g : A -> bool) (l : list A) :
  (forall x, In x l -> f x = g x) -> find f l = find g l.
Proof.
  induction l as [|x l IH]; intros H; [reflexivity|]. cbn.
  rewrite (H x) by (left; reflexivity).
  rewrite IH; [reflexivity|]. intros y Hy. apply H. right. exact Hy.
Qed.

(** Every entry of the table is found under its own name and under its
    own FourCC: no name and no FourCC occurs twice. *)
Lemma table_entries (m : list byte * Z) :
  In m g_tag_map ->
  c_string (fst m) /\
  mp4_tag_name_to_fourcc (Some (fst m)) = snd m /\
  mp4_tag_fourcc_to_name (snd m) = Some (fst m).
Proof.
  unfold g_tag_map.
  repeat (intros [<- | Hin];
          [split; [vm_compute; intuition discriminate
                  | split; vm_compute; reflexivity]
          | revert Hin]).
  intros [].
Qed.

Lemma table_lookup (m : list byte * Z) (n : list byte) :
  In m g_tag_map -> c_string n -> fold_case n = fold_case (fst m) ->
  mp4_tag_name_to_fourcc (Some n) = snd m /\
  mp4_tag_fourcc_to_name (mp4_tag_name_to_fourcc (Some n)) = Some (fst m) /\
  (forall f name, mp4_tag_fourcc_to_name f = Some name ->
                  mp4_tag_name_to_fourcc (Some name) = f).
Proof.
  intros Hin Hc Hfold.
  destruct (table_entries Hin) as (Hcm & Hname & Hfour).
  assert (E : mp4_tag_name_to_fourcc (Some n) = snd m).
  { rewrite <- Hname. unfold mp4_tag_name_to_fourcc.
    rewrite (@find_ext_in _
               (fun e => str_casecmp_loop n (fst e) =? 0)
               (fun e => str_casecmp_loop (fst m) (fst e) =? 0)).
    - destruct (find _ g_tag_map) as [e|] eqn:F; [reflexivity|].
      exfalso.
      pose proof (find_none _ _ F m Hin) as Hn. cbn beta in Hn.
      apply Z.eqb_neq in Hn. apply Hn.
      apply (str_casecmp_loop_zero Hcm Hcm). reflexivity.
    - intros e He. destruct (table_entries He) as (Hce & _).
      pose proof (str_casecmp_loop_zero Hc Hce) as H1.
      pose proof (str_casecmp_loop_zero Hcm Hce) as H2.
      rewrite Hfold in H1.
      destruct (str_casecmp_loop n (fst e) =? 0) eqn:E1;
        destruct (str_casecmp_loop (fst m) (fst e) =? 0) eqn:E2;
        try reflexivity; exfalso.
      + apply Z.eqb_eq in E1. apply Z.eqb_neq in E2. tauto.
      + apply Z.eqb_neq in E1. apply Z.eqb_eq in E2. tauto. }
  split; [exact E|]. split; [rewrite E; exact Hfour|].
  intros f name Hf. unfold mp4_tag_fourcc_to_name in Hf.
  destruct (find (fun e => snd e =? f) g_tag_map) as [e|] eqn:F;
    [|discriminate].
  injection Hf as <-. apply find_some in F as (He & Hf).
  apply Z.eqb_eq in Hf. subst f.
  apply (table_entries He).
Qed.

(** The two directions of the table agree.  A name that equals a name
    of the table up to case is mapped to the FourCC of that entry, and
    the FourCC is mapped back to the name as the table spells it; the
    name [mp4_tag_fourcc_to_name] gives for a FourCC is mapped back to
    that FourCC. *)
Theorem tag_name_round_trip (m : list byte * Z) (n : list byte) :
  In m g_tag_map -> c_string n -> fold_case n = fold_case (fst m) ->
  mp4_tag_name_to_fourcc (Some n) = snd m /\
  mp4_tag_fourcc_to_name (mp4_tag_name_to_fourcc (Some n)) = Some (fst m) /\
  (forall f name, mp4_tag_fourcc_to_name f = Some name ->
                  mp4_tag_name_to_fourcc (Some name) = f).
Proof. apply table_lookup. Qed.

Lemma tag_name_round_trip_witness :
  mp4_tag_name_to_fourcc (Some (cs "album_Artist")) = MP4_TAG_AART /\
  mp4_tag_fourcc_to_name (mp4_tag_name_to_fourcc (Some (cs "album_Artist")))
  = Some (cs "ALBUM_ARTIST").
Proof.
  destruct (@tag_name_round_trip (cs "ALBUM_ARTIST", MP4_TAG_AART)
              (cs "album_Artist")) as (E & R & _);
    [vm_compute; tauto | vm_compute; intuition discriminate | reflexivity |].
  split; [exact E | exact R].
Defined.

(** ** Reading and writing a file *)

Lemma slice_overwrite (d : list byte) (off : Z) (b : list byte) :
  0 <= off -> slice (overwrite d off b) off (len b) = b.
Proof.
  intros Hoff. unfold overwrite.
  set (pre := firstn (Z.to_nat off)
                (d ++ repeat x00 (Z.to_nat off - length d))).
  assert (Hpre : len pre = off).
  { unfold len. subst pre. rewrite firstn_padded. lia. }
  rewrite <- Hpre at 2.
  apply (slice_middle pre b).
Qed.

(** [file_write] when the operating system reports no failure. *)
Lemma file_write_quiet (fh : file_handle) (bytes : list byte) :
  writable fh = true -> fd_faults fh = [] -> 0 <= pos fh -> 0 < len bytes ->
  file_write bytes fh
  = Some (0, mk_file_handle (overwrite (fd_data fh) (pos fh) bytes) []
               true (Z.max (file_size_field fh) (pos fh + len bytes))
               (pos fh + len bytes) [] (buf_start fh)).
Proof.
  intros Hw Hq Hp Hl.
  destruct fh as [d f w fs p b bs]. cbn in Hw, Hq, Hp. subst w f.
  unfold file_write, sys_lseek, sys_write, os_fault, bind, get, put, ret.
  cbn [negb andb writable fd_faults pos fd_data set_data set_pos set_buf
       file_size_field buf buf_start].
  replace (0 <=? p) with true by lia. cbn [negb].
  replace (0 <? len bytes) with true by lia.
  cbn [negb andb writable fd_faults pos fd_data set_data set_pos set_buf
       file_size_field buf buf_start].
  destruct (Z.ltb_spec fs (p + len bytes)).
  - unfold set_file_size. cbn.
    replace (Z.max _ _) with (p + len bytes) by lia. reflexivity.
  - replace (Z.max _ _) with fs by lia. reflexivity.
Qed.

(** What [file_write] has written, [file_read] reads: after a write of
    [bytes] at offset [p] that the operating system carries out, a read
    of as many bytes at [p] returns [bytes], whatever the read buffer
    held before the write.  The position and the file size recorded in
    the handle follow the write, and the file has grown only if the
    write went beyond its end. *)
Theorem file_write_read_back (fh : file_handle) (p : Z) (bytes : list byte) :
  writable fh = true -> fd_faults fh = [] -> 0 <= p -> 0 < len bytes ->
  exists fh1 fh2,
    (file_seek p ;; file_write bytes) fh = Some (0, fh1) /\
    (file_seek p ;; file_read (len bytes)) fh1 = Some ((0, bytes), fh2) /\
    file_tell fh1 = p + len bytes /\
    file_size fh1 = Z.max (file_size fh) (p + len bytes) /\
    len (fd_data fh1) = Z.max (len (fd_data fh)) (p + len bytes).
Proof.
  intros Hw Hq Hp Hl.
  pose proof (@file_write_quiet (set_pos fh p) bytes Hw Hq Hp Hl) as Hwr.
  cbn [set_pos fd_data file_size_field pos buf_start] in Hwr.
  eexists. 
  assert (Hco : coherent
            (set_pos (mk_file_handle (overwrite (fd_data fh) p bytes) []
               true (Z.max (file_size_field fh) (p + len bytes))
               (p + len bytes) [] (buf_start fh)) p))
    by (split; [reflexivity | left; reflexivity]).
  destruct (runs_eq (@runs_file_read_exact _ (len bytes) Hco Hp ltac:(lia)))
    as ([rc out] & fh2 & _ & Heq & _ & _ & _ & Hr).
  cbn [fst snd fd_data pos set_pos] in Hr.
  pose proof (@len_overwrite (fd_data fh) p bytes Hp) as Hlen.
  destruct Hr as [(-> & -> & _) | (_ & Hshort)]; [|lia].
  exists fh2. split_and.
  - unfold bind, file_seek, get, put, ret. exact Hwr.
  - unfold bind at 1. unfold file_seek at 1, bind, get, put, ret.
    rewrite Heq. now rewrite slice_overwrite.
  - reflexivity.
  - reflexivity.
  - exact Hlen.
Qed.

Lemma file_write_read_back_witness :
  exists fh1 fh2,
    (file_seek 6 ;; file_write (cs "xy")) (open_file (cs "abcd") true)
    = Some (0, fh1) /\
    (file_seek 6 ;; file_read 2) fh1 = Some ((0, cs "xy"), fh2) /\
    file_size fh1 = 8.
Proof.
  destruct (@file_write_read_back (open_file (cs "abcd") true) 6 (cs "xy"))
    as (fh1 & fh2 & H1 & H2 & _ & H3 & _);
    [reflexivity | reflexivity | lia | reflexivity |].
  exists fh1, fh2. split; [exact H1|]. split; [exact H2 | exact H3].
Defined.

(** [file_read] through the read buffer gives the bytes of the file:
    on a handle whose system calls succeed and whose buffer agrees
    with the file, a read of [n] bytes returns the [n] bytes at the
    position and moves the position by [n] when the file holds them,
    and [MP4TAG_ERR_TRUNCATED] when it does not; a second read goes on
    where the first one ended, so that two reads return what one read
    of [n + m] bytes returns.  The file is left as it is. *)
Theorem file_read_is_file_content (fh : file_handle) (n m : Z) :
  coherent fh -> 0 <= pos fh -> 0 < n -> 0 < m ->
  let data := fd_data fh in
  exists r1 fh1 r2 fh2,
    file_read n fh = Some (r1, fh1) /\ file_read m fh1 = Some (r2, fh2) /\
    fd_data fh1 = data /\ fd_data fh2 = data /\
    (len data < pos fh + n -> fst r1 = MP4TAG_ERR_TRUNCATED) /\
    (pos fh + n <= len data ->
     r1 = (0, slice data (pos fh) n) /\ file_tell fh1 = pos fh + n /\
     (len data < pos fh + n + m -> fst r2 = MP4TAG_ERR_TRUNCATED) /\
     (pos fh + n + m <= len data ->
      r2 = (0, slice data (pos fh + n) m) /\
      file_tell fh2 = pos fh + n + m /\
      snd r1 ++ snd r2 = slice data (pos fh) (n + m) /\
      exists fh3, file_read (n + m) fh = Some ((0, snd r1 ++ snd r2), fh3))).
Proof.
  intros Hco Hp Hn Hm data.
  destruct (runs_eq (@runs_file_read_exact fh n Hco Hp ltac:(lia)))
    as ([rc1 out1] & fh1 & _ & Heq1 & Hco1 & Hd1 & _ & Hr1).
  cbn [fst snd] in Hr1.
  assert (Hp1 : 0 <= pos fh1 \/ rc1 = MP4TAG_ERR_TRUNCATED).
  { destruct Hr1 as [(_ & _ & E & _) | (E & _)]; [left; lia | right; exact E]. }
  destruct (runs_file_read fh1 m) as (r2 & fh2 & Heq2 & Hfr2 & _).
  exists (rc1, out1), fh1, r2, fh2.
  split; [exact Heq1|]. split; [exact Heq2|]. split; [exact Hd1|].
  split; [destruct Hfr2 as (E & _); rewrite E; exact Hd1|].
  split.
  - intros Hshort. destruct Hr1 as [(_ & _ & _ & Hin) | (E & _)];
      [specialize (Hin Hn); fold data in Hin; lia | exact E].
  - intros Hin. destruct Hr1 as [(-> & -> & Hpos1 & _) | (_ & Hs)];
      [|fold data in Hs; lia].
    split; [reflexivity|]. split; [exact Hpos1|].
    assert (Hq1 : 0 <= pos fh1) by lia.
    destruct (runs_eq (@runs_file_read_exact fh1 m Hco1 Hq1 ltac:(lia)))
      as ([rc2 out2] & fh2' & _ & Heq2' & _ & _ & _ & Hr2).
    rewrite Heq2 in Heq2'. injection Heq2' as -> ->.
    cbn [fst snd] in Hr2. rewrite Hd1, Hpos1 in Hr2. fold data in Hr2.
    split.
    + intros Hshort. destruct Hr2 as [(_ & _ & _ & Hin2) | (E & _)];
        [specialize (Hin2 Hm); lia | exact E].
    + intros Hin2. destruct Hr2 as [(-> & -> & Hpos2 & _) | (_ & Hs)];
        [|lia].
      split; [reflexivity|]. split; [unfold file_tell; lia|].
      cbn [snd]. rewrite slice_app by lia. split; [reflexivity|].
      destruct (runs_eq (@runs_file_read_exact fh (n + m) Hco Hp ltac:(lia)))
        as ([rc3 out3] & fh3 & _ & Heq3 & _ & _ & _ & Hr3).
      cbn [fst snd] in Hr3. fold data in Hr3.
      destruct Hr3 as [(-> & -> & _) | (_ & Hs)]; [|lia].
      exists fh3. exact Heq3.
Qed.

Lemma file_read_is_file_content_witness :
  exists fh1 fh2,
    file_read 2 (open_at (cs "abcdef") 1) = Some ((0, cs "bc"), fh1) /\
    file_read 3 fh1 = Some ((0, cs "def"), fh2) /\
    file_tell fh2 = 6.
Proof.
  destruct (@file_read_is_file_content (open_at (cs "abcdef") 1) 2 3)
    as (r1 & fh1 & r2 & fh2 & H1 & H2 & _ & _ & _ & H);
    [apply coherent_open_at | vm_compute; discriminate | lia | lia |].
  destruct H as (-> & _ & _ & H); [vm_compute; discriminate|].
  destruct H as (-> & T & _); [vm_compute; discriminate|].
  exists fh1, fh2. split; [exact H1|]. split; [exact H2 | exact T].
Defined.

(** ** Brand validation on every file *)

Lemma runs_compat_loop (fh0 fh : file_handle) (compat_end off : Z) :
  frame fh0 fh ->
  runs (while_loop (read_fuel fh) (compat_body compat_end) off) fh
       (fun rc fh' => frame fh0 fh' /\
                      (rc = MP4TAG_OK \/ rc = MP4TAG_ERR_NOT_MP4)).
Proof.
  intros Hfr.
  apply (runs_while (compat_body compat_end)
           (fun _ st => frame fh0 st)
           (fun _ st => Z.to_nat (reach st - pos st))).
  - intros s st HI. unfold compat_body.
    destruct (s + 4 <=? compat_end); [|apply runs_ret; auto].
    run_read rc cb st' Hf Hrc Hok.
    destruct (negb (rc =? 0)) eqn:E.
    { apply runs_ret. split; [frame_tac | auto]. }
    assert (rc = 0) by lia. subst rc.
    destruct Hok as (_ & Hpos & Hreach); [reflexivity | lia |].
    specialize (Hreach ltac:(lia)).
    destruct (switch_case (be_value cb) compatible_brands);
      apply runs_ret.
    + split; [frame_tac | auto].
    + split; [frame_tac|]. destruct Hf as (_ & _ & _ & Hr). lia.
  - exact Hfr.
  - unfold read_fuel. lia.
Qed.

(** [mp4_validate_ftyp] returns on every file, whatever the operating
    system answers, with [MP4TAG_OK] or [MP4TAG_ERR_NOT_MP4] only: a
    failed seek or read is reported as "not an MP4 file", never as an
    I/O error.  It does not change the file. *)
Theorem validate_ftyp_codes (fh : file_handle) :
  exists rc fh',
    mp4_validate_ftyp fh = Some (rc, fh') /\
    (rc = MP4TAG_OK \/ rc = MP4TAG_ERR_NOT_MP4) /\
    fd_data fh' = fd_data fh /\ file_size fh' = file_size fh.
Proof.
  assert (H : runs mp4_validate_ftyp fh (fun rc fh' =>
                frame fh fh' /\
                (rc = MP4TAG_OK \/ rc = MP4TAG_ERR_NOT_MP4))).
  { unfold mp4_validate_ftyp. run_seek.
    apply runs_bind. eapply runs_weaken; [apply runs_read_box_header|].
    intros [rc box] fh1 (Hf1 & _ & _). cbn [fst snd] in *.
    destruct (negb (rc =? 0)); [apply runs_ret; split; [frame_tac | auto]|].
    destruct (negb (box_type box =? MP4_BOX_FTYP));
      [apply runs_ret; split; [frame_tac | auto]|].
    destruct (data_size box <? 4);
      [apply runs_ret; split; [frame_tac | auto]|].
    run_read rc2 brand fh2 Hf2 Hrc2 Hok2.
    destruct (negb (rc2 =? 0));
      [apply runs_ret; split; [frame_tac | auto]|].
    destruct (switch_case (be_value brand) major_brands);
      [apply runs_ret; split; [frame_tac | auto]|].
    destruct (12 <=? data_size box);
      [|apply runs_ret; split; [frame_tac | auto]].
    run_seek. apply runs_bind, runs_get.
    apply runs_compat_loop. frame_tac. }
  destruct H as (rc & fh' & Heq & (Hd & _ & Hs & _) & Hrc).
  exists rc, fh'. auto.
Qed.

Lemma slice_inside {A} (h x rest : list A) (a c : Z) :
  0 <= a -> 0 <= c -> a + c <= len x ->
  slice (h ++ x ++ rest) (len h + a) c = slice x a c.
Proof.
  intros Ha Hc Hle. unfold slice, len in *.
  replace (Z.to_nat (Z.of_nat (length h) + a))
    with (length h + Z.to_nat a)%nat by lia.
  rewrite skipn_app, (skipn_all2 h) by lia. cbn [app].
  replace (length h + Z.to_nat a - length h)%nat with (Z.to_nat a) by lia.
  rewrite skipn_app, firstn_app, length_skipn.
  replace (Z.to_nat c - (length x - Z.to_nat a))%nat with 0%nat by lia.
  cbn [firstn]. apply app_nil_r.
Qed.

Lemma len_flat_be32 (l : list Z) : len (flat_map be32_bytes l) = 4 * len l.
Proof.
  induction l as [|c l IH]; [reflexivity|].
  cbn [flat_map]. rewrite len_app, IH, len_be32_bytes.
  unfold len. cbn [length]. lia.
Qed.

Lemma slice_flat_be32 (l : list Z) (k : nat) :
  (k < length l)%nat ->
  slice (flat_map be32_bytes l) (4 * Z.of_nat k) 4 = be32_bytes (nth k l 0).
Proof.
  revert k. induction l as [|c l IH]; intros k Hk; [cbn in Hk; lia|].
  destruct k as [|k].
  - reflexivity.
  - cbn [flat_map nth]. cbn [length] in Hk.
    replace (4 * Z.of_nat (S k)) with (len (be32_bytes c) + 4 * Z.of_nat k)
      by (rewrite len_be32_bytes; lia).
    rewrite <- (app_nil_r (flat_map be32_bytes l)).
    rewrite slice_inside.
    + apply IH. lia.
    + lia.
    + lia.
    + rewrite len_flat_be32. unfold len. lia.
Qed.

Lemma firstn_succ_nth {A} (l : list A) (k : nat) (d : A) :
  (k < length l)%nat -> firstn (S k) l = firstn k l ++ [nth k l d].
Proof.
  revert k. induction l as [|x l IH]; intros k Hk; [cbn in Hk; lia|].
  destruct k as [|k]; [reflexivity|].
  cbn [firstn nth app]. f_equal. apply IH. cbn in Hk. lia.
Qed.

(** [mp4_validate_ftyp] on a file that begins with a well-formed
    [ftyp] box: it accepts the file exactly when the major brand is
    one of the twenty brands of its first [switch] or one of the
    compatible brands is one of the seven brands of its second
    [switch]; otherwise it answers [MP4TAG_ERR_NOT_MP4]. *)
Theorem validate_ftyp_accepts (brand : Z) (compat : list Z)
    (rest : list byte) :
  0 <= brand < 4294967296 ->
  Forall (fun c => 0 <= c < 4294967296) compat ->
  16 + 4 * len compat < 4294967296 ->
  validate (ftyp_bytes brand compat ++ rest)
  = Some (if switch_case brand major_brands || any_compatible compat
          then MP4TAG_OK else MP4TAG_ERR_NOT_MP4).
Proof.
  intros Hb Hc Hsz.
  set (n := len compat). set (size := 16 + 4 * n).
  set (flat := flat_map be32_bytes compat).
  set (data := ftyp_bytes brand compat ++ rest).
  pose proof (len_nonneg compat) as Hn0. fold n in Hn0.
  assert (Hflat : len flat = 4 * n) by apply len_flat_be32.
  assert (D1 : data = [] ++ (be32_bytes size ++ be32_bytes MP4_BOX_FTYP)
                      ++ (be32_bytes brand ++ be32_bytes 512 ++ flat) ++ rest).
  { subst data. unfold ftyp_bytes, box_bytes. fold flat.
    rewrite !len_app, !len_be32_bytes, Hflat.
    replace (8 + (4 + (4 + 4 * n))) with size by (subst size; lia).
    cbn [app]. now rewrite <- !app_assoc. }
  assert (D2 : data = (be32_bytes size ++ be32_bytes MP4_BOX_FTYP)
                      ++ be32_bytes brand ++ (be32_bytes 512 ++ flat ++ rest)).
  { rewrite D1. cbn [app]. now rewrite <- !app_assoc. }
  assert (D3 : data = (be32_bytes size ++ be32_bytes MP4_BOX_FTYP
                       ++ be32_bytes brand ++ be32_bytes 512)
                      ++ flat ++ rest).
  { rewrite D1. cbn [app]. now rewrite <- !app_assoc. }
  assert (Hlen : len data = size + len rest).
  { rewrite D3, !len_app, !len_be32_bytes, Hflat. subst size. lia. }
  pose proof (len_nonneg rest) as Hr0.
  assert (H : runs mp4_validate_ftyp (open_file data false) (fun rc _ =>
                rc = if switch_case brand major_brands || any_compatible compat
                     then MP4TAG_OK else MP4TAG_ERR_NOT_MP4)).
  { unfold mp4_validate_ftyp. run_seek.
    destruct (@read_standard_header []
                ((be32_bytes brand ++ be32_bytes 512 ++ flat) ++ rest)
                MP4_BOX_FTYP size
                (set_pos (open_file data false) 0))
      as (fh1 & Heq1 & Hco1 & Hd1 & Hs1 & Hp1);
      [vm_compute; intuition discriminate | subst size; lia
      | apply coherent_open_at | apply len_nonneg | exact D1 | reflexivity |].
    cbn [fd_data set_pos open_file file_open_common] in Hd1.
    change (len []) with 0 in Heq1, Hp1. cbn in Hp1.
    apply runs_bind. exists (MP4TAG_OK, mk_box MP4_BOX_FTYP 0 size (0 + 8)
                               (size - 8) 8), fh1.
    split; [exact Heq1|].
    cbn [negb Z.eqb MP4TAG_OK box_type data_size data_offset].
    change (negb (MP4_BOX_FTYP =? MP4_BOX_FTYP)) with false. cbv beta iota.
    replace (size - 8 <? 4) with false by (subst size; lia).
    apply runs_bind. eapply runs_weaken;
      [apply (@runs_file_read_exact fh1 4 Hco1); lia|].
    intros [rc bytes] fh2 (Hco2 & Hd2 & Hs2 & Hr2). cbn [fst snd] in Hr2.
    rewrite Hd1, Hp1 in Hr2.
    destruct Hr2 as [(-> & -> & Hp2 & _) | (_ & Hshort)];
      [|subst size; lia].
    change (negb (0 =? 0)) with false. cbv beta iota.
    replace (slice data 8 4) with (be32_bytes brand)
      by (symmetry; rewrite D2;
          exact (slice_middle (be32_bytes size ++ be32_bytes MP4_BOX_FTYP)
                   (be32_bytes brand) _)).
    rewrite be32_value_small by lia.
    destruct (switch_case brand major_brands); [apply runs_ret; reflexivity|].
    cbn [orb].
    destruct (Z.leb_spec 12 (size - 8)) as [Hge|Hlt].
    2:{ apply runs_ret. assert (n = 0) by (subst size; lia).
        destruct compat; [reflexivity | subst n; unfold len in *; cbn in *; lia]. }
    run_seek. apply runs_bind, runs_get.
    apply (runs_while (compat_body (0 + 8 + (size - 8)))
             (fun off st =>
                coherent st /\ fd_data st = data /\ pos st = off /\
                exists k, off = 16 + 4 * Z.of_nat k /\ (k <= length compat)%nat /\
                          any_compatible (firstn k compat) = false)
             (fun off _ => Z.to_nat (size - off))).
    - intros off st (Hco & Hd & Hp & k & -> & Hk & Hnone).
      unfold compat_body.
      destruct (Z.leb_spec (16 + 4 * Z.of_nat k + 4) (0 + 8 + (size - 8)))
        as [Hin|Hout].
      + assert (Hkn : (k < length compat)%nat)
          by (subst size n; unfold len in *; lia).
        apply runs_bind. eapply runs_weaken;
          [apply (@runs_file_read_exact st 4 Hco); lia|].
        intros [rc cb] st' (Hco' & Hd' & _ & Hr). cbn [fst snd] in Hr.
        rewrite Hd, Hp in Hr.
        destruct Hr as [(-> & -> & Hp' & _) | (_ & Hshort)];
          [|subst size; lia].
        change (negb (0 =? 0)) with false. cbv beta iota.
        replace (slice data (16 + 4 * Z.of_nat k) 4)
          with (be32_bytes (nth k compat 0)).
        2:{ symmetry. rewrite D3.
            change 16 with (len (be32_bytes size ++ be32_bytes MP4_BOX_FTYP
                                 ++ be32_bytes brand ++ be32_bytes 512)).
            rewrite slice_inside; [apply slice_flat_be32; exact Hkn | lia | lia |].
            rewrite Hflat. subst n. unfold len. lia. }
        rewrite be32_value_small
          by (rewrite Forall_forall in Hc; apply Hc, nth_In; exact Hkn).
        destruct (switch_case (nth k compat 0) compatible_brands) eqn:Hsw;
          apply runs_ret.
        * replace (any_compatible compat) with true; [reflexivity|].
          symmetry. apply existsb_exists. exists (nth k compat 0).
          split; [apply nth_In; exact Hkn | exact Hsw].
        * split.
          -- split; [exact Hco'|]. split; [congruence|]. split; [lia|].
             exists (S k). split; [lia|]. split; [lia|].
             rewrite (firstn_succ_nth compat 0 Hkn).
             unfold any_compatible in *. rewrite existsb_app, Hnone.
             cbn [existsb orb]. now rewrite Hsw.
          -- lia.
      + apply runs_ret.
        assert (k = length compat) by (subst size n; unfold len in *; lia).
        subst k. rewrite firstn_all in Hnone. now rewrite Hnone.
    - split; [exact Hco2|].
      split; [cbn [fd_data set_pos]; rewrite Hd2; exact Hd1|].
      split; [reflexivity|].
      exists 0%nat. split; [reflexivity|]. split; [lia | reflexivity].
    - unfold read_fuel, reach, buf_len.
      cbn [pos set_pos fd_data buf buf_start]. rewrite Hd2, Hd1, Hlen.
      lia. }
  destruct H as (rc & fh' & Heq & ->).
  unfold validate. fold data. rewrite Heq. reflexivity.
Qed.

Lemma validate_ftyp_accepts_witness :
  validate (ftyp_bytes (fourcc_of "NDAS") [fourcc_of "zzzz"; fourcc_of "M4A "]
            ++ mdat_bytes)
  = Some MP4TAG_OK.
Proof.
  exact (@validate_ftyp_accepts (fourcc_of "NDAS")
           [fourcc_of "zzzz"; fourcc_of "M4A "] mdat_bytes
           ltac:(vm_compute; intuition discriminate)
           ltac:(repeat constructor; vm_compute; discriminate)
           ltac:(vm_compute; reflexivity)).
Defined.

(** ** The shape of a serialized ilst *)

Lemma serialize_tag_item_app (st : mp4tag_simple_tag_t) (buf : list byte) :
  serialize_tag_item st buf = buf ++ serialize_tag_item st [] /\
  (serialize_tag_item st [] = [] \/
   exists fourcc data_type content,
     serialize_tag_item st [] = emitted_item fourcc data_type content).
Proof.
  unfold serialize_tag_item.
  destruct (if mp4_tag_name_to_fourcc (st_name st) =? 0
            then match st_name st with
                 | Some n => if strlen n =? 4
                             then Some (mp4_str_to_fourcc (st_name st))
                             else None
                 | None => None
                 end
            else Some (mp4_tag_name_to_fourcc (st_name st))) as [fourcc|].
  2:{ split; [now rewrite app_nil_r | left; reflexivity]. }
  destruct (item_content fourcc st) as [[data_type content]|].
  2:{ split; [now rewrite app_nil_r | left; reflexivity]. }
  split.
  - unfold mp4_write_box_header, buffer_append_be32, buffer_append.
    cbn [app]. now rewrite <- !app_assoc.
  - right. exists fourcc, data_type, content.
    unfold emitted_item, mp4_write_box_header, buffer_append_be32,
      buffer_append. cbn [app]. now rewrite <- !app_assoc.
Qed.

Lemma len_emitted_item (fourcc data_type : Z) (content : list byte) :
  len (emitted_item fourcc data_type content) = 24 + len content.
Proof.
  unfold emitted_item. rewrite !len_app, !len_be32_bytes. lia.
Qed.

Lemma serialize_simple_tags (sts : list mp4tag_simple_tag_t)
      (buf : list byte) :
  fold_left (fun buf st => match st_name st with
                           | None => buf
                           | Some _ => serialize_tag_item st buf
                           end) sts buf
  = buf ++ concat (map serialized_item sts).
Proof.
  revert buf. induction sts as [|st sts IH]; intros buf; cbn [fold_left].
  - cbn. now rewrite app_nil_r.
  - rewrite IH. cbn [map concat]. rewrite app_assoc. f_equal.
    unfold serialized_item. destruct (st_name st).
    + apply serialize_tag_item_app.
    + now rewrite app_nil_r.
Qed.

(** [mp4_tags_serialize_ilst] always succeeds and appends to the
    buffer the items of the simple tags of the collection, in their
    order, one after the other; nested simple tags are not written.
    What is appended for one simple tag is either nothing or one item
    box of 24 bytes plus its content, whose 32-bit size field holds
    the length of the item, followed by one ['data'] box that fills
    it, as long as that length is below 2^32. *)
Theorem serialize_ilst_is_concat (coll : mp4tag_collection_t)
    (buf : list byte) :
  mp4_tags_serialize_ilst coll buf
  = (MP4TAG_OK, buf ++ concat (map serialized_item (all_simple_tags coll))) /\
  forall st,
    serialized_item st = [] \/
    exists fourcc data_type content,
      serialized_item st = emitted_item fourcc data_type content /\
      len (serialized_item st) = 24 + len content /\
      (len (serialized_item st) < 4294967296 ->
       serialized_item st = item_bytes fourcc data_type content /\
       be_value (firstn 4 (serialized_item st)) = len (serialized_item st) /\
       be_value (slice (serialized_item st) 8 4)
       = len (serialized_item st) - 8 /\
       be_value (slice (serialized_item st) 12 4) = MP4_BOX_DATA).
Proof.
  split.
  - unfold mp4_tags_serialize_ilst, all_simple_tags. f_equal.
    generalize (tags coll) as ts. intros ts. revert buf.
    induction ts as [|t ts IH]; intros buf; cbn [fold_left flat_map].
    + cbn. now rewrite app_nil_r.
    + rewrite IH, serialize_simple_tags, map_app, concat_app.
      now rewrite app_assoc.
  - intros st. unfold serialized_item at 1.
    destruct (st_name st) eqn:Hname; [|left; reflexivity].
    destruct (serialize_tag_item_app st []) as (_ & [E | (f & dt & c & E)]).
    + left. exact E.
    + right. exists f, dt, c.
      assert (Es : serialized_item st = emitted_item f dt c)
        by (unfold serialized_item; rewrite Hname; exact E).
      rewrite Es. split; [reflexivity|].
      split; [apply len_emitted_item|].
      rewrite len_emitted_item. intros Hlen.
      pose proof (len_nonneg c) as Hc.
      assert (Ei : emitted_item f dt c = item_bytes f dt c)
        by (apply emitted_item_short; lia).
      split; [exact Ei|]. unfold emitted_item.
      assert (U1 : u32 (len c) = len c) by (apply Z.mod_small; lia).
      assert (U2 : u32 (8 + 4 + 4 + len c) = 8 + 4 + 4 + len c)
        by (apply Z.mod_small; lia).
      assert (U3 : u32 (8 + (8 + 4 + 4 + len c)) = 8 + (8 + 4 + 4 + len c))
        by (apply Z.mod_small; lia).
      rewrite U1, U2, U3.
      split; [|split].
      * change (firstn 4 (be32_bytes (8 + (8 + 4 + 4 + len c)) ++ _))
          with (be32_bytes (8 + (8 + 4 + 4 + len c))).
        rewrite be32_value_small; lia.
      * change (slice (be32_bytes ?a ++ be32_bytes ?b ++ be32_bytes ?x ++ ?r)
                  8 4) with (be32_bytes (8 + 4 + 4 + len c)).
        rewrite be32_value_small; lia.
      * change (be_value (be32_bytes MP4_BOX_DATA) = MP4_BOX_DATA).
        reflexivity.
Qed.

(** ** Items written and read back *)

(** Parsing the item [item_bytes f dt content] that lies at [len pre]
    comes down to [parse_data_box] on its ['data'] box, started behind
    the header of that box. *)
Lemma parse_item_reaches_data (pre rest content : list byte) (f dt : Z)
      (fh : file_handle) :
  0 <= f < 4294967296 -> 24 + len content < 4294967296 ->
  coherent fh -> 0 <= file_size fh ->
  fd_data fh = pre ++ item_bytes f dt content ++ rest ->
  exists fh2,
    coherent fh2 /\ fd_data fh2 = fd_data fh /\ pos fh2 = len pre + 16 /\
    file_size_field fh2 = file_size_field fh /\
    parse_item_at (len pre) fh
    = (r <- parse_data_box f
              (mk_box MP4_BOX_DATA (len pre + 8) (16 + len content)
                      (len pre + 8 + 8) (16 + len content - 8) 8) ;;
       ret r) fh2.
Proof.
  intros Hf Hlen Hco Hfs Hdata.
  pose proof (len_nonneg content) as Hc0. pose proof (len_nonneg pre) as Hp0.
  set (d := be32_bytes dt ++ be32_bytes 0 ++ content).
  assert (Hd : len d = 8 + len content)
    by (subst d; rewrite !len_app, !len_be32_bytes; lia).
  assert (D1 : fd_data fh
               = pre ++ (be32_bytes (24 + len content) ++ be32_bytes f)
                 ++ (box_bytes MP4_BOX_DATA d ++ rest)).
  { rewrite Hdata. unfold item_bytes, box_bytes at 1. fold d.
    replace (len (box_bytes MP4_BOX_DATA d)) with (16 + len content)
      by (unfold box_bytes; rewrite !len_app, !len_be32_bytes, Hd; lia).
    replace (8 + (16 + len content)) with (24 + len content) by lia.
    now rewrite <- !app_assoc. }
  assert (D2 : fd_data fh
               = (pre ++ be32_bytes (24 + len content) ++ be32_bytes f)
                 ++ (be32_bytes (16 + len content) ++ be32_bytes MP4_BOX_DATA)
                 ++ (d ++ rest)).
  { rewrite D1. unfold box_bytes. rewrite Hd.
    replace (8 + (8 + len content)) with (16 + len content) by lia.
    now rewrite <- !app_assoc. }
  assert (L2 : len (pre ++ be32_bytes (24 + len content) ++ be32_bytes f)
               = len pre + 8)
    by (rewrite !len_app, !len_be32_bytes; lia).
  (* the header of the item *)
  destruct (@read_standard_header pre (box_bytes MP4_BOX_DATA d ++ rest)
              f (24 + len content) (set_pos fh (len pre)))
    as (fh1 & Heq1 & Hco1 & Hd1 & Hs1 & Hp1);
    [exact Hf | lia | exact Hco | exact Hfs | exact D1 | reflexivity |].
  cbn [fd_data set_pos file_size_field] in Hd1, Hs1.
  (* the header of its data box *)
  destruct (@read_standard_header
              (pre ++ be32_bytes (24 + len content) ++ be32_bytes f)
              (d ++ rest) MP4_BOX_DATA (16 + len content)
              (set_pos fh1 (len pre + 8)))
    as (fh2 & Heq2 & Hco2 & Hd2 & Hs2 & Hp2);
    [vm_compute; intuition discriminate | lia | exact Hco1
     | unfold file_size in *; cbn [file_size_field set_pos]; lia
     | cbn [fd_data set_pos]; rewrite Hd1; exact D2
     | cbn [pos set_pos]; symmetry; exact L2 |].
  rewrite L2 in Heq2, Hp2. cbn [fd_data set_pos] in Hd2.
  exists fh2. split; [exact Hco2|]. split; [congruence|]. split; [lia|].
  split; [cbn [file_size_field set_pos] in Hs2; congruence|].
  unfold parse_item_at.
  unfold bind at 1. unfold file_seek at 1, bind, get, put, ret.
  rewrite Heq1. cbn [negb Z.eqb MP4TAG_OK].
  unfold parse_ilst_item. unfold walk_fuel. cbn [while_loop].
  unfold parse_ilst_item_body at 1.
  cbn [box_offset box_size data_offset box_type].
  replace (len pre + 8 + 8 <=? len pre + (24 + len content)) with true by lia.
  unfold file_seek at 1, bind, get, put, ret.
  change (negb (0 =? 0)) with false. cbv beta iota.
  rewrite Heq2. cbn [negb Z.eqb MP4TAG_OK box_size box_type data_size].
  replace (16 + len content <? 8) with false by lia.
  change (MP4_BOX_DATA =? MP4_BOX_DATA) with true.
  replace (8 <=? 16 + len content - 8) with true by lia.
  cbn [andb].
  destruct (parse_data_box f _ fh2) as [[r fh3]|]; reflexivity.
Qed.

(** [parse_data_box] behind the header of the ['data'] box of
    [item_bytes f dt content]. *)
Lemma parse_data_box_decodes (pre rest content : list byte) (f dt : Z)
      (fh : file_handle) :
  0 <= dt < 4294967296 ->
  coherent fh ->
  fd_data fh = pre ++ item_bytes f dt content ++ rest ->
  pos fh = len pre + 16 ->
  exists fh',
    parse_data_box f
      (mk_box MP4_BOX_DATA (len pre + 8) (16 + len content)
              (len pre + 8 + 8) (16 + len content - 8) 8) fh
    = Some ((MP4TAG_OK, Some (decoded_tag f dt content)), fh') /\
    same_file fh fh'.
Proof.
  intros Hdt Hco Hdata Hpos.
  pose proof (len_nonneg content) as Hc0. pose proof (len_nonneg pre) as Hp0.
  set (h16 := pre ++ be32_bytes (8 + len (box_bytes MP4_BOX_DATA
                        (be32_bytes dt ++ be32_bytes 0 ++ content)))
                  ++ be32_bytes f
                  ++ be32_bytes (8 + len (be32_bytes dt ++ be32_bytes 0
                                          ++ content))
                  ++ be32_bytes MP4_BOX_DATA).
  assert (L16 : len h16 = len pre + 16)
    by (subst h16; rewrite !len_app, !len_be32_bytes; lia).
  assert (D1 : fd_data fh = h16 ++ (be32_bytes dt ++ be32_bytes 0)
                            ++ (content ++ rest)).
  { rewrite Hdata. subst h16. unfold item_bytes, box_bytes.
    now rewrite <- !app_assoc. }
  assert (D2 : fd_data fh = (h16 ++ be32_bytes dt ++ be32_bytes 0)
                            ++ content ++ rest).
  { rewrite D1. now rewrite <- !app_assoc. }
  assert (L24 : len (h16 ++ be32_bytes dt ++ be32_bytes 0) = len pre + 24)
    by (rewrite !len_app, !len_be32_bytes, L16; lia).
  assert (Hlen : len (fd_data fh) = len pre + 24 + len content + len rest)
    by (rewrite D2, len_app, L24, len_app; lia).
  pose proof (len_nonneg rest) as Hr0.
  assert (H : runs (parse_data_box f
                      (mk_box MP4_BOX_DATA (len pre + 8) (16 + len content)
                         (len pre + 8 + 8) (16 + len content - 8) 8)) fh
                (fun r fh' => r = (MP4TAG_OK, Some (decoded_tag f dt content))
                              /\ same_file fh fh')).
  { unfold parse_data_box.
    apply runs_bind. eapply runs_weaken;
      [apply (@runs_file_read_exact fh 8 Hco); lia|].
    intros [rc hdr] fh1 (Hco1 & Hd1 & Hs1 & Hr1). cbn [fst snd] in Hr1.
    destruct Hr1 as [(-> & -> & Hp1 & _) | (_ & Hshort)]; [|lia].
    change (negb (0 =? 0)) with false. cbv beta iota.
    replace (slice (fd_data fh) (pos fh) 8)
      with (be32_bytes dt ++ be32_bytes 0)
      by (symmetry; rewrite D1, Hpos, <- L16;
          exact (slice_middle h16 (be32_bytes dt ++ be32_bytes 0) _)).
    change (firstn 4 (be32_bytes dt ++ be32_bytes 0)) with (be32_bytes dt).
    rewrite be32_value_small by lia.
    cbn [data_size].
    replace (16 + len content - 8 - 8) with (len content) by lia.
    assert (Hread : forall (k : Z * list byte -> prog file_handle
                                  (Z * option mp4tag_simple_tag_t))
                      (Q : Z * option mp4tag_simple_tag_t -> file_handle -> Prop),
               0 < len content ->
               (forall fh2, same_file fh fh2 ->
                            runs (k (0, content)) fh2 Q) ->
               runs (bind (file_read (len content)) k) fh1 Q).
    { intros k Q Hpos0 Hk. apply runs_bind. eapply runs_weaken;
        [apply (@runs_file_read_exact fh1 (len content) Hco1); lia|].
      intros [rc out] fh2 (Hco2 & Hd2 & Hs2 & Hr2). cbn [fst snd] in Hr2.
      rewrite Hd1, Hp1, Hpos in Hr2.
      destruct Hr2 as [(-> & -> & _) | (_ & Hshort)]; [|lia].
      replace (slice (fd_data fh) (len pre + 16 + 8) (len content))
        with content
        by (symmetry; rewrite D2;
            replace (len pre + 16 + 8) with (len pre + 24) by lia;
            rewrite <- L24;
            exact (slice_middle _ content rest)).
      apply Hk. split; [exact Hco2|]. split; congruence. }
    unfold decoded_tag.
    destruct (is_int_atom f && (0 <? len content) && (len content <=? 8))
      eqn:Eint.
    { apply Hread; [lia|]. intros fh2 Hd2. cbn [negb Z.eqb].
      change (negb (0 =? 0)) with false. cbv beta iota.
      apply runs_ret. split; [reflexivity | exact Hd2]. }
    destruct ((dt =? MP4_DATA_UTF8) || (dt =? MP4_DATA_IMPLICIT)).
    { destruct (0 <? len content) eqn:E0.
      - apply Hread; [lia|]. intros fh2 Hd2.
        change (negb (0 =? 0)) with false. cbv beta iota.
        apply runs_ret. split; [reflexivity | exact Hd2].
      - apply runs_ret. split; [reflexivity | exact (conj Hco1 (conj Hd1 Hs1))]. }
    destruct (dt =? MP4_DATA_INTEGER).
    { destruct ((0 <? len content) && (len content <=? 8)) eqn:E0.
      - apply Hread; [lia|]. intros fh2 Hd2.
        change (negb (0 =? 0)) with false. cbv beta iota.
        apply runs_ret. split; [reflexivity | exact Hd2].
      - apply runs_ret. split; [reflexivity | exact (conj Hco1 (conj Hd1 Hs1))]. }
    destruct ((dt =? MP4_DATA_JPEG) || (dt =? MP4_DATA_PNG)).
    { destruct (0 <? len content) eqn:E0.
      - apply Hread; [lia|]. intros fh2 Hd2.
        change (negb (0 =? 0)) with false. cbv beta iota.
        apply runs_ret. split; [reflexivity | exact Hd2].
      - apply runs_ret. split; [reflexivity | exact (conj Hco1 (conj Hd1 Hs1))]. }
    destruct (0 <? len content) eqn:E0.
    - apply Hread; [lia|]. intros fh2 Hd2.
      change (negb (0 =? 0)) with false. cbv beta iota.
      apply runs_ret. split; [reflexivity | exact Hd2].
    - apply runs_ret. split; [reflexivity | exact (conj Hco1 (conj Hd1 Hs1))]. }
  destruct H as (r & fh' & Heq & -> & Hd).
  exists fh'. split; [exact Heq | exact Hd].
Qed.

(** Parsing the item [item_bytes f dt content] that lies at [len pre]
    in a file. *)
Lemma parse_item_decodes (pre rest content : list byte) (f dt : Z) :
  0 <= f < 4294967296 -> 0 <= dt < 4294967296 ->
  24 + len content < 4294967296 ->
  exists fh',
    parse_item_at (len pre)
      (open_file (pre ++ item_bytes f dt content ++ rest) false)
    = Some ((MP4TAG_OK, Some (decoded_tag f dt content)), fh') /\
    fd_data fh' = pre ++ item_bytes f dt content ++ rest.
Proof.
  intros Hf Hdt Hlen.
  destruct (@parse_item_reaches_data pre rest content f dt
              (open_file (pre ++ item_bytes f dt content ++ rest) false)
              Hf Hlen (coherent_open _ _) (len_nonneg _) eq_refl)
    as (fh2 & Hco2 & Hd2 & Hp2 & _ & Heq).
  destruct (@parse_data_box_decodes pre rest content f dt fh2 Hdt Hco2 Hd2 Hp2)
    as (fh' & Heq' & _ & Hd' & _).
  exists fh'. split; [|rewrite Hd', Hd2; reflexivity].
  rewrite Heq. unfold bind. rewrite Heq'. reflexivity.
Qed.

Lemma str_to_fourcc_range (s : option (list byte)) :
  0 <= mp4_str_to_fourcc s < 4294967296.
Proof.
  destruct s as [s|]; [|cbn; lia]. unfold mp4_str_to_fourcc.
  assert (R : forall i, 0 <= nth i (map b2z s) 0 < 256).
  { intros i. destruct (Nat.lt_ge_cases i (length (map b2z s))) as [Hi|Hi].
    - rewrite (nth_indep _ 0 (b2z x00)) by exact Hi.
      rewrite map_nth. apply b2z_range.
    - rewrite nth_overflow by exact Hi. lia. }
  pose proof (R 0%nat). pose proof (R 1%nat).
  pose proof (R 2%nat). pose proof (R 3%nat).
  rewrite fourcc_value by assumption. lia.
Qed.

Lemma name_to_fourcc_range (name : option (list byte)) :
  0 <= mp4_tag_name_to_fourcc name < 4294967296.
Proof.
  destruct name as [n|]; [|cbn; lia]. unfold mp4_tag_name_to_fourcc.
  destruct (find _ g_tag_map) as [m|] eqn:F.
  - apply find_some in F as (Hin & _). revert Hin. clear. unfold g_tag_map.
    repeat (intros [<- | Hin]; [vm_compute; intuition discriminate
                               | revert Hin]).
    intros [].
  - destruct (strlen n =? 4); [apply str_to_fourcc_range | lia].
Qed.

(** What [serialize_tag_item] emits for a tag of a type that is stored
    as UTF-8 text. *)
Lemma serialize_text_item (name : list byte) (value : option (list byte)) :
  let f := mp4_tag_name_to_fourcc (Some name) in
  f <> 0 -> is_int_atom f = false -> f <> MP4_TAG_COVR ->
  f <> MP4_TAG_GNRE ->
  serialize_tag_item (mk_simple_tag (Some name) value None None 0 []) []
  = emitted_item f MP4_DATA_UTF8
      (match value with Some v => v | None => [] end).
Proof.
  intros f Hf0 Hint Hcovr Hgnre.
  unfold serialize_tag_item. cbn [st_name]. fold f.
  replace (f =? 0) with false by lia. cbv beta iota zeta.
  unfold item_content. unfold is_int_atom in Hint.
  apply orb_false_iff in Hint as (Hint & E5).
  apply orb_false_iff in Hint as (Hint & E4).
  apply orb_false_iff in Hint as (Hint & E3).
  apply orb_false_iff in Hint as (E1 & E2).
  rewrite E1, E2, E3, E4, E5. cbn [orb].
  replace (f =? MP4_TAG_COVR) with false by lia.
  replace (f =? MP4_TAG_GNRE) with false by lia.
  cbn [st_value].
  unfold emitted_item, mp4_write_box_header, buffer_append_be32,
    buffer_append. cbn [app]. now rewrite <- !app_assoc.
Qed.

(** A tag of a type stored as text is read back as it was written:
    the item [serialize_tag_item] emits for the name and the value,
    wherever it lies in a file, is parsed by [parse_ilst_item] into a
    tag with the name of the FourCC and the same value.  An empty
    value is written as an empty payload and read back as no value at
    all. *)
Theorem text_tag_round_trip (name value pre rest : list byte) :
  let f := mp4_tag_name_to_fourcc (Some name) in
  f <> 0 -> is_int_atom f = false -> f <> MP4_TAG_COVR ->
  f <> MP4_TAG_GNRE ->
  c_string value -> 24 + len value < 4294967296 ->
  (exists fh',
     parse_item_at (len pre)
       (open_file (pre ++ serialize_tag_item (text_tag name value) [] ++ rest)
                  false)
     = Some ((MP4TAG_OK,
              Some (mk_simple_tag (Some (item_name f))
                      (if 0 <? len value then Some value else None)
                      None None 1 [])), fh')) /\
  (forall m, In m g_tag_map -> fold_case name = fold_case (fst m) ->
             c_string name -> item_name f = fst m).
Proof.
  intros f Hf0 Hint Hcovr Hgnre Hc Hlen.
  pose proof (name_to_fourcc_range (Some name)) as Hrange. fold f in Hrange.
  split.
  - unfold text_tag.
    rewrite (@serialize_text_item name (Some value) Hf0 Hint Hcovr Hgnre).
    fold f. rewrite emitted_item_short by lia.
    destruct (@parse_item_decodes pre rest value f MP4_DATA_UTF8 Hrange
                ltac:(vm_compute; intuition discriminate) Hlen)
      as (fh' & Heq & _).
    exists fh'. rewrite Heq. do 3 f_equal.
    unfold decoded_tag. fold (item_name f). rewrite Hint. cbn [andb].
    change ((MP4_DATA_UTF8 =? MP4_DATA_UTF8)
            || (MP4_DATA_UTF8 =? MP4_DATA_IMPLICIT)) with true.
    cbv beta iota.
    destruct (0 <? len value); [|reflexivity].
    unfold set_value, set_is_default. cbn. now rewrite c_str_id.
  - intros m Hin Hfold Hcn.
    destruct (@table_lookup m name Hin Hcn Hfold) as (_ & E & _).
    unfold item_name. fold f in E. now rewrite E.
Qed.

Lemma text_tag_round_trip_witness :
  exists fh',
    parse_item_at 2
      (open_file ([x00; x00]
                  ++ serialize_tag_item
                       (text_tag (cs "comment") (cs "live")) []
                  ++ [xff]) false)
    = Some ((MP4TAG_OK,
             Some (mk_simple_tag (Some (cs "COMMENT")) (Some (cs "live"))
                     None None 1 [])), fh').
Proof.
  destruct (@text_tag_round_trip (cs "comment") (cs "live") [x00; x00] [xff])
    as ((fh' & H) & _);
    [vm_compute; discriminate | reflexivity | vm_compute; discriminate
     | vm_compute; discriminate | vm_compute; intuition discriminate
     | vm_compute; reflexivity |].
  exists fh'. exact H.
Defined.

(** A cover image is read back as it was written: the item emitted for
    a COVER_ART tag with a non-empty binary value is parsed into a tag
    named COVER_ART that carries the same bytes as binary data and no
    textual value. *)
Theorem cover_art_round_trip (binary pre rest : list byte) :
  0 < len binary -> 24 + len binary < 4294967296 ->
  exists fh',
    parse_item_at (len pre)
      (open_file (pre ++ serialize_tag_item (cover_art (Some binary)) []
                  ++ rest) false)
    = Some ((MP4TAG_OK,
             Some (mk_simple_tag (Some (cs "COVER_ART")) None (Some binary)
                     None 1 [])), fh').
Proof.
  intros Hpos Hlen.
  set (dt := if (4 <=? len binary) && (byte_at binary 0 =? 137)
                && (byte_at binary 1 =? 80)
             then MP4_DATA_PNG else MP4_DATA_JPEG).
  assert (Hs : serialize_tag_item (cover_art (Some binary)) []
               = emitted_item MP4_TAG_COVR dt binary).
  { unfold serialize_tag_item, cover_art. cbn [st_name].
    change (mp4_tag_name_to_fourcc (Some (cs "COVER_ART")))
      with MP4_TAG_COVR.
    change (MP4_TAG_COVR =? 0) with false. cbv beta iota zeta.
    unfold item_content.
    change ((MP4_TAG_COVR =? MP4_TAG_TRKN) || (MP4_TAG_COVR =? MP4_TAG_DISK))
      with false.
    change (MP4_TAG_COVR =? MP4_TAG_TMPO) with false.
    change ((MP4_TAG_COVR =? MP4_TAG_CPIL) || (MP4_TAG_COVR =? MP4_TAG_PGAP))
      with false.
    change (MP4_TAG_COVR =? MP4_TAG_COVR) with true. cbv beta iota.
    cbn [st_binary]. replace (0 <? len binary) with true by lia.
    fold dt. subst dt.
    destruct ((4 <=? len binary) && (byte_at binary 0 =? 137)
              && (byte_at binary 1 =? 80));
      unfold emitted_item, mp4_write_box_header, buffer_append_be32,
        buffer_append; cbn [app]; now rewrite <- !app_assoc. }
  rewrite Hs, emitted_item_short by lia.
  assert (Hdt : dt = MP4_DATA_PNG \/ dt = MP4_DATA_JPEG)
    by (subst dt; destruct ((4 <=? len binary) && (byte_at binary 0 =? 137)
                            && (byte_at binary 1 =? 80)); auto).
  destruct (@parse_item_decodes pre rest binary MP4_TAG_COVR dt
              ltac:(vm_compute; intuition discriminate)
              ltac:(destruct Hdt as [-> | ->];
                    vm_compute; intuition discriminate) Hlen)
    as (fh' & Heq & _).
  exists fh'. rewrite Heq. do 3 f_equal.
  unfold decoded_tag.
  change (is_int_atom MP4_TAG_COVR) with false. cbn [andb].
  replace (0 <? len binary) with true by lia.
  destruct Hdt as [-> | ->]; reflexivity.
Qed.

Lemma cover_art_round_trip_witness :
  exists fh',
    parse_item_at 0
      (open_file ([] ++ serialize_tag_item
                          (cover_art (Some [x89; x50; x4e; x47; x0d])) []
                  ++ []) false)
    = Some ((MP4TAG_OK,
             Some (mk_simple_tag (Some (cs "COVER_ART")) None
                     (Some [x89; x50; x4e; x47; x0d]) None 1 [])), fh').
Proof.
  exact (@cover_art_round_trip [x89; x50; x4e; x47; x0d] [] []
           ltac:(reflexivity) ltac:(reflexivity)).
Defined.

Lemma scan_value_utoa (n : Z) :
  0 <= n < 4294967296 -> scan_value (Some (utoa n)) = n.
Proof.
  intros Hn. unfold scan_value, sscanf_u.
  rewrite <- (app_nil_r (utoa n)).
  rewrite (@scan_u_utoa n [] Hn I). reflexivity.
Qed.

Lemma be16_mod (n : Z) :
  0 <= n ->
  u16 (Z.lor (Z.shiftl (b2z (z2b (Z.shiftr n 8))) 8) (b2z (z2b n)))
  = n mod 65536.
Proof.
  intros Hn. rewrite !b2z_z2b. unfold u8, u16.
  rewrite Z.shiftr_div_pow2 by lia. change (2 ^ 8) with 256.
  pose proof (Z.mod_pos_bound n 256 ltac:(lia)).
  pose proof (Z.mod_pos_bound (n / 256) 256 ltac:(lia)).
  rewrite lor_shiftl_add by lia.
  pose proof (Z.div_mod n 256 ltac:(lia)).
  pose proof (Z.div_mod (n / 256) 256 ltac:(lia)).
  rewrite (Z.mod_small (_ + _)) by lia.
  apply Z.mod_unique with (q := n / 256 / 256); lia.
Qed.

(** A tempo is stored in two bytes: the item emitted for a BPM tag
    whose value is the decimal text of [n] is read back as the decimal
    text of [n mod 65536], hence as the same text exactly when [n] is
    below 65536. *)
Theorem bpm_round_trip (name pre rest : list byte) (n : Z) :
  mp4_tag_name_to_fourcc (Some name) = MP4_TAG_TMPO ->
  0 <= n < 4294967296 ->
  exists fh',
    parse_item_at (len pre)
      (open_file (pre ++ serialize_tag_item (text_tag name (utoa n)) []
                  ++ rest) false)
    = Some ((MP4TAG_OK,
             Some (mk_simple_tag (Some (cs "BPM"))
                     (Some (utoa (n mod 65536))) None None 1 [])), fh').
Proof.
  intros Hname Hn.
  set (content := [z2b (Z.shiftr n 8); z2b n]).
  assert (Hs : serialize_tag_item (text_tag name (utoa n)) []
               = emitted_item MP4_TAG_TMPO MP4_DATA_INTEGER content).
  { unfold serialize_tag_item, text_tag. cbn [st_name]. rewrite Hname.
    change (MP4_TAG_TMPO =? 0) with false. cbv beta iota zeta.
    unfold item_content.
    change ((MP4_TAG_TMPO =? MP4_TAG_TRKN) || (MP4_TAG_TMPO =? MP4_TAG_DISK))
      with false.
    change (MP4_TAG_TMPO =? MP4_TAG_TMPO) with true. cbv beta iota zeta.
    cbn [st_value]. rewrite scan_value_utoa by exact Hn. fold content.
    unfold emitted_item, mp4_write_box_header, buffer_append_be32,
      buffer_append. cbn [app]. now rewrite <- !app_assoc. }
  rewrite Hs, emitted_item_short by (cbn; lia).
  destruct (@parse_item_decodes pre rest content MP4_TAG_TMPO MP4_DATA_INTEGER
              ltac:(vm_compute; intuition discriminate)
              ltac:(vm_compute; intuition discriminate)
              ltac:(vm_compute; reflexivity))
    as (fh' & Heq & _).
  exists fh'. rewrite Heq. do 3 f_equal.
  unfold decoded_tag.
  change (mp4_tag_fourcc_to_name MP4_TAG_TMPO) with (Some (cs "BPM")).
  change (is_int_atom MP4_TAG_TMPO && (0 <? len content)
          && (len content <=? 8)) with true.
  cbv beta iota zeta. unfold set_value, set_is_default. cbn [st_name st_value
    st_binary st_language st_is_default st_nested].
  do 2 f_equal.
  unfold int_atom_value.
  change ((MP4_TAG_TMPO =? MP4_TAG_TRKN) || (MP4_TAG_TMPO =? MP4_TAG_DISK))
    with false.
  change ((MP4_TAG_TMPO =? MP4_TAG_TMPO) && (len content =? 2)) with true.
  cbv beta iota zeta. cbn [andb].
  change (byte_at content 0) with (b2z (z2b (Z.shiftr n 8))).
  change (byte_at content 1) with (b2z (z2b n)).
  rewrite be16_mod by lia.
  f_equal. apply snprintf_fits.
  pose proof (Z.mod_pos_bound n 65536 ltac:(lia)).
  pose proof (@len_utoa (n mod 65536) 5 ltac:(lia) ltac:(lia)). lia.
Qed.

Lemma bpm_round_trip_witness :
  exists fh',
    parse_item_at 0
      (open_file ([] ++ serialize_tag_item (text_tag (cs "bpm") (utoa 70000)) []
                  ++ []) false)
    = Some ((MP4TAG_OK,
             Some (mk_simple_tag (Some (cs "BPM"))
                     (Some (utoa (70000 mod 65536))) None None 1 [])), fh').
Proof.
  exact (@bpm_round_trip (cs "bpm") [] [] 70000 ltac:(reflexivity)
           ltac:(lia)).
Defined.



(** ** The cache of a context *)

(** A successful [mp4tag_read_tags] leaves the collection it returns
    in the cache of the context: every further call returns the same
    collection and changes nothing, so the file is parsed once.  The
    first call reads the file without modifying it and leaves the
    FileMap as it was. *)
Theorem read_tags_is_cached (ctx ctx' : mp4tag_context_t)
    (c : option mp4tag_collection_t) :
  mp4tag_read_tags ctx = Some ((MP4TAG_OK, c), ctx') ->
  exists coll fh fh',
    c = Some coll /\ cached_tags ctx' = Some coll /\
    mp4tag_read_tags ctx' = Some ((MP4TAG_OK, Some coll), ctx') /\
    ctx_info ctx' = ctx_info ctx /\
    ctx_fh ctx = Some fh /\ ctx_fh ctx' = Some fh' /\
    fd_data fh' = fd_data fh.
Proof.
  unfold mp4tag_read_tags at 1. unfold bind at 1, get.
  destruct (ctx_fh ctx) as [fh|] eqn:Hfh; [|discriminate].
  destruct (cached_tags ctx) as [coll|] eqn:Hc.
  - intros H. injection H as <- <-.
    exists coll, fh, fh. split_and; auto.
    unfold mp4tag_read_tags, bind, get. now rewrite Hfh, Hc.
  - destruct (has_ilst (ctx_info ctx)) eqn:Hi; [|discriminate].
    cbn [negb]. unfold bind at 1, on_fh. rewrite Hfh.
    destruct (runs_eq (runs_parse_ilst fh (ctx_info ctx)))
      as ([rc coll] & fh' & _ & Heq & Hfr & Hr).
    rewrite Hi in Hr. destruct Hr as (sts & Hr). injection Hr as -> ->.
    rewrite Heq. cbn [negb Z.eqb MP4TAG_OK].
    unfold bind, get, put, ret. intros H. injection H as <- <-.
    eexists. exists fh, fh'. split_and; try reflexivity.
    apply Hfr.
Qed.

Lemma read_tags_is_cached_witness :
  exists coll ctx',
    mp4tag_read_tags cover_ctx = Some ((MP4TAG_OK, Some coll), ctx') /\
    mp4tag_read_tags ctx' = Some ((MP4TAG_OK, Some coll), ctx').
Proof.
  destruct (mp4tag_read_tags cover_ctx) as [[[rc c] ctx']|] eqn:E;
    [|vm_compute in E; discriminate E].
  assert (rc = MP4TAG_OK)
    by (vm_compute in E; injection E as <- _ _; reflexivity).
  subst rc.
  destruct (read_tags_is_cached _ E) as (coll & _ & _ & -> & _ & H & _).
  exists coll, ctx'. split; [reflexivity | exact H].
Defined.

(** ** The codes of the structure parser *)





(** ** The rewrite strategy and the original file *)

(** [rewrite_file] only reads the file behind the context.  Whenever
    it fails, the context is left with the FileMap and the cache it
    had, and the handle it holds, if any, is on the bytes of the
    original file; the context is without a handle only when the file
    could not be reopened.  When it succeeds the context holds an open
    handle again.  Path and access mode never change. *)
Theorem rewrite_keeps_original (env : os_env) (udta_buf : list byte)
    (ctx : mp4tag_context_t) (src : file_handle) :
  ctx_fh ctx = Some src ->
  exists rc ctx',
    rewrite_file env udta_buf ctx = Some (rc, ctx') /\
    ctx_path ctx' = ctx_path ctx /\ ctx_writable ctx' = ctx_writable ctx /\
    (rc = MP4TAG_OK -> exists fh', ctx_fh ctx' = Some fh') /\
    (rc <> MP4TAG_OK ->
     ctx_info ctx' = ctx_info ctx /\ cached_tags ctx' = cached_tags ctx /\
     ((exists fh', ctx_fh ctx' = Some fh' /\ fd_data fh' = fd_data src) \/
      (ctx_fh ctx' = None /\ reopen_fails env = true))).
Proof.
  intros Hsrc.
  unfold rewrite_file. unfold bind at 1, get. rewrite Hsrc.
  destruct (ctx_path ctx) as [path|] eqn:Hpath.
  2:{ exists MP4TAG_ERR_INVALID_ARG, ctx. split_and; auto; try discriminate.
      intros _. split_and; auto. left. eauto. }
  destruct (fopen_fails env).
  { exists MP4TAG_ERR_IO, ctx. split_and; auto; try discriminate.
    intros _. split_and; auto. left. eauto. }
  destruct (open_tmp_fails env).
  { exists MP4TAG_ERR_IO, ctx. split_and; auto; try discriminate.
    intros _. split_and; auto. left. eauto. }
  set (tmp := file_open_common [] (tmp_faults env) true).
  destruct (@runs_rewrite_loop src (src, tmp) (file_size src) udta_buf
              (frame_refl src)) as (e & [src' tmp'] & Hloop & Hfr & _).
  cbn [fst] in Hfr. destruct Hfr as (Hd & _).
  rewrite Hloop.
  destruct e as [[]|rc []].
  - destruct (runs_file_sync tmp') as (rcs & tmp'' & Hs & _).
    rewrite Hs.
    destruct (negb (rcs =? 0)).
    { eexists. eexists. split; [reflexivity|].
      split_and; auto; try discriminate.
      intros _. split_and; auto. left. exists src'.
      split; [reflexivity | exact Hd]. }
    destruct (rename_fails env).
    { eexists. eexists. split; [reflexivity|].
      split_and; auto; try discriminate.
      intros _. split_and; auto. unfold reopen.
      destruct (reopen_fails env) eqn:Hre; [right; auto|].
      left. eexists. split; [reflexivity | exact Hd]. }
    unfold reopen. destruct (reopen_fails env) eqn:Hre.
    { eexists. eexists. split; [reflexivity|].
      split_and; auto; try discriminate. }
    destruct (runs_reparse
                (set_fh ctx (Some (file_open_common (fd_data tmp'')
                                     (reopen_faults env) (ctx_writable ctx)))))
      as ([] & ctx' & Hr & Hp & Hw & Hfh).
    cbn [ctx_fh set_fh ctx_path ctx_writable] in Hp, Hw, Hfh.
    unfold bind. rewrite Hr. exists MP4TAG_OK, ctx'.
    split; [reflexivity|]. split; [congruence|]. split; [exact Hw|].
    split; [|intros H; contradiction].
    intros _. destruct Hfh as (fh' & Hfh' & _). eauto.
  - exists rc. eexists. split; [reflexivity|].
    split_and; auto.
    + intros _. exists src'. reflexivity.
    + intros _. split_and; auto. left. exists src'.
      split; [reflexivity | exact Hd].
Qed.

Lemma rewrite_keeps_original_witness :
  exists rc ctx' fh',
    rewrite_file (mk_env false false [] true false [])
      (snd (mp4_tags_build_udta (title_only long_title) [])) tight_ctx
    = Some (rc, ctx') /\
    rc = MP4TAG_ERR_RENAME_FAILED /\
    ctx_fh ctx' = Some fh' /\
    Some (fd_data fh') = option_map fd_data (ctx_fh tight_ctx).
Proof.
  destruct (ctx_fh tight_ctx) as [src|] eqn:Hsrc;
    [|vm_compute in Hsrc; discriminate Hsrc].
  destruct (@rewrite_keeps_original (mk_env false false [] true false [])
              (snd (mp4_tags_build_udta (title_only long_title) []))
              tight_ctx src Hsrc)
    as (rc & ctx' & Heq & _ & _ & _ & Hfail).
  assert (Hrc : rc = MP4TAG_ERR_RENAME_FAILED).
  { vm_compute in Heq. injection Heq as <- _. reflexivity. }
  destruct Hfail as (_ & _ & [(fh' & Hfh & Hd) | (_ & Hre)]);
    [rewrite Hrc; discriminate | | discriminate Hre].
  exists rc, ctx', fh'. split; [exact Heq|]. split; [exact Hrc|].
  split; [exact Hfh|]. cbn [option_map]. now rewrite Hd.
Defined.

(** ** The udta box built for the rewrite *)

(** [mp4_tags_build_udta] always succeeds and appends one [udta] box
    that holds one [meta] box, made of four zero bytes (version and
    flags), the [hdlr] box of the 'mdir' handler and the [ilst] box
    around the serialized items; as long as the whole stays below
    2^32 bytes, every size field is the length of its box. *)
Theorem build_udta_layout (coll : mp4tag_collection_t) (buf : list byte) :
  let content := snd (mp4_tags_serialize_ilst coll []) in
  len content < 4294967296 - 61 ->
  mp4_tags_build_udta coll buf
  = (MP4TAG_OK,
     buf ++ box_bytes MP4_BOX_UDTA
              (box_bytes MP4_BOX_META
                 (be32_bytes 0 ++ box_bytes MP4_BOX_HDLR hdlr_data
                  ++ box_bytes MP4_BOX_ILST content))) /\
  len (snd (mp4_tags_build_udta coll buf)) = len buf + 61 + len content.
Proof.
  intros content Hlen.
  pose proof (len_nonneg content) as Hc.
  assert (E : mp4_tags_build_udta coll buf
              = (MP4TAG_OK,
                 buf ++ box_bytes MP4_BOX_UDTA
                   (box_bytes MP4_BOX_META
                      (be32_bytes 0 ++ box_bytes MP4_BOX_HDLR hdlr_data
                       ++ box_bytes MP4_BOX_ILST content)))).
  { unfold mp4_tags_build_udta.
    assert (Es : mp4_tags_serialize_ilst coll [] = (MP4TAG_OK, content))
      by reflexivity.
    rewrite Es. cbn [negb Z.eqb MP4TAG_OK].
    change (negb (0 =? 0)) with false. cbv beta iota zeta.
    change (len hdlr_data) with 25.
    assert (U1 : u32 (len content) = len content)
      by (apply Z.mod_small; lia).
    rewrite U1.
    assert (U2 : u32 (8 + len content) = 8 + len content)
      by (apply Z.mod_small; lia).
    rewrite U2. change (u32 25) with 25. change (u32 (8 + 25)) with 33.
    assert (U3 : u32 (4 + 33 + (8 + len content)) = 45 + len content)
      by (unfold u32; rewrite Z.mod_small; lia).
    rewrite U3.
    assert (U4 : u32 (8 + (45 + len content)) = 53 + len content)
      by (unfold u32; rewrite Z.mod_small; lia).
    rewrite U4.
    assert (U5 : u32 (8 + (53 + len content)) = 61 + len content)
      by (unfold u32; rewrite Z.mod_small; lia).
    rewrite U5.
    unfold box_bytes, mp4_write_box_header, buffer_append_be32,
      buffer_append.
    rewrite !len_app, !len_be32_bytes. change (len hdlr_data) with 25.
    replace (8 + (4 + (4 + (4 + (4 + (4 + 25) + (4 + (4 + len content)))))))
      with (61 + len content) by lia.
    replace (8 + (4 + (4 + (4 + 25) + (4 + (4 + len content)))))
      with (53 + len content) by lia.
    change (8 + 25) with 33.
    f_equal. cbn [app]. now rewrite <- !app_assoc. }
  split; [exact E|]. rewrite E. cbn [snd].
  unfold box_bytes. rewrite !len_app, !len_be32_bytes.
  change (len hdlr_data) with 25. lia.
Qed.

Lemma build_udta_layout_witness :
  len (snd (mp4_tags_build_udta (title_only long_title) [x00])) =
  1 + 61 + len (snd (mp4_tags_serialize_ilst (title_only long_title) [])).
Proof.
  exact (proj2 (@build_udta_layout (title_only long_title) [x00]
                  ltac:(vm_compute; reflexivity))).
Defined.

(** ** Setting and removing one tag *)

Lemma runs_write_tags env tags ctx :
  runs (mp4tag_write_tags env tags) ctx (fun rc _ =>
    rc <> MP4TAG_ERR_NO_SPACE).
Proof.
  set (content := snd (mp4_tags_serialize_ilst tags [])).
  set (udta := snd (mp4_tags_build_udta tags [])).
  assert (Hs : mp4_tags_serialize_ilst tags [] = (MP4TAG_OK, content))
    by reflexivity.
  assert (Hu : mp4_tags_build_udta tags [] = (MP4TAG_OK, udta))
    by reflexivity.
  unfold mp4tag_write_tags. rewrite Hs, Hu.
  apply runs_bind, runs_get.
  destruct (ctx_fh ctx) as [fh|]; [|apply runs_ret; discriminate].
  destruct (ctx_writable ctx); cbn [negb]; [|apply runs_ret; discriminate].
  apply runs_bind. unfold invalidate_cache.
  apply runs_bind, runs_get. apply runs_put.
  change (negb (MP4TAG_OK =? MP4TAG_OK)) with false. cbv iota.
  destruct (has_ilst (ctx_info ctx)).
  - apply runs_bind. eapply runs_weaken; [apply runs_try_inplace|].
    intros rc1 ctx1 _. destruct (rc1 =? MP4TAG_OK).
    + apply runs_ret. discriminate.
    + apply runs_rewrite_file.
  - apply runs_rewrite_file.
Qed.

(** The tags copied by the two nested loops of
    [mp4tag_set_tag_string]. *)
Lemma set_tag_work_tags (existing : option mp4tag_collection_t)
      (name : list byte) (value : option (list byte)) :
  all_simple_tags (set_tag_work existing name value)
  = map clone_simple_tag
      (filter (fun st => negb (replaced name st))
         (match existing with
          | Some coll => all_simple_tags coll
          | None => []
          end))
    ++ match value with
       | Some v => [mk_simple_tag (Some name) (Some v) None None 0 []]
       | None => []
       end.
Proof.
  unfold set_tag_work, all_simple_tags. cbn [tags flat_map simple_tags
    set_simple_tags]. rewrite app_nil_r.
  assert (Hin : forall sts acc,
            fold_left (fun sts st => if replaced name st then sts
                                     else sts ++ [clone_simple_tag st])
                      sts acc
            = acc ++ map clone_simple_tag
                       (filter (fun st => negb (replaced name st)) sts)).
  { induction sts as [|st sts IH]; intros acc; cbn [fold_left filter map].
    - now rewrite app_nil_r.
    - rewrite IH. destruct (replaced name st); cbn [negb map].
      + reflexivity.
      + now rewrite <- app_assoc. }
  assert (Hout : forall ts acc,
            fold_left (fun sts tag =>
                         fold_left (fun sts st =>
                                      if replaced name st then sts
                                      else sts ++ [clone_simple_tag st])
                                   (simple_tags tag) sts) ts acc
            = acc ++ map clone_simple_tag
                       (filter (fun st => negb (replaced name st))
                          (flat_map simple_tags ts))).
  { induction ts as [|t ts IH]; intros acc; cbn [fold_left flat_map].
    - cbn. now rewrite app_nil_r.
    - rewrite IH, Hin, filter_app, map_app. now rewrite <- app_assoc. }
  destruct existing as [coll|].
  - rewrite Hout. cbn [app]. destruct value; [reflexivity|].
    now rewrite app_nil_r.
  - cbn [filter map app]. destruct value; reflexivity.
Qed.

Lemma str_casecmp_loop_refl (a : list byte) : str_casecmp_loop a a = 0.
Proof.
  induction a as [|c a IH]; [reflexivity|]. cbn.
  now rewrite Z.eqb_refl.
Qed.

Lemma find_filter_keep {A} (f p : A -> bool) (l : list A) :
  (forall x, In x l -> f x = true -> p x = true) ->
  find f (filter p l) = find f l.
Proof.
  induction l as [|x l IH]; intros H; [reflexivity|]. cbn [filter find].
  assert (IH' : find f (filter p l) = find f l)
    by (apply IH; intros y Hy; apply H; right; exact Hy).
  destruct (f x) eqn:Fx.
  - rewrite (H x (or_introl eq_refl) Fx). cbn [find]. now rewrite Fx.
  - destruct (p x); [cbn [find]; rewrite Fx|]; exact IH'.
Qed.

Lemma find_map_same {A} (f : A -> bool) (g : A -> A) (l : list A) :
  (forall x, f (g x) = f x) ->
  find f (map g l) = option_map g (find f l).
Proof.
  intros H. induction l as [|x l IH]; [reflexivity|]. cbn [map find].
  rewrite H. destruct (f x); [reflexivity | exact IH].
Qed.

Lemma find_app_none {A} (f : A -> bool) (l1 l2 : list A) :
  find f (l1 ++ l2)
  = match find f l1 with Some x => Some x | None => find f l2 end.
Proof.
  induction l1 as [|x l1 IH]; [reflexivity|]. cbn [app find].
  destruct (f x); [reflexivity | exact IH].
Qed.

Lemma tag_matches_clone (name : option (list byte))
      (st : mp4tag_simple_tag_t) :
  tag_matches name (clone_simple_tag st) = tag_matches name st.
Proof. reflexivity. Qed.

(** [mp4tag_set_tag_string] replaces the tags of one name and keeps
    the others.  In the collection it builds from the tags read
    before, looking up the name gives the new value (nothing, when the
    tag is removed), and looking up any name that differs from it
    other than by case gives what it gave before.  The collection is
    one ALBUM tag, and the simple tags copied into it have lost their
    nested tags. *)
Theorem set_tag_replaces_one (coll : mp4tag_collection_t)
    (name : list byte) (value : option (list byte)) :
  c_string name -> named_by_strings coll ->
  let work := set_tag_work (Some coll) name value in
  count work = 1 /\
  map target_type (tags work) = [MP4TAG_TARGET_ALBUM] /\
  lookup work name = value /\
  (forall other, c_string other -> fold_case other <> fold_case name ->
                 lookup work other = lookup coll other) /\
  (forall st, In st (all_simple_tags work) -> st_nested st = []).
Proof.
  intros Hname Hcoll work.
  split; [reflexivity|]. split; [reflexivity|].
  pose proof (set_tag_work_tags (Some coll) name value) as Hall.
  fold work in Hall.
  split; [|split].
  - unfold lookup. rewrite Hall, find_app_none.
    rewrite find_map_same by (intros x; apply tag_matches_clone).
    rewrite (@find_none_all _ (tag_matches (Some name))
               (filter (fun st => negb (replaced name st))
                       (all_simple_tags coll))).
    + cbn [option_map]. destruct value as [v|]; [|reflexivity].
      cbn [find]. unfold tag_matches. cbn [st_name st_value str_casecmp].
      now rewrite str_casecmp_loop_refl.
    + intros st Hin. apply filter_In in Hin as (_ & Hrep).
      unfold replaced in Hrep. unfold tag_matches.
      destruct (st_name st); [|reflexivity].
      destruct (st_value st); [|reflexivity].
      now apply negb_true_iff in Hrep.
  - intros other Hother Hdiff. unfold lookup. rewrite Hall, find_app_none.
    rewrite find_map_same by (intros x; apply tag_matches_clone).
    rewrite find_filter_keep.
    + destruct (find (tag_matches (Some other)) (all_simple_tags coll))
        as [st|]; [reflexivity|].
      cbn [option_map]. destruct value as [v|]; [|reflexivity].
      cbn [find]. unfold tag_matches. cbn [st_name st_value str_casecmp].
      destruct (str_casecmp_loop name other =? 0) eqn:E; [|reflexivity].
      exfalso. apply Hdiff. symmetry. apply Z.eqb_eq in E.
      apply (str_casecmp_loop_zero Hname Hother). exact E.
    + intros st Hin Hm. apply negb_true_iff. unfold replaced.
      unfold tag_matches in Hm.
      destruct (st_name st) as [n|] eqn:Hn; [|reflexivity].
      destruct (st_value st); [|discriminate Hm].
      cbn [str_casecmp] in *. apply Z.eqb_eq in Hm. apply Z.eqb_neq.
      intros Hr. apply Hdiff.
      pose proof (Hcoll st n Hin Hn) as Hcn.
      apply (str_casecmp_loop_zero Hcn Hother) in Hm.
      apply (str_casecmp_loop_zero Hcn Hname) in Hr. congruence.
  - intros st Hin. rewrite Hall in Hin. apply in_app_or in Hin as [Hin|Hin].
    + apply in_map_iff in Hin as (x & <- & _). reflexivity.
    + destruct value; [|contradiction]. destruct Hin as [<- | []].
      reflexivity.
Qed.

Lemma set_tag_replaces_one_witness :
  lookup (set_tag_work
            (Some (album_of [text_tag (cs "TITLE") (cs "Old");
                             text_tag (cs "ARTIST") (cs "Somebody");
                             text_tag (cs "Title") (cs "Older")]))
            (cs "title") (Some (cs "New")))
         (cs "title") = Some (cs "New") /\
  lookup (set_tag_work
            (Some (album_of [text_tag (cs "TITLE") (cs "Old");
                             text_tag (cs "ARTIST") (cs "Somebody");
                             text_tag (cs "Title") (cs "Older")]))
            (cs "title") (Some (cs "New")))
         (cs "artist") = Some (cs "Somebody").
Proof.
  destruct (@set_tag_replaces_one
              (album_of [text_tag (cs "TITLE") (cs "Old");
                         text_tag (cs "ARTIST") (cs "Somebody");
                         text_tag (cs "Title") (cs "Older")])
              (cs "title") (Some (cs "New")))
    as (_ & _ & Hnew & Hother & _).
  - vm_compute. intuition discriminate.
  - intros st n [<- | [<- | [<- | []]]] E; injection E as <-;
      vm_compute; intuition discriminate.
  - split.
    + exact Hnew.
    + rewrite Hother; [reflexivity | vm_compute; intuition discriminate
                       | vm_compute; discriminate].
Defined.

(** [mp4tag_set_tag_string] returns for every context and every
    behaviour of the operating system, and never with
    [MP4TAG_ERR_NO_SPACE].  On a context that is closed or read-only
    it answers [MP4TAG_ERR_NOT_OPEN] or [MP4TAG_ERR_READ_ONLY] and
    leaves the context as it is.  On a writable context that holds
    its tags in the cache it is [mp4tag_write_tags] on the collection
    built from them.  [mp4tag_remove_tag] is [mp4tag_set_tag_string]
    with a NULL value. *)
Theorem set_tag_string_runs (env : os_env) (name : list byte)
    (value : option (list byte)) (ctx : mp4tag_context_t) :
  exists rc ctx',
    mp4tag_set_tag_string env (Some name) value ctx = Some (rc, ctx') /\
    rc <> MP4TAG_ERR_NO_SPACE /\
    (ctx_fh ctx = None -> rc = MP4TAG_ERR_NOT_OPEN /\ ctx' = ctx) /\
    (ctx_fh ctx <> None -> ctx_writable ctx = false ->
     rc = MP4TAG_ERR_READ_ONLY /\ ctx' = ctx) /\
    (forall coll, ctx_fh ctx <> None -> ctx_writable ctx = true ->
       cached_tags ctx = Some coll ->
       mp4tag_write_tags env (set_tag_work (Some coll) name value) ctx
       = Some (rc, ctx')) /\
    mp4tag_remove_tag env (Some name) ctx
    = mp4tag_set_tag_string env (Some name) None ctx.
Proof.
  unfold mp4tag_set_tag_string. unfold bind at 1, get.
  destruct (ctx_fh ctx) as [fh|] eqn:Hfh.
  2:{ exists MP4TAG_ERR_NOT_OPEN, ctx.
      split_and; auto; try discriminate; intros; congruence. }
  destruct (ctx_writable ctx) eqn:Hw; cbn [negb].
  2:{ exists MP4TAG_ERR_READ_ONLY, ctx.
      split_and; auto; try discriminate; intros; congruence. }
  destruct (read_tags_collection ctx) as ([rc0 existing] & ctx1 & Hr & _).
  destruct (runs_write_tags env (set_tag_work existing name value) ctx1)
    as (rc & ctx' & Hwr & Hne).
  exists rc, ctx'. unfold bind. rewrite Hr.
  split; [exact Hwr|]. split; [exact Hne|].
  split; [discriminate|]. split; [discriminate|].
  split; [|reflexivity].
  intros coll _ _ Hc.
  assert (E : mp4tag_read_tags ctx = Some ((MP4TAG_OK, Some coll), ctx)).
  { unfold mp4tag_read_tags, bind, get. now rewrite Hfh, Hc. }
  rewrite Hr in E. injection E as _ <- <-. exact Hwr.
Qed.

Lemma set_tag_string_runs_witness :
  exists rc ctx',
    mp4tag_set_tag_string quiet_env (Some (cs "TITLE")) (Some (cs "New"))
      (set_cached tight_ctx (Some (album_of [text_tag (cs "TITLE") (cs "Old")])))
    = Some (rc, ctx') /\
    mp4tag_write_tags quiet_env
      (set_tag_work (Some (album_of [text_tag (cs "TITLE") (cs "Old")]))
                    (cs "TITLE") (Some (cs "New")))
      (set_cached tight_ctx (Some (album_of [text_tag (cs "TITLE") (cs "Old")])))
    = Some (rc, ctx').
Proof.
  destruct (@set_tag_string_runs quiet_env (cs "TITLE") (Some (cs "New"))
              (set_cached tight_ctx
                 (Some (album_of [text_tag (cs "TITLE") (cs "Old")]))))
    as (rc & ctx' & Heq & _ & _ & _ & Hw & _).
  exists rc, ctx'. split; [exact Heq|].
  apply Hw; [vm_compute; discriminate | reflexivity | reflexivity].
Defined.

(** ** A whole ilst read back *)

Lemma same_file_refl fh : coherent fh -> same_file fh fh.
Proof. intros H. split; [exact H | split; reflexivity]. Qed.

Lemma same_file_trans fh1 fh2 fh3 :
  same_file fh1 fh2 -> same_file fh2 fh3 -> same_file fh1 fh3.
Proof.
  intros (_ & a & b) (c & d & e). split; [exact c | split; congruence].
Qed.

(** Parsing the item at [len pre], from any handle on the file. *)
Lemma parse_item_full (pre rest content : list byte) (f dt : Z)
      (fh : file_handle) :
  0 <= f < 4294967296 -> 0 <= dt < 4294967296 ->
  24 + len content < 4294967296 ->
  coherent fh -> 0 <= file_size fh ->
  fd_data fh = pre ++ item_bytes f dt content ++ rest ->
  exists fh1 fh',
    mp4_read_box_header (set_pos fh (len pre))
    = Some ((MP4TAG_OK,
             mk_box f (len pre) (24 + len content) (len pre + 8)
                    (24 + len content - 8) 8), fh1) /\
    parse_ilst_item (mk_box f (len pre) (24 + len content) (len pre + 8)
                            (24 + len content - 8) 8) fh1
    = Some ((MP4TAG_OK, Some (decoded_tag f dt content)), fh') /\
    same_file fh fh'.
Proof.
  intros Hf Hdt Hlen Hco Hfs Hdata.
  destruct (@parse_item_reaches_data pre rest content f dt fh
              Hf Hlen Hco Hfs Hdata)
    as (fh2 & Hco2 & Hd2 & Hp2 & Hs2 & Heq).
  assert (Hdata2 : fd_data fh2 = pre ++ item_bytes f dt content ++ rest)
    by congruence.
  destruct (@parse_data_box_decodes pre rest content f dt fh2 Hdt Hco2
              Hdata2 Hp2) as (fh' & Heq' & Hsame).
  assert (Hitem : parse_item_at (len pre) fh
                  = Some ((MP4TAG_OK, Some (decoded_tag f dt content)), fh')).
  { rewrite Heq. unfold bind. rewrite Heq'. reflexivity. }
  (* the header of the item, once more *)
  set (d := be32_bytes dt ++ be32_bytes 0 ++ content).
  assert (D1 : fd_data fh
               = pre ++ (be32_bytes (24 + len content) ++ be32_bytes f)
                 ++ (box_bytes MP4_BOX_DATA d ++ rest)).
  { rewrite Hdata. unfold item_bytes, box_bytes at 1. fold d.
    replace (len (box_bytes MP4_BOX_DATA d)) with (16 + len content)
      by (unfold box_bytes; subst d;
          rewrite !len_app, !len_be32_bytes; lia).
    replace (8 + (16 + len content)) with (24 + len content) by lia.
    now rewrite <- !app_assoc. }
  pose proof (len_nonneg content).
  destruct (@read_standard_header pre (box_bytes MP4_BOX_DATA d ++ rest)
              f (24 + len content) (set_pos fh (len pre)))
    as (fh1 & Heq1 & _);
    [exact Hf | lia | exact Hco | exact Hfs | exact D1 | reflexivity |].
  exists fh1, fh'. split; [exact Heq1|]. split.
  - revert Hitem. unfold parse_item_at.
    unfold bind at 1. unfold file_seek at 1, bind, get, put, ret.
    rewrite Heq1. cbn [negb Z.eqb MP4TAG_OK]. trivial.
  - apply same_file_trans with fh2; [|exact Hsame].
    split; [exact Hco2 | split; assumption].
Qed.

Lemma len_item_of (it : Z * Z * list byte) :
  len (item_of it) = 24 + len (snd it).
Proof.
  unfold item_of, item_bytes, box_bytes.
  rewrite !len_app, !len_be32_bytes. lia.
Qed.

(** The loop of [mp4_tags_parse_ilst] over well-formed items. *)
Lemma parse_ilst_loop_decodes (rest : list byte) :
  forall (todo : list (Z * Z * list byte)) (done : list byte)
         (sts : list mp4tag_simple_tag_t) (fuel : nat) (fh : file_handle),
    Forall item_fits todo ->
    coherent fh -> 0 <= file_size fh ->
    fd_data fh = done ++ concat (map item_of todo) ++ rest ->
    (length todo < fuel)%nat ->
    exists fh',
      while_loop fuel
        (parse_ilst_body (len done + len (concat (map item_of todo))))
        (len done, sts) fh
      = Some (sts ++ map decoded_item todo, fh') /\
      same_file fh fh'.
Proof.
  induction todo as [|[[f dt] content] todo IH];
    intros done sts fuel fh Hfit Hco Hfs Hdata Hfuel.
  - destruct fuel as [|fuel]; [cbn in Hfuel; lia|].
    exists fh. split; [|apply same_file_refl; exact Hco].
    cbn [while_loop map concat]. unfold parse_ilst_body, bind.
    change (len []) with 0.
    replace (len done + 8 <=? len done + 0) with false by lia.
    cbn. now rewrite app_nil_r.
  - destruct fuel as [|fuel]; [cbn in Hfuel; lia|].
    cbn [length] in Hfuel.
    apply Forall_cons_iff in Hfit as ((Hf & Hdt & Hlen) & Hfit).
    cbn [fst snd] in Hf, Hdt, Hlen.
    cbn [map concat] in Hdata |- *.
    change (item_of (f, dt, content)) with (item_bytes f dt content)
      in Hdata |- *.
    rewrite <- app_assoc in Hdata.
    destruct (@parse_item_full done (concat (map item_of todo) ++ rest)
                content f dt fh Hf Hdt Hlen Hco Hfs Hdata)
      as (fh1 & fh2 & Heq1 & Heq2 & Hsame).
    destruct Hsame as (Hco2 & Hd2 & Hs2).
    assert (Litem : len (item_bytes f dt content) = 24 + len content)
      by apply (len_item_of (f, dt, content)).
    destruct (IH (done ++ item_bytes f dt content)
                (sts ++ [decoded_item (f, dt, content)]) fuel fh2 Hfit Hco2)
      as (fh' & Hloop & Hsame');
      [unfold file_size in *; lia
      | rewrite Hd2, Hdata; now rewrite <- app_assoc
      | lia |].
    exists fh'. split.
    + cbn [while_loop]. unfold bind at 1. unfold parse_ilst_body at 1.
      pose proof (len_nonneg content).
      pose proof (len_nonneg (concat (map item_of todo))).
      rewrite len_app, Litem.
      replace (len done + 8 <=?
               len done + (24 + len content
                           + len (concat (map item_of todo))))
        with true by lia.
      unfold bind at 1. unfold file_seek at 1, bind, get, put, ret.
      change (negb (0 =? 0)) with false. cbv beta iota.
      rewrite Heq1. cbn [negb Z.eqb MP4TAG_OK box_size box_offset].
      replace (24 + len content <? 8) with false by lia.
      rewrite Heq2. cbn [Z.eqb MP4TAG_OK].
      rewrite len_app, Litem in Hloop.
      replace (len done + (24 + len content)
               + len (concat (map item_of todo)))
        with (len done + (24 + len content
                          + len (concat (map item_of todo)))) in Hloop by lia.
      rewrite <- app_assoc in Hloop. exact Hloop.
    + apply same_file_trans with fh2; [|exact Hsame'].
      split; [exact Hco2 | split; assumption].
Qed.

Lemma items_count (items : list (Z * Z * list byte)) :
  24 * Z.of_nat (length items) <= len (concat (map item_of items)).
Proof.
  induction items as [|it items IH]; [cbn; lia|].
  cbn [map concat length]. rewrite len_app, len_item_of.
  pose proof (len_nonneg (snd it)). lia.
Qed.

(** [mp4_tags_parse_ilst] on an ilst box of well-formed items. *)
Lemma parse_ilst_items (pre rest : list byte)
      (items : list (Z * Z * list byte)) :
  Forall item_fits items ->
  exists fh',
    mp4_tags_parse_ilst
      (ilst_at (len pre) (8 + len (concat (map item_of items))))
      (open_file (pre ++ box_bytes MP4_BOX_ILST (concat (map item_of items))
                  ++ rest) false)
    = Some ((MP4TAG_OK, Some (album_of (map decoded_item items))), fh') /\
    fd_data fh'
    = pre ++ box_bytes MP4_BOX_ILST (concat (map item_of items)) ++ rest.
Proof.
  intros Hfit.
  set (body := concat (map item_of items)).
  set (data := pre ++ box_bytes MP4_BOX_ILST body ++ rest).
  set (done := pre ++ be32_bytes (8 + len body) ++ be32_bytes MP4_BOX_ILST).
  assert (Ldone : len done = len pre + 8)
    by (subst done; rewrite !len_app, !len_be32_bytes; lia).
  assert (Hdata : data = done ++ body ++ rest).
  { subst data done. unfold box_bytes. now rewrite <- !app_assoc. }
  pose proof (items_count items) as Hcount. fold body in Hcount.
  pose proof (len_nonneg pre). pose proof (len_nonneg rest).
  destruct (@parse_ilst_loop_decodes rest items done []
              (walk_fuel (open_file data false)) (open_file data false)
              Hfit (coherent_open _ _) (len_nonneg _) Hdata)
    as (fh' & Hloop & (_ & Hd & _)).
  { unfold walk_fuel, reach, buf_len. cbn [fd_data open_file file_open_common
      buf buf_start]. rewrite Hdata, !len_app, Ldone. fold body.
    change (len []) with 0. lia. }
  exists fh'. split; [|exact Hd].
  unfold mp4_tags_parse_ilst, ilst_at. cbn [has_ilst set_ilst negb
    ilst_offset ilst_size].
  unfold bind at 1, get. unfold bind.
  fold body in Hloop. rewrite Ldone in Hloop.
  replace (len pre + 8 + len body) with (len pre + (8 + len body))
    in Hloop by lia.
  rewrite Hloop. reflexivity.
Qed.

(** [mp4_tags_parse_ilst] decodes a well-formed ilst item by item: on
    a file that holds, anywhere, an ilst box made of items that each
    consist of one ['data'] box, it returns [MP4TAG_OK] and one ALBUM
    tag whose simple tags are the decoded items, as many and in the
    same order.  The file is not modified. *)
Theorem parse_ilst_decodes_items (pre rest : list byte)
    (items : list (Z * Z * list byte)) :
  Forall item_fits items ->
  exists fh',
    mp4_tags_parse_ilst
      (ilst_at (len pre) (8 + len (concat (map item_of items))))
      (open_file (pre ++ box_bytes MP4_BOX_ILST (concat (map item_of items))
                  ++ rest) false)
    = Some ((MP4TAG_OK, Some (album_of (map decoded_item items))), fh') /\
    fd_data fh'
    = pre ++ box_bytes MP4_BOX_ILST (concat (map item_of items)) ++ rest.
Proof. apply parse_ilst_items. Qed.

Lemma parse_ilst_decodes_items_witness :
  exists fh',
    mp4_tags_parse_ilst (ilst_at 1 (8 + 79))
      (open_file ([xff]
                  ++ box_bytes MP4_BOX_ILST
                       (concat (map item_of
                          [(MP4_TAG_NAM, MP4_DATA_UTF8, cs "Song");
                           (MP4_TAG_TMPO, MP4_DATA_INTEGER, [x00; x78]);
                           (MP4_TAG_CPIL, MP4_DATA_INTEGER, [x01])]))
                  ++ [xff]) false)
    = Some ((MP4TAG_OK,
             Some (album_of
                     [mk_simple_tag (Some (cs "TITLE")) (Some (cs "Song"))
                        None None 1 [];
                      mk_simple_tag (Some (cs "BPM")) (Some (cs "120"))
                        None None 1 [];
                      mk_simple_tag (Some (cs "COMPILATION")) (Some (cs "1"))
                        None None 1 []])), fh').
Proof.
  destruct (@parse_ilst_decodes_items [xff] [xff]
              [(MP4_TAG_NAM, MP4_DATA_UTF8, cs "Song");
               (MP4_TAG_TMPO, MP4_DATA_INTEGER, [x00; x78]);
               (MP4_TAG_CPIL, MP4_DATA_INTEGER, [x01])])
    as (fh' & H & _).
  - repeat constructor; vm_compute; intuition discriminate.
  - exists fh'. exact H.
Defined.

Lemma serialized_text_item (nv : list byte * list byte) :
  stored_as_text (fst nv) -> 24 + len (snd nv) < 4294967296 ->
  serialized_item (text_tag (fst nv) (snd nv))
  = item_of (mp4_tag_name_to_fourcc (Some (fst nv)), MP4_DATA_UTF8, snd nv).
Proof.
  intros (Hf0 & Hint & Hcovr & Hgnre) Hlen.
  unfold serialized_item, text_tag. cbn [st_name].
  rewrite (@serialize_text_item (fst nv) (Some (snd nv)) Hf0 Hint Hcovr Hgnre).
  rewrite emitted_item_short by lia. reflexivity.
Qed.

Lemma decoded_text_item (nv : list byte * list byte) :
  stored_as_text (fst nv) -> c_string (snd nv) -> 0 < len (snd nv) ->
  decoded_item (mp4_tag_name_to_fourcc (Some (fst nv)), MP4_DATA_UTF8, snd nv)
  = read_back nv.
Proof.
  intros (Hf0 & Hint & Hcovr & Hgnre) Hc Hpos.
  unfold decoded_item, decoded_tag, read_back. cbn [fst snd].
  fold (item_name (mp4_tag_name_to_fourcc (Some (fst nv)))).
  rewrite Hint. cbn [andb].
  change ((MP4_DATA_UTF8 =? MP4_DATA_UTF8)
          || (MP4_DATA_UTF8 =? MP4_DATA_IMPLICIT)) with true.
  cbv beta iota. replace (0 <? len (snd nv)) with true by lia.
  unfold set_value, set_is_default. cbn. now rewrite c_str_id.
Qed.

(** What is written is what is read: for any list of text tags (names
    stored as text, non-empty values), the ilst that
    [mp4_tags_serialize_ilst] produces, put in an ilst box anywhere in
    a file, is parsed by [mp4_tags_parse_ilst] into one ALBUM tag that
    holds the same tags, in the same order, under the names of their
    FourCCs and with the same values. *)
Theorem ilst_round_trip (pre rest : list byte)
    (nvs : list (list byte * list byte)) :
  Forall (fun nv => stored_as_text (fst nv) /\ c_string (snd nv) /\
                    0 < len (snd nv) /\ 24 + len (snd nv) < 4294967296)
         nvs ->
  let coll := album_of (map (fun nv => text_tag (fst nv) (snd nv)) nvs) in
  let body := snd (mp4_tags_serialize_ilst coll []) in
  exists fh',
    mp4_tags_parse_ilst (ilst_at (len pre) (8 + len body))
      (open_file (pre ++ box_bytes MP4_BOX_ILST body ++ rest) false)
    = Some ((MP4TAG_OK, Some (album_of (map read_back nvs))), fh').
Proof.
  intros Hall coll body.
  set (items := map (fun nv => (mp4_tag_name_to_fourcc (Some (fst nv)),
                                MP4_DATA_UTF8, snd nv)) nvs).
  assert (Hbody : body = concat (map item_of items)).
  { subst body coll items. unfold mp4_tags_serialize_ilst, album_of.
    cbn [snd tags fold_left simple_tags]. rewrite serialize_simple_tags.
    cbn [app]. f_equal. rewrite !map_map.
    apply map_ext_in. intros nv Hin.
    rewrite Forall_forall in Hall. destruct (Hall nv Hin) as (Hk & _ & _ & Hl).
    apply serialized_text_item; assumption. }
  assert (Hdec : map decoded_item items = map read_back nvs).
  { subst items. rewrite map_map. apply map_ext_in. intros nv Hin.
    rewrite Forall_forall in Hall. destruct (Hall nv Hin) as (Hk & Hc & Hp & _).
    apply decoded_text_item; assumption. }
  assert (Hfit : Forall item_fits items).
  { subst items. apply Forall_forall. intros it Hin.
    apply in_map_iff in Hin as (nv & <- & Hin).
    rewrite Forall_forall in Hall. destruct (Hall nv Hin) as (_ & _ & _ & Hl).
    split; [apply name_to_fourcc_range|].
    split; [vm_compute; intuition discriminate | exact Hl]. }
  destruct (@parse_ilst_items pre rest items Hfit) as (fh' & Heq & _).
  exists fh'. rewrite Hbody, <- Hdec. exact Heq.
Qed.

Lemma ilst_round_trip_witness :
  exists fh',
    mp4_tags_parse_ilst
      (ilst_at 0 (8 + len (snd (mp4_tags_serialize_ilst
                                  (album_of [text_tag (cs "title") (cs "Song");
                                             text_tag (cs "ARTIST") (cs "Me")])
                                  []))))
      (open_file ([] ++ box_bytes MP4_BOX_ILST
                          (snd (mp4_tags_serialize_ilst
                                  (album_of [text_tag (cs "title") (cs "Song");
                                             text_tag (cs "ARTIST") (cs "Me")])
                                  []))
                  ++ []) false)
    = Some ((MP4TAG_OK,
             Some (album_of [read_back (cs "title", cs "Song");
                             read_back (cs "ARTIST", cs "Me")])), fh').
Proof.
  apply (@ilst_round_trip [] [] [(cs "title", cs "Song");
                                  (cs "ARTIST", cs "Me")]).
  repeat constructor; cbn [fst snd]; vm_compute; intuition discriminate.
Defined.

(** ** Finding a child box *)

Lemma len_box_of (b : Z * list byte) : len (box_of b) = 8 + len (snd b).
Proof.
  unfold box_of, box_bytes. rewrite !len_app, !len_be32_bytes. lia.
Qed.

Lemma len_boxes_nonneg (bs : list (Z * list byte)) : 0 <= len (boxes bs).
Proof. apply len_nonneg. Qed.

Lemma boxes_cons (b : Z * list byte) (bs : list (Z * list byte)) :
  boxes (b :: bs) = box_of b ++ boxes bs.
Proof. reflexivity. Qed.

Lemma boxes_app (bs1 bs2 : list (Z * list byte)) :
  boxes (bs1 ++ bs2) = boxes bs1 ++ boxes bs2.
Proof. unfold boxes. now rewrite map_app, concat_app. Qed.

(** The header of the box [b] read at [len done]. *)
Lemma read_header_of (done rest : list byte) (b : Z * list byte)
      (fh : file_handle) :
  box_fits b -> coherent fh -> 0 <= file_size fh ->
  fd_data fh = done ++ box_of b ++ rest ->
  exists fh1,
    mp4_read_box_header (set_pos fh (len done))
    = Some ((MP4TAG_OK, header_at (len done) b), fh1) /\
    same_file fh fh1.
Proof.
  intros (Ht & Hs) Hco Hfs Hdata.
  pose proof (len_nonneg (snd b)).
  destruct (@read_standard_header done (snd b ++ rest) (fst b)
              (8 + len (snd b)) (set_pos fh (len done)))
    as (fh1 & Heq & Hco1 & Hd1 & Hs1 & _);
    [exact Ht | lia | exact Hco | exact Hfs | | reflexivity |].
  { cbn [fd_data set_pos]. rewrite Hdata. unfold box_of, box_bytes.
    now rewrite <- !app_assoc. }
  exists fh1. split; [exact Heq|].
  split; [exact Hco1 | split; assumption].
Qed.

(** [find_child_box] steps over the boxes that are not of the type it
    looks for. *)
Lemma find_loop_skip (target end_ : Z) (rest : list byte) :
  forall (todo : list (Z * list byte)) (done : list byte)
         (fh : file_handle),
    Forall box_fits todo -> without target todo ->
    coherent fh -> 0 <= file_size fh ->
    fd_data fh = done ++ boxes todo ++ rest ->
    len done + len (boxes todo) <= end_ ->
    exists fh',
      same_file fh fh' /\
      forall fuel,
        while_loop (length todo + fuel)
          (find_child_box_body end_ target) (len done) fh
        = while_loop fuel (find_child_box_body end_ target)
            (len done + len (boxes todo)) fh'.
Proof.
  induction todo as [|b todo IH]; intros done fh Hfit Hno Hco Hfs Hdata Hend.
  - exists fh. split; [apply same_file_refl; exact Hco|].
    intros fuel. cbn [length Nat.add]. change (len (boxes [])) with 0.
    now rewrite Z.add_0_r.
  - apply Forall_cons_iff in Hfit as (Hb & Hfit).
    apply Forall_cons_iff in Hno as (Hnb & Hno).
    rewrite boxes_cons in Hdata, Hend. rewrite <- app_assoc in Hdata.
    rewrite len_app, len_box_of in Hend.
    pose proof (len_nonneg (snd b)). pose proof (len_boxes_nonneg todo).
    destruct (@read_header_of done (boxes todo ++ rest) b fh Hb Hco Hfs Hdata)
      as (fh1 & Heq1 & Hco1 & Hd1 & Hs1).
    destruct (IH (done ++ box_of b) fh1 Hfit Hno Hco1) as (fh' & Hsame & Hk).
    + unfold file_size in *. lia.
    + rewrite Hd1, Hdata. now rewrite <- app_assoc.
    + rewrite len_app, len_box_of. lia.
    + exists fh'. split.
      * apply same_file_trans with fh1; [|exact Hsame].
        split; [exact Hco1 | split; assumption].
      * intros fuel. cbn [length Nat.add while_loop].
        unfold bind at 1. unfold find_child_box_body at 1.
        replace (len done + 8 <=? end_) with true by lia.
        unfold bind at 1. unfold file_seek at 1, bind, get, put, ret.
        change (negb (0 =? 0)) with false. cbv beta iota.
        rewrite Heq1. unfold header_at.
        cbn [negb Z.eqb MP4TAG_OK box_size box_type box_offset].
        replace (8 + len (snd b) <? 8) with false by lia.
        replace (fst b =? target) with false by lia.
        specialize (Hk fuel). rewrite len_app, len_box_of in Hk.
        rewrite Hk. rewrite boxes_cons, !len_app, len_box_of.
        f_equal. lia.
Qed.

(** The three ways the loop of [find_child_box] ends. *)
Lemma find_loop_hit (target end_ : Z) (done rest p : list byte)
      (fh : file_handle) (fuel : nat) :
  box_fits (target, p) -> coherent fh -> 0 <= file_size fh ->
  fd_data fh = done ++ box_bytes target p ++ rest ->
  len done + 8 <= end_ ->
  exists fh',
    while_loop (S fuel) (find_child_box_body end_ target) (len done) fh
    = Some ((MP4TAG_OK, header_at (len done) (target, p)), fh') /\
    same_file fh fh'.
Proof.
  intros Hb Hco Hfs Hdata Hend.
  destruct (@read_header_of done rest (target, p) fh Hb Hco Hfs Hdata)
    as (fh1 & Heq1 & Hsame).
  exists fh1. split; [|exact Hsame].
  cbn [while_loop]. unfold bind at 1. unfold find_child_box_body at 1.
  replace (len done + 8 <=? end_) with true by lia.
  unfold bind at 1. unfold file_seek at 1, bind, get, put, ret.
  change (negb (0 =? 0)) with false. cbv beta iota.
  rewrite Heq1. unfold header_at.
  cbn [negb Z.eqb MP4TAG_OK box_size box_type fst snd].
  pose proof (len_nonneg p).
  replace (8 + len p <? 8) with false by lia.
  now rewrite Z.eqb_refl.
Qed.

Lemma find_loop_end (target end_ pos : Z) (fh : file_handle) (fuel : nat) :
  end_ < pos + 8 ->
  while_loop (S fuel) (find_child_box_body end_ target) pos fh
  = Some ((MP4TAG_ERR_TAG_NOT_FOUND, no_box 0), fh).
Proof.
  intros H. cbn [while_loop]. unfold bind, find_child_box_body.
  replace (pos + 8 <=? end_) with false by lia. reflexivity.
Qed.

Lemma find_loop_corrupt (target end_ type size : Z) (done rest : list byte)
      (fh : file_handle) (fuel : nat) :
  0 <= type < 4294967296 -> 2 <= size < 8 ->
  coherent fh -> 0 <= file_size fh ->
  fd_data fh = done ++ (be32_bytes size ++ be32_bytes type) ++ rest ->
  len done + 8 <= end_ ->
  exists fh',
    while_loop (S fuel) (find_child_box_body end_ target) (len done) fh
    = Some ((MP4TAG_ERR_CORRUPT, no_box 0), fh').
Proof.
  intros Ht Hs Hco Hfs Hdata Hend.
  destruct (@read_standard_header done rest type size (set_pos fh (len done)))
    as (fh1 & Heq1 & _);
    [exact Ht | lia | exact Hco | exact Hfs | exact Hdata | reflexivity |].
  exists fh1.
  cbn [while_loop]. unfold bind at 1. unfold find_child_box_body at 1.
  replace (len done + 8 <=? end_) with true by lia.
  unfold bind at 1. unfold file_seek at 1, bind, get, put, ret.
  change (negb (0 =? 0)) with false. cbv beta iota.
  rewrite Heq1. cbn [negb Z.eqb MP4TAG_OK box_size].
  replace (size <? 8) with true by lia. reflexivity.
Qed.

Lemma boxes_count (bs : list (Z * list byte)) :
  8 * Z.of_nat (length bs) <= len (boxes bs).
Proof.
  induction bs as [|b bs IH]; [cbn; lia|].
  rewrite boxes_cons, len_app, len_box_of. cbn [length].
  pose proof (len_nonneg (snd b)). lia.
Qed.

(** The fuel of a walk is enough for the boxes of the file. *)
Lemma walk_fuel_enough (fh : file_handle) (done rest : list byte)
      (bs : list (Z * list byte)) :
  fd_data fh = done ++ boxes bs ++ rest ->
  exists fuel, walk_fuel fh = (length bs + S fuel)%nat.
Proof.
  intros Hdata. pose proof (boxes_count bs) as Hc.
  pose proof (reach_ge_len fh) as Hr. rewrite Hdata, !len_app in Hr.
  pose proof (len_nonneg done). pose proof (len_nonneg rest).
  exists (S (Z.to_nat (reach fh)) - length bs)%nat.
  unfold walk_fuel. lia.
Qed.

(** [find_child_box] from any handle on a file whose boxes [skipped]
    lie at [len pre]: the walk that ends in [ending]. *)
Lemma find_child_box_walk (target parent_size : Z) (pre rest : list byte)
      (skipped : list (Z * list byte)) (fh : file_handle)
      (r : Z * mp4_box_t) (Q : file_handle -> Prop) :
  Forall box_fits skipped -> without target skipped ->
  coherent fh -> 0 <= file_size fh ->
  fd_data fh = pre ++ boxes skipped ++ rest ->
  len (boxes skipped) <= parent_size ->
  (forall fh1 fuel, same_file fh fh1 ->
     exists fh',
       while_loop (S fuel)
         (find_child_box_body (len pre + parent_size) target)
         (len pre + len (boxes skipped)) fh1
       = Some (r, fh') /\ Q fh') ->
  exists fh',
    find_child_box (len pre) parent_size target fh = Some (r, fh') /\ Q fh'.
Proof.
  intros Hfit Hno Hco Hfs Hdata Hsize Hend.
  destruct (@find_loop_skip target (len pre + parent_size) rest skipped pre fh
              Hfit Hno Hco Hfs Hdata ltac:(lia)) as (fh1 & Hsame & Hk).
  destruct (walk_fuel_enough fh pre rest skipped Hdata) as (fuel & Hfuel).
  destruct (Hend fh1 fuel Hsame) as (fh' & Heq & HQ).
  exists fh'. split; [|exact HQ].
  unfold find_child_box, bind, get. rewrite Hfuel, Hk. exact Heq.
Qed.

(** [find_child_box] returns the first child of the type it looks for:
    in a parent whose children [skipped], none of that type, are
    followed by a box of that type, it answers [MP4TAG_OK] with the
    offset and the size of that box; in a parent that consists of the
    children [skipped] alone it answers [MP4TAG_ERR_TAG_NOT_FOUND];
    when the children are followed by a header whose size field is
    below 8 it answers [MP4TAG_ERR_CORRUPT]. *)
Theorem find_child_box_finds (pre rest p : list byte)
    (skipped : list (Z * list byte)) (target extra : Z) :
  Forall box_fits skipped -> without target skipped ->
  box_fits (target, p) -> 0 <= extra ->
  (exists fh',
     find_child_box (len pre) (len (boxes skipped) + 8 + extra) target
       (open_file (pre ++ boxes skipped ++ box_bytes target p ++ rest) false)
     = Some ((MP4TAG_OK,
              header_at (len pre + len (boxes skipped)) (target, p)), fh')) /\
  (exists fh',
     find_child_box (len pre) (len (boxes skipped)) target
       (open_file (pre ++ boxes skipped ++ rest) false)
     = Some ((MP4TAG_ERR_TAG_NOT_FOUND, no_box 0), fh')) /\
  (forall type size,
     0 <= type < 4294967296 -> 2 <= size < 8 ->
     exists fh',
       find_child_box (len pre) (len (boxes skipped) + 8 + extra) target
         (open_file (pre ++ boxes skipped
                     ++ (be32_bytes size ++ be32_bytes type) ++ rest) false)
       = Some ((MP4TAG_ERR_CORRUPT, no_box 0), fh')).
Proof.
  intros Hfit Hno Hb Hextra.
  pose proof (len_boxes_nonneg skipped) as Hs0.
  split; [|split].
  - destruct (@find_child_box_walk target (len (boxes skipped) + 8 + extra)
                pre (box_bytes target p ++ rest) skipped
                (open_file (pre ++ boxes skipped ++ box_bytes target p ++ rest)
                           false)
                (MP4TAG_OK,
                 header_at (len pre + len (boxes skipped)) (target, p))
                (fun _ => True) Hfit Hno (coherent_open _ _) (len_nonneg _)
                eq_refl ltac:(lia)) as (fh' & Heq & _).
    + intros fh1 fuel (Hco1 & Hd1 & Hs1).
      destruct (@find_loop_hit target
                  (len pre + (len (boxes skipped) + 8 + extra))
                  (pre ++ boxes skipped) rest p fh1 fuel Hb Hco1)
        as (fh' & Heq & _).
      * unfold file_size. rewrite Hs1. apply len_nonneg.
      * rewrite Hd1. cbn [fd_data open_file file_open_common].
        apply app_assoc.
      * rewrite len_app. lia.
      * exists fh'. rewrite len_app in Heq. split; [exact Heq | exact I].
    + exists fh'. exact Heq.
  - destruct (@find_child_box_walk target (len (boxes skipped))
                pre rest skipped
                (open_file (pre ++ boxes skipped ++ rest) false)
                (MP4TAG_ERR_TAG_NOT_FOUND, no_box 0)
                (fun _ => True) Hfit Hno (coherent_open _ _) (len_nonneg _)
                eq_refl ltac:(lia)) as (fh' & Heq & _).
    + intros fh1 fuel _. exists fh1. split; [|exact I].
      apply find_loop_end. lia.
    + exists fh'. exact Heq.
  - intros type size Ht Hsz.
    destruct (@find_child_box_walk target (len (boxes skipped) + 8 + extra)
                pre ((be32_bytes size ++ be32_bytes type) ++ rest) skipped
                (open_file (pre ++ boxes skipped
                            ++ (be32_bytes size ++ be32_bytes type) ++ rest)
                           false)
                (MP4TAG_ERR_CORRUPT, no_box 0)
                (fun _ => True) Hfit Hno (coherent_open _ _) (len_nonneg _)
                eq_refl ltac:(lia)) as (fh' & Heq & _).
    + intros fh1 fuel (Hco1 & Hd1 & Hs1).
      destruct (@find_loop_corrupt target
                  (len pre + (len (boxes skipped) + 8 + extra)) type size
                  (pre ++ boxes skipped) rest fh1 fuel Ht Hsz Hco1)
        as (fh' & Heq).
      * unfold file_size. rewrite Hs1. apply len_nonneg.
      * rewrite Hd1. cbn [fd_data open_file file_open_common].
        apply app_assoc.
      * rewrite len_app. lia.
      * exists fh'. rewrite len_app in Heq. split; [exact Heq | exact I].
    + exists fh'. exact Heq.
Qed.

Lemma find_child_box_finds_witness :
  exists fh',
    find_child_box 3 (len (boxes [(MP4_BOX_FREE, [x00]);
                                   (MP4_BOX_HDLR, hdlr_data)]) + 8 + 0)
      MP4_BOX_ILST
      (open_file ([x01; x02; x03]
                  ++ boxes [(MP4_BOX_FREE, [x00]); (MP4_BOX_HDLR, hdlr_data)]
                  ++ box_bytes MP4_BOX_ILST [] ++ [xff]) false)
    = Some ((MP4TAG_OK, mk_box MP4_BOX_ILST 45 8 53 0 8), fh').
Proof.
  destruct (@find_child_box_finds [x01; x02; x03] [xff] []
              [(MP4_BOX_FREE, [x00]); (MP4_BOX_HDLR, hdlr_data)]
              MP4_BOX_ILST 0) as ((fh' & H) & _).
  - repeat (apply Forall_cons; [vm_compute; intuition discriminate|]).
    apply Forall_nil.
  - repeat (apply Forall_cons; [vm_compute; discriminate|]).
    apply Forall_nil.
  - vm_compute. intuition discriminate.
  - lia.
  - exists fh'. exact H.
Defined.

(** ** The structure parser on a well-formed file *)

(** [find_child_box] from any handle, when the child is there. *)
Lemma find_child_box_hit (target parent_size : Z) (pre rest p : list byte)
      (skipped : list (Z * list byte)) (fh : file_handle) :
  Forall box_fits skipped -> without target skipped ->
  box_fits (target, p) ->
  coherent fh -> 0 <= file_size fh ->
  fd_data fh = pre ++ boxes skipped ++ box_bytes target p ++ rest ->
  len (boxes skipped) + 8 <= parent_size ->
  exists fh',
    find_child_box (len pre) parent_size target fh
    = Some ((MP4TAG_OK,
             header_at (len pre + len (boxes skipped)) (target, p)), fh') /\
    same_file fh fh'.
Proof.
  intros Hfit Hno Hb Hco Hfs Hdata Hsize.
  apply (@find_child_box_walk target parent_size pre
           (box_bytes target p ++ rest) skipped fh _ (same_file fh)
           Hfit Hno Hco Hfs Hdata ltac:(lia)).
  intros fh1 fuel (Hco1 & Hd1 & Hs1).
  destruct (@find_loop_hit target (len pre + parent_size)
              (pre ++ boxes skipped) rest p fh1 fuel Hb Hco1)
    as (fh' & Heq & Hsame).
  - unfold file_size in *. lia.
  - rewrite Hd1, Hdata. apply app_assoc.
  - rewrite len_app. lia.
  - exists fh'. rewrite len_app in Heq. split; [exact Heq|].
    apply same_file_trans with fh1; [|exact Hsame].
    split; [exact Hco1 | split; assumption].
Qed.

(** [find_child_box] from any handle, on a parent made of well-formed
    boxes: it finds a box exactly when one has the type. *)
Lemma find_loop_any (target : Z) (rest : list byte) :
  forall (todo : list (Z * list byte)) (done : list byte)
         (fh : file_handle) (fuel : nat),
    Forall box_fits todo ->
    coherent fh -> 0 <= file_size fh ->
    fd_data fh = done ++ boxes todo ++ rest ->
    (length todo < fuel)%nat ->
    exists r fh',
      while_loop fuel
        (find_child_box_body (len done + len (boxes todo)) target)
        (len done) fh
      = Some (r, fh') /\
      same_file fh fh' /\
      ((fst r =? MP4TAG_OK) = existsb (fun b => fst b =? target) todo).
Proof.
  induction todo as [|b todo IH]; intros done fh fuel Hfit Hco Hfs Hdata Hfuel.
  - destruct fuel as [|fuel]; [cbn in Hfuel; lia|].
    exists (MP4TAG_ERR_TAG_NOT_FOUND, no_box 0), fh.
    split; [apply find_loop_end; change (len (boxes [])) with 0; lia|].
    split; [apply same_file_refl; exact Hco | reflexivity].
  - destruct fuel as [|fuel]; [cbn in Hfuel; lia|].
    cbn [length] in Hfuel.
    apply Forall_cons_iff in Hfit as (Hb & Hfit).
    rewrite boxes_cons in Hdata |- *. rewrite <- app_assoc in Hdata.
    pose proof (len_nonneg (snd b)). pose proof (len_boxes_nonneg todo).
    destruct (@read_header_of done (boxes todo ++ rest) b fh Hb Hco Hfs Hdata)
      as (fh1 & Heq1 & Hco1 & Hd1 & Hs1).
    assert (Hstep : find_child_box_body
                      (len done + len (box_of b ++ boxes todo)) target
                      (len done) fh
                    = if fst b =? target
                      then Some (inr (MP4TAG_OK, header_at (len done) b), fh1)
                      else Some (inl (len done + (8 + len (snd b))), fh1)).
    { unfold find_child_box_body.
      rewrite len_app, len_box_of.
      replace (len done + 8 <=? len done + (8 + len (snd b) + len (boxes todo)))
        with true by lia.
      unfold bind at 1. unfold file_seek at 1, bind, get, put, ret.
      change (negb (0 =? 0)) with false. cbv beta iota.
      rewrite Heq1. unfold header_at.
      cbn [negb Z.eqb MP4TAG_OK box_size box_type box_offset].
      replace (8 + len (snd b) <? 8) with false by lia.
      destruct (fst b =? target); reflexivity. }
    cbn [while_loop existsb]. unfold bind at 1. rewrite Hstep.
    destruct (fst b =? target) eqn:E.
    + exists (MP4TAG_OK, header_at (len done) b), fh1.
      split; [reflexivity|].
      split; [split; [exact Hco1 | split; assumption] | reflexivity].
    + destruct (IH (done ++ box_of b) fh1 fuel Hfit Hco1)
        as (r & fh' & Hloop & Hsame & Hr).
      * unfold file_size in *. lia.
      * rewrite Hd1, Hdata. apply app_assoc.
      * lia.
      * exists r, fh'. split.
        -- rewrite len_app, len_box_of in Hloop.
           rewrite len_app, len_box_of.
           replace (len done + (8 + len (snd b) + len (boxes todo)))
             with (len done + (8 + len (snd b)) + len (boxes todo)) by lia.
           exact Hloop.
        -- split; [|exact Hr].
           apply same_file_trans with fh1; [|exact Hsame].
           split; [exact Hco1 | split; assumption].
Qed.

Lemma find_child_box_any (target : Z) (pre rest : list byte)
      (bs : list (Z * list byte)) (fh : file_handle) :
  Forall box_fits bs -> coherent fh -> 0 <= file_size fh ->
  fd_data fh = pre ++ boxes bs ++ rest ->
  exists r fh',
    find_child_box (len pre) (len (boxes bs)) target fh = Some (r, fh') /\
    same_file fh fh' /\
    ((fst r =? MP4TAG_OK) = existsb (fun b => fst b =? target) bs).
Proof.
  intros Hfit Hco Hfs Hdata.
  destruct (walk_fuel_enough fh pre rest bs Hdata) as (fuel & Hfuel).
  unfold find_child_box, bind, get. rewrite Hfuel.
  apply (@find_loop_any target rest bs pre fh (length bs + S fuel)%nat);
    try assumption. lia.
Qed.

(** The top-level scan over a file made of well-formed boxes. *)
Lemma top_level_scans (fsize : Z) (rest : list byte) :
  forall (todo : list (Z * list byte)) (done : list byte)
         (info : mp4_file_info_t) (fh : file_handle) (fuel : nat),
    Forall box_fits todo ->
    coherent fh -> 0 <= file_size fh ->
    fd_data fh = done ++ boxes todo ++ rest ->
    len rest < 8 -> fsize = len (fd_data fh) ->
    (length todo < fuel)%nat ->
    exists fh',
      while_loop fuel (top_level_body fsize) (len done, info) fh
      = Some (Break (scan_boxes (len done) info todo), fh') /\
      same_file fh fh'.
Proof.
  induction todo as [|b todo IH];
    intros done info fh fuel Hfit Hco Hfs Hdata Hrest Hsize Hfuel.
  - destruct fuel as [|fuel]; [cbn in Hfuel; lia|].
    exists fh. split; [|apply same_file_refl; exact Hco].
    cbn [while_loop scan_boxes]. unfold bind, top_level_body.
    rewrite Hsize, Hdata, !len_app. change (len (boxes [])) with 0.
    replace (len done + 8 <=? len done + (0 + len rest)) with false by lia.
    reflexivity.
  - destruct fuel as [|fuel]; [cbn in Hfuel; lia|].
    cbn [length] in Hfuel.
    apply Forall_cons_iff in Hfit as (Hb & Hfit).
    rewrite boxes_cons in Hdata. rewrite <- app_assoc in Hdata.
    pose proof (len_nonneg (snd b)). pose proof (len_boxes_nonneg todo).
    pose proof (len_nonneg rest).
    destruct (@read_header_of done (boxes todo ++ rest) b fh Hb Hco Hfs Hdata)
      as (fh1 & Heq1 & Hco1 & Hd1 & Hs1).
    destruct (IH (done ++ box_of b) (scan_box (len done) info b) fh1 fuel
                Hfit Hco1) as (fh' & Hloop & Hsame).
    + unfold file_size in *. lia.
    + rewrite Hd1, Hdata. apply app_assoc.
    + exact Hrest.
    + congruence.
    + lia.
    + exists fh'. split.
      * cbn [while_loop scan_boxes]. unfold bind at 1.
        unfold top_level_body at 1.
        assert (Hin : (len done + 8 <=? fsize) = true).
        { rewrite Hsize, Hdata, !len_app, len_box_of. lia. }
        rewrite Hin.
        unfold bind at 1. unfold file_seek at 1, bind, get, put, ret.
        change (negb (0 =? 0)) with false. cbv beta iota.
        rewrite Heq1. unfold header_at.
        cbn [negb Z.eqb MP4TAG_OK box_size box_type box_offset].
        replace (8 + len (snd b) <? 8) with false by lia.
        rewrite len_app, len_box_of in Hloop.
        exact Hloop.
      * apply same_file_trans with fh1; [|exact Hsame].
        split; [exact Hco1 | split; assumption].
Qed.

(** The [moov] box the scan has recorded. *)
Lemma scan_boxes_without (bs : list (Z * list byte)) :
  forall off info,
    without MP4_BOX_MOOV bs ->
    moov_offset (scan_boxes off info bs) = moov_offset info /\
    moov_size (scan_boxes off info bs) = moov_size info.
Proof.
  induction bs as [|b bs IH]; intros off info Hno; [split; reflexivity|].
  apply Forall_cons_iff in Hno as (Hb & Hno). cbn [scan_boxes].
  destruct (IH (off + (8 + len (snd b))) (scan_box off info b) Hno)
    as (-> & ->).
  unfold scan_box. destruct (fst b =? MP4_BOX_FTYP); [split; reflexivity|].
  replace (fst b =? MP4_BOX_MOOV) with false by lia.
  destruct (fst b =? MP4_BOX_MDAT); split; reflexivity.
Qed.

Lemma scan_boxes_app (bs1 bs2 : list (Z * list byte)) :
  forall off info,
    scan_boxes off info (bs1 ++ bs2)
    = scan_boxes (off + len (boxes bs1)) (scan_boxes off info bs1) bs2.
Proof.
  induction bs1 as [|b bs1 IH]; intros off info.
  - cbn [app scan_boxes]. change (len (boxes [])) with 0.
    now rewrite Z.add_0_r.
  - cbn [app scan_boxes]. rewrite IH, boxes_cons, len_app, len_box_of.
    f_equal. lia.
Qed.

Lemma scan_boxes_moov (before after : list (Z * list byte))
      (payload : list byte) (info : mp4_file_info_t) :
  without MP4_BOX_MOOV after ->
  let i := scan_boxes 0 info (before ++ (MP4_BOX_MOOV, payload) :: after) in
  moov_offset i = len (boxes before) /\ moov_size i = 8 + len payload.
Proof.
  intros Hno i. subst i. rewrite scan_boxes_app. cbn [scan_boxes].
  destruct (@scan_boxes_without after
              (0 + len (boxes before) + (8 + len (snd (MP4_BOX_MOOV, payload))))
              (scan_box (0 + len (boxes before))
                 (scan_boxes 0 info before) (MP4_BOX_MOOV, payload)) Hno)
    as (-> & ->).
  unfold scan_box. cbn [fst snd].
  change (MP4_BOX_MOOV =? MP4_BOX_FTYP) with false.
  change (MP4_BOX_MOOV =? MP4_BOX_MOOV) with true.
  cbn [moov_offset moov_size set_moov]. split; [lia | reflexivity].
Qed.

(** [find_free_after] at the end of its container, and in front of a
    box. *)
Lemma find_free_after_box (done rest : list byte) (b : Z * list byte)
      (container_end : Z) (fh : file_handle) :
  box_fits b -> coherent fh -> 0 <= file_size fh ->
  fd_data fh = done ++ box_of b ++ rest ->
  len done + 8 <= container_end ->
  exists fh',
    find_free_after (len done) container_end fh
    = Some (if (fst b =? MP4_BOX_FREE) || (fst b =? MP4_BOX_SKIP)
            then (MP4TAG_OK, Some (len done, 8 + len (snd b)))
            else (MP4TAG_ERR_TAG_NOT_FOUND, None), fh') /\
    same_file fh fh'.
Proof.
  intros Hb Hco Hfs Hdata Hend.
  destruct (@read_header_of done rest b fh Hb Hco Hfs Hdata)
    as (fh1 & Heq1 & Hsame).
  exists fh1. split; [|exact Hsame].
  unfold find_free_after.
  replace (container_end <? len done + 8) with false by lia.
  unfold bind at 1. unfold file_seek at 1, bind, get, put, ret.
  change (negb (0 =? 0)) with false. cbv beta iota.
  rewrite Heq1. unfold header_at.
  cbn [negb Z.eqb MP4TAG_OK box_type box_offset box_size].
  destruct ((fst b =? MP4_BOX_FREE) || (fst b =? MP4_BOX_SKIP)); reflexivity.
Qed.

Lemma parse_moov_locates (t : tagged_file) (info : mp4_file_info_t)
      (fh : file_handle) :
  well_formed t -> coherent fh -> 0 <= file_size fh ->
  fd_data fh = file_of t ->
  moov_offset info = moov_position t ->
  exists i fh',
    parse_moov info fh = Some ((MP4TAG_OK, i), fh') /\
    same_file fh fh' /\
    valid i = true /\ moov_offset i = moov_position t /\
    moov_size i = moov_size info /\
    has_udta i = true /\ udta_offset i = udta_position t /\
    udta_size i = 8 + len (udta_payload t) /\
    has_meta i = true /\ meta_offset i = meta_position t /\
    meta_size i = 8 + len (meta_payload t) /\
    meta_has_hdlr i
    = existsb (fun b => fst b =? MP4_BOX_HDLR)
              (tf_me_before t ++ tf_tail t) /\
    has_ilst i = true /\ ilst_offset i = ilst_position t /\
    ilst_size i = 8 + len (tf_items t) /\
    has_free_after_ilst i
    = (match free_after t with Some _ => true | None => false end) /\
    (forall size, free_after t = Some size ->
       free_after_ilst_offset i = ilst_position t + (8 + len (tf_items t)) /\
       free_after_ilst_size i = size).
Proof.
  intros (Fb & Fa & Fm & Fu & Fme & Ft & Hv & Hsz & Na & Nm & Nu & Nme)
         Hco Hfs Hdata Hmo.
  set (mp := moov_payload t) in *. set (up := udta_payload t).
  set (mep := meta_payload t).
  pose proof (len_nonneg (tf_items t)) as Hi0.
  pose proof (len_boxes_nonneg (tf_before t)).
  pose proof (len_boxes_nonneg (tf_m_before t)).
  pose proof (len_boxes_nonneg (tf_u_before t)).
  pose proof (len_boxes_nonneg (tf_me_before t)).
  pose proof (len_boxes_nonneg (tf_tail t)).
  pose proof (len_nonneg (tf_u_rest t)). pose proof (len_nonneg (tf_m_rest t)).
  assert (Lmep : len mep = 4 + len (boxes (tf_me_before t))
                           + (8 + len (tf_items t)) + len (boxes (tf_tail t))).
  { subst mep. unfold meta_payload, box_bytes.
    rewrite !len_app, !len_be32_bytes, Hv. lia. }
  assert (Lup : len up = len (boxes (tf_u_before t)) + (8 + len mep)
                         + len (tf_u_rest t)).
  { subst up. unfold udta_payload, box_bytes.
    rewrite !len_app, !len_be32_bytes. fold mep. lia. }
  assert (Lmp : len mp = len (boxes (tf_m_before t)) + (8 + len up)
                         + len (tf_m_rest t)).
  { subst mp. unfold moov_payload, box_bytes.
    rewrite !len_app, !len_be32_bytes. fold up. lia. }
  unfold ilst_position, meta_position, udta_position, moov_position in *.
  (* moov *)
  destruct (@read_header_of (boxes (tf_before t)) (boxes (tf_after t))
              (MP4_BOX_MOOV, mp) fh) as (fh1 & Heq1 & Hsame1);
    [split; [vm_compute; intuition discriminate | exact Hsz]
    | exact Hco | exact Hfs | exact Hdata |].
  unfold header_at in Heq1. cbn [fst snd] in Heq1.
  (* udta *)
  set (pre1 := boxes (tf_before t) ++ be32_bytes (8 + len mp)
               ++ be32_bytes MP4_BOX_MOOV).
  assert (L1 : len pre1 = len (boxes (tf_before t)) + 8)
    by (subst pre1; rewrite !len_app, !len_be32_bytes; lia).
  assert (D1 : fd_data fh = pre1 ++ boxes (tf_m_before t)
                            ++ box_bytes MP4_BOX_UDTA up
                            ++ (tf_m_rest t ++ boxes (tf_after t))).
  { rewrite Hdata. unfold file_of. fold mp. subst pre1.
    unfold box_bytes at 1. subst mp. unfold moov_payload. fold up.
    now rewrite <- !app_assoc. }
  destruct Hsame1 as (Hco1 & Hd1 & Hs1).
  destruct (@find_child_box_hit MP4_BOX_UDTA (8 + len mp - 8) pre1
              (tf_m_rest t ++ boxes (tf_after t)) up (tf_m_before t) fh1
              Fm Nm) as (fh2 & Heq2 & Hco2 & Hd2 & Hs2);
    [split; [vm_compute; intuition discriminate | cbn [snd]; lia]
    | exact Hco1 | unfold file_size in *; lia | congruence | lia |].
  rewrite L1 in Heq2. unfold header_at in Heq2. cbn [fst snd] in Heq2.
  (* meta *)
  set (pre2 := (pre1 ++ boxes (tf_m_before t)) ++ be32_bytes (8 + len up)
               ++ be32_bytes MP4_BOX_UDTA).
  assert (L2 : len pre2 = len (boxes (tf_before t)) + 8
                          + len (boxes (tf_m_before t)) + 8)
    by (subst pre2; rewrite !len_app, !len_be32_bytes, L1; lia).
  assert (D2 : fd_data fh = pre2 ++ boxes (tf_u_before t)
                            ++ box_bytes MP4_BOX_META mep
                            ++ (tf_u_rest t ++ tf_m_rest t
                                ++ boxes (tf_after t))).
  { rewrite D1. subst pre2. unfold box_bytes at 1. subst up.
    unfold udta_payload. fold mep. now rewrite <- !app_assoc. }
  destruct (@find_child_box_hit MP4_BOX_META (8 + len up - 8) pre2
              (tf_u_rest t ++ tf_m_rest t ++ boxes (tf_after t)) mep
              (tf_u_before t) fh2 Fu Nu) as (fh3 & Heq3 & Hco3 & Hd3 & Hs3);
    [split; [vm_compute; intuition discriminate | cbn [snd]; lia]
    | exact Hco2 | unfold file_size in *; lia | congruence | lia |].
  rewrite L2 in Heq3. unfold header_at in Heq3. cbn [fst snd] in Heq3.
  (* the content of meta *)
  set (pre3 := ((pre2 ++ boxes (tf_u_before t)) ++ be32_bytes (8 + len mep)
                ++ be32_bytes MP4_BOX_META) ++ tf_version t).
  assert (L3 : len pre3 = len (boxes (tf_before t)) + 8
                          + len (boxes (tf_m_before t)) + 8
                          + len (boxes (tf_u_before t)) + 8 + 4)
    by (subst pre3; rewrite !len_app, !len_be32_bytes, L2, Hv; lia).
  set (kids := tf_me_before t ++ (MP4_BOX_ILST, tf_items t) :: tf_tail t).
  assert (Lkids : len (boxes kids) = len mep - 4).
  { subst kids. rewrite boxes_app, boxes_cons, !len_app, len_box_of.
    cbn [snd]. lia. }
  assert (D3 : fd_data fh = pre3 ++ boxes kids
                            ++ (tf_u_rest t ++ tf_m_rest t
                                ++ boxes (tf_after t))).
  { rewrite D2. subst pre3 kids. unfold box_bytes at 1. subst mep.
    unfold meta_payload. rewrite boxes_app, boxes_cons.
    unfold box_of. cbn [fst snd]. now rewrite <- !app_assoc. }
  destruct (@find_child_box_any MP4_BOX_HDLR pre3
              (tf_u_rest t ++ tf_m_rest t ++ boxes (tf_after t)) kids fh3)
    as ([rc4 hdlr] & fh4 & Heq4 & (Hco4 & Hd4 & Hs4) & Hr4);
    [subst kids; apply Forall_app; split; [exact Fme|];
     apply Forall_cons; [split; [vm_compute; intuition discriminate | cbn [snd]; lia]
                        | exact Ft]
    | exact Hco3 | unfold file_size in *; lia | congruence |].
  cbn [fst] in Hr4.
  rewrite L3, Lkids in Heq4.
  (* ilst *)
  assert (D4 : fd_data fh = pre3 ++ boxes (tf_me_before t)
                            ++ box_bytes MP4_BOX_ILST (tf_items t)
                            ++ (boxes (tf_tail t) ++ tf_u_rest t
                                ++ tf_m_rest t ++ boxes (tf_after t))).
  { rewrite D3. subst kids. rewrite boxes_app, boxes_cons.
    unfold box_of. cbn [fst snd]. now rewrite <- !app_assoc. }
  destruct (@find_child_box_hit MP4_BOX_ILST (len mep - 4) pre3
              (boxes (tf_tail t) ++ tf_u_rest t ++ tf_m_rest t
               ++ boxes (tf_after t)) (tf_items t)
              (tf_me_before t) fh4 Fme Nme) as (fh5 & Heq5 & Hco5 & Hd5 & Hs5);
    [split; [vm_compute; intuition discriminate | cbn [snd]; lia]
    | exact Hco4 | unfold file_size in *; lia | congruence | lia |].
  rewrite L3 in Heq5. unfold header_at in Heq5. cbn [fst snd] in Heq5.
  (* the box after ilst *)
  set (after_ilst := len (boxes (tf_before t)) + 8
                     + len (boxes (tf_m_before t)) + 8
                     + len (boxes (tf_u_before t)) + 8 + 4
                     + len (boxes (tf_me_before t)) + (8 + len (tf_items t))).
  set (meta_end := len (boxes (tf_before t)) + 8
                   + len (boxes (tf_m_before t)) + 8
                   + len (boxes (tf_u_before t)) + (8 + len mep)).
  assert (Hfree : exists fh6,
             find_free_after after_ilst meta_end fh5
             = Some (match free_after t with
                     | Some size => (MP4TAG_OK, Some (after_ilst, size))
                     | None => (MP4TAG_ERR_TAG_NOT_FOUND, None)
                     end, fh6) /\ same_file fh fh6).
  { unfold free_after. destruct (tf_tail t) as [|b tail] eqn:Etail.
    - exists fh5. split; [|split; [exact Hco5 | split; congruence]].
      unfold find_free_after.
      replace (meta_end <? after_ilst + 8) with true; [reflexivity|].
      symmetry. apply Z.ltb_lt. subst meta_end after_ilst.
      change (len (boxes [])) with 0 in Lmep. lia.
    - set (done := pre3 ++ boxes (tf_me_before t)
                   ++ box_bytes MP4_BOX_ILST (tf_items t)).
      assert (Ldone : len done = after_ilst).
      { subst done after_ilst. unfold box_bytes.
        rewrite !len_app, !len_be32_bytes, L3. lia. }
      inversion Ft as [|? ? Fb0 Ft0]; subst.
      destruct (@find_free_after_box done
                  (boxes tail ++ tf_u_rest t ++ tf_m_rest t
                   ++ boxes (tf_after t)) b meta_end fh5 Fb0)
        as (fh6 & Heq6 & Hco6 & Hd6 & Hs6);
        [exact Hco5 | unfold file_size in *; lia
        | rewrite Hd5, Hd4, Hd3, Hd2, Hd1, D4; subst done;
          rewrite boxes_cons; now rewrite <- !app_assoc
        | rewrite Ldone; subst meta_end after_ilst;
          rewrite boxes_cons, len_app, len_box_of in Lmep;
          pose proof (len_nonneg (snd b)); pose proof (len_boxes_nonneg tail);
          lia |].
      rewrite Ldone in Heq6.
      exists fh6. split; [|split; [exact Hco6 | split; congruence]].
      rewrite Heq6.
      destruct ((fst b =? MP4_BOX_FREE) || (fst b =? MP4_BOX_SKIP));
        reflexivity. }
  destruct Hfree as (fh6 & Heq6 & Hsame6).
  assert (Hrun : parse_moov info fh
                 = Some ((MP4TAG_OK,
                          set_valid
                            (set_free
                               (set_ilst
                                  (set_hdlr
                                     (set_meta
                                        (set_udta info
                                           (len (boxes (tf_before t)) + 8
                                            + len (boxes (tf_m_before t)))
                                           (8 + len up))
                                        (len (boxes (tf_before t)) + 8
                                         + len (boxes (tf_m_before t)) + 8
                                         + len (boxes (tf_u_before t)))
                                        (8 + len mep))
                                     (rc4 =? MP4TAG_OK))
                                  (len (boxes (tf_before t)) + 8
                                   + len (boxes (tf_m_before t)) + 8
                                   + len (boxes (tf_u_before t)) + 8 + 4
                                   + len (boxes (tf_me_before t)))
                                  (8 + len (tf_items t)))
                               (match free_after t with
                                | Some _ => MP4TAG_OK
                                | None => MP4TAG_ERR_TAG_NOT_FOUND
                                end)
                               (match free_after t with
                                | Some size => Some (after_ilst, size)
                                | None => None
                                end))), fh6)).
  { unfold parse_moov.
    unfold bind at 1. unfold file_seek at 1, bind, get, put, ret.
    change (negb (0 =? 0)) with false. cbv beta iota.
    rewrite Hmo, Heq1.
    cbn [negb Z.eqb MP4TAG_OK data_offset data_size box_offset box_size].
    rewrite Heq2.
    cbn [negb Z.eqb MP4TAG_OK data_offset data_size box_offset box_size].
    rewrite Heq3.
    cbn [negb Z.eqb MP4TAG_OK data_offset data_size box_offset box_size].
    replace (8 + len mep - 8 - 4 <? 0) with false by lia.
    replace (8 + len mep - 8 - 4) with (len mep - 4) by lia.
    rewrite Heq4. cbv beta iota. rewrite Heq5.
    cbn [negb Z.eqb MP4TAG_OK data_offset data_size box_offset box_size].
    fold after_ilst. fold meta_end. rewrite Heq6.
    destruct (free_after t); reflexivity. }
  eexists. exists fh6. split; [exact Hrun|].
  split; [exact Hsame6|].
  split; [reflexivity|]. split; [exact Hmo|]. split; [reflexivity|].
  split; [reflexivity|]. split; [reflexivity|]. split; [reflexivity|].
  split; [reflexivity|]. split; [reflexivity|]. split; [reflexivity|].
  split.
  { change (meta_has_hdlr _) with (rc4 =? MP4TAG_OK). rewrite Hr4.
    subst kids. rewrite !existsb_app. cbn [existsb fst].
    change (MP4_BOX_ILST =? MP4_BOX_HDLR) with false. reflexivity. }
  split; [reflexivity|]. split; [reflexivity|]. split; [reflexivity|].
  split.
  { change (has_free_after_ilst _)
      with (match free_after t with
            | Some _ => MP4TAG_OK
            | None => MP4TAG_ERR_TAG_NOT_FOUND
            end =? MP4TAG_OK).
    destruct (free_after t); reflexivity. }
  intros size Hsome. rewrite Hsome. split; reflexivity.
Qed.

(** The bytes of a tagged file at the position of ilst, after its
    header, are the content of ilst. *)
Lemma ilst_content (t : tagged_file) :
  len (tf_version t) = 4 ->
  slice (file_of t) (ilst_position t + 8) (len (tf_items t)) = tf_items t.
Proof.
  intros Hv.
  set (pre := boxes (tf_before t)
              ++ (be32_bytes (8 + len (moov_payload t))
                  ++ be32_bytes MP4_BOX_MOOV)
              ++ boxes (tf_m_before t)
              ++ (be32_bytes (8 + len (udta_payload t))
                  ++ be32_bytes MP4_BOX_UDTA)
              ++ boxes (tf_u_before t)
              ++ (be32_bytes (8 + len (meta_payload t))
                  ++ be32_bytes MP4_BOX_META)
              ++ tf_version t ++ boxes (tf_me_before t)
              ++ (be32_bytes (8 + len (tf_items t))
                  ++ be32_bytes MP4_BOX_ILST)).
  assert (Lpre : len pre = ilst_position t + 8).
  { subst pre. unfold ilst_position, meta_position, udta_position,
      moov_position. rewrite !len_app, !len_be32_bytes, Hv. lia. }
  assert (D : file_of t
              = pre ++ tf_items t
                ++ (boxes (tf_tail t) ++ tf_u_rest t ++ tf_m_rest t
                    ++ boxes (tf_after t))).
  { subst pre. unfold file_of, box_bytes.
    unfold moov_payload at 2. unfold box_bytes.
    unfold udta_payload at 2. unfold box_bytes.
    unfold meta_payload at 2. unfold box_bytes.
    now rewrite <- !app_assoc. }
  rewrite D, <- Lpre. apply slice_middle.
Qed.

(** [mp4_parse_structure] from any handle on a tagged file. *)
Lemma parse_structure_tagged (t : tagged_file) (fh : file_handle) :
  well_formed t -> coherent fh ->
  fd_data fh = file_of t -> file_size fh = len (file_of t) ->
  exists info fh',
    mp4_parse_structure fh = Some ((MP4TAG_OK, info), fh') /\
    same_file fh fh' /\
    valid info = true /\
    moov_offset info = moov_position t /\
    moov_size info = 8 + len (moov_payload t) /\
    has_udta info = true /\ udta_offset info = udta_position t /\
    udta_size info = 8 + len (udta_payload t) /\
    has_meta info = true /\ meta_offset info = meta_position t /\
    meta_size info = 8 + len (meta_payload t) /\
    meta_has_hdlr info
    = existsb (fun b => fst b =? MP4_BOX_HDLR)
              (tf_me_before t ++ tf_tail t) /\
    has_ilst info = true /\ ilst_offset info = ilst_position t /\
    ilst_size info = 8 + len (tf_items t) /\
    has_free_after_ilst info
    = (match free_after t with Some _ => true | None => false end) /\
    (forall size, free_after t = Some size ->
       free_after_ilst_offset info
       = ilst_position t + (8 + len (tf_items t)) /\
       free_after_ilst_size info = size).
Proof.
  intros Hwf Hco Hd Hsize.
  pose proof Hwf
    as (Fb & Fa & Fm & Fu & Fme & Ft & Hv & Hsz & Na & Nm & Nu & Nme).
  set (todo := tf_before t ++ (MP4_BOX_MOOV, moov_payload t) :: tf_after t).
  assert (Hdata : fd_data fh = [] ++ boxes todo ++ []).
  { subst todo. rewrite Hd. cbn [app].
    rewrite app_nil_r, boxes_app, boxes_cons. reflexivity. }
  assert (Hfit : Forall box_fits todo).
  { subst todo. apply Forall_app. split; [exact Fb|].
    apply Forall_cons; [|exact Fa].
    split; [vm_compute; intuition discriminate | exact Hsz]. }
  assert (Hlen : 8 <= len (file_of t)).
  { unfold file_of, box_bytes. rewrite !len_app, !len_be32_bytes.
    pose proof (len_boxes_nonneg (tf_before t)).
    pose proof (len_boxes_nonneg (tf_after t)).
    pose proof (len_nonneg (moov_payload t)). lia. }
  destruct (@walk_fuel_enough fh [] [] todo Hdata) as (extra & Hfuel).
  destruct (@top_level_scans (len (file_of t)) [] todo [] info_init fh
              (walk_fuel fh) Hfit Hco)
    as (fh1 & Hloop & Hco1 & Hd1 & Hs1);
    [rewrite Hsize; apply len_nonneg | exact Hdata | cbn; lia
    | rewrite Hd; reflexivity | rewrite Hfuel; lia |].
  change (len []) with 0 in Hloop.
  destruct (@scan_boxes_moov (tf_before t) (tf_after t) (moov_payload t)
              info_init Na) as (Hmo & Hms).
  fold todo in Hmo, Hms.
  destruct (@parse_moov_locates t (scan_boxes 0 info_init todo) fh1 Hwf Hco1)
    as (i & fh' & Hrun & (Hco' & Hd' & Hs') & Hvalid & Hmo' & Hms' & Hrest);
    [unfold file_size in *; rewrite Hs1, Hsize; apply len_nonneg
    | rewrite Hd1; exact Hd | exact Hmo |].
  exists i, fh'. split.
  { unfold mp4_parse_structure. unfold bind at 1, get.
    rewrite Hsize.
    replace (len (file_of t) <? 8) with false by lia.
    unfold bind at 1. rewrite Hloop.
    replace (moov_offset (scan_boxes 0 info_init todo) <? 0) with false
      by (rewrite Hmo; pose proof (len_boxes_nonneg (tf_before t)); lia).
    exact Hrun. }
  split; [split; [exact Hco' | split; congruence]|].
  split; [exact Hvalid|]. split; [exact Hmo'|].
  split; [rewrite Hms'; exact Hms|]. exact Hrest.
Qed.

(** On a file that carries its metadata in [moov/udta/meta/ilst], each
    of the four the first box of its type where the parser looks for
    it ([moov] the last one at top level), [mp4_parse_structure]
    answers [MP4TAG_OK] and leaves the file as it is; [*info] is valid
    and holds the offset and the size of each of the four boxes, the
    bytes that the recorded ilst spans after its header are the content
    of ilst, [meta_has_hdlr] tells whether meta has an hdlr child, and
    [has_free_after_ilst] tells whether the box right after ilst is a
    free or skip box, whose offset and size are then recorded. *)
Theorem parse_structure_locates_ilst (t : tagged_file) (w : bool) :
  well_formed t ->
  exists info fh',
    mp4_parse_structure (open_file (file_of t) w)
    = Some ((MP4TAG_OK, info), fh') /\
    fd_data fh' = file_of t /\
    valid info = true /\
    moov_offset info = moov_position t /\
    moov_size info = 8 + len (moov_payload t) /\
    has_udta info = true /\ udta_offset info = udta_position t /\
    udta_size info = 8 + len (udta_payload t) /\
    has_meta info = true /\ meta_offset info = meta_position t /\
    meta_size info = 8 + len (meta_payload t) /\
    meta_has_hdlr info
    = existsb (fun b => fst b =? MP4_BOX_HDLR)
              (tf_me_before t ++ tf_tail t) /\
    has_ilst info = true /\
    slice (file_of t) (ilst_offset info + 8) (ilst_size info - 8)
    = tf_items t /\
    has_free_after_ilst info
    = (match free_after t with Some _ => true | None => false end) /\
    (forall size, free_after t = Some size ->
       free_after_ilst_offset info = ilst_offset info + ilst_size info /\
       free_after_ilst_size info = size).
Proof.
  intros Hwf.
  destruct (@parse_structure_tagged t (open_file (file_of t) w) Hwf
              (coherent_open _ _) eq_refl eq_refl)
    as (i & fh' & Hrun & (_ & Hd' & _) & Hvalid & Hmo & Hms & Hhu & Huo
        & Hus & Hhm & Hmeo & Hmes & Hhdlr & Hhi & Hio & His & Hfree & Hfr).
  exists i, fh'. split; [exact Hrun|].
  split; [exact Hd'|].
  split; [exact Hvalid|]. split; [exact Hmo|]. split; [exact Hms|].
  split; [exact Hhu|]. split; [exact Huo|]. split; [exact Hus|].
  split; [exact Hhm|]. split; [exact Hmeo|]. split; [exact Hmes|].
  split; [exact Hhdlr|]. split; [exact Hhi|].
  split.
  { rewrite Hio, His.
    replace (8 + len (tf_items t) - 8) with (len (tf_items t)) by lia.
    apply ilst_content. destruct Hwf as (_ & _ & _ & _ & _ & _ & Hv & _).
    exact Hv. }
  split; [exact Hfree|].
  intros size Hsome. rewrite Hio, His. exact (Hfr size Hsome).
Qed.

Lemma parse_structure_locates_ilst_witness :
  exists info fh',
    mp4_parse_structure (open_file (file_of sample_tagged) false)
    = Some ((MP4TAG_OK, info), fh') /\
    valid info = true /\ moov_offset info = 16 /\ has_ilst info = true /\
    slice (file_of sample_tagged) (ilst_offset info + 8) (ilst_size info - 8)
    = sample_items /\
    has_free_after_ilst info = true /\ free_after_ilst_size info = 10.
Proof.
  destruct (@parse_structure_locates_ilst sample_tagged false)
    as (info & fh' & Hrun & _ & Hvalid & Hmo & _ & _ & _ & _ & _ & _ & _ & _
        & Hhi & Hsl & Hfree & Hfr).
  - unfold well_formed, without.
    repeat match goal with |- _ /\ _ => split end;
      try (repeat (apply Forall_cons; [vm_compute; intuition discriminate|]);
           apply Forall_nil);
      vm_compute; reflexivity.
  - exists info, fh'. split; [exact Hrun|]. split; [exact Hvalid|].
    split; [exact Hmo|]. split; [exact Hhi|]. split; [exact Hsl|].
    split; [exact Hfree|].
    exact (proj2 (Hfr 10 eq_refl)).
Defined.

(** ** Opening a file and reading its tags *)

(** [mp4_validate_ftyp] from any handle on a file that begins with an
    ftyp box whose major brand is one of the first [switch]. *)
Lemma validate_major_brand (brand : Z) (more rest : list byte)
      (fh : file_handle) :
  0 <= brand < 4294967296 -> 8 + len (be32_bytes brand ++ more) < 4294967296 ->
  switch_case brand major_brands = true ->
  coherent fh -> 0 <= file_size fh ->
  fd_data fh = box_of (MP4_BOX_FTYP, be32_bytes brand ++ more) ++ rest ->
  exists fh',
    mp4_validate_ftyp fh = Some (MP4TAG_OK, fh') /\ same_file fh fh'.
Proof.
  intros Hb Hsz Hsw Hco Hfs Hdata.
  pose proof (len_nonneg more) as Hm0.
  assert (Lp : len (be32_bytes brand ++ more) = 4 + len more)
    by (rewrite len_app, len_be32_bytes; lia).
  set (size := 8 + len (be32_bytes brand ++ more)) in *.
  assert (D : fd_data fh
              = (be32_bytes size ++ be32_bytes MP4_BOX_FTYP)
                ++ be32_bytes brand ++ (more ++ rest)).
  { rewrite Hdata. unfold box_of, box_bytes. cbn [fst snd]. fold size.
    now rewrite <- !app_assoc. }
  destruct (@read_standard_header [] ((be32_bytes brand ++ more) ++ rest)
              MP4_BOX_FTYP size (set_pos fh 0))
    as (fh1 & Heq1 & Hco1 & Hd1 & Hs1 & Hp1);
    [vm_compute; intuition discriminate | lia | exact Hco | exact Hfs
    | cbn [fd_data set_pos app]; rewrite D; now rewrite <- !app_assoc
    | reflexivity |].
  change (len []) with 0 in Heq1, Hp1. cbn [fd_data set_pos] in Hd1.
  cbn [file_size_field set_pos] in Hs1.
  destruct (runs_eq (@runs_file_read_exact fh1 4 Hco1 ltac:(lia)
                       ltac:(lia)))
    as ([rc bytes] & fh2 & _ & Heq2 & Hco2 & Hd2 & Hs2 & Hr2).
  cbn [fst snd] in Hr2. rewrite Hd1, Hp1 in Hr2.
  destruct Hr2 as [(-> & -> & _) | (_ & Hshort)].
  2:{ rewrite D, !len_app, !len_be32_bytes in Hshort.
      pose proof (len_nonneg rest). lia. }
  exists fh2. split; [|split; [exact Hco2 | split; congruence]].
  unfold mp4_validate_ftyp.
  unfold bind at 1. unfold file_seek at 1, bind, get, put, ret.
  change (negb (0 =? 0)) with false. cbv beta iota.
  rewrite Heq1.
  cbn [negb Z.eqb MP4TAG_OK box_type data_size data_offset].
  change (negb (MP4_BOX_FTYP =? MP4_BOX_FTYP)) with false. cbv beta iota.
  replace (size - 8 <? 4) with false by lia.
  rewrite Heq2.
  change (negb (0 =? 0)) with false. cbv beta iota.
  replace (slice (fd_data fh) (0 + 8) 4) with (be32_bytes brand)
    by (symmetry; rewrite D;
        exact (slice_middle (be32_bytes size ++ be32_bytes MP4_BOX_FTYP)
                 (be32_bytes brand) _)).
  rewrite be32_value_small by lia. rewrite Hsw. reflexivity.
Qed.

(** A tagged file around the content of its ilst. *)
Lemma ilst_in_file (t : tagged_file) :
  len (tf_version t) = 4 ->
  exists pre rest,
    file_of t = pre ++ tf_items t ++ rest /\ len pre = ilst_position t + 8.
Proof.
  intros Hv.
  exists (boxes (tf_before t)
          ++ (be32_bytes (8 + len (moov_payload t))
              ++ be32_bytes MP4_BOX_MOOV)
          ++ boxes (tf_m_before t)
          ++ (be32_bytes (8 + len (udta_payload t))
              ++ be32_bytes MP4_BOX_UDTA)
          ++ boxes (tf_u_before t)
          ++ (be32_bytes (8 + len (meta_payload t))
              ++ be32_bytes MP4_BOX_META)
          ++ tf_version t ++ boxes (tf_me_before t)
          ++ (be32_bytes (8 + len (tf_items t))
              ++ be32_bytes MP4_BOX_ILST)),
         (boxes (tf_tail t) ++ tf_u_rest t ++ tf_m_rest t
          ++ boxes (tf_after t)).
  split.
  - unfold file_of, box_bytes.
    unfold moov_payload at 2. unfold box_bytes.
    unfold udta_payload at 2. unfold box_bytes.
    unfold meta_payload at 2. unfold box_bytes.
    now rewrite <- !app_assoc.
  - unfold ilst_position, meta_position, udta_position, moov_position.
    rewrite !len_app, !len_be32_bytes, Hv. lia.
Qed.

(** [mp4_tags_parse_ilst] from any handle, with the FileMap of the
    structure parser. *)
Lemma parse_ilst_at (pre rest : list byte)
      (items : list (Z * Z * list byte)) (info : mp4_file_info_t)
      (fh : file_handle) :
  Forall item_fits items ->
  coherent fh -> 0 <= file_size fh ->
  fd_data fh = pre ++ concat (map item_of items) ++ rest ->
  has_ilst info = true -> ilst_offset info + 8 = len pre ->
  ilst_size info = 8 + len (concat (map item_of items)) ->
  exists fh',
    mp4_tags_parse_ilst info fh
    = Some ((MP4TAG_OK, Some (album_of (map decoded_item items))), fh') /\
    same_file fh fh'.
Proof.
  intros Hfit Hco Hfs Hdata Hhas Hoff Hsize.
  pose proof (items_count items) as Hcount.
  pose proof (len_nonneg pre). pose proof (len_nonneg rest).
  destruct (@parse_ilst_loop_decodes rest items pre [] (walk_fuel fh) fh
              Hfit Hco Hfs Hdata) as (fh' & Hloop & Hsame).
  { pose proof (reach_ge_len fh) as Hr. rewrite Hdata, !len_app in Hr.
    unfold walk_fuel. lia. }
  exists fh'. split; [|exact Hsame].
  unfold mp4_tags_parse_ilst. rewrite Hhas. cbn [negb].
  unfold bind at 1, get. unfold bind.
  rewrite Hoff, Hsize.
  replace (ilst_offset info + (8 + len (concat (map item_of items))))
    with (len pre + len (concat (map item_of items))) by lia.
  rewrite Hloop. reflexivity.
Qed.

(** What [mp4tag_open] and then [mp4tag_read_tags] do on a tagged file
    that begins with an ftyp box of a known major brand and whose ilst
    consists of well-formed items: the two calls of [mp4tag_open],
    [mp4_validate_ftyp] and then [mp4_parse_structure], answer
    [MP4TAG_OK]; on the context that [mp4tag_open] fills from them,
    [mp4tag_read_tags] answers [MP4TAG_OK] with one ALBUM tag that
    holds the decoded items of the file, in their order, and caches
    it; the file is as it was. *)
Theorem open_then_read_tags (t : tagged_file) (brand : Z)
    (more path : list byte) (others : list (Z * list byte))
    (items : list (Z * Z * list byte)) (w : bool) :
  well_formed t ->
  tf_before t = (MP4_BOX_FTYP, be32_bytes brand ++ more) :: others ->
  0 <= brand < 4294967296 ->
  switch_case brand major_brands = true ->
  tf_items t = concat (map item_of items) ->
  Forall item_fits items ->
  exists fh1 info fh2 ctx',
    mp4_validate_ftyp (open_file (file_of t) w) = Some (MP4TAG_OK, fh1) /\
    mp4_parse_structure fh1 = Some ((MP4TAG_OK, info), fh2) /\
    mp4tag_read_tags (mk_ctx (Some fh2) (Some path) w info None)
    = Some ((MP4TAG_OK, Some (album_of (map decoded_item items))), ctx') /\
    cached_tags ctx' = Some (album_of (map decoded_item items)) /\
    ctx_info ctx' = info /\
    exists fh3, ctx_fh ctx' = Some fh3 /\ fd_data fh3 = file_of t.
Proof.
  intros Hwf Hbefore Hb Hsw Hitems Hfit.
  pose proof Hwf as (Fb & _ & _ & _ & _ & _ & Hv & _).
  rewrite Hbefore in Fb. apply Forall_cons_iff in Fb as ((_ & Hsz) & _).
  cbn [snd] in Hsz.
  destruct (@validate_major_brand brand more
              (boxes others ++ box_bytes MP4_BOX_MOOV (moov_payload t)
               ++ boxes (tf_after t))
              (open_file (file_of t) w) Hb Hsz Hsw (coherent_open _ _)
              (len_nonneg _))
    as (fh1 & Hval & Hco1 & Hd1 & Hs1).
  { cbn [fd_data open_file file_open_common]. unfold file_of.
    rewrite Hbefore, boxes_cons. now rewrite <- !app_assoc. }
  cbn [fd_data file_size_field open_file file_open_common] in Hd1, Hs1.
  destruct (@parse_structure_tagged t fh1 Hwf Hco1 Hd1 Hs1)
    as (info & fh2 & Hrun & (Hco2 & Hd2 & Hs2) & _ & _ & _ & _ & _ & _ & _
        & _ & _ & _ & Hhi & Hio & His & _).
  destruct (ilst_in_file t Hv) as (pre & rest & Hsplit & Lpre).
  destruct (@parse_ilst_at pre rest items info fh2 Hfit Hco2)
    as (fh3 & Hparse & Hco3 & Hd3 & Hs3);
    [unfold file_size; rewrite Hs2, Hs1; apply len_nonneg
    | rewrite Hd2, Hd1, Hsplit, Hitems; reflexivity
    | exact Hhi | rewrite Hio, Lpre; reflexivity
    | rewrite His, Hitems; reflexivity |].
  exists fh1, info, fh2.
  exists (set_cached (set_fh (mk_ctx (Some fh2) (Some path) w info None)
                             (Some fh3))
                     (Some (album_of (map decoded_item items)))).
  split; [exact Hval|]. split; [exact Hrun|].
  split.
  { unfold mp4tag_read_tags. unfold bind at 1, get.
    cbn [ctx_fh cached_tags ctx_info]. rewrite Hhi. cbn [negb].
    unfold bind at 1. unfold on_fh at 1. cbn [ctx_fh]. rewrite Hparse.
    reflexivity. }
  split; [reflexivity|]. split; [reflexivity|].
  exists fh3. split; [reflexivity|]. congruence.
Qed.

Lemma open_then_read_tags_witness :
  exists fh1 info fh2 ctx',
    mp4_validate_ftyp (open_file (file_of sample_tagged) false)
    = Some (MP4TAG_OK, fh1) /\
    mp4_parse_structure fh1 = Some ((MP4TAG_OK, info), fh2) /\
    mp4tag_read_tags
      (mk_ctx (Some fh2) (Some (cs "sample.m4a")) false info None)
    = Some ((MP4TAG_OK,
             Some (album_of
                     (map decoded_item
                        [(MP4_TAG_NAM, MP4_DATA_UTF8, cs "Test Title");
                         (MP4_TAG_ART, MP4_DATA_UTF8, cs "Test Artist")]))),
            ctx').
Proof.
  destruct (@open_then_read_tags sample_tagged (fourcc_of "M4A ")
              (be32_bytes 0) (cs "sample.m4a") []
              [(MP4_TAG_NAM, MP4_DATA_UTF8, cs "Test Title");
               (MP4_TAG_ART, MP4_DATA_UTF8, cs "Test Artist")] false)
    as (fh1 & info & fh2 & ctx' & Hval & Hrun & Hread & _).
  - unfold well_formed, without.
    repeat match goal with |- _ /\ _ => split end;
      try (repeat (apply Forall_cons; [vm_compute; intuition discriminate|]);
           apply Forall_nil);
      vm_compute; reflexivity.
  - reflexivity.
  - vm_compute. intuition discriminate.
  - vm_compute. reflexivity.
  - vm_compute. reflexivity.
  - repeat (apply Forall_cons; [vm_compute; intuition discriminate|]).
    apply Forall_nil.
  - exists fh1, info, fh2, ctx'.
    split; [exact Hval|]. split; [exact Hrun | exact Hread].
Defined.

(** ** The file that [rewrite_file] builds *)

Lemma overwrite_end (d b : list byte) : overwrite d (len d) b = d ++ b.
Proof.
  unfold overwrite, len. rewrite Nat2Z.id, Nat.sub_diag. cbn [repeat].
  rewrite app_nil_r, firstn_all, skipn_all2 by lia.
  now rewrite app_nil_r.
Qed.

Lemma len_slice_full {A} (l : list A) (a n : Z) :
  0 <= a -> 0 <= n -> a + n <= len l -> len (slice l a n) = n.
Proof.
  unfold len, slice. rewrite length_firstn, length_skipn. lia.
Qed.

(** [file_write] at the end of the scratch file appends. *)
Lemma file_write_append (tmp : file_handle) (out bytes : list byte) :
  appended tmp out ->
  exists tmp',
    file_write bytes tmp = Some (0, tmp') /\ appended tmp' (out ++ bytes).
Proof.
  intros (Hq & Hw & Hd & Hp).
  pose proof (len_nonneg out). pose proof (len_nonneg bytes) as Hb.
  destruct (Z.ltb_spec 0 (len bytes)) as [Hpos|Hzero].
  - eexists. split.
    + apply file_write_quiet; [exact Hw | exact Hq | lia | exact Hpos].
    + unfold appended.
      cbn [fd_faults writable fd_data pos]. rewrite Hd, Hp, overwrite_end.
      rewrite len_app. repeat split; reflexivity.
  - assert (bytes = []) as ->
        by (destruct bytes; [reflexivity | unfold len in *; cbn in *; lia]).
    destruct tmp as [d f wr fs p b bs]. cbn in Hq, Hw, Hd, Hp. subst.
    eexists. split.
    + unfold file_write, sys_lseek, os_fault, bind, get, put, ret.
      cbn [negb andb writable fd_faults pos fd_data set_data set_pos set_buf
           file_size_field buf buf_start].
      replace (0 <=? len out) with true by lia. cbn [negb andb].
      change (len []) with 0. change (0 <? 0) with false.
      cbv beta iota. cbn [negb]. reflexivity.
    + rewrite app_nil_r.
      cbn [file_size_field pos buf_start].
      destruct (fs <? len out + 0); unfold appended;
        cbn [fd_faults writable fd_data pos set_file_size set_buf set_pos];
        repeat split; lia.
Qed.

(** [file_read_partial] inside the file returns the bytes asked for. *)
Lemma read_partial_exact (src : file_handle) (n : Z) :
  coherent src -> 0 <= pos src -> 0 <= n ->
  pos src + n <= len (fd_data src) ->
  exists src',
    file_read_partial n src
    = Some ((n, slice (fd_data src) (pos src) n), src') /\
    same_file src src' /\ pos src' = pos src + n.
Proof.
  intros (Hq & Hbuf) Hp Hn Hin.
  pose proof (len_slice_full (fd_data src) Hp Hn Hin) as Hlen.
  clear Hbuf.
  destruct src as [d f wr fs p b bs]. cbn in Hq, Hp, Hin, Hlen. subst f.
  eexists. split; [|split].
  - unfold file_read_partial, sys_lseek, sys_read, os_fault, bind, get, put,
      ret.
    cbn [negb andb writable fd_faults pos fd_data set_data set_pos set_buf
         file_size_field buf buf_start].
    replace (0 <=? p) with true by lia.
    cbn [negb andb writable fd_faults pos fd_data set_data set_pos set_buf
         file_size_field buf buf_start].
    rewrite Hlen. reflexivity.
  - split; [split; [reflexivity | left; reflexivity]|].
    split; reflexivity.
  - reflexivity.
Qed.

(** The copy loop of [rewrite_file]: the scratch file receives the
    bytes of the source from its position on. *)
Lemma copy_loop_exact :
  forall (fuel : nat) (bytes_left : Z) (src tmp : file_handle)
         (out : list byte),
    coherent src -> 0 <= pos src -> 0 <= bytes_left ->
    pos src + bytes_left <= len (fd_data src) ->
    appended tmp out ->
    (Z.to_nat bytes_left < fuel)%nat ->
    exists src' tmp',
      while_loop fuel copy_body bytes_left (src, tmp)
      = Some (Break tt, (src', tmp')) /\
      same_file src src' /\
      appended tmp' (out ++ slice (fd_data src) (pos src) bytes_left).
Proof.
  induction fuel as [|fuel IH];
    intros bytes_left src tmp out Hco Hp Hbl Hin Happ Hfuel; [lia|].
  cbn [while_loop]. unfold bind at 1. unfold copy_body at 1.
  destruct (Z.ltb_spec 0 bytes_left) as [Hpos|Hzero].
  - set (n := if bytes_left <? 65536 then bytes_left else 65536).
    assert (Hn : 0 < n <= bytes_left)
      by (subst n; destruct (Z.ltb_spec bytes_left 65536); lia).
    destruct (@read_partial_exact src n Hco Hp ltac:(lia) ltac:(lia))
      as (src1 & Hread & (Hco1 & Hd1 & Hs1) & Hp1).
    destruct (@file_write_append tmp out (slice (fd_data src) (pos src) n)
                Happ) as (tmp1 & Hwrite & Happ1).
    destruct (IH (bytes_left - n) src1 tmp1
                (out ++ slice (fd_data src) (pos src) n) Hco1)
      as (src' & tmp' & Hloop & (Hco' & Hd' & Hs') & Happ');
      [lia | lia | rewrite Hd1; lia | exact Happ1 | lia |].
    exists src', tmp'. split; [|split].
    + unfold bind at 1. unfold on_src at 1. cbn [fst snd]. rewrite Hread.
      replace (n <=? 0) with false by lia.
      unfold bind at 1. unfold on_tmp at 1. cbn [fst snd]. rewrite Hwrite.
      change (negb (0 =? 0)) with false. cbv beta iota.
      unfold ret at 1. exact Hloop.
    + split; [exact Hco' | split; congruence].
    + rewrite Hd1, Hp1, <- app_assoc, slice_app in Happ' by lia.
      replace (n + (bytes_left - n)) with bytes_left in Happ' by lia.
      exact Happ'.
  - assert (bytes_left = 0) as -> by lia.
    exists src, tmp. split; [reflexivity|].
    split; [apply same_file_refl; exact Hco|].
    unfold slice. cbn [Z.to_nat firstn]. now rewrite app_nil_r.
Qed.

(** [copy_box] on a range inside the source. *)
Lemma copy_box_exact (offset size : Z) (src tmp : file_handle)
      (out : list byte) :
  coherent src -> 0 <= offset -> 0 <= size ->
  offset + size <= len (fd_data src) ->
  appended tmp out ->
  exists src' tmp',
    copy_box offset size (src, tmp) = Some (Break tt, (src', tmp')) /\
    same_file src src' /\
    appended tmp' (out ++ slice (fd_data src) offset size).
Proof.
  intros Hco Hoff Hsize Hin Happ.
  destruct (@copy_loop_exact (read_fuel (set_pos src offset)) size
              (set_pos src offset) tmp out)
    as (src' & tmp' & Hloop & Hsame & Happ');
    [exact Hco | exact Hoff | exact Hsize | exact Hin | exact Happ | |].
  { pose proof (reach_ge_len (set_pos src offset)) as Hr.
    unfold read_fuel. cbn [pos set_pos fd_data] in *. lia. }
  exists src', tmp'. split; [|split; [exact Hsame | exact Happ']].
  unfold copy_box. unfold bind at 1. unfold on_src at 1. cbn [fst snd].
  unfold file_seek at 1, bind, get, put, ret.
  change (negb (0 =? 0)) with false. cbv beta iota. cbn [fst].
  exact Hloop.
Qed.

Lemma slice_box (done rest : list byte) (b : Z * list byte) :
  slice (done ++ box_of b ++ rest) (len done) (8 + len (snd b)) = box_of b.
Proof. rewrite <- len_box_of. apply slice_middle. Qed.

Lemma kept_cons (b : Z * list byte) (bs : list (Z * list byte)) :
  kept (b :: bs)
  = if negb (fst b =? MP4_BOX_UDTA) then b :: kept bs else kept bs.
Proof. reflexivity. Qed.

(** The first pass over the children of moov adds up the sizes of the
    children that are not udta. *)
Lemma measure_loop_exact (moov_end : Z) (rest : list byte) :
  forall (todo : list (Z * list byte)) (done : list byte) (acc : Z)
         (src : file_handle) (fuel : nat),
    Forall box_fits todo -> coherent src -> 0 <= file_size src ->
    fd_data src = done ++ boxes todo ++ rest ->
    moov_end = len done + len (boxes todo) ->
    (length todo < fuel)%nat ->
    exists src',
      while_loop fuel (measure_body moov_end) (len done, acc) src
      = Some (acc + len (boxes (kept todo)), src') /\
      same_file src src'.
Proof.
  induction todo as [|b todo IH];
    intros done acc src fuel Hfit Hco Hfs Hdata Hend Hfuel;
    (destruct fuel as [|fuel]; [cbn in Hfuel; lia|]).
  - exists src. split; [|apply same_file_refl; exact Hco].
    cbn [while_loop]. unfold bind at 1. unfold measure_body at 1.
    change (len (boxes [])) with 0 in Hend.
    replace (len done + 8 <=? moov_end) with false by lia.
    unfold ret. change (len (boxes (kept []))) with 0.
    now rewrite Z.add_0_r.
  - cbn [length] in Hfuel.
    apply Forall_cons_iff in Hfit as (Hb & Hfit).
    rewrite boxes_cons in Hdata, Hend. rewrite <- app_assoc in Hdata.
    rewrite len_app, len_box_of in Hend.
    pose proof (len_nonneg (snd b)). pose proof (len_boxes_nonneg todo).
    destruct (@read_header_of done (boxes todo ++ rest) b src Hb Hco Hfs Hdata)
      as (src1 & Heq1 & Hco1 & Hd1 & Hs1).
    destruct (IH (done ++ box_of b)
                (if negb (fst b =? MP4_BOX_UDTA)
                 then acc + (8 + len (snd b)) else acc)
                src1 fuel Hfit Hco1)
      as (src' & Hloop & Hco' & Hd' & Hs');
      [unfold file_size in *; lia
      | rewrite Hd1, Hdata; now rewrite <- app_assoc
      | rewrite len_app, len_box_of; lia | lia |].
    exists src'. split; [|split; [exact Hco' | split; congruence]].
    cbn [while_loop]. unfold bind at 1. unfold measure_body at 1.
    replace (len done + 8 <=? moov_end) with true by lia.
    unfold bind at 1. unfold file_seek at 1, bind, get, put, ret.
    change (negb (0 =? 0)) with false. cbv beta iota.
    rewrite Heq1. unfold header_at.
    cbn [negb Z.eqb MP4TAG_OK box_size box_type box_offset orb].
    replace (8 + len (snd b) <? 8) with false by lia.
    rewrite len_app, len_box_of in Hloop.
    rewrite Hloop. rewrite kept_cons.
    destruct (negb (fst b =? MP4_BOX_UDTA)); [|reflexivity].
    rewrite boxes_cons, len_app, len_box_of. f_equal. f_equal. lia.
Qed.

(** The second pass copies the children that are not udta. *)
Lemma copy_children_exact (moov_end : Z) (rest : list byte) :
  forall (todo : list (Z * list byte)) (done out : list byte)
         (src tmp : file_handle) (fuel : nat),
    Forall box_fits todo -> coherent src -> 0 <= file_size src ->
    fd_data src = done ++ boxes todo ++ rest ->
    moov_end = len done + len (boxes todo) ->
    appended tmp out ->
    (length todo < fuel)%nat ->
    exists src' tmp',
      while_loop fuel (copy_children_body moov_end) (len done) (src, tmp)
      = Some (Break tt, (src', tmp')) /\
      same_file src src' /\ appended tmp' (out ++ boxes (kept todo)).
Proof.
  induction todo as [|b todo IH];
    intros done out src tmp fuel Hfit Hco Hfs Hdata Hend Happ Hfuel;
    (destruct fuel as [|fuel]; [cbn in Hfuel; lia|]).
  - exists src, tmp. split; [|split; [apply same_file_refl; exact Hco|]].
    + cbn [while_loop]. unfold bind at 1. unfold copy_children_body at 1.
      change (len (boxes [])) with 0 in Hend.
      replace (len done + 8 <=? moov_end) with false by lia.
      reflexivity.
    + change (boxes (kept [])) with (@nil byte). now rewrite app_nil_r.
  - cbn [length] in Hfuel.
    apply Forall_cons_iff in Hfit as (Hb & Hfit).
    rewrite boxes_cons in Hdata, Hend. rewrite <- app_assoc in Hdata.
    rewrite len_app, len_box_of in Hend.
    pose proof (len_nonneg (snd b)). pose proof (len_boxes_nonneg todo).
    pose proof (len_nonneg done). pose proof (len_nonneg rest).
    destruct (@read_header_of done (boxes todo ++ rest) b src Hb Hco Hfs Hdata)
      as (src1 & Heq1 & Hco1 & Hd1 & Hs1).
    assert (Hstep : exists src2 tmp2,
               (if negb (fst b =? MP4_BOX_UDTA)
                then copy_box (len done) (8 + len (snd b))
                else ret (Break tt)) (src1, tmp)
               = Some (Break tt, (src2, tmp2)) /\
               same_file src1 src2 /\
               appended tmp2 (out ++ boxes (kept [b]))).
    { unfold kept. cbn [filter].
      destruct (negb (fst b =? MP4_BOX_UDTA)).
      - destruct (@copy_box_exact (len done) (8 + len (snd b)) src1 tmp out
                    Hco1) as (src2 & tmp2 & Hcopy & Hsame2 & Happ2);
          [lia | lia
          | rewrite Hd1, Hdata, !len_app, len_box_of; lia | exact Happ |].
        exists src2, tmp2. split; [exact Hcopy|]. split; [exact Hsame2|].
        rewrite Hd1, Hdata, slice_box in Happ2.
        change (boxes [b]) with (box_of b ++ []). now rewrite app_nil_r.
      - exists src1, tmp. split; [reflexivity|].
        split; [apply same_file_refl; exact Hco1|].
        change (boxes []) with (@nil byte). now rewrite app_nil_r. }
    destruct Hstep as (src2 & tmp2 & Hstep & (Hco2 & Hd2 & Hs2) & Happ2).
    destruct (IH (done ++ box_of b) (out ++ boxes (kept [b])) src2 tmp2 fuel
                Hfit Hco2)
      as (src' & tmp' & Hloop & (Hco' & Hd' & Hs') & Happ');
      [unfold file_size in *; lia
      | rewrite Hd2, Hd1, Hdata; now rewrite <- app_assoc
      | rewrite len_app, len_box_of; lia | exact Happ2 | lia |].
    exists src', tmp'. split; [|split].
    + cbn [while_loop]. unfold bind at 1. unfold copy_children_body at 1.
      replace (len done + 8 <=? moov_end) with true by lia.
      unfold bind at 1. unfold on_src at 1. cbn [fst snd].
      unfold file_seek at 1, bind, get, put, ret.
      change (negb (0 =? 0)) with false. cbv beta iota.
      unfold on_src at 1. cbn [fst snd]. rewrite Heq1. unfold header_at.
      cbn [negb Z.eqb MP4TAG_OK box_size box_type box_offset orb].
      replace (8 + len (snd b) <? 8) with false by lia.
      unfold ret in Hstep. rewrite Hstep.
      rewrite len_app, len_box_of in Hloop. exact Hloop.
    + split; [exact Hco' | split; congruence].
    + rewrite <- app_assoc in Happ'.
      replace (boxes (kept [b]) ++ boxes (kept todo))
        with (boxes (kept (b :: todo))) in Happ'; [exact Happ'|].
      rewrite <- boxes_app. unfold kept. cbn [filter].
      destruct (negb (fst b =? MP4_BOX_UDTA)); reflexivity.
Qed.

(** [rewrite_file] rebuilds moov: its header with the new size, its
    children but udta, the new udta. *)
Lemma rebuild_moov_exact (done rest out udta_buf : list byte)
      (children : list (Z * list byte)) (src tmp : file_handle) :
  Forall box_fits children -> coherent src -> 0 <= file_size src ->
  fd_data src = done ++ box_of (MP4_BOX_MOOV, boxes children) ++ rest ->
  8 + len (boxes (kept children)) + len udta_buf < 4294967296 ->
  appended tmp out ->
  exists src' tmp',
    rebuild_moov (header_at (len done) (MP4_BOX_MOOV, boxes children))
                 udta_buf (src, tmp)
    = Some (Break tt, (src', tmp')) /\
    same_file src src' /\
    appended tmp'
      (out ++ box_bytes MP4_BOX_MOOV (boxes (kept children) ++ udta_buf)).
Proof.
  intros Hfit Hco Hfs Hdata Hnew Happ.
  pose proof (len_boxes_nonneg children) as Hc0.
  pose proof (len_boxes_nonneg (kept children)) as Hk0.
  pose proof (len_nonneg udta_buf) as Hu0.
  set (hdr := be32_bytes (8 + len (boxes children))
              ++ be32_bytes MP4_BOX_MOOV).
  assert (Lhdr : len (done ++ hdr) = len done + 8)
    by (subst hdr; rewrite !len_app, !len_be32_bytes; lia).
  assert (D : fd_data src = (done ++ hdr) ++ boxes children ++ rest).
  { rewrite Hdata. subst hdr. unfold box_of, box_bytes. cbn [fst snd].
    now rewrite <- !app_assoc. }
  set (moov_end := len done + (8 + len (boxes children))).
  assert (Hend : moov_end = len (done ++ hdr) + len (boxes children))
    by (subst moov_end; lia).
  destruct (@walk_fuel_enough src (done ++ hdr) rest children D)
    as (extra & Hfuel).
  destruct (@measure_loop_exact moov_end rest children (done ++ hdr) 0 src
              (walk_fuel src) Hfit Hco Hfs D Hend ltac:(lia))
    as (src1 & Hmeasure & Hco1 & Hd1 & Hs1).
  rewrite Lhdr in Hmeasure. cbn [Z.add] in Hmeasure.
  set (new_size := 8 + len (boxes (kept children)) + len udta_buf).
  destruct (@file_write_append tmp out
              (be32_bytes new_size ++ be32_bytes MP4_BOX_MOOV) Happ)
    as (tmp1 & Hwrite & Happ1).
  destruct (@walk_fuel_enough src1 (done ++ hdr) rest children
              ltac:(congruence)) as (extra1 & Hfuel1).
  destruct (@copy_children_exact moov_end rest children (done ++ hdr)
              (out ++ be32_bytes new_size ++ be32_bytes MP4_BOX_MOOV)
              src1 tmp1 (walk_fuel src1) Hfit Hco1)
    as (src2 & tmp2 & Hcopy & (Hco2 & Hd2 & Hs2) & Happ2);
    [unfold file_size in *; lia | congruence | exact Hend | exact Happ1
    | lia |].
  rewrite Lhdr in Hcopy.
  destruct (@file_write_append tmp2 _ udta_buf Happ2)
    as (tmp3 & Hwrite3 & Happ3).
  exists src2, tmp3. split; [|split].
  - unfold rebuild_moov, header_at.
    cbn [box_offset box_size data_offset fst snd].
    fold moov_end.
    unfold bind at 1. unfold on_src at 1, get at 1. cbn [fst snd].
    unfold bind at 1. unfold on_src at 1. cbn [fst snd].
    rewrite Hmeasure.
    replace (u32 (u32 (8 + u32 (len (boxes (kept children))))
                  + u32 (len udta_buf))) with new_size.
    2:{ subst new_size. unfold u32.
        rewrite (Z.mod_small (len (boxes (kept children)))) by lia.
        rewrite (Z.mod_small (8 + _)) by lia.
        rewrite (Z.mod_small (len udta_buf)) by lia.
        rewrite Z.mod_small by lia. reflexivity. }
    unfold bind at 1. unfold on_tmp at 1. cbn [fst snd].
    change (mp4_write_box_header [] MP4_BOX_MOOV new_size)
      with (be32_bytes new_size ++ be32_bytes MP4_BOX_MOOV).
    rewrite Hwrite.
    change (negb (0 =? 0)) with false. cbv beta iota.
    unfold bind at 1. unfold on_src at 1, get at 1. cbn [fst snd].
    unfold bind at 1. rewrite Hcopy.
    unfold bind at 1. unfold on_tmp at 1. cbn [fst snd].
    rewrite Hwrite3. reflexivity.
  - split; [exact Hco2 | split; congruence].
  - unfold box_bytes. rewrite len_app. fold new_size.
    replace (8 + (len (boxes (kept children)) + len udta_buf))
      with new_size by (subst new_size; lia).
    rewrite <- !app_assoc in Happ3. exact Happ3.
Qed.

(** The top-level loop of [rewrite_file] copies the boxes that are not
    moov as they are. *)
Lemma rewrite_loop_copy (src_size : Z) (udta_buf rest : list byte) :
  forall (todo : list (Z * list byte)) (done out : list byte)
         (src tmp : file_handle),
    Forall box_fits todo -> without MP4_BOX_MOOV todo ->
    coherent src -> 0 <= file_size src ->
    fd_data src = done ++ boxes todo ++ rest ->
    src_size = len (fd_data src) ->
    appended tmp out ->
    exists src' tmp',
      same_file src src' /\ appended tmp' (out ++ boxes todo) /\
      forall fuel,
        while_loop (length todo + fuel) (rewrite_body src_size udta_buf)
          (len done) (src, tmp)
        = while_loop fuel (rewrite_body src_size udta_buf)
            (len done + len (boxes todo)) (src', tmp').
Proof.
  induction todo as [|b todo IH];
    intros done out src tmp Hfit Hno Hco Hfs Hdata Hsize Happ.
  - exists src, tmp. split; [apply same_file_refl; exact Hco|].
    split; [change (boxes []) with (@nil byte); now rewrite app_nil_r|].
    intros fuel. cbn [length Nat.add]. change (len (boxes [])) with 0.
    now rewrite Z.add_0_r.
  - apply Forall_cons_iff in Hfit as (Hb & Hfit).
    apply Forall_cons_iff in Hno as (Hnb & Hno).
    rewrite boxes_cons in Hdata. rewrite <- app_assoc in Hdata.
    pose proof (len_nonneg (snd b)). pose proof (len_boxes_nonneg todo).
    pose proof (len_nonneg done). pose proof (len_nonneg rest).
    assert (Hlen : len (fd_data src)
                   = len done + (8 + len (snd b)) + len (boxes todo)
                     + len rest)
      by (rewrite Hdata, !len_app, len_box_of; lia).
    destruct (@read_header_of done (boxes todo ++ rest) b src Hb Hco Hfs Hdata)
      as (src1 & Heq1 & Hco1 & Hd1 & Hs1).
    destruct (@copy_box_exact (len done) (8 + len (snd b)) src1 tmp out Hco1)
      as (src2 & tmp2 & Hcopy & (Hco2 & Hd2 & Hs2) & Happ2);
      [lia | lia | rewrite Hd1; lia | exact Happ |].
    rewrite Hd1, Hdata, slice_box in Happ2.
    destruct (IH (done ++ box_of b) (out ++ box_of b) src2 tmp2 Hfit Hno Hco2)
      as (src' & tmp' & (Hco' & Hd' & Hs') & Happ' & Hk);
      [unfold file_size in *; lia
      | rewrite Hd2, Hd1, Hdata; now rewrite <- app_assoc
      | congruence | exact Happ2 |].
    exists src', tmp'. split; [split; [exact Hco' | split; congruence]|].
    split; [rewrite boxes_cons, app_assoc; exact Happ'|].
    intros fuel. cbn [length Nat.add while_loop].
    unfold bind at 1. unfold rewrite_body at 1.
    replace (len done <? src_size) with true by lia.
    unfold bind at 1. unfold on_src at 1. cbn [fst snd].
    unfold file_seek at 1, bind, get, put, ret.
    change (negb (0 =? 0)) with false. cbv beta iota.
    unfold on_src at 1. cbn [fst snd]. rewrite Heq1. unfold header_at.
    cbn [negb Z.eqb MP4TAG_OK box_size box_type box_offset].
    replace (8 + len (snd b) <? 8) with false by lia.
    replace (fst b =? MP4_BOX_MOOV) with false by lia.
    rewrite Hcopy.
    specialize (Hk fuel). rewrite len_app, len_box_of in Hk.
    rewrite Hk. rewrite boxes_cons, !len_app, len_box_of.
    f_equal. lia.
Qed.

(** The round of the top-level loop that meets moov. *)
Lemma rewrite_loop_moov (src_size : Z) (done rest out udta_buf : list byte)
      (children : list (Z * list byte)) (src tmp : file_handle) :
  Forall box_fits children -> 8 + len (boxes children) < 4294967296 ->
  coherent src -> 0 <= file_size src ->
  fd_data src = done ++ box_of (MP4_BOX_MOOV, boxes children) ++ rest ->
  src_size = len (fd_data src) ->
  8 + len (boxes (kept children)) + len udta_buf < 4294967296 ->
  appended tmp out ->
  exists src' tmp',
    same_file src src' /\
    appended tmp'
      (out ++ box_bytes MP4_BOX_MOOV (boxes (kept children) ++ udta_buf)) /\
    forall fuel,
      while_loop (S fuel) (rewrite_body src_size udta_buf)
        (len done) (src, tmp)
      = while_loop fuel (rewrite_body src_size udta_buf)
          (len done + (8 + len (boxes children))) (src', tmp').
Proof.
  intros Hfit Hsz Hco Hfs Hdata Hsize Hnew Happ.
  pose proof (len_boxes_nonneg children). pose proof (len_nonneg done).
  pose proof (len_nonneg rest).
  assert (Hlen : len (fd_data src)
                 = len done + (8 + len (boxes children)) + len rest)
    by (rewrite Hdata, !len_app, len_box_of; cbn [snd]; lia).
  destruct (@read_header_of done rest (MP4_BOX_MOOV, boxes children) src)
    as (src1 & Heq1 & Hco1 & Hd1 & Hs1);
    [split; [vm_compute; intuition discriminate | exact Hsz]
    | exact Hco | exact Hfs | exact Hdata |].
  destruct (@rebuild_moov_exact done rest out udta_buf children src1 tmp
              Hfit Hco1)
    as (src2 & tmp2 & Hre & (Hco2 & Hd2 & Hs2) & Happ2);
    [unfold file_size in *; lia | congruence | exact Hnew | exact Happ |].
  exists src2, tmp2. split; [split; [exact Hco2 | split; congruence]|].
  split; [exact Happ2|].
  intros fuel. cbn [while_loop].
  unfold bind at 1. unfold rewrite_body at 1.
  replace (len done <? src_size) with true by lia.
  unfold bind at 1. unfold on_src at 1. cbn [fst snd].
  unfold file_seek at 1, bind, get, put, ret.
  change (negb (0 =? 0)) with false. cbv beta iota.
  unfold on_src at 1. cbn [fst snd]. rewrite Heq1.
  cbn [negb Z.eqb MP4TAG_OK].
  change (box_size (header_at (len done) (MP4_BOX_MOOV, boxes children)))
    with (8 + len (boxes children)).
  change (box_type (header_at (len done) (MP4_BOX_MOOV, boxes children)))
    with MP4_BOX_MOOV.
  change (box_offset (header_at (len done) (MP4_BOX_MOOV, boxes children)))
    with (len done).
  replace (8 + len (boxes children) <? 8) with false by lia.
  change (MP4_BOX_MOOV =? MP4_BOX_MOOV) with true. cbv beta iota.
  rewrite Hre. reflexivity.
Qed.

(** [rewrite_file] when the operating system reports no failure: the
    file it builds is reopened and parsed again. *)
Lemma rewrite_file_runs (env : os_env) (ctx : mp4tag_context_t)
      (src : file_handle) (path udta_buf : list byte)
      (before children after : list (Z * list byte)) :
  fopen_fails env = false -> open_tmp_fails env = false ->
  tmp_faults env = [] -> rename_fails env = false ->
  reopen_fails env = false ->
  ctx_path ctx = Some path -> ctx_fh ctx = Some src ->
  coherent src -> file_size src = len (fd_data src) ->
  fd_data src
  = boxes before ++ box_of (MP4_BOX_MOOV, boxes children) ++ boxes after ->
  Forall box_fits before -> Forall box_fits children ->
  Forall box_fits after ->
  without MP4_BOX_MOOV before -> without MP4_BOX_MOOV after ->
  8 + len (boxes children) < 4294967296 ->
  8 + len (boxes (kept children)) + len udta_buf < 4294967296 ->
  rewrite_file env udta_buf ctx
  = (reparse ;; ret MP4TAG_OK)
      (set_fh ctx
         (Some (file_open_common
                  (rewritten before children after udta_buf)
                  (reopen_faults env) (ctx_writable ctx)))).
Proof.
  intros Hfo Hot Htf Hrn Hro Hpath Hfh Hco Hsize Hdata Fb Fc Fa Nb Na
         Hsz Hnew.
  pose proof (len_nonneg (fd_data src)) as Hl0.
  assert (Hfs : 0 <= file_size src) by lia.
  set (tmp := file_open_common [] (tmp_faults env) true).
  assert (Happ : appended tmp []).
  { subst tmp. unfold appended. cbn. rewrite Htf. auto. }
  set (moov := (MP4_BOX_MOOV, boxes children)) in *.
  destruct (@rewrite_loop_copy (file_size src) udta_buf
              (box_of moov ++ boxes after) before [] [] src tmp
              Fb Nb Hco Hfs Hdata Hsize Happ)
    as (s1 & t1 & (Hco1 & Hd1 & Hs1) & Happ1 & Hk1).
  cbn [app] in Happ1.
  destruct (@rewrite_loop_moov (file_size src) (boxes before) (boxes after)
              (boxes before) udta_buf children s1 t1 Fc Hsz Hco1)
    as (s2 & t2 & (Hco2 & Hd2 & Hs2) & Happ2 & Hk2);
    [unfold file_size in *; lia | rewrite Hd1; exact Hdata
    | rewrite Hd1; exact Hsize | exact Hnew | exact Happ1 |].
  destruct (@rewrite_loop_copy (file_size src) udta_buf [] after
              (boxes before ++ box_of moov)
              (boxes before
               ++ box_bytes MP4_BOX_MOOV (boxes (kept children) ++ udta_buf))
              s2 t2 Fa Na Hco2)
    as (s3 & t3 & (Hco3 & Hd3 & Hs3) & Happ3 & Hk3);
    [unfold file_size in *; lia
    | rewrite Hd2, Hd1, Hdata, app_nil_r; now rewrite <- app_assoc
    | rewrite Hd2, Hd1; exact Hsize | exact Happ2 |].
  destruct (@walk_fuel_enough src [] [] (before ++ moov :: after))
    as (extra & Hfuel).
  { rewrite Hdata, boxes_app, boxes_cons, app_nil_r. reflexivity. }
  assert (Hloop : while_loop (walk_fuel src)
                    (rewrite_body (file_size src) udta_buf) 0 (src, tmp)
                  = Some (Break tt, (s3, t3))).
  { rewrite Hfuel, length_app. cbn [length].
    replace (length before + S (length after) + S extra)%nat
      with (length before + S (length after + S extra))%nat by lia.
    change 0 with (len (@nil byte)). rewrite Hk1.
    change (len [] + len (boxes before)) with (len (boxes before)).
    rewrite Hk2.
    replace (len (boxes before) + (8 + len (boxes children)))
      with (len (boxes before ++ box_of moov))
      by (rewrite len_app, len_box_of; reflexivity).
    rewrite Hk3. cbn [while_loop].
    unfold bind at 1. unfold rewrite_body at 1.
    replace (len (boxes before ++ box_of moov) + len (boxes after)
             <? file_size src) with false; [reflexivity|].
    symmetry. apply Z.ltb_ge. rewrite Hsize, Hdata, !len_app. lia. }
  destruct Happ3 as (Hq3 & Hw3 & Hdt3 & Hp3).
  assert (Hsync : file_sync t3 = Some (0, t3)).
  { unfold file_sync, sys_fsync, os_fault, bind, ret. rewrite Hq3.
    reflexivity. }
  unfold rewrite_file. unfold bind at 1, get. rewrite Hpath, Hfh.
  rewrite Hfo, Hot. fold tmp. rewrite Hloop, Hsync.
  change (negb (0 =? 0)) with false. cbv beta iota.
  rewrite Hrn. unfold reopen. rewrite Hro.
  rewrite Hdt3. unfold rewritten. rewrite <- !app_assoc. reflexivity.
Qed.

(** When the operating system reports no failure, [rewrite_file] on a
    file made of the top-level boxes [before], one moov box with the
    boxes [children], and the top-level boxes [after], returns
    [MP4TAG_OK] and leaves the context with a handle on the new file:
    the boxes [before] as they were, a moov box that holds the
    children other than udta, as they were and in their order,
    followed by [udta_buf], with the size of that content in its
    header, and the boxes [after] as they were. *)
Theorem rewrite_file_content (env : os_env) (ctx : mp4tag_context_t)
    (src : file_handle) (path udta_buf : list byte)
    (before children after : list (Z * list byte)) :
  fopen_fails env = false -> open_tmp_fails env = false ->
  tmp_faults env = [] -> rename_fails env = false ->
  reopen_fails env = false ->
  ctx_path ctx = Some path -> ctx_fh ctx = Some src ->
  coherent src -> file_size src = len (fd_data src) ->
  fd_data src
  = boxes before ++ box_of (MP4_BOX_MOOV, boxes children) ++ boxes after ->
  Forall box_fits before -> Forall box_fits children ->
  Forall box_fits after ->
  without MP4_BOX_MOOV before -> without MP4_BOX_MOOV after ->
  8 + len (boxes children) < 4294967296 ->
  8 + len (boxes (kept children)) + len udta_buf < 4294967296 ->
  exists ctx' fh,
    rewrite_file env udta_buf ctx = Some (MP4TAG_OK, ctx') /\
    ctx_fh ctx' = Some fh /\
    fd_data fh = rewritten before children after udta_buf.
Proof.
  intros Hfo Hot Htf Hrn Hro Hpath Hfh Hco Hsize Hdata Fb Fc Fa Nb Na
         Hsz Hnew.
  destruct (runs_reparse
              (set_fh ctx
                 (Some (file_open_common
                          (rewritten before children after udta_buf)
                          (reopen_faults env) (ctx_writable ctx)))))
    as ([] & ctx' & Hr & _ & _ & Hfh').
  cbn [ctx_fh set_fh] in Hfh'.
  destruct Hfh' as (fh' & Hfh' & Hframe & _).
  exists ctx', fh'. split; [|split; [exact Hfh' | exact Hframe]].
  rewrite (@rewrite_file_runs env ctx src path udta_buf before children
             after) by assumption.
  unfold bind. rewrite Hr. reflexivity.
Qed.

Lemma rewrite_file_content_witness :
  exists ctx' fh,
    rewrite_file (mk_env false false [] false false [])
      (box_bytes MP4_BOX_UDTA [x07])
      (mk_ctx (Some (open_file
                       (boxes [(MP4_BOX_FTYP, [x01; x02; x03; x04])]
                        ++ box_of (MP4_BOX_MOOV,
                                   boxes [(MP4_BOX_HDLR, [x05]);
                                          (MP4_BOX_UDTA, [x06; x06]);
                                          (MP4_BOX_FREE, [])])
                        ++ boxes [(MP4_BOX_MDAT, [x08; x09])]) true))
              (Some (cs "sample.m4a")) true info_init None)
    = Some (MP4TAG_OK, ctx') /\
    ctx_fh ctx' = Some fh /\
    fd_data fh
    = boxes [(MP4_BOX_FTYP, [x01; x02; x03; x04])]
      ++ box_bytes MP4_BOX_MOOV
           (boxes [(MP4_BOX_HDLR, [x05]); (MP4_BOX_FREE, [])]
            ++ box_bytes MP4_BOX_UDTA [x07])
      ++ boxes [(MP4_BOX_MDAT, [x08; x09])].
Proof.
  destruct (@rewrite_file_content (mk_env false false [] false false [])
              (mk_ctx (Some (open_file
                       (boxes [(MP4_BOX_FTYP, [x01; x02; x03; x04])]
                        ++ box_of (MP4_BOX_MOOV,
                                   boxes [(MP4_BOX_HDLR, [x05]);
                                          (MP4_BOX_UDTA, [x06; x06]);
                                          (MP4_BOX_FREE, [])])
                        ++ boxes [(MP4_BOX_MDAT, [x08; x09])]) true))
                 (Some (cs "sample.m4a")) true info_init None)
              (open_file
                 (boxes [(MP4_BOX_FTYP, [x01; x02; x03; x04])]
                  ++ box_of (MP4_BOX_MOOV,
                             boxes [(MP4_BOX_HDLR, [x05]);
                                    (MP4_BOX_UDTA, [x06; x06]);
                                    (MP4_BOX_FREE, [])])
                  ++ boxes [(MP4_BOX_MDAT, [x08; x09])]) true)
              (cs "sample.m4a") (box_bytes MP4_BOX_UDTA [x07])
              [(MP4_BOX_FTYP, [x01; x02; x03; x04])]
              [(MP4_BOX_HDLR, [x05]); (MP4_BOX_UDTA, [x06; x06]);
               (MP4_BOX_FREE, [])]
              [(MP4_BOX_MDAT, [x08; x09])]
              eq_refl eq_refl eq_refl eq_refl eq_refl eq_refl eq_refl
              (coherent_open _ _) eq_refl eq_refl)
    as (ctx' & fh & Hrun & Hfh & Hd).
  - repeat (apply Forall_cons; [vm_compute; intuition discriminate|]).
    apply Forall_nil.
  - repeat (apply Forall_cons; [vm_compute; intuition discriminate|]).
    apply Forall_nil.
  - repeat (apply Forall_cons; [vm_compute; intuition discriminate|]).
    apply Forall_nil.
  - repeat (apply Forall_cons; [vm_compute; discriminate|]). apply Forall_nil.
  - repeat (apply Forall_cons; [vm_compute; discriminate|]). apply Forall_nil.
  - vm_compute. reflexivity.
  - vm_compute. reflexivity.
  - exists ctx', fh. split; [exact Hrun|]. split; [exact Hfh|].
    rewrite Hd. reflexivity.
Defined.

(** ** Writing tags and reading them back *)

Lemma build_udta_bytes (coll : mp4tag_collection_t) :
  let content := snd (mp4_tags_serialize_ilst coll []) in
  len content < 4294967296 - 61 ->
  mp4_tags_build_udta coll []
  = (MP4TAG_OK,
     box_bytes MP4_BOX_UDTA
       (box_bytes MP4_BOX_META
          (be32_bytes 0 ++ box_bytes MP4_BOX_HDLR hdlr_data
           ++ box_bytes MP4_BOX_ILST content))).
Proof.
  intros content Hlen.
  pose proof (len_nonneg content) as Hc.
  unfold mp4_tags_build_udta.
  assert (Es : mp4_tags_serialize_ilst coll [] = (MP4TAG_OK, content))
    by reflexivity.
  rewrite Es. cbn [negb Z.eqb MP4TAG_OK].
  change (negb (0 =? 0)) with false. cbv beta iota zeta.
  change (len hdlr_data) with 25.
  assert (U1 : u32 (len content) = len content)
    by (apply Z.mod_small; lia).
  rewrite U1.
  assert (U2 : u32 (8 + len content) = 8 + len content)
    by (apply Z.mod_small; lia).
  rewrite U2. change (u32 25) with 25. change (u32 (8 + 25)) with 33.
  assert (U3 : u32 (4 + 33 + (8 + len content)) = 45 + len content)
    by (unfold u32; rewrite Z.mod_small; lia).
  rewrite U3.
  assert (U4 : u32 (8 + (45 + len content)) = 53 + len content)
    by (unfold u32; rewrite Z.mod_small; lia).
  rewrite U4.
  assert (U5 : u32 (8 + (53 + len content)) = 61 + len content)
    by (unfold u32; rewrite Z.mod_small; lia).
  rewrite U5.
  unfold box_bytes, mp4_write_box_header, buffer_append_be32,
    buffer_append.
  rewrite !len_app, !len_be32_bytes. change (len hdlr_data) with 25.
  replace (8 + (4 + (4 + (4 + (4 + (4 + 25) + (4 + (4 + len content)))))))
    with (61 + len content) by lia.
  replace (8 + (4 + (4 + (4 + 25) + (4 + (4 + len content)))))
    with (53 + len content) by lia.
  change (8 + 25) with 33.
  cbn [app]. rewrite <- ?app_assoc. reflexivity.
Qed.

(** The items that [mp4_tags_serialize_ilst] writes for text tags, and
    what they are decoded to. *)
Lemma text_items (nvs : list (list byte * list byte)) :
  Forall (fun nv => stored_as_text (fst nv) /\ c_string (snd nv) /\
                    0 < len (snd nv) /\ 24 + len (snd nv) < 4294967296)
         nvs ->
  let items := map (fun nv => (mp4_tag_name_to_fourcc (Some (fst nv)),
                               MP4_DATA_UTF8, snd nv)) nvs in
  snd (mp4_tags_serialize_ilst
         (album_of (map (fun nv => text_tag (fst nv) (snd nv)) nvs)) [])
  = concat (map item_of items) /\
  map decoded_item items = map read_back nvs /\
  Forall item_fits items.
Proof.
  intros Hall items. split; [|split].
  - subst items. unfold mp4_tags_serialize_ilst, album_of.
    cbn [snd tags fold_left simple_tags]. rewrite serialize_simple_tags.
    cbn [app]. f_equal. rewrite !map_map.
    apply map_ext_in. intros nv Hin.
    rewrite Forall_forall in Hall. destruct (Hall nv Hin) as (Hk & _ & _ & Hl).
    apply serialized_text_item; assumption.
  - subst items. rewrite map_map. apply map_ext_in. intros nv Hin.
    rewrite Forall_forall in Hall. destruct (Hall nv Hin) as (Hk & Hc & Hp & _).
    apply decoded_text_item; assumption.
  - subst items. apply Forall_forall. intros it Hin.
    apply in_map_iff in Hin as (nv & <- & Hin).
    rewrite Forall_forall in Hall. destruct (Hall nv Hin) as (_ & _ & _ & Hl).
    split; [apply name_to_fourcc_range|].
    split; [vm_compute; intuition discriminate | exact Hl].
Qed.

Lemma kept_fits (children : list (Z * list byte)) :
  Forall box_fits children -> Forall box_fits (kept children).
Proof.
  intros H. apply Forall_forall. intros b Hin.
  apply filter_In in Hin as (Hin & _).
  rewrite Forall_forall in H. exact (H b Hin).
Qed.

Lemma kept_without (children : list (Z * list byte)) :
  without MP4_BOX_UDTA (kept children).
Proof.
  apply Forall_forall. intros b Hin.
  apply filter_In in Hin as (_ & Hne).
  intros E. rewrite E in Hne. discriminate Hne.
Qed.

Lemma rewritten_rebuilt (before children after : list (Z * list byte))
      (content : list byte) :
  rewritten before children after
    (box_bytes MP4_BOX_UDTA
       (box_bytes MP4_BOX_META
          (be32_bytes 0 ++ box_bytes MP4_BOX_HDLR hdlr_data
           ++ box_bytes MP4_BOX_ILST content)))
  = file_of (rebuilt before children after content).
Proof.
  unfold rewritten, file_of, moov_payload, udta_payload, meta_payload,
    rebuilt.
  cbn [tf_before tf_m_before tf_u_before tf_version tf_me_before tf_items
       tf_tail tf_u_rest tf_m_rest tf_after].
  change (boxes []) with (@nil byte).
  change (boxes [(MP4_BOX_HDLR, hdlr_data)])
    with (box_bytes MP4_BOX_HDLR hdlr_data ++ []).
  cbn [app]. now rewrite !app_nil_r.
Qed.

Lemma rebuilt_well_formed (before children after : list (Z * list byte))
      (content : list byte) :
  Forall box_fits before -> Forall box_fits children ->
  Forall box_fits after -> without MP4_BOX_MOOV after ->
  8 + len (boxes (kept children)) + (61 + len content) < 4294967296 ->
  well_formed (rebuilt before children after content).
Proof.
  intros Fb Fc Fa Na Hsz.
  unfold well_formed, rebuilt, moov_payload, udta_payload, meta_payload.
  cbn [tf_before tf_m_before tf_u_before tf_version tf_me_before tf_items
       tf_tail tf_u_rest tf_m_rest tf_after].
  split; [exact Fb|]. split; [exact Fa|].
  split; [apply kept_fits; exact Fc|]. split; [apply Forall_nil|].
  split; [apply Forall_cons;
          [vm_compute; intuition discriminate | apply Forall_nil]|].
  split; [apply Forall_nil|]. split; [reflexivity|].
  split.
  { unfold box_bytes. rewrite !len_app, !len_be32_bytes.
    change (len (boxes [])) with 0.
    change (len (boxes [(MP4_BOX_HDLR, hdlr_data)])) with 33.
    change (len []) with 0. lia. }
  split; [exact Na|]. split; [apply kept_without|].
  split; [apply Forall_nil|].
  apply Forall_cons; [vm_compute; discriminate | apply Forall_nil].
Qed.

(** What is written is read back.  On a writable context without an
    ilst, whose file is made of top-level boxes, one of them moov, and
    when the operating system reports no failure,
    [mp4tag_write_tags] with text tags (names stored as text,
    non-empty values) returns [MP4TAG_OK] through the rewrite
    strategy, and [mp4tag_read_tags] on the context it leaves returns
    [MP4TAG_OK] with one ALBUM tag that holds the same tags, in the
    same order, under the names of their FourCCs and with the same
    values. *)
Theorem write_then_read_tags (env : os_env) (ctx : mp4tag_context_t)
    (src : file_handle) (path : list byte)
    (before children after : list (Z * list byte))
    (nvs : list (list byte * list byte)) :
  fopen_fails env = false -> open_tmp_fails env = false ->
  tmp_faults env = [] -> rename_fails env = false ->
  reopen_fails env = false -> reopen_faults env = [] ->
  ctx_path ctx = Some path -> ctx_fh ctx = Some src ->
  ctx_writable ctx = true -> has_ilst (ctx_info ctx) = false ->
  coherent src -> file_size src = len (fd_data src) ->
  fd_data src
  = boxes before ++ box_of (MP4_BOX_MOOV, boxes children) ++ boxes after ->
  Forall box_fits before -> Forall box_fits children ->
  Forall box_fits after ->
  without MP4_BOX_MOOV before -> without MP4_BOX_MOOV after ->
  8 + len (boxes children) < 4294967296 ->
  Forall (fun nv => stored_as_text (fst nv) /\ c_string (snd nv) /\
                    0 < len (snd nv) /\ 24 + len (snd nv) < 4294967296)
         nvs ->
  let coll := album_of (map (fun nv => text_tag (fst nv) (snd nv)) nvs) in
  8 + len (boxes (kept children))
  + (61 + len (snd (mp4_tags_serialize_ilst coll []))) < 4294967296 ->
  exists ctx1 ctx2,
    mp4tag_write_tags env coll ctx = Some (MP4TAG_OK, ctx1) /\
    mp4tag_read_tags ctx1
    = Some ((MP4TAG_OK, Some (album_of (map read_back nvs))), ctx2).
Proof.
  intros Hfo Hot Htf Hrn Hro Hrf Hpath Hfh Hw Hno Hco Hsize Hdata Fb Fc Fa
         Nb Na Hsz Hall coll Hnew.
  set (content := snd (mp4_tags_serialize_ilst coll [])) in *.
  destruct (text_items Hall) as (Hbody & Hdec & Hfit).
  fold coll in Hbody. fold content in Hbody.
  set (items := map (fun nv => (mp4_tag_name_to_fourcc (Some (fst nv)),
                                MP4_DATA_UTF8, snd nv)) nvs) in *.
  pose proof (len_nonneg content) as Hc0.
  pose proof (len_boxes_nonneg (kept children)) as Hk0.
  set (udta := box_bytes MP4_BOX_UDTA
                 (box_bytes MP4_BOX_META
                    (be32_bytes 0 ++ box_bytes MP4_BOX_HDLR hdlr_data
                     ++ box_bytes MP4_BOX_ILST content))).
  assert (Hu : mp4_tags_build_udta coll [] = (MP4TAG_OK, udta))
    by (apply build_udta_bytes; fold content; lia).
  assert (Hs : mp4_tags_serialize_ilst coll [] = (MP4TAG_OK, content))
    by reflexivity.
  assert (Ludta : len udta = 61 + len content).
  { subst udta. unfold box_bytes. rewrite !len_app, !len_be32_bytes.
    change (len hdlr_data) with 25. lia. }
  set (ctx0 := set_cached ctx None).
  set (t := rebuilt before children after content).
  assert (Hwf : well_formed t)
    by (apply rebuilt_well_formed; assumption).
  pose proof (@rewrite_file_runs env ctx0 src path udta before children after
                Hfo Hot Htf Hrn Hro Hpath Hfh Hco Hsize Hdata Fb Fc Fa Nb Na
                Hsz ltac:(lia)) as Hrw.
  rewrite Hrf in Hrw. cbn [ctx_writable ctx0 set_cached] in Hrw.
  rewrite Hw in Hrw.
  subst udta. rewrite rewritten_rebuilt in Hrw. fold t in Hrw.
  destruct (@parse_structure_tagged t (open_file (file_of t) true) Hwf
              (coherent_open _ _) eq_refl eq_refl)
    as (info & fh' & Hrun & (Hco' & Hd' & Hs') & _ & _ & _ & _ & _ & _ & _
        & _ & _ & _ & Hhi & Hio & His & _).
  cbn [fd_data file_size_field open_file file_open_common] in Hd', Hs'.
  destruct Hwf as (_ & _ & _ & _ & _ & _ & Hv & _).
  destruct (ilst_in_file t Hv) as (pre & rest & Hsplit & Lpre).
  change (tf_items t) with content in Hsplit, His.
  destruct (@parse_ilst_at pre rest items info fh' Hfit Hco')
    as (fh3 & Hparse & _);
    [unfold file_size; rewrite Hs'; apply len_nonneg
    | rewrite Hd', Hsplit, Hbody; reflexivity
    | exact Hhi | rewrite Hio, Lpre; reflexivity
    | rewrite His, Hbody; reflexivity |].
  set (ctx1 := set_info
                 (set_fh (set_fh ctx0
                            (Some (file_open_common (file_of t) [] true)))
                         (Some fh')) info).
  exists ctx1.
  exists (set_cached (set_fh ctx1 (Some fh3))
                     (Some (album_of (map read_back nvs)))).
  split.
  - unfold mp4tag_write_tags. rewrite Hs, Hu.
    unfold bind at 1, get. rewrite Hfh, Hw. cbn [negb].
    unfold bind at 1. unfold invalidate_cache, bind, get, put.
    change (negb (MP4TAG_OK =? MP4TAG_OK)) with false. cbv beta iota.
    rewrite Hno. fold ctx0. rewrite Hrw.
    unfold reparse, bind, on_fh, get, put, ret. cbn [ctx_fh set_fh].
    change (file_open_common (file_of t) [] true)
      with (open_file (file_of t) true).
    rewrite Hrun. reflexivity.
  - unfold mp4tag_read_tags. unfold bind at 1, get.
    subst ctx1 ctx0. cbn [ctx_fh cached_tags ctx_info set_info set_fh
                          set_cached].
    rewrite Hhi. cbn [negb].
    unfold bind at 1. unfold on_fh at 1.
    cbn [ctx_fh cached_tags ctx_info set_info set_fh set_cached].
    rewrite Hparse. rewrite Hdec. reflexivity.
Qed.

Lemma write_then_read_tags_witness :
  exists ctx1 ctx2,
    mp4tag_write_tags (mk_env false false [] false false [])
      (album_of [text_tag (cs "TITLE") (cs "Test Title");
                 text_tag (cs "ARTIST") (cs "Test Artist")])
      (mk_ctx (Some (open_file
                       (boxes [(MP4_BOX_FTYP, [x01; x02; x03; x04])]
                        ++ box_of (MP4_BOX_MOOV,
                                   boxes [(MP4_BOX_HDLR, [x05]);
                                          (MP4_BOX_FREE, [])])
                        ++ boxes [(MP4_BOX_MDAT, [x08; x09])]) true))
              (Some (cs "sample.m4a")) true info_init None)
    = Some (MP4TAG_OK, ctx1) /\
    mp4tag_read_tags ctx1
    = Some ((MP4TAG_OK,
             Some (album_of
                     (map read_back [(cs "TITLE", cs "Test Title");
                                     (cs "ARTIST", cs "Test Artist")]))),
            ctx2).
Proof.
  apply (@write_then_read_tags (mk_env false false [] false false [])
           (mk_ctx (Some (open_file
                       (boxes [(MP4_BOX_FTYP, [x01; x02; x03; x04])]
                        ++ box_of (MP4_BOX_MOOV,
                                   boxes [(MP4_BOX_HDLR, [x05]);
                                          (MP4_BOX_FREE, [])])
                        ++ boxes [(MP4_BOX_MDAT, [x08; x09])]) true))
              (Some (cs "sample.m4a")) true info_init None)
           (open_file
              (boxes [(MP4_BOX_FTYP, [x01; x02; x03; x04])]
               ++ box_of (MP4_BOX_MOOV,
                          boxes [(MP4_BOX_HDLR, [x05]); (MP4_BOX_FREE, [])])
               ++ boxes [(MP4_BOX_MDAT, [x08; x09])]) true)
           (cs "sample.m4a")
           [(MP4_BOX_FTYP, [x01; x02; x03; x04])]
           [(MP4_BOX_HDLR, [x05]); (MP4_BOX_FREE, [])]
           [(MP4_BOX_MDAT, [x08; x09])]
           [(cs "TITLE", cs "Test Title"); (cs "ARTIST", cs "Test Artist")]
           eq_refl eq_refl eq_refl eq_refl eq_refl eq_refl eq_refl eq_refl
           eq_refl eq_refl (coherent_open _ _) eq_refl eq_refl).
  - repeat (apply Forall_cons; [vm_compute; intuition discriminate|]).
    apply Forall_nil.
  - repeat (apply Forall_cons; [vm_compute; intuition discriminate|]).
    apply Forall_nil.
  - repeat (apply Forall_cons; [vm_compute; intuition discriminate|]).
    apply Forall_nil.
  - repeat (apply Forall_cons; [vm_compute; discriminate|]). apply Forall_nil.
  - repeat (apply Forall_cons; [vm_compute; discriminate|]). apply Forall_nil.
  - vm_compute. reflexivity.
  - repeat (apply Forall_cons;
            [split; [vm_compute; intuition discriminate|];
             split; [vm_compute; intuition discriminate|];
             split; vm_compute; reflexivity|]).
    apply Forall_nil.
  - vm_compute. reflexivity.
Defined.

(** ** Writing tags in place and reading them back *)

(** [file_write] when the operating system reports no failure. *)
Lemma file_write_ok (fh : file_handle) (bytes : list byte) :
  writable fh = true -> fd_faults fh = [] -> 0 <= pos fh ->
  exists fh',
    file_write bytes fh = Some (0, fh') /\
    writable fh' = true /\ fd_faults fh' = [] /\ buf fh' = [] /\
    pos fh' = pos fh + len bytes /\
    file_size_field fh' = Z.max (file_size_field fh) (pos fh + len bytes).
Proof.
  intros Hw Hq Hp. pose proof (len_nonneg bytes) as Hb.
  destruct (Z.ltb_spec 0 (len bytes)) as [Hpos|Hzero].
  - eexists. split; [apply file_write_quiet; assumption|].
    cbn [writable fd_faults buf pos file_size_field]. auto.
  - assert (bytes = []) as ->
        by (destruct bytes; [reflexivity | unfold len in *; cbn in *; lia]).
    destruct fh as [d f wr fs p b bs]. cbn in Hq, Hw, Hp. subst.
    eexists. split.
    + unfold file_write, sys_lseek, os_fault, bind, get, put, ret.
      cbn [negb andb writable fd_faults pos fd_data set_data set_pos set_buf
           file_size_field buf buf_start].
      replace (0 <=? p) with true by lia. cbn [negb andb].
      change (len []) with 0. change (0 <? 0) with false.
      cbv beta iota. cbn [negb]. reflexivity.
    + cbn [file_size_field pos buf_start].
      destruct (Z.ltb_spec fs (p + 0));
        cbn [fd_faults writable fd_data pos set_file_size set_buf set_pos
             buf file_size_field];
        repeat split; lia.
Qed.

Lemma overwrite_middle (p old q b : list byte) :
  len b = len old ->
  overwrite (p ++ old ++ q) (len p) b = p ++ b ++ q.
Proof.
  intros Hlen. unfold overwrite, len in *. rewrite Nat2Z.id.
  replace (length p - length (p ++ old ++ q))%nat with 0%nat
    by (rewrite !length_app; lia).
  cbn [repeat]. rewrite app_nil_r.
  rewrite firstn_app, firstn_all, Nat.sub_diag. cbn [firstn].
  rewrite app_nil_r. f_equal. f_equal.
  replace (length b) with (length old) by lia.
  rewrite skipn_app, skipn_all2 by lia. cbn [app].
  replace (length p + length old - length p)%nat with (length old) by lia.
  rewrite skipn_app, skipn_all, Nat.sub_diag. reflexivity.
Qed.

(** The writes of [try_inplace] when the operating system reports no
    failure and what remains is nothing or room for a free box. *)
Lemma inplace_writes_quiet (info : mp4_file_info_t) (content : list byte)
      (fh : file_handle) :
  writable fh = true -> fd_faults fh = [] -> 0 <= ilst_offset info ->
  available info < 4294967296 ->
  available info - (8 + len content) = 0
  \/ 8 <= available info - (8 + len content) ->
  exists fh',
    inplace_writes info content (8 + len content) fh = Some (0, fh') /\
    fd_faults fh' = [] /\ buf fh' = [] /\
    fd_data fh' = overwrite (fd_data fh) (ilst_offset info)
                    (ilst_image (available info) content) /\
    file_size_field fh'
    = Z.max (file_size_field fh) (ilst_offset info + available info).
Proof.
  intros Hw Hq Hoff Hmax Hrem. pose proof (len_nonneg content) as Hc.
  destruct (@file_write_ok (set_pos fh (ilst_offset info))
              (mp4_write_box_header [] MP4_BOX_ILST (8 + len content))
              Hw Hq Hoff)
    as (fh1 & Hw1 & Hwr1 & Hq1 & Hb1 & Hp1 & Hs1).
  change (len (mp4_write_box_header [] MP4_BOX_ILST (8 + len content)))
    with 8 in *.
  cbn [pos set_pos file_size_field] in Hp1, Hs1.
  destruct (@file_write_ok fh1 content Hwr1 Hq1 ltac:(lia))
    as (fh2 & Hw2 & Hwr2 & Hq2 & Hb2 & Hp2 & Hs2).
  assert (Hrun : exists fh',
             inplace_writes info content (8 + len content) fh
             = Some (0, fh') /\
             fd_faults fh' = [] /\ buf fh' = [] /\
             file_size_field fh'
             = Z.max (file_size_field fh)
                     (ilst_offset info + available info)).
  { unfold inplace_writes.
    unfold bind at 1. unfold file_seek at 1, bind, get, put, ret.
    change (negb (0 =? 0)) with false. cbv beta iota.
    rewrite Hw1. change (negb (0 =? 0)) with false. cbv beta iota.
    rewrite Hw2. change (negb (0 =? 0)) with false. cbv beta iota.
    destruct Hrem as [Hzero | Hbig].
    - rewrite Hzero. change (8 <=? 0) with false. change (0 <? 0) with false.
      cbv beta iota. exists fh2. split; [reflexivity|].
      split; [exact Hq2|]. split; [exact Hb2|]. lia.
    - replace (8 <=? available info - (8 + len content)) with true by lia.
      destruct (@file_write_ok fh2
                  (snd (mp4_write_free_box []
                          (u32 (available info - (8 + len content)))))
                  Hwr2 Hq2 ltac:(lia))
        as (fh3 & Hw3 & Hwr3 & Hq3 & Hb3 & Hp3 & Hs3).
      rewrite Hw3. exists fh3. split; [reflexivity|].
      split; [exact Hq3|]. split; [exact Hb3|].
      assert (Lfree : len (snd (mp4_write_free_box []
                           (u32 (available info - (8 + len content)))))
                      = available info - (8 + len content)).
      { unfold mp4_write_free_box, u32. rewrite Z.mod_small by lia.
        replace (available info - (8 + len content) <? 8) with false by lia.
        cbn [snd]. unfold buffer_append_zeros, mp4_write_box_header,
          buffer_append_be32, buffer_append.
        rewrite !len_app, !len_be32_bytes, len_repeat by lia.
        change (len []) with 0. lia. }
      rewrite Lfree in Hs3. lia. }
  destruct Hrun as (fh' & Hrun & Hq' & Hb' & Hs').
  exists fh'. split; [exact Hrun|]. split; [exact Hq'|].
  split; [exact Hb'|]. split; [|exact Hs'].
  destruct (runs_result (@runs_inplace_writes info content fh ltac:(lia) Hmax)
              Hrun) as (_ & Hd).
  exact (proj2 (Hd eq_refl)).
Qed.

(** The children of meta after ilst: the free box that counts as room
    of ilst, then the others. *)
Lemma tail_split (t : tagged_file) :
  exists old_free,
    boxes (tf_tail t) = old_free ++ boxes (tail_kept t) /\
    8 + len (tf_items t) + len old_free = room t.
Proof.
  unfold tail_kept, room, free_after.
  destruct (tf_tail t) as [|b tail].
  - exists []. split; [reflexivity | change (len []) with 0; lia].
  - destruct ((fst b =? MP4_BOX_FREE) || (fst b =? MP4_BOX_SKIP)).
    + exists (box_of b). split; [apply boxes_cons|].
      rewrite len_box_of. lia.
    + exists []. split; [reflexivity | change (len []) with 0; lia].
Qed.

Lemma len_new_tail (t : tagged_file) (content : list byte) :
  room t - (8 + len content) = 0 \/ 8 <= room t - (8 + len content) ->
  len (boxes (tf_tail (replaced_items t content)))
  = room t - (8 + len content) + len (boxes (tail_kept t)).
Proof.
  intros Hrem. unfold replaced_items. cbn [tf_tail].
  rewrite boxes_app, len_app. f_equal.
  destruct Hrem as [Hzero | Hbig].
  - rewrite Hzero. reflexivity.
  - replace (8 <=? room t - (8 + len content)) with true by lia.
    change (boxes [(MP4_BOX_FREE,
                    repeat x00 (Z.to_nat (room t - (8 + len content) - 8)))])
      with (box_of (MP4_BOX_FREE,
                    repeat x00 (Z.to_nat (room t - (8 + len content) - 8)))
            ++ []).
    rewrite app_nil_r, len_box_of. cbn [snd]. rewrite len_repeat by lia. lia.
Qed.

(** Replacing ilst in its room changes no size on the way to it. *)
Lemma replaced_sizes (t : tagged_file) (content : list byte) :
  len (tf_version t) = 4 ->
  room t - (8 + len content) = 0 \/ 8 <= room t - (8 + len content) ->
  let t' := replaced_items t content in
  len (meta_payload t') = len (meta_payload t) /\
  len (udta_payload t') = len (udta_payload t) /\
  len (moov_payload t') = len (moov_payload t).
Proof.
  intros Hv Hrem t'.
  destruct (tail_split t) as (old_free & Htail & Hroom).
  pose proof (len_new_tail t content Hrem) as Hnew. fold t' in Hnew.
  assert (Hm : len (meta_payload t') = len (meta_payload t)).
  { unfold meta_payload, box_bytes.
    rewrite !len_app, !len_be32_bytes, Hnew, Htail, len_app.
    subst t'. cbn [tf_version tf_me_before tf_items replaced_items]. lia. }
  assert (Hu : len (udta_payload t') = len (udta_payload t)).
  { unfold udta_payload, box_bytes.
    rewrite !len_app, !len_be32_bytes, Hm. reflexivity. }
  split; [exact Hm|]. split; [exact Hu|].
  unfold moov_payload, box_bytes.
  rewrite !len_app, !len_be32_bytes, Hu. reflexivity.
Qed.

(** The file after [try_inplace] is the tagged file with the items
    replaced. *)
Lemma replaced_file (t : tagged_file) (content : list byte) :
  len (tf_version t) = 4 ->
  8 + len content <= room t ->
  room t - (8 + len content) = 0 \/ 8 <= room t - (8 + len content) ->
  overwrite (file_of t) (ilst_position t) (ilst_image (room t) content)
  = file_of (replaced_items t content) /\
  ilst_position t + room t <= len (file_of t) /\
  len (file_of (replaced_items t content)) = len (file_of t).
Proof.
  intros Hv Hfit Hrem.
  destruct (tail_split t) as (old_free & Htail & Hroom).
  destruct (replaced_sizes t content Hv Hrem) as (Hm & Hu & Hmo).
  set (t' := replaced_items t content) in *.
  set (P := boxes (tf_before t)
            ++ (be32_bytes (8 + len (moov_payload t))
                ++ be32_bytes MP4_BOX_MOOV)
            ++ boxes (tf_m_before t)
            ++ (be32_bytes (8 + len (udta_payload t))
                ++ be32_bytes MP4_BOX_UDTA)
            ++ boxes (tf_u_before t)
            ++ (be32_bytes (8 + len (meta_payload t))
                ++ be32_bytes MP4_BOX_META)
            ++ tf_version t ++ boxes (tf_me_before t)).
  set (Q := boxes (tail_kept t) ++ tf_u_rest t ++ tf_m_rest t
            ++ boxes (tf_after t)).
  assert (LP : len P = ilst_position t).
  { subst P. unfold ilst_position, meta_position, udta_position,
      moov_position. rewrite !len_app, !len_be32_bytes, Hv. lia. }
  assert (D : file_of t
              = P ++ (box_bytes MP4_BOX_ILST (tf_items t) ++ old_free) ++ Q).
  { subst P Q. unfold file_of, box_bytes.
    unfold moov_payload at 2. unfold box_bytes.
    unfold udta_payload at 2. unfold box_bytes.
    unfold meta_payload at 2. unfold box_bytes.
    rewrite Htail. now rewrite <- !app_assoc. }
  assert (D' : file_of t' = P ++ ilst_image (room t) content ++ Q).
  { subst P Q. unfold file_of, box_bytes.
    unfold moov_payload at 2. unfold box_bytes.
    unfold udta_payload at 2. unfold box_bytes.
    unfold meta_payload at 2. unfold box_bytes.
    rewrite Hm, Hu, Hmo.
    subst t'. unfold replaced_items at 1 2 3 4 5 6 7 8 9.
    cbn [tf_before tf_m_before tf_u_before tf_version tf_me_before tf_items
         tf_tail tf_u_rest tf_m_rest tf_after].
    rewrite boxes_app. unfold ilst_image, box_bytes. cbv zeta.
    rewrite <- !app_assoc. do 12 f_equal.
    destruct Hrem as [Hzero | Hbig].
    - rewrite Hzero. reflexivity.
    - replace (8 <=? room t - (8 + len content)) with true by lia.
      change (boxes [(MP4_BOX_FREE,
                      repeat x00 (Z.to_nat (room t - (8 + len content) - 8)))])
        with (box_of (MP4_BOX_FREE,
                      repeat x00 (Z.to_nat (room t - (8 + len content) - 8)))
              ++ []).
      unfold box_of, box_bytes. cbn [fst snd].
      rewrite len_repeat by lia.
      replace (8 + (room t - (8 + len content) - 8))
        with (room t - (8 + len content)) by lia.
      rewrite <- !app_assoc. reflexivity. }
  assert (Lold : len (box_bytes MP4_BOX_ILST (tf_items t) ++ old_free)
                 = room t).
  { unfold box_bytes. rewrite !len_app, !len_be32_bytes. lia. }
  pose proof (@len_ilst_image (room t) content Hfit) as Limg.
  assert (L3 : forall X, len (P ++ X ++ Q) = len P + len X + len Q)
    by (intros X; rewrite !len_app; lia).
  split; [|split].
  - rewrite D, D', <- LP. apply overwrite_middle. lia.
  - rewrite D, L3, Lold, LP. pose proof (len_nonneg Q). lia.
  - rewrite D, D', !L3, Lold, Limg. reflexivity.
Qed.

Lemma room_bound (t : tagged_file) :
  8 + len (moov_payload t) < 4294967296 -> room t < 4294967296.
Proof.
  intros Hsz.
  destruct (tail_split t) as (old_free & Htail & Hroom).
  unfold moov_payload, udta_payload, meta_payload, box_bytes in Hsz.
  rewrite !len_app, !len_be32_bytes, Htail, len_app in Hsz.
  pose proof (len_boxes_nonneg (tf_m_before t)).
  pose proof (len_boxes_nonneg (tf_u_before t)).
  pose proof (len_boxes_nonneg (tf_me_before t)).
  pose proof (len_boxes_nonneg (tail_kept t)).
  pose proof (len_nonneg (tf_u_rest t)).
  pose proof (len_nonneg (tf_m_rest t)).
  pose proof (len_nonneg (tf_version t)). lia.
Qed.

Lemma replaced_well_formed (t : tagged_file) (content : list byte) :
  well_formed t ->
  8 + len content <= room t ->
  room t - (8 + len content) = 0 \/ 8 <= room t - (8 + len content) ->
  well_formed (replaced_items t content).
Proof.
  intros (Fb & Fa & Fm & Fu & Fme & Ft & Hv & Hsz & Na & Nm & Nu & Nme)
         Hfit Hrem.
  destruct (replaced_sizes t content Hv Hrem) as (_ & _ & Hmo).
  destruct (replaced_file t content Hv Hfit Hrem) as (_ & Hin & _).
  pose proof (room_bound t Hsz) as Hroom.
  pose proof (len_nonneg content) as Hc0.
  unfold well_formed. rewrite Hmo.
  unfold replaced_items at 1 2 3 4 5 6 7 8 9 10 11.
  cbn [tf_before tf_m_before tf_u_before tf_version tf_me_before tf_items
       tf_tail tf_u_rest tf_m_rest tf_after].
  split; [exact Fb|]. split; [exact Fa|]. split; [exact Fm|].
  split; [exact Fu|]. split; [exact Fme|].
  split.
  { apply Forall_app. split.
    - destruct (8 <=? room t - (8 + len content)) eqn:E; [|apply Forall_nil].
      apply Forall_cons; [|apply Forall_nil].
      split; [vm_compute; intuition discriminate|].
      cbn [snd]. rewrite len_repeat by lia. lia.
    - unfold tail_kept. destruct (free_after t); [|exact Ft].
      destruct (tf_tail t) as [|b tail]; [exact Ft|].
      apply Forall_cons_iff in Ft as (_ & Ft). exact Ft. }
  split; [exact Hv|]. split; [exact Hsz|]. split; [exact Na|].
  split; [exact Nm|]. split; [exact Nu | exact Nme].
Qed.

(** What is written in place is read back.  On a tagged file opened
    for writing, whose ilst together with the free box after it has
    room for the new ilst and nothing or at least 8 bytes to spare,
    and when the operating system reports no failure,
    [mp4tag_write_tags] with text tags (names stored as text,
    non-empty values) returns [MP4TAG_OK] through the in-place
    strategy; the file keeps its length and is the tagged file with
    the new items in its ilst and a free box over what remains of the
    room; and [mp4tag_read_tags] on the context returns [MP4TAG_OK]
    with one ALBUM tag that holds the same tags, in the same order,
    under the names of their FourCCs and with the same values. *)
Theorem write_in_place_then_read (env : os_env) (t : tagged_file)
    (path : list byte) (nvs : list (list byte * list byte)) :
  well_formed t ->
  Forall (fun nv => stored_as_text (fst nv) /\ c_string (snd nv) /\
                    0 < len (snd nv) /\ 24 + len (snd nv) < 4294967296)
         nvs ->
  let coll := album_of (map (fun nv => text_tag (fst nv) (snd nv)) nvs) in
  let content := snd (mp4_tags_serialize_ilst coll []) in
  8 + len content <= room t ->
  room t - (8 + len content) = 0 \/ 8 <= room t - (8 + len content) ->
  exists info fh ctx1 ctx2 fh1,
    mp4_parse_structure (open_file (file_of t) true)
    = Some ((MP4TAG_OK, info), fh) /\
    mp4tag_write_tags env coll (mk_ctx (Some fh) (Some path) true info None)
    = Some (MP4TAG_OK, ctx1) /\
    ctx_fh ctx1 = Some fh1 /\
    fd_data fh1 = file_of (replaced_items t content) /\
    len (fd_data fh1) = len (file_of t) /\
    mp4tag_read_tags ctx1
    = Some ((MP4TAG_OK, Some (album_of (map read_back nvs))), ctx2).
Proof.
  intros Hwf Hall coll content Hfit Hrem.
  destruct (text_items Hall) as (Hbody & Hdec & Hfits).
  fold coll in Hbody. fold content in Hbody.
  set (items := map (fun nv => (mp4_tag_name_to_fourcc (Some (fst nv)),
                                MP4_DATA_UTF8, snd nv)) nvs) in *.
  pose proof (len_nonneg content) as Hc0.
  pose proof Hwf as (_ & _ & _ & _ & _ & _ & Hv & _).
  destruct (replaced_file t content Hv Hfit Hrem) as (Hfile & Hin & Hlen).
  pose proof (@replaced_well_formed t content Hwf Hfit Hrem) as Hwf'.
  set (t' := replaced_items t content) in *.
  (* the file as it is opened *)
  destruct (runs_eq (runs_parse_structure (open_file (file_of t) true)))
    as ([rc0 info0] & fh0 & _ & Hrun0 & (_ & Hwr & _) & _).
  destruct (@parse_structure_tagged t (open_file (file_of t) true) Hwf
              (coherent_open _ _) eq_refl eq_refl)
    as (info & fh & Hrun & (Hco & Hd & Hs) & _ & _ & _ & _ & _ & _ & _
        & _ & _ & _ & Hhi & Hio & His & Hfree & Hfr).
  rewrite Hrun in Hrun0. injection Hrun0 as E1 E2 E3. subst rc0 info0 fh0.
  cbn [writable fd_data file_size_field open_file file_open_common]
    in Hwr, Hd, Hs.
  assert (Havail : available info = room t).
  { unfold available, room. rewrite Hfree, His.
    destruct (free_after t) as [size|] eqn:E; [|lia].
    destruct (Hfr size eq_refl) as (_ & ->). reflexivity. }
  assert (Hpos : 0 <= ilst_offset info).
  { rewrite Hio.
    unfold ilst_position, meta_position, udta_position, moov_position.
    pose proof (len_boxes_nonneg (tf_before t)).
    pose proof (len_boxes_nonneg (tf_m_before t)).
    pose proof (len_boxes_nonneg (tf_u_before t)).
    pose proof (len_boxes_nonneg (tf_me_before t)). lia. }
  assert (Hroom : room t < 4294967296).
  { destruct Hwf as (_ & _ & _ & _ & _ & _ & _ & Hsz & _).
    exact (room_bound t Hsz). }
  (* the writes *)
  destruct Hco as (Hq & Hbuf).
  destruct (@inplace_writes_quiet info content fh Hwr Hq Hpos)
    as (fhw & Hwrite & Hqw & Hbw & Hdw & Hsw);
    [rewrite Havail; exact Hroom | rewrite Havail; exact Hrem |].
  rewrite Hd, Hio, Havail, Hfile in Hdw.
  rewrite Hs, Hio, Havail in Hsw.
  assert (Hsync : file_sync fhw = Some (0, fhw)).
  { unfold file_sync, sys_fsync, os_fault, bind, ret. rewrite Hqw.
    reflexivity. }
  (* the file is parsed again *)
  destruct (@parse_structure_tagged t' fhw Hwf')
    as (info' & fhp & Hrun' & (Hcop & Hdp & Hsp) & _ & _ & _ & _ & _ & _ & _
        & _ & _ & _ & Hhi' & Hio' & His' & _);
    [split; [exact Hqw | left; exact Hbw] | exact Hdw
    | unfold file_size; rewrite Hsw, Hlen; lia |].
  destruct Hwf' as (_ & _ & _ & _ & _ & _ & Hv' & _).
  destruct (ilst_in_file t' Hv') as (pre & rest & Hsplit & Lpre).
  change (tf_items t') with content in Hsplit, His'.
  destruct (@parse_ilst_at pre rest items info' fhp Hfits Hcop)
    as (fh3 & Hparse & _);
    [unfold file_size; rewrite Hsp, Hsw; lia
    | rewrite Hdp, Hdw, Hsplit, Hbody; reflexivity
    | exact Hhi' | rewrite Hio', Lpre; reflexivity
    | rewrite His', Hbody; reflexivity |].
  set (ctx0 := set_cached (mk_ctx (Some fh) (Some path) true info None) None).
  set (ctx1 := set_info (set_fh (set_fh (set_fh ctx0 (Some fhw)) (Some fhw))
                                (Some fhp)) info').
  exists info, fh, ctx1.
  exists (set_cached (set_fh ctx1 (Some fh3))
                     (Some (album_of (map read_back nvs)))).
  exists fhp.
  split; [exact Hrun|]. split; [|split; [reflexivity|]].
  - unfold mp4tag_write_tags.
    assert (Hs0 : mp4_tags_serialize_ilst coll [] = (MP4TAG_OK, content))
      by reflexivity.
    rewrite Hs0.
    unfold bind at 1, get. cbn [ctx_fh ctx_writable negb].
    unfold bind at 1. unfold invalidate_cache, bind, get, put.
    change (negb (MP4TAG_OK =? MP4TAG_OK)) with false. cbv beta iota.
    cbn [ctx_info]. rewrite Hhi. fold ctx0.
    assert (Htry : try_inplace content ctx0 = Some (MP4TAG_OK, ctx1)).
    { unfold try_inplace. unfold bind at 1, get.
      cbn [ctx_info ctx0 set_cached]. rewrite Hhi. cbn [negb].
      replace (u32 (8 + u32 (len content))) with (8 + len content).
      2:{ unfold u32. rewrite (Z.mod_small (len content)) by lia.
          rewrite Z.mod_small by lia. reflexivity. }
      rewrite Havail.
      replace (room t <? 8 + len content) with false by lia.
      unfold bind at 1. unfold on_fh at 1.
      change (ctx_fh ctx0) with (Some fh). cbv beta iota. rewrite Hwrite.
      change (negb (0 =? 0)) with false. cbv beta iota.
      unfold bind at 1. unfold on_fh at 1. cbn [ctx_fh set_fh].
      rewrite Hsync.
      unfold bind at 1. unfold reparse, bind, on_fh, get, put, ret.
      cbn [ctx_fh set_fh]. rewrite Hrun'. reflexivity. }
    rewrite Htry. reflexivity.
  - split; [rewrite Hdp; exact Hdw|].
    split; [rewrite Hdp, Hdw; exact Hlen|].
    unfold mp4tag_read_tags. unfold bind at 1, get.
    subst ctx1 ctx0. cbn [ctx_fh cached_tags ctx_info set_info set_fh
                          set_cached].
    rewrite Hhi'. cbn [negb].
    unfold bind at 1. unfold on_fh at 1.
    cbn [ctx_fh cached_tags ctx_info set_info set_fh set_cached].
    rewrite Hparse. rewrite Hdec. reflexivity.
Qed.

Lemma write_in_place_then_read_witness :
  exists info fh ctx1 ctx2 fh1,
    mp4_parse_structure (open_file (file_of sample_tagged) true)
    = Some ((MP4TAG_OK, info), fh) /\
    mp4tag_write_tags (mk_env false false [] false false [])
      (album_of [text_tag (cs "TITLE") (cs "New")])
      (mk_ctx (Some fh) (Some (cs "sample.m4a")) true info None)
    = Some (MP4TAG_OK, ctx1) /\
    ctx_fh ctx1 = Some fh1 /\
    len (fd_data fh1) = len (file_of sample_tagged) /\
    mp4tag_read_tags ctx1
    = Some ((MP4TAG_OK,
             Some (album_of (map read_back [(cs "TITLE", cs "New")]))),
            ctx2).
Proof.
  destruct (@write_in_place_then_read
              (mk_env false false [] false false []) sample_tagged
              (cs "sample.m4a") [(cs "TITLE", cs "New")])
    as (info & fh & ctx1 & ctx2 & fh1 & Hrun & Hwrite & Hfh & _ & Hlen
        & Hread).
  - unfold well_formed, without.
    repeat match goal with |- _ /\ _ => split end;
      try (repeat (apply Forall_cons; [vm_compute; intuition discriminate|]);
           apply Forall_nil);
      vm_compute; reflexivity.
  - repeat (apply Forall_cons;
            [split; [vm_compute; intuition discriminate|];
             split; [vm_compute; intuition discriminate|];
             split; vm_compute; reflexivity|]).
    apply Forall_nil.
  - vm_compute. discriminate.
  - right. vm_compute. discriminate.
  - exists info, fh, ctx1, ctx2, fh1.
    split; [exact Hrun|]. split; [exact Hwrite|]. split; [exact Hfh|].
    split; [exact Hlen | exact Hread].
Defined.
